(* ===== verification/_CoqProject ===== *)
-Q . S2P
Prelude.v
GoString.v
Filepath.v
Strconv.v
Ckpterr.v
OS.v
OSFacts.v
Crc32c.v
Sha256.v
Binary.v
Manifest.v
ManifestFacts.v
ShimFormat.v
Meta.v
Storage.v
StorageFacts.v
Staging.v
StagingFacts.v
Image.v
Sparse.v
Dedup.v
Delta.v
DeltaFacts.v
Pipeline.v
PipelineFacts.v
Verify.v
Text.v
Fmt.v
Retention.v
Restore.v
Metrics.v
Http.v
Config.v
Retry.v
Log.v
Rpc.v
RpcFacts.v
ShimStart.v
Bench.v
Control.v
Exec.v
Criu.v
Preserve.v
Checkpoint.v
ProcessFacts.v
CheckpointFacts.v
Restoring.v
GivingUp.v
RestoreFacts.v
WatchFacts.v
Promote.v
PromoteFacts.v
Drift.v
Report.v
Health.v
Agent.v
AgentFacts.v
Interleave.v
Command.v
CommandFacts.v
UnitTests.v
