(* ===== verification/Prelude.v ===== *)
(** * A verification library of cudackpt

    cudackpt checkpoints processes that use a GPU. A process runs with a shim
    (shim/, a preloaded library) that listens on a Unix socket, freezes the GPU
    work and writes the memory of the device to an image directory; CRIU dumps
    the rest of the process; the Go program processes, verifies, lists, promotes,
    compares and collects images, and restores processes from them. The library
    models the Go code and the protocol side of the shim, and proves what they
    do, system calls that fail included.

    ** The model

    - A computation [M A] (OS.v) takes a world to an outcome and a world: a value,
      a Go error, a run-time panic, or [Diverge] for a recursion or a loop that
      has used up the bound it was given. The world holds the files, their
      times, the environment, the clock, the counters of metrics.Default, the
      servers that listen on sockets, and a schedule of faults: each system call
      takes one entry of it and fails, after part of its work, where the entry
      says so. A theorem over every schedule is one over every way the machine
      may fail at any call.
    - Integers are [Z] with their width written out (u32, u64, s64 in Prelude.v
      and Strconv.v), bytes are [Byte.byte], Go strings [String.string], Go maps
      [gmap].
    - Code outside the repository that the program relies on is a class: the
      zstd codec ([Zstd] in Delta.v), time.ParseDuration (Config.v), JSON and
      time texts ([EventFormat] in Log.v), CRIU behind the interface of the
      source ([Backend] in Control.v), the CUDA calls of the shim ([Gpu] in
      Rpc.v), signals ([Processes] in Control.v), started programs
      ([Exec] in Exec.v), whether a TCP address can be listened on ([Net] in
      Http.v), the floating point of pkg/bench ([Floats] in Bench.v).
      strconv.Quote, runtime.GOOS, the size of a directory, the monotonic clock,
      the verb %g and the order in which a map is ranged over are parameters
      where the program looks at them. Every property that has one
      as a hypothesis has a witness with a concrete instance.

    ** Files

    Foundations:
    - Prelude.v: bytes, integers, lists; hint databases and tactics.
    - GoString.v, Filepath.v, Strconv.v, Text.v, Fmt.v: what the program uses of
      strings, path/filepath, strconv, bufio and fmt.
    - Ckpterr.v: internal/ckpterr.
    - OS.v, OSFacts.v: packages os and io on the world; which paths an operation
      may change ([frame], [framed]), inversion of successful calls.
    - Crc32c.v, Sha256.v, Binary.v: hash/crc32, crypto/sha256, encoding/binary.

    Images (pkg/image, pkg/storage):
    - Manifest.v, ManifestFacts.v: flags.go and format.go, manifests of both versions.
    - ShimFormat.v: what shim/snapshot.cu writes as a manifest.
    - Meta.v: meta.go. Image.v: images on disk as the proofs see them.
    - Storage.v, StorageFacts.v: cas.go and tier.go, the content store.
    - Staging.v: finalize.go, staging directories and their installation;
      StagingFacts.v: what a failed staged write leaves at the destination.
    - Sparse.v, Dedup.v: sparse.go, dedup.go.
    - Delta.v, DeltaFacts.v: delta.go, compress.go, materialization of images
      through their parents. Pipeline.v: pipeline.go; PipelineFacts.v: what the
      options of the processing do to each other.

    Control (pkg/control and what it calls):
    - Verify.v: verifyImage, validate.go, preflight.go, state.go.
    - Retention.v: retention.go, the collection of images.
    - Restore.v: restore.go, lists of shims and images.
    - Metrics.v: pkg/metrics. Http.v: what is used of net/http, servers as lists
      of events (a request, a step of another goroutine), and the metrics page.
    - Config.v: pkg/config. Log.v: pkg/log.
    - Retry.v: the retry loop of queue.go.
    - Rpc.v, RpcFacts.v: pkg/rpc/proto.go, mockserver.go and the request handler
      of shim/ipc.c. A connection is a record with the bytes in flight in both
      directions; a server takes its steps when the client waits for an answer.
      ShimStart.v: how a shim starts and ends, and whom it lets in (shim/ipc.c).
      Bench.v: pkg/bench, which goes on with a connection after an error.
    - Control.v: orchestrator.go, shimctl.go, restore_events.go, queue.go,
      rollback.go, watch.go.
    - Preserve.v: invariants kept by every operation ([keeps]); Checkpoint.v,
      CheckpointFacts.v, Restoring.v and GivingUp.v: what checkpoints and restores
      do ([counts], [errs], [triple], [returns]); RestoreFacts.v: what a restore
      that succeeds has done. ProcessFacts.v: processing keeps
      an image intact. WatchFacts.v: when watching a shim and stopping a process
      end.
    - Exec.v: programs that are started. Criu.v: third_party/criu, the backends
      of the orchestrator.
    - Promote.v: promote.go; PromoteFacts.v: that it copies. Drift.v: drift.go. Report.v: pkg/report and
      inspect.go. Health.v: pkg/health. Agent.v: pkg/agent; AgentFacts.v: what
      its server answers.
    - Interleave.v: a collection by the agent in the middle of a checkpoint.
    - Command.v, CommandFacts.v: cmd/cudackpt, the commands with their arguments,
      output and exit codes, and what they achieve.
    - UnitTests.v: the unit tests of the repository, run on the model.

    ** What the theorems show

    - Formats: manifests, metadata and the counters of a shim are read back as
      they were written; files that are too short or of another kind are
      refused; a corrupted chunk of a plain image is found.
    - Storage and image processing: an object that can be read has its digest,
      after any crash or fault during a put; sparse, dedup, compression and
      delta keep the device contents; materialization ends for acyclic parents
      and does not for cyclic ones. Compression has no effect on an image with a
      parent.
    - Staging: a failed checkpoint leaves the destination alone until the last
      step; a successful one installs exactly what was staged. The last step is
      not atomic: it may leave no image or a part of the old one, and never
      files of both images together.
    - Collection: exactly the images the plan names are removed, whatever fails.
      The plan names staging directories in use too: a checkpoint during which
      the agent collects may install an image without its manifest.
    - Protocol: the client and the server refine a specification of each
      request; a secret is required exactly when there is one; servers keep up;
      a benchmark of a shim counts every request but the first as failed. A
      shim lets in the commands that have its secret, if it has at most 255 bytes;
      before it has read the secret it lets in those that have none, and no other.
    - Orchestrator: the image a checkpoint installs is the one it has verified,
      whatever fails; what it may lack of what ValidateImage, or the check before
      a restore, looks for is said exactly. Checkpoints and restores have the
      effects they promise, are counted once, retry as often as they are told, and
      wait no longer than they are told. A restore through a shim never completes,
      since a shim takes one request per connection; one through another server
      may end in another process than CRIU's. A watch with a timeout ends, having
      printed the changes among the states the shim has answered; a process is
      killed exactly when it outlives SIGTERM by three seconds.
    - Agent: its server answers every request until it is told to end, and its
      metrics count collections only.
    - Promotion and comparison of images: a promotion that succeeds has copied
      the source, entry for entry, and validated the copy; one into a directory
      above the source destroys it. A comparison finds every difference of
      address, size or checksum.
    - Configuration: the environment, then the part of the file that was read,
      then the defaults.
    - Commands: a checkpoint command that exits with 0 has installed the image,
      intact where it has no parent;
      a collection removes, prints and counts what it should, by command or by
      the agent; ages in days and their overflow; the pid CRIU reports is the one
      its regular expression matches; the probe of the capabilities.

    ** Bounds

    - [EnsureDeviceMaterialized], [verifyImage] and what calls them take a bound
      on the depth of parents; [materialize_terminates] shows that the number of
      images above is enough, and [materialize_cycle] that no bound is enough
      for a cycle.
    - [restore_loop] takes a number of rounds; [restore_loop_gives_up] gives one
      that is enough, the time allowed over the least pause.
    - [wait_gone] of a rollback has 31 rounds of a tenth of a second for three
      seconds; [watch_loop] takes a number of rounds, and [watch_ends] shows that
      the timeout over the interval is enough.
    - [serve_loop] runs a server for as many steps as there are bytes to take;
      [serve_keeps_up] shows that this is enough.
    - Directory walks and copies take a bound on the depth of directories; the
      theorems hold for every bound, and say that the run has returned.

    ** Not modelled

    - Permissions, links and sync calls; times of modification do not change;
      the standard error stream (the log goes there when CUDACKPT_LOG is not set).
    - Goroutines: the mutex of the metrics registry makes its operations atomic,
      a server of a socket runs while its client waits, and a server of HTTP
      takes one event at a time. Two programs that work on the same files at
      once are not modelled, other than through the schedule of faults and at
      the points Interleave.v looks at.
    - Of net/http: percent-encoding, the body of a redirect, HTTP itself; a
      handler runs in one piece. [Client.Close] has no effect, since a
      connection is not shared with anything that outlives it.
    - The threads of a shim: the window between its first connections and the
      reading of its secret is one point of ShimStart.v.
    - The GPU and the C++ and CUDA code of the shim other than its socket, its
      request handler and the format of its manifest: device memory, streams and the
      interception of CUDA calls are outside of what a model of the Go code can
      be checked against. *)
From stdpp Require Export base tactics option list list_numbers numbers strings gmap fin_maps sorting.
From Stdlib Require Export ZArith Lia.
From Stdlib Require Strings.Byte.

(** ** Bytes

    Go's [byte] is [Byte.byte]; a [[]byte] is a list of them; a Go [string] is
    [String.string], the bytes of which are [bytes_of_string]. *)

Abbreviation byte := Byte.byte.
Abbreviation bytes := (list Byte.byte).

Create HintDb cudackpt.
Create HintDb cudackpt_len.

#[global] Instance byte_eq_dec : EqDecision byte := Byte.byte_eq_dec.

Definition Z_of_byte (b : byte) : Z := Z.of_N (Byte.to_N b).

Definition byte_of_Z (z : Z) : byte :=
  default Byte.x00 (Byte.of_N (Z.to_N (z `mod` 256))).

Lemma Z_of_byte_range b : (0 <= Z_of_byte b < 256)%Z.
Proof.
  unfold Z_of_byte. pose proof (Byte.to_N_bounded b). lia.
Qed.

Lemma byte_of_Z_of_byte b : byte_of_Z (Z_of_byte b) = b.
Proof. by destruct b; vm_compute. Qed.

Lemma Z_of_byte_of_Z z : Z_of_byte (byte_of_Z z) = (z `mod` 256)%Z.
Proof.
  unfold Z_of_byte, byte_of_Z.
  pose proof (Z.mod_pos_bound z 256 ltac:(lia)) as Hb.
  destruct (Byte.of_N (Z.to_N (z `mod` 256))) as [b|] eqn:E; simpl.
  - apply Byte.to_of_N in E. rewrite E. lia.
  - exfalso. pose proof (Byte.of_N_None_iff (Z.to_N (z `mod` 256))) as [H _].
    specialize (H E). lia.
Qed.

Lemma byte_of_Z_mod z : byte_of_Z (z `mod` 256) = byte_of_Z z.
Proof. unfold byte_of_Z. by rewrite Z.mod_mod by lia. Qed.

Lemma Z_of_byte_inj a b : Z_of_byte a = Z_of_byte b -> a = b.
Proof. intros H. by rewrite <- (byte_of_Z_of_byte a), H, byte_of_Z_of_byte. Qed.

(** Bytes and strings. *)

Definition bytes_of_string (s : string) : bytes := String.list_byte_of_string s.
Definition string_of_bytes (b : bytes) : string := String.string_of_list_byte b.

Arguments bytes_of_string : simpl never.
Arguments string_of_bytes : simpl never.

Lemma string_of_bytes_of_string s : string_of_bytes (bytes_of_string s) = s.
Proof. apply String.string_of_list_byte_of_string. Qed.

Lemma bytes_of_string_of_bytes b : bytes_of_string (string_of_bytes b) = b.
Proof. apply String.list_byte_of_string_of_list_byte. Qed.

Lemma bytes_of_string_inj s t : bytes_of_string s = bytes_of_string t -> s = t.
Proof.
  intros H. by rewrite <- (string_of_bytes_of_string s), H, string_of_bytes_of_string.
Qed.

Lemma length_bytes_empty : length (bytes_of_string "") = 0%nat.
Proof. done. Qed.

(** ** Machine words: fixed-width unsigned integers are [Z] taken modulo [2^w]. *)

Definition u16 (z : Z) : Z := (z `mod` 2 ^ 16)%Z.
Definition u32 (z : Z) : Z := (z `mod` 2 ^ 32)%Z.
Definition u64 (z : Z) : Z := (z `mod` 2 ^ 64)%Z.

(** Go's conversion [int64(x)] of a [uint64]. *)
Definition int64_of_u64 (z : Z) : Z :=
  if decide (u64 z < 2 ^ 63)%Z then u64 z else (u64 z - 2 ^ 64)%Z.

Definition is_u16 (z : Z) : Prop := (0 <= z < 2 ^ 16)%Z.
Definition is_u32 (z : Z) : Prop := (0 <= z < 2 ^ 32)%Z.
Definition is_u64 (z : Z) : Prop := (0 <= z < 2 ^ 64)%Z.

#[global] Instance is_u16_dec z : Decision (is_u16 z).
Proof. unfold is_u16; solve_decision. Defined.
#[global] Instance is_u32_dec z : Decision (is_u32 z).
Proof. unfold is_u32; solve_decision. Defined.
#[global] Instance is_u64_dec z : Decision (is_u64 z).
Proof. unfold is_u64; solve_decision. Defined.

Lemma u64_small z : is_u64 z -> u64 z = z.
Proof. apply Z.mod_small. Qed.
Lemma u32_small z : is_u32 z -> u32 z = z.
Proof. apply Z.mod_small. Qed.
Lemma u16_small z : is_u16 z -> u16 z = z.
Proof. apply Z.mod_small. Qed.

(** ** Fixed-width little- and big-endian encodings (package [encoding/binary]). *)

Fixpoint le_enc (n : nat) (z : Z) : bytes :=
  match n with
  | O => []
  | S n => byte_of_Z z :: le_enc n (z / 256)
  end.

Fixpoint le_dec (l : bytes) : Z :=
  match l with
  | [] => 0
  | b :: l => Z_of_byte b + 256 * le_dec l
  end.

Definition be_enc (n : nat) (z : Z) : bytes := reverse (le_enc n z).
Definition be_dec (l : bytes) : Z := le_dec (reverse l).

Lemma length_le_enc n z : length (le_enc n z) = n.
Proof. revert z; induction n; intros z; simpl; auto. Qed.

Lemma length_be_enc n z : length (be_enc n z) = n.
Proof. unfold be_enc. by rewrite length_reverse, length_le_enc. Qed.

Lemma le_dec_enc n z : le_dec (le_enc n z) = (z `mod` 256 ^ Z.of_nat n)%Z.
Proof.
  revert z; induction n as [|n IH]; intros z; cbn [le_enc le_dec].
  - by rewrite Z.pow_0_r, Z.mod_1_r.
  - rewrite IH, Z_of_byte_of_Z, Nat2Z.inj_succ, Z.pow_succ_r by lia.
    rewrite Z.rem_mul_r; lia.
Qed.

Lemma le_dec_enc_small n z : (0 <= z < 256 ^ Z.of_nat n)%Z -> le_dec (le_enc n z) = z.
Proof. intros H. rewrite le_dec_enc. by apply Z.mod_small. Qed.

Lemma be_dec_enc_small n z : (0 <= z < 256 ^ Z.of_nat n)%Z -> be_dec (be_enc n z) = z.
Proof. intros H. unfold be_dec, be_enc. rewrite reverse_involutive. by apply le_dec_enc_small. Qed.

Lemma le_dec_range l : (0 <= le_dec l < 256 ^ Z.of_nat (length l))%Z.
Proof.
  induction l as [|b l IH]; cbn [le_dec length].
  - rewrite Z.pow_0_r. lia.
  - rewrite Nat2Z.inj_succ, Z.pow_succ_r by lia. pose proof (Z_of_byte_range b). lia.
Qed.

Lemma le_dec_nonneg l : (0 <= le_dec l)%Z.
Proof. apply le_dec_range. Qed.

Lemma le_enc_dec l : le_enc (length l) (le_dec l) = l.
Proof.
  induction l as [|b l IH]; cbn [le_dec length le_enc]; [done|].
  pose proof (Z_of_byte_range b).
  replace ((Z_of_byte b + 256 * le_dec l) / 256)%Z with (le_dec l)
    by (rewrite Z.mul_comm, Z.div_add, Z.div_small by lia; lia).
  f_equal; [|done].
  rewrite <- byte_of_Z_mod.
  replace ((Z_of_byte b + 256 * le_dec l) `mod` 256)%Z with (Z_of_byte b)
    by (rewrite Z.mul_comm, Z.mod_add, Z.mod_small by lia; lia).
  apply byte_of_Z_of_byte.
Qed.

Lemma le_enc_u64 z : le_enc 8 (u64 z) = le_enc 8 z.
Proof.
  rewrite <- (le_enc_dec (le_enc 8 z)), length_le_enc, le_dec_enc. done.
Qed.

#[export] Hint Rewrite length_le_enc length_be_enc : cudackpt_len.

(** ** Lists *)

Lemma take_app_exact {A} (l k : list A) n : length l = n -> take n (l ++ k) = l.
Proof. intros <-. by rewrite take_app_length. Qed.

Lemma drop_app_exact {A} (l k : list A) n : length l = n -> drop n (l ++ k) = k.
Proof. intros <-. by rewrite drop_app_length. Qed.

(** [slice lo hi l] is the sub-list of positions [lo] (included) to [hi] (excluded). *)
Definition slice {A} (lo hi : nat) (l : list A) : list A := take (hi - lo) (drop lo l).

Lemma length_slice {A} lo hi (l : list A) :
  (hi <= length l)%nat -> length (slice lo hi l) = (hi - lo)%nat.
Proof. intros H. unfold slice. rewrite length_take, length_drop. lia. Qed.

Lemma slice_app_mid {A} (a b c : list A) lo hi :
  length a = lo -> hi = (lo + length b)%nat -> slice lo hi (a ++ b ++ c) = b.
Proof.
  intros Ha ->. unfold slice. rewrite (drop_app_exact a) by done.
  apply take_app_exact. lia.
Qed.

(** Case analysis on the outermost [match] of the goal, keeping the equation. *)
Ltac case_head :=
  match goal with |- context [match ?x with _ => _ end] => destruct x eqn:? end.

Arguments le_enc : simpl never.
