(* ===== verification/GoString.v ===== *)
(** Go's string operations, as far as the code uses them: packages [strings],
    [strconv] and [encoding/hex] on [String.string]. *)
From Stdlib Require Export Ascii.
From S2P Require Export Prelude.

(** ** Characters *)

Definition chr (n : N) : ascii := ascii_of_N n.

Definition slash : ascii := "/"%char.
Definition newline : ascii := "010"%char.


Lemma app_cons_str x a b : String x a +:+ b = String x (a +:+ b).
Proof. done. Qed.

Lemma app_empty_str b : "" +:+ b = b.
Proof. done. Qed.

Lemma app_nil_str a : a +:+ "" = a.
Proof. induction a as [|x a IH]; [done|]. by rewrite app_cons_str, IH. Qed.

Lemma app_assoc_str a b c : (a +:+ b) +:+ c = a +:+ (b +:+ c).
Proof. induction a as [|x a IH]; [done|]. by rewrite !app_cons_str, IH. Qed.

Lemma bytes_of_string_app a b : bytes_of_string (a +:+ b) = bytes_of_string a ++ bytes_of_string b.
Proof.
  induction a as [|c a IH]; [done|]. rewrite app_cons_str.
  change (bytes_of_string (String c ?t)) with (byte_of_ascii c :: bytes_of_string t). by rewrite IH.
Qed.

Lemma length_app_str a b : String.length (a +:+ b) = (String.length a + String.length b)%nat.
Proof. induction a as [|x a IH]; [done|]. rewrite app_cons_str. cbn. by rewrite IH. Qed.

(** [contains_char c s]: strings.IndexByte(s, c) >= 0. *)
Fixpoint contains_char (c : ascii) (s : string) : bool :=
  match s with
  | EmptyString => false
  | String d s => bool_decide (c = d) || contains_char c s
  end.

(** strings.HasPrefix. *)
Definition HasPrefix (s prefix : string) : bool := String.prefix prefix s.

(** strings.HasSuffix. *)
Fixpoint HasSuffix (s suffix : string) : bool :=
  bool_decide (s = suffix) ||
  match s with EmptyString => false | String _ s => HasSuffix s suffix end.

Lemma HasSuffix_app s suffix : HasSuffix s suffix = true -> exists a, s = a +:+ suffix.
Proof.
  induction s as [|c s IH]; cbn [HasSuffix].
  - intros H. rewrite orb_false_r in H. apply bool_decide_eq_true in H as ->. by exists "".
  - intros [H|H]%orb_true_iff.
    + apply bool_decide_eq_true in H as <-. by exists "".
    + destruct (IH H) as [a ->]. by exists (String c a).
Qed.

(** strings.Split(s, sep) for a one-character separator. *)
Fixpoint split_char (sep : ascii) (s : string) : list string :=
  match s with
  | EmptyString => [""]
  | String d s =>
      if decide (d = sep) then "" :: split_char sep s
      else match split_char sep s with
           | h :: t => String d h :: t
           | [] => [String d ""]
           end
  end.

(** strings.Join. *)
Fixpoint join_with (sep : string) (l : list string) : string :=
  match l with
  | [] => ""
  | [x] => x
  | x :: l => x +:+ sep +:+ join_with sep l
  end.

Lemma split_char_nonnil sep s : split_char sep s <> [].
Proof.
  induction s as [|d s IH]; [done|]. cbn. case_decide; [done|].
  by destruct (split_char sep s).
Qed.

Lemma split_char_app sep a b :
  split_char sep (a +:+ String sep b) = split_char sep a ++ split_char sep b.
Proof.
  induction a as [|d a IH].
  - rewrite app_empty_str. cbn. by rewrite decide_True.
  - rewrite app_cons_str. cbn [split_char]. rewrite IH. case_decide; [done|].
    pose proof (split_char_nonnil sep a). by destruct (split_char sep a).
Qed.

Lemma split_char_plain sep a : contains_char sep a = false -> split_char sep a = [a].
Proof.
  induction a as [|d a IH]; [done|]. cbn. intros H.
  apply orb_false_elim in H as [H1 H2]. rewrite IH by done.
  apply bool_decide_eq_false in H1. case_decide; [congruence|done].
Qed.

(** Appending characters without a separator changes the last component only. *)
Lemma split_char_app_plain sep a b :
  contains_char sep b = false ->
  exists l x, split_char sep a = l ++ [x] /\ split_char sep (a +:+ b) = l ++ [x +:+ b].
Proof.
  intros Hb. induction a as [|d a IH].
  - exists [], "". rewrite !app_empty_str. split; [done|]. by apply split_char_plain.
  - rewrite app_cons_str. cbn [split_char]. destruct IH as (l & x & -> & ->).
    case_decide.
    + exists ("" :: l), x. by split.
    + destruct l as [|h l]; cbn.
      * exists [], (String d x). by rewrite app_cons_str.
      * exists (String d h :: l), x. by split.
Qed.

Lemma join_split_plain sep l :
  l <> [] -> Forall (fun x => contains_char sep x = false) l ->
  split_char sep (join_with (String sep "") l) = l.
Proof.
  intros Hne HF. induction HF as [|x l Hx HF IH]; [done|].
  destruct l as [|y l].
  - cbn. by apply split_char_plain.
  - change (join_with (String sep "") (x :: y :: l))
      with (x +:+ String sep (join_with (String sep "") (y :: l))).
    rewrite split_char_app, IH by done. by rewrite split_char_plain.
Qed.
