(* ===== verification/Filepath.v ===== *)
(** Package [path/filepath] (Unix) and the resolution of a path string to the
    sequence of directory entries it names.

    The code builds path strings with [filepath.Join] and [Clean] and hands
    them to the operating system; the model keeps the strings and gives the
    file system the resolved path, so that a trailing slash, a dot-dot or an
    unclean argument has the effect it has in the program. *)
From S2P Require Export GoString.

(** A resolved absolute path: the names from the root downwards. *)
Abbreviation path := (list string).

Definition is_rooted (s : string) : bool :=
  match s with String c _ => bool_decide (c = slash) | EmptyString => false end.

(** A name that denotes a directory entry (neither empty, dot nor dot-dot). *)
Definition proper (c : string) : bool :=
  bool_decide (c <> "") && bool_decide (c <> ".") && bool_decide (c <> "..") &&
  negb (contains_char slash c).

Definition resolve_step (acc : path) (c : string) : path :=
  if bool_decide (c = "") || bool_decide (c = ".") then acc
  else if bool_decide (c = "..") then removelast acc
  else acc ++ [c].

(** The entry the kernel reaches from the working directory [cwd]. *)
Definition resolve (cwd : path) (s : string) : path :=
  foldl resolve_step (if is_rooted s then [] else cwd) (split_char slash s).

Definition clean_step (rooted : bool) (acc : list string) (c : string) : list string :=
  if bool_decide (c = "") || bool_decide (c = ".") then acc
  else if bool_decide (c = "..") then
    match last acc with
    | Some x => if bool_decide (x = "..") then acc ++ [".."] else removelast acc
    | None => if rooted then acc else [".."]
    end
  else acc ++ [c].

(** filepath.Clean. *)
Definition Clean (s : string) : string :=
  let rooted := is_rooted s in
  let cs := foldl (clean_step rooted) [] (split_char slash s) in
  if rooted then "/" +:+ join_with "/" cs
  else if bool_decide (cs = []) then "." else join_with "/" cs.

(** filepath.Join: empty leading elements are skipped. *)
Fixpoint PathJoin (l : list string) : string :=
  match l with
  | [] => ""
  | e :: l' => if bool_decide (e = "") then PathJoin l' else Clean (join_with "/" (e :: l'))
  end.

(** filepath.Dir: all but the last element, cleaned. *)
Definition PathDir (s : string) : string :=
  let parts := split_char slash s in
  Clean (match removelast parts with
         | [] => ""
         | init => join_with "/" init +:+ "/"
         end).

Example Clean_ex1 : Clean "/a/./b//../c/" = "/a/c". Proof. reflexivity. Qed.
Example Clean_ex2 : Clean "../../a/.." = "../..". Proof. reflexivity. Qed.
Example Clean_ex3 : Clean "" = ".". Proof. reflexivity. Qed.
Example Clean_ex4 : Clean "/.." = "/". Proof. reflexivity. Qed.
Example Join_ex1 : PathJoin ["/img/"; "device.bin"] = "/img/device.bin". Proof. reflexivity. Qed.
Example Dir_ex1 : PathDir "/a/b" = "/a". Proof. reflexivity. Qed.
Example Dir_ex2 : PathDir "b" = ".". Proof. reflexivity. Qed.

(** ** Resolution of cleaned and joined paths *)

Lemma proper_spec c :
  proper c = true <->
  c <> "" /\ c <> "." /\ c <> ".." /\ contains_char slash c = false.
Proof.
  unfold proper. rewrite !andb_true_iff, !bool_decide_eq_true, negb_true_iff. tauto.
Qed.

Lemma resolve_step_proper acc c : proper c = true -> resolve_step acc c = acc ++ [c].
Proof.
  intros (H1 & H2 & H3 & _)%proper_spec. unfold resolve_step.
  by rewrite !bool_decide_eq_false_2.
Qed.

Lemma split_no_slash s : Forall (fun c => contains_char slash c = false) (split_char slash s).
Proof.
  induction s as [|d s IH]; cbn; [by repeat constructor|].
  case_decide; [by constructor|].
  destruct (split_char slash s) as [|h t]; inversion_clear IH; constructor; auto.
  - cbn. rewrite bool_decide_eq_false_2; auto.
  - cbn. rewrite bool_decide_eq_false_2; auto.
Qed.

Lemma is_rooted_app a b : a <> "" -> is_rooted (a +:+ b) = is_rooted a.
Proof. by destruct a. Qed.

Lemma resolve_rooted_cons cwd s : resolve cwd (String slash s) = resolve [] s.
Proof.
  unfold resolve. cbn. rewrite decide_True by done. cbn.
  by destruct (is_rooted s).
Qed.

Lemma foldl_snoc {A B} (f : A -> B -> A) a l x : foldl f a (l ++ [x]) = f (foldl f a l) x.
Proof. by rewrite foldl_app. Qed.

Lemma resolve_step_skip acc c : c = "" \/ c = "." -> resolve_step acc c = acc.
Proof. by intros [-> | ->]. Qed.

Lemma clean_step_skip rooted acc c : c = "" \/ c = "." -> clean_step rooted acc c = acc.
Proof. by intros [-> | ->]. Qed.

(** What [Clean] maintains over the components read so far. *)
Record clean_inv (rooted : bool) (base : path) (acc done_ : list string) : Prop := {
  ci_res : foldl resolve_step base acc = foldl resolve_step base done_;
  ci_names : Forall (fun c => proper c = true \/ c = "..") acc;
  ci_root : rooted = true -> Forall (fun c => proper c = true) acc;
}.

Lemma clean_step_inv rooted base acc done_ c :
  (rooted = true -> base = []) ->
  contains_char slash c = false ->
  clean_inv rooted base acc done_ ->
  clean_inv rooted base (clean_step rooted acc c) (done_ ++ [c]).
Proof.
  intros Hb Hc [Hres Hn Hr].
  destruct (decide (c = "" \/ c = ".")) as [Hskip|Hskip].
  { rewrite clean_step_skip by done. split; auto.
    by rewrite foldl_snoc, (resolve_step_skip _ c), Hres. }
  assert (N1 : c <> "") by tauto. assert (N2 : c <> ".") by tauto. unfold clean_step.
  rewrite (bool_decide_eq_false_2 (c = "")), (bool_decide_eq_false_2 (c = ".")) by done.
  cbn [orb].
  destruct (decide (c = "..")) as [->|N3]; [rewrite bool_decide_eq_true_2 by done|].
  - destruct acc as [|x acc _] using rev_ind; cbn [last].
    + destruct rooted.
      * rewrite Hb in * by done. split; [|constructor|constructor].
        rewrite foldl_snoc, <- Hres. done.
      * split; [|by repeat constructor; right|done].
        rewrite foldl_snoc, <- Hres. done.
    + rewrite last_snoc. apply Forall_app in Hn as [Hn [Hx _]%Forall_cons].
      destruct (decide (x = "..")) as [->|Hne].
      * rewrite bool_decide_eq_true_2 by done. split.
        -- by rewrite !foldl_snoc, <- Hres, !foldl_snoc.
        -- rewrite !Forall_app. repeat split; auto.
        -- intros Hrt. specialize (Hr Hrt). apply Forall_app in Hr as [_ [Hr _]%Forall_cons].
           done.
      * rewrite bool_decide_eq_false_2 by done. rewrite removelast_last.
        destruct Hx as [Hx|]; [|done]. split; [|done|].
        -- rewrite foldl_snoc, <- Hres, foldl_snoc, (resolve_step_proper _ x) by done.
           unfold resolve_step. cbn. by rewrite removelast_last.
        -- intros Hrt. specialize (Hr Hrt). by apply Forall_app in Hr as [Hr _].
  - rewrite bool_decide_eq_false_2 by done.
    assert (proper c = true) by (by apply proper_spec).
    split.
    + by rewrite !foldl_snoc, Hres.
    + apply Forall_app; split; [done|]. repeat constructor. done.
    + intros Hrt. apply Forall_app; split; [auto|]. by repeat constructor.
Qed.

Lemma clean_fold_inv rooted base todo acc done_ :
  (rooted = true -> base = []) ->
  Forall (fun c => contains_char slash c = false) todo ->
  clean_inv rooted base acc done_ ->
  clean_inv rooted base (foldl (clean_step rooted) acc todo) (done_ ++ todo).
Proof.
  intros Hb HF. revert acc done_. induction HF as [|c todo Hc HF IH]; intros acc done_ H.
  - by rewrite app_nil_r.
  - cbn [foldl]. replace (done_ ++ c :: todo) with ((done_ ++ [c]) ++ todo)
      by (by rewrite <- app_assoc).
    apply IH. by apply clean_step_inv.
Qed.

Lemma clean_comps_inv cwd s :
  clean_inv (is_rooted s) (if is_rooted s then [] else cwd)
    (foldl (clean_step (is_rooted s)) [] (split_char slash s)) (split_char slash s).
Proof.
  apply (clean_fold_inv _ _ _ [] []).
  - by intros ->.
  - apply split_no_slash.
  - split; [done|constructor|constructor].
Qed.

Lemma proper_or_dotdot_no_slash l :
  Forall (fun c => proper c = true \/ c = "..") l ->
  Forall (fun c => contains_char slash c = false) l.
Proof.
  intros HF. eapply Forall_impl; [exact HF|]. intros c [(_ & _ & _ & ?)%proper_spec| ->]; done.
Qed.

Lemma join_rooted l :
  Forall (fun c => proper c = true \/ c = "..") l -> is_rooted (join_with "/" l) = false.
Proof.
  destruct l as [|c l]; [done|]. intros [Hc _]%Forall_cons.
  assert (is_rooted c = false /\ c <> "") as [H1 H2].
  { destruct Hc as [(H1 & _ & _ & H2)%proper_spec| ->]; [|done]. split; [|done].
    destruct c as [|d c]; [done|]. cbn in *. apply orb_false_elim in H2 as [H2 _].
    apply bool_decide_eq_false in H2. apply bool_decide_eq_false_2. congruence. }
  destruct l as [|d l]; [done|]. cbn [join_with]. by rewrite is_rooted_app.
Qed.

Lemma resolve_Clean cwd s : resolve cwd (Clean s) = resolve cwd s.
Proof.
  unfold Clean. pose proof (clean_comps_inv cwd s) as [Hres Hn _].
  set (cs := foldl (clean_step _) _ _) in *. unfold resolve at 2. rewrite <- Hres.
  assert (Hsp : cs <> [] -> split_char slash (join_with "/" cs) = cs).
  { intros ?. apply (join_split_plain slash); [done|]. by apply proper_or_dotdot_no_slash. }
  destruct (is_rooted s).
  - change ("/" +:+ join_with "/" cs) with (String slash (join_with "/" cs)).
    rewrite resolve_rooted_cons. unfold resolve. rewrite join_rooted by done.
    destruct (decide (cs = [])) as [->|Hne]; [done|]. by rewrite Hsp.
  - case_bool_decide as Hnil; [by rewrite Hnil|].
    unfold resolve. by rewrite join_rooted, Hsp by done.
Qed.

Lemma resolve_app_slash cwd d s :
  d <> "" -> resolve cwd (d +:+ String slash s) =
  foldl resolve_step (resolve cwd d) (split_char slash s).
Proof.
  intros Hd. unfold resolve. by rewrite is_rooted_app, split_char_app, foldl_app.
Qed.

Lemma Clean_nonempty s : Clean s <> "".
Proof.
  unfold Clean. destruct (is_rooted s) eqn:E; [done|].
  pose proof (clean_comps_inv [] s) as [_ Hn _]. rewrite E in Hn.
  set (cs := foldl (clean_step _) _ _) in *. case_bool_decide as Hnil; [done|].
  destruct cs as [|c cs]; [done|]. apply Forall_cons in Hn as [Hc _].
  assert (c <> "") as Hne by (destruct Hc as [(? & _)%proper_spec| ->]; done).
  destruct cs as [|c' cs]; cbn [join_with]; [done|]. by destruct c.
Qed.

Lemma Join_nonempty d n : d <> "" -> PathJoin [d; n] <> "".
Proof.
  intros Hd. unfold PathJoin. rewrite (bool_decide_eq_false_2 (d = "")) by done.
  apply Clean_nonempty.
Qed.

Lemma resolve_Join cwd d n :
  d <> "" -> proper n = true -> resolve cwd (PathJoin [d; n]) = resolve cwd d ++ [n].
Proof.
  intros Hd Hn. unfold PathJoin. rewrite (bool_decide_eq_false_2 (d = "")) by done.
  rewrite resolve_Clean. cbn [join_with].
  change (d +:+ "/" +:+ n) with (d +:+ String slash n).
  rewrite resolve_app_slash by done.
  apply proper_spec in Hn as Hn'. destruct Hn' as (_ & _ & _ & Hs).
  rewrite split_char_plain by done. cbn. by apply resolve_step_proper.
Qed.

Lemma resolve_Join3 cwd d a b :
  d <> "" -> proper a = true -> proper b = true ->
  resolve cwd (PathJoin [d; a; b]) = resolve cwd d ++ [a; b].
Proof.
  intros Hd Ha Hb. unfold PathJoin. rewrite (bool_decide_eq_false_2 (d = "")) by done.
  rewrite resolve_Clean. cbn [join_with].
  change (d +:+ "/" +:+ a +:+ "/" +:+ b) with (d +:+ String slash (a +:+ String slash b)).
  rewrite resolve_app_slash by done.
  pose proof (proj1 (proper_spec _) Ha) as (_ & _ & _ & Hsa).
  pose proof (proj1 (proper_spec _) Hb) as (_ & _ & _ & Hsb).
  rewrite split_char_app, !split_char_plain by done. cbn.
  rewrite !resolve_step_proper by done. by rewrite <- app_assoc.
Qed.

(** Appending a plain suffix to a path changes its last component only. *)
Lemma resolve_app_suffix cwd d suf :
  contains_char slash suf = false -> d <> "" ->
  exists base x, resolve cwd d = resolve_step base x /\
    resolve cwd (d +:+ suf) = resolve_step base (x +:+ suf) /\
    exists l, split_char slash d = l ++ [x].
Proof.
  intros Hs Hd. destruct (split_char_app_plain slash d suf Hs) as (l & x & H1 & H2).
  exists (foldl resolve_step (if is_rooted d then [] else cwd) l), x.
  unfold resolve. rewrite is_rooted_app by done. rewrite H1, H2, !foldl_snoc. eauto.
Qed.

(** ** The last component of a cleaned path, and filepath.Dir *)

Lemma clean_step_proper rooted acc c :
  proper c = true -> clean_step rooted acc c = acc ++ [c].
Proof.
  intros (H1 & H2 & H3 & _)%proper_spec. unfold clean_step.
  by rewrite !bool_decide_eq_false_2.
Qed.

Lemma split_slash_cons s : split_char slash (String slash s) = "" :: split_char slash s.
Proof. cbn. by rewrite decide_True. Qed.

(** Cleaning keeps a proper last component. *)
Lemma Clean_last s l b :
  split_char slash s = l ++ [b] -> proper b = true ->
  exists l', split_char slash (Clean s) = l' ++ [b].
Proof.
  intros Hs Hb. unfold Clean. pose proof (clean_comps_inv [] s) as [_ Hn _].
  rewrite Hs, foldl_snoc in *. rewrite clean_step_proper in * by done.
  set (acc := foldl (clean_step _) _ _) in *.
  assert (Hsp : split_char slash (join_with "/" (acc ++ [b])) = acc ++ [b]).
  { apply (join_split_plain slash); [by destruct acc|]. by apply proper_or_dotdot_no_slash. }
  destruct (is_rooted s).
  - change ("/" +:+ join_with "/" (acc ++ [b])) with (String slash (join_with "/" (acc ++ [b]))).
    rewrite split_slash_cons, Hsp. by exists ("" :: acc).
  - rewrite bool_decide_eq_false_2 by (by destruct acc). rewrite Hsp. by exists acc.
Qed.

Lemma is_rooted_split s :
  is_rooted s = match split_char slash s with "" :: _ :: _ => true | _ => false end.
Proof.
  destruct s as [|c s]; [done|]. cbn. case_decide as Hc.
  - rewrite bool_decide_eq_true_2 by done. pose proof (split_char_nonnil slash s).
    by destruct (split_char slash s).
  - rewrite bool_decide_eq_false_2 by done. by destruct (split_char slash s).
Qed.

Lemma join_with_slash_split (l : list string) :
  l <> [] -> Forall (fun c => contains_char slash c = false) l ->
  split_char slash (join_with "/" l +:+ "/") = l ++ [""].
Proof.
  intros Hne HF. change (join_with "/" l +:+ "/") with (join_with "/" l +:+ String slash "").
  rewrite split_char_app. by rewrite (join_split_plain slash).
Qed.

(** [filepath.Dir] names the parent of a path with a proper last component. *)
Lemma resolve_PathDir cwd s l b :
  split_char slash s = l ++ [b] -> proper b = true ->
  resolve cwd s = resolve cwd (PathDir s) ++ [b].
Proof.
  intros Hs Hb. pose proof (split_no_slash s) as Hns. unfold PathDir. rewrite Hs, removelast_last.
  rewrite resolve_Clean. rewrite Hs in Hns. apply Forall_app in Hns as [Hns _].
  unfold resolve at 1. rewrite Hs, foldl_snoc, resolve_step_proper by done. f_equal.
  rewrite is_rooted_split, Hs.
  destruct l as [|c l]; [by destruct b|].
  unfold resolve. rewrite is_rooted_split, join_with_slash_split by done.
  rewrite foldl_snoc, (resolve_step_skip _ "") by auto.
  destruct c as [|x c]; cbn [app]; [by destruct l|done].
Qed.

(** The components of [PathJoin [d; a; b]]: its last is [b]. *)
Lemma PathJoin3_last d a b :
  d <> "" -> proper a = true -> proper b = true ->
  exists l, split_char slash (PathJoin [d; a; b]) = l ++ [b].
Proof.
  intros Hd Ha Hb. unfold PathJoin. rewrite (bool_decide_eq_false_2 (d = "")) by done.
  cbn [join_with].
  change (d +:+ "/" +:+ a +:+ "/" +:+ b) with (d +:+ String slash (a +:+ String slash b)).
  pose proof (proj1 (proper_spec _) Ha) as (_ & _ & _ & Hsa).
  pose proof (proj1 (proper_spec _) Hb) as (_ & _ & _ & Hsb).
  eapply Clean_last; [|done].
  rewrite !split_char_app, (split_char_plain slash a), (split_char_plain slash b) by done.
  by rewrite app_assoc.
Qed.

Lemma PathJoin2_last d n :
  d <> "" -> proper n = true -> exists l, split_char slash (PathJoin [d; n]) = l ++ [n].
Proof.
  intros Hd Hn. unfold PathJoin. rewrite (bool_decide_eq_false_2 (d = "")) by done.
  cbn [join_with]. change (d +:+ "/" +:+ n) with (d +:+ String slash n).
  pose proof (proj1 (proper_spec _) Hn) as (_ & _ & _ & Hsn).
  eapply Clean_last; [|done]. by rewrite split_char_app, (split_char_plain slash n).
Qed.

Lemma resolve_proper_suffix cwd s l b suf :
  split_char slash s = l ++ [b] -> s <> "" -> contains_char slash suf = false ->
  proper (b +:+ suf) = true -> proper b = true ->
  resolve cwd (s +:+ suf) = removelast (resolve cwd s) ++ [b +:+ suf].
Proof.
  intros Hs Hne Hsuf Hp Hb.
  destruct (resolve_app_suffix cwd s suf Hsuf Hne) as (base & x & H1 & H2 & l' & Hl').
  rewrite Hs in Hl'. apply app_inj_tail in Hl' as [_ <-].
  rewrite H2, H1, !resolve_step_proper by done. by rewrite removelast_last.
Qed.

(** A name that does not start with a dot is proper. *)
Lemma proper_head c s :
  c <> "."%char -> contains_char slash (String c s) = false -> proper (String c s) = true.
Proof.
  intros Hc Hs. apply proper_spec. split_and!; [done| | |done]; congruence.
Qed.

Lemma contains_char_app c a b :
  contains_char c (a +:+ b) = contains_char c a || contains_char c b.
Proof.
  induction a as [|d a IH]; [done|]. rewrite app_cons_str. cbn [contains_char].
  by rewrite IH, orb_assoc.
Qed.
