(* ===== verification/Strconv.v ===== *)
(** Packages [strconv] (decimal integers) and [encoding/hex], as far as the
    code uses them. *)
From S2P Require Export GoString.
Local Open Scope Z_scope.

(** ** Decimal *)

Definition digit_char (d : Z) : ascii := ascii_of_N (Z.to_N (48 + d)).

Definition digit_val (c : ascii) : option Z :=
  let n := Z.of_N (N_of_ascii c) in
  if decide (48 <= n <= 57) then Some (n - 48) else None.

(** Digits of [z], most significant first, in front of [acc]; [fuel] bounds the
    number of digits. *)
Fixpoint format_digits (fuel : nat) (z : Z) (acc : string) : string :=
  match fuel with
  | O => acc
  | S fuel =>
      if decide (z < 10) then String (digit_char z) acc
      else format_digits fuel (z / 10) (String (digit_char (z `mod` 10)) acc)
  end.

(** strconv.FormatUint(z, 10): a number has at most as many decimal digits as
    binary ones. *)
Definition FormatUint (z : Z) : string := format_digits (S (Z.to_nat (Z.log2 z))) z "".

(** strconv.Itoa. *)
Definition Itoa (z : Z) : string :=
  if decide (z < 0) then String "-" (FormatUint (- z)) else FormatUint z.

Fixpoint parse_digits (s : string) (acc : Z) : option Z :=
  match s with
  | EmptyString => Some acc
  | String c s => match digit_val c with
                  | Some d => parse_digits s (10 * acc + d)
                  | None => None
                  end
  end.

(** strconv.Atoi on 64-bit platforms; [None] stands for a non-nil error. *)
Definition Atoi (s : string) : option Z :=
  let signed (neg : bool) (body : string) :=
    if decide (body = "") then None
    else match parse_digits body 0 with
         | Some n => let v := if neg then - n else n in
                     if decide (- 2 ^ 63 <= v < 2 ^ 63) then Some v else None
         | None => None
         end in
  match s with
  | String "-" r => signed true r
  | String "+" r => signed false r
  | _ => signed false s
  end.

Example Itoa_ex : Itoa 4242 = "4242". Proof. reflexivity. Qed.
Example Itoa_ex0 : Itoa 0 = "0". Proof. reflexivity. Qed.
Example Itoa_exn : Itoa (-17) = "-17". Proof. reflexivity. Qed.
Example Atoi_ex : Atoi "-17" = Some (-17). Proof. reflexivity. Qed.
Example Atoi_bad : Atoi "12a" = None. Proof. reflexivity. Qed.

Lemma digit_val_char d : 0 <= d < 10 -> digit_val (digit_char d) = Some d.
Proof.
  intros H. unfold digit_val, digit_char.
  rewrite N_ascii_embedding by lia.
  rewrite decide_True by lia. f_equal. lia.
Qed.

Lemma parse_format_digits fuel z acc n :
  0 <= z < 2 ^ Z.of_nat fuel -> 0 <= n ->
  exists s, format_digits fuel z acc = s +:+ acc /\
    exists k, 0 <= k /\ parse_digits (s +:+ acc) n = parse_digits acc (n * 10 ^ k + z).
Proof.
  revert z acc n. induction fuel as [|fuel IH]; intros z acc n Hz Hn.
  - exists "". split; [done|]. exists 0. split; [lia|].
    rewrite app_empty_str. f_equal. rewrite Z.pow_0_r. change (Z.of_nat 0) with 0 in Hz. lia.
  - cbn [format_digits]. case_decide as Hlt.
    + exists (String (digit_char z) ""). split; [done|]. exists 1. split; [lia|].
      rewrite app_cons_str, app_empty_str. cbn [parse_digits].
      rewrite digit_val_char by lia. f_equal. lia.
    + rewrite Nat2Z.inj_succ, Z.pow_succ_r in Hz by lia.
      pose proof (Z.div_mod z 10 ltac:(lia)) as Hdm.
      pose proof (Z.mod_pos_bound z 10 ltac:(lia)) as Hm.
      destruct (IH (z / 10) (String (digit_char (z `mod` 10)) acc) n) as (s & Hf & k & Hk & Hp);
        [split; [apply Z.div_pos; lia|apply Z.div_lt_upper_bound; lia]|lia|].
      exists (s +:+ String (digit_char (z `mod` 10)) ""). split.
      { rewrite Hf, app_assoc_str. by rewrite app_cons_str, app_empty_str. }
      exists (k + 1). split; [lia|].
      rewrite app_assoc_str, app_cons_str, app_empty_str, Hp. cbn [parse_digits].
      rewrite digit_val_char by lia. f_equal. rewrite Z.pow_add_r, Z.pow_1_r by lia. lia.
Qed.

Lemma FormatUint_parse z : 0 <= z -> parse_digits (FormatUint z) 0 = Some z.
Proof.
  intros Hz. unfold FormatUint.
  destruct (parse_format_digits (S (Z.to_nat (Z.log2 z))) z "" 0) as (s & -> & k & Hk & ->); [|lia|].
  - split; [done|]. rewrite Nat2Z.inj_succ, Z2Nat.id by apply Z.log2_nonneg.
    destruct (decide (z = 0)) as [->|]; [done|]. apply Z.log2_spec. lia.
  - cbn [parse_digits]. f_equal.
Qed.

Lemma format_digits_head fuel z acc :
  0 <= z -> (0 < fuel)%nat ->
  exists d s, 0 <= d < 10 /\ format_digits fuel z acc = String (digit_char d) s.
Proof.
  revert z acc. induction fuel as [|fuel IH]; intros z acc Hz Hf; [lia|].
  cbn [format_digits]. case_decide; [exists z, acc; split; [lia|done]|].
  destruct fuel as [|fuel].
  - exists (z `mod` 10), acc. split; [apply Z.mod_pos_bound; lia|done].
  - apply IH; [apply Z.div_pos; lia|lia].
Qed.

Lemma FormatUint_head z :
  0 <= z -> exists d s, 0 <= d < 10 /\ FormatUint z = String (digit_char d) s.
Proof. intros. apply format_digits_head; [done|lia]. Qed.

Lemma digit_char_not_sign d : 0 <= d < 10 -> digit_char d <> "-"%char /\ digit_char d <> "+"%char.
Proof.
  intros Hd. split; intros E; apply (f_equal digit_val) in E; by rewrite digit_val_char in E.
Qed.

Lemma Atoi_unsigned c s :
  c <> "-"%char -> c <> "+"%char ->
  Atoi (String c s) =
  match parse_digits (String c s) 0 with
  | Some n => if decide (- 2 ^ 63 <= n < 2 ^ 63) then Some n else None
  | None => None
  end.
Proof.
  intros H1 H2. unfold Atoi.
  destruct c as [b0 b1 b2 b3 b4 b5 b6 b7].
  destruct b0, b1, b2, b3, b4, b5, b6, b7; done || (exfalso; by apply H1) || (exfalso; by apply H2).
Qed.

(** [Atoi] inverts [Itoa] on the range of Go's [int]. *)
Lemma Atoi_Itoa z : - 2 ^ 63 <= z < 2 ^ 63 -> Atoi (Itoa z) = Some z.
Proof.
  intros Hz. unfold Itoa. case_decide as Hneg.
  - destruct (FormatUint_head (- z) ltac:(lia)) as (d & s & Hd & E).
    unfold Atoi. rewrite E. rewrite decide_False by done. rewrite <- E.
    rewrite FormatUint_parse by lia. rewrite decide_True by lia. f_equal. lia.
  - destruct (FormatUint_head z ltac:(lia)) as (d & s & Hd & E).
    destruct (digit_char_not_sign d Hd). rewrite E, Atoi_unsigned by done.
    rewrite <- E, FormatUint_parse by lia. by rewrite decide_True by lia.
Qed.

(** A text of digits holds no other character. *)
Lemma parse_digits_chars s acc n c :
  parse_digits s acc = Some n -> digit_val c = None -> contains_char c s = false.
Proof.
  revert acc. induction s as [|x s IH]; intros acc H Hc; [done|]. cbn in H |- *.
  destruct (digit_val x) as [d|] eqn:E; [|done].
  rewrite bool_decide_eq_false_2 by congruence. by apply (IH _ H).
Qed.

(** ** Hexadecimal *)

Definition hex_char (d : Z) : ascii :=
  if decide (d < 10) then ascii_of_N (Z.to_N (48 + d)) else ascii_of_N (Z.to_N (87 + d)).

Definition hex_val (c : ascii) : option Z :=
  let n := Z.of_N (N_of_ascii c) in
  if decide (48 <= n <= 57) then Some (n - 48)
  else if decide (97 <= n <= 102) then Some (n - 87)
  else if decide (65 <= n <= 70) then Some (n - 55)
  else None.

(** hex.EncodeToString. *)
Fixpoint hex_encode (l : bytes) : string :=
  match l with
  | [] => ""
  | b :: l => String (hex_char (Z_of_byte b / 16))
                (String (hex_char (Z_of_byte b `mod` 16)) (hex_encode l))
  end.

(** hex.DecodeString; [None] stands for a non-nil error (an invalid digit or an
    odd number of them). *)
Fixpoint hex_decode (s : string) : option bytes :=
  match s with
  | EmptyString => Some []
  | String a (String b s) =>
      match hex_val a, hex_val b, hex_decode s with
      | Some x, Some y, Some l => Some (byte_of_Z (16 * x + y) :: l)
      | _, _, _ => None
      end
  | String _ EmptyString => None
  end.

Lemma hex_val_char d : 0 <= d < 16 -> hex_val (hex_char d) = Some d.
Proof.
  intros H. unfold hex_char. destruct (decide (d < 10)); unfold hex_val; rewrite N_ascii_embedding by lia.
  - rewrite decide_True by lia. f_equal. lia.
  - rewrite decide_False by lia. rewrite decide_True by lia. f_equal. lia.
Qed.

Lemma hex_decode_encode l : hex_decode (hex_encode l) = Some l.
Proof.
  induction l as [|b l IH]; [done|]. cbn [hex_encode hex_decode].
  pose proof (Z_of_byte_range b) as Hb.
  rewrite (hex_val_char (Z_of_byte b / 16))
    by (split; [apply Z.div_pos; lia|apply Z.div_lt_upper_bound; lia]).
  rewrite (hex_val_char (_ `mod` _)) by (apply Z.mod_pos_bound; lia). rewrite IH.
  f_equal. f_equal. rewrite <- Z.div_mod by lia. apply byte_of_Z_of_byte.
Qed.

Lemma length_hex_encode l : String.length (hex_encode l) = (2 * length l)%nat.
Proof. induction l as [|b l IH]; [done|]. cbn. rewrite IH. lia. Qed.

Lemma hex_char_not_slash d : 0 <= d < 16 -> hex_char d <> slash.
Proof.
  intros Hd E. apply (f_equal hex_val) in E. by rewrite hex_val_char in E.
Qed.

Lemma hex_encode_no_slash l : contains_char slash (hex_encode l) = false.
Proof.
  induction l as [|b l IH]; [done|]. cbn [hex_encode contains_char].
  pose proof (Z_of_byte_range b).
  rewrite !bool_decide_eq_false_2, IH; [done| |];
    intros E; symmetry in E; revert E; apply hex_char_not_slash;
    [apply Z.mod_pos_bound; lia|split; [apply Z.div_pos; lia|apply Z.div_lt_upper_bound; lia]].
Qed.
