(* ===== verification/Ckpterr.v ===== *)
(** Errors: the values of Go's [error] the program creates or receives, and the
    package internal/ckpterr. *)
From S2P Require Export Strconv.

Inductive errno :=
  | ENOENT | EEXIST | ENOTDIR | EISDIR | EINVAL | EIO | EACCES | ENOSPC | ENXIO | EBUSY | ENOTEMPTY
  | EPIPE | ECONNREFUSED | EADDRINUSE.

#[global] Instance errno_eq_dec : EqDecision errno.
Proof. solve_decision. Defined.

Definition errno_text (e : errno) : string :=
  match e with
  | ENOENT => "no such file or directory"
  | EEXIST => "file exists"
  | ENOTDIR => "not a directory"
  | EISDIR => "is a directory"
  | EINVAL => "invalid argument"
  | EIO => "input/output error"
  | EACCES => "permission denied"
  | ENOSPC => "no space left on device"
  | ENXIO => "no such device or address"
  | EBUSY => "device or resource busy"
  | ENOTEMPTY => "directory not empty"
  | EPIPE => "broken pipe"
  | ECONNREFUSED => "connection refused"
  | EADDRINUSE => "address already in use"
  end.

(** The error codes of internal/ckpterr. *)
Module Code.
Inductive t := Ok | NotFound | IO | RPC | CUDA | CRIU | Unsupported | Invalid.

Definition num (c : t) : Z :=
  match c with
  | Ok => 0 | NotFound => 1 | IO => 2 | RPC => 3
  | CUDA => 4 | CRIU => 5 | Unsupported => 6 | Invalid => 7
  end.

#[global] Instance eq_dec : EqDecision t.
Proof. solve_decision. Defined.
End Code.

(** Go's [error] values. [EPath], [ELink] are *PathError and *LinkError around
    an errno, [EPathText] a *PathError around errors.New; [ErrInvalid],
    [EOF], [ErrUnexpectedEOF] are the sentinels of packages os and io;
    [EText] is errors.New or fmt.Errorf; [ENet] is a *net.OpError of a Unix
    socket around a failing call; [ECkpt] is *ckpterr.Error. *)
Inductive goerr :=
  | EPath (op name : string) (e : errno)
  | EPathText (op name text : string)
  | ELink (op old new : string) (e : errno)
  | ErrInvalid
  | EOF
  | ErrUnexpectedEOF
  | EText (text : string)
  | ENet (op addr call : string) (e : errno)
  | ECkpt (code : Code.t) (msg : string).

#[global] Instance goerr_eq_dec : EqDecision goerr.
Proof. solve_decision. Defined.

(** (e *Error).Error: fmt.Sprintf("%s (%d)", e.Msg, e.Code). *)
Definition ckpt_Error (code : Code.t) (msg : string) : string :=
  msg +:+ " (" +:+ Itoa (Code.num code) +:+ ")".

(** err.Error(). *)
Definition Error (e : goerr) : string :=
  match e with
  | EPath op name e => op +:+ " " +:+ name +:+ ": " +:+ errno_text e
  | EPathText op name text => op +:+ " " +:+ name +:+ ": " +:+ text
  | ELink op old new e => op +:+ " " +:+ old +:+ " " +:+ new +:+ ": " +:+ errno_text e
  | ErrInvalid => "invalid argument"
  | EOF => "EOF"
  | ErrUnexpectedEOF => "unexpected EOF"
  | EText text => text
  | ENet op addr call e => op +:+ " unix " +:+ addr +:+ ": " +:+ call +:+ ": " +:+ errno_text e
  | ECkpt code msg => ckpt_Error code msg
  end.

(** os.IsNotExist. *)
Definition IsNotExist (e : goerr) : bool :=
  match e with
  | EPath _ _ ENOENT | ELink _ _ _ ENOENT => true
  | _ => false
  end.

Module Ckpterr.
Definition E (code : Code.t) (msg : string) : goerr := ECkpt code msg.

(** A nil [error] argument is [None]. *)
Definition Wrap (code : Code.t) (msg : string) (err : option goerr) : goerr :=
  match err with
  | None => E code msg
  | Some e => E code (msg +:+ ": " +:+ Error e)
  end.
End Ckpterr.

Example Wrap_ex :
  Error (Ckpterr.Wrap Code.IO "manifest" (Some (EPath "open" "/a" ENOENT))) =
  "manifest: open /a: no such file or directory (2)".
Proof. reflexivity. Qed.
