(* ===== verification/OS.v ===== *)
(** The world the program runs in and the operations of packages [os] and [io]
    it performs on it.

    - A file system is a finite map from resolved paths to nodes. Ownership,
      permissions, symbolic links and hard links are not modelled.
    - A computation [M A] takes a world to an outcome and a world. A returned
      Go error is [Err]; a run-time panic is [Panic]; [Diverge] is a recursion
      that exceeds the fuel it was given.
    - Every system call consumes one entry of the fault schedule [w_faults]:
      [None] lets it run, [Some f] makes it fail with the errno of [f] after the
      part of its work [f_progress] says. An exhausted schedule has no faults.
      Theorems that hold for every schedule are statements about every way the
      environment may fail. *)
From S2P Require Export Filepath Ckpterr.

(** ** Outcomes *)

Inductive outcome (A : Type) : Type :=
  | Ret (a : A)
  | Err (e : goerr)
  | Panic
  | Diverge.
Arguments Ret {A} a.
Arguments Err {A} e.
Arguments Panic {A}.
Arguments Diverge {A}.

(** ** The world *)

Inductive node :=
  | NFile (content : bytes)
  | NDir
  | NSock.

#[global] Instance node_eq_dec : EqDecision node.
Proof. solve_decision. Defined.

Record fault := Fault { f_errno : errno; f_progress : nat }.

(** What listens on a Unix socket, with the state it keeps: the server of
    pkg/rpc/mockserver.go, or the shim in a GPU process (shim/ipc.c). *)
Inductive peer :=
  | PMock (secret : string) (failFreezeUntil : Z) (statusSeq : list Z) (statusIdx : Z)
  | PShim (secret : string) (state : Z).

Record world := World {
  w_fs : gmap path node;           (** the file system *)
  w_mtime : path -> Z;             (** modification times, in nanoseconds *)
  w_cwd : path;                    (** the working directory *)
  w_env : gmap string string;      (** environment variables *)
  w_now : Z;                       (** the clock, in nanoseconds *)
  w_counters : gmap string Z;      (** the counters of metrics.Default *)
  w_peers : gmap path peer;        (** the servers, by their sockets *)
  w_faults : list (option fault);  (** what the next system calls do *)
  w_gauges : gmap string Z;        (** the gauges of metrics.Default: the values set are whole numbers *)
  w_stdout : string;               (** what was printed *)
}.

Definition set_fs (fs : gmap path node) (w : world) : world :=
  World fs (w_mtime w) (w_cwd w) (w_env w) (w_now w) (w_counters w) (w_peers w) (w_faults w) (w_gauges w) (w_stdout w).
Definition set_faults (l : list (option fault)) (w : world) : world :=
  World (w_fs w) (w_mtime w) (w_cwd w) (w_env w) (w_now w) (w_counters w) (w_peers w) l (w_gauges w) (w_stdout w).
Definition set_counters (c : gmap string Z) (w : world) : world :=
  World (w_fs w) (w_mtime w) (w_cwd w) (w_env w) (w_now w) c (w_peers w) (w_faults w) (w_gauges w) (w_stdout w).
Definition set_now (t : Z) (w : world) : world :=
  World (w_fs w) (w_mtime w) (w_cwd w) (w_env w) t (w_counters w) (w_peers w) (w_faults w) (w_gauges w) (w_stdout w).

Definition set_peers (p : gmap path peer) (w : world) : world :=
  World (w_fs w) (w_mtime w) (w_cwd w) (w_env w) (w_now w) (w_counters w) p (w_faults w) (w_gauges w) (w_stdout w).

Definition set_gauges (g : gmap string Z) (w : world) : world :=
  World (w_fs w) (w_mtime w) (w_cwd w) (w_env w) (w_now w) (w_counters w) (w_peers w) (w_faults w) g (w_stdout w).
Definition set_stdout (s : string) (w : world) : world :=
  World (w_fs w) (w_mtime w) (w_cwd w) (w_env w) (w_now w) (w_counters w) (w_peers w) (w_faults w) (w_gauges w) s.

(** ** The monad *)

Definition M (A : Type) : Type := world -> outcome A * world.

#[global] Instance M_ret : MRet M := fun A a w => (Ret a, w).
#[global] Instance M_bind : MBind M := fun A B f m w =>
  match m w with
  | (Ret a, w) => f a w
  | (Err e, w) => (Err e, w)
  | (Panic, w) => (Panic, w)
  | (Diverge, w) => (Diverge, w)
  end.

(** [return ..., err]. *)
Definition throw {A} (e : goerr) : M A := fun w => (Err e, w).
Definition panic {A} : M A := fun w => (Panic, w).
Definition diverge {A} : M A := fun w => (Diverge, w).

(** [v, err := m] with the error kept as a value. *)
Definition attempt {A} (m : M A) : M (goerr + A) := fun w =>
  match m w with
  | (Ret a, w) => (Ret (inr a), w)
  | (Err e, w) => (Ret (inl e), w)
  | (Panic, w) => (Panic, w)
  | (Diverge, w) => (Diverge, w)
  end.

(** [_ = m]: the error is dropped. *)
Definition ignore {A} (m : M A) : M unit := attempt m ;; mret tt.

(** [if err := m; err != nil { return ckpterr.Wrap(code, msg, err) }]. *)
Definition wrap_err {A} (code : Code.t) (msg : string) (m : M A) : M A :=
  r ← attempt m;
  match r with
  | inr a => mret a
  | inl e => throw (Ckpterr.Wrap code msg (Some e))
  end.

Fixpoint forM_ {A} (l : list A) (f : A -> M unit) : M unit :=
  match l with
  | [] => mret tt
  | a :: l => f a ;; forM_ l f
  end.

Definition gets {A} (f : world -> A) : M A := fun w => (Ret (f w), w).

(** os.Getenv. *)
Definition Getenv (k : string) : M string := gets (fun w => default "" (w_env w !! k)).

(** fmt.Print and its kind, to the standard output. *)
Definition Print (s : string) : M unit := fun w => (Ret tt, set_stdout (w_stdout w +:+ s) w).

(** ** System calls *)

(** Runs [m], or fails as the schedule says: [fail] is what happens of the call
    when it fails. *)
Definition syscall {A} (fail : fault -> M A) (m : M A) : M A := fun w =>
  match w_faults w with
  | [] => m w
  | None :: l => m (set_faults l w)
  | Some f :: l => fail f (set_faults l w)
  end.

Definition fail_with {A} (op name : string) (f : fault) : M A :=
  throw (EPath op name (f_errno f)).

(** The entry a path string names. *)
Definition at_path (w : world) (s : string) : path := resolve (w_cwd w) s.

Definition prefixes (p : path) : list path := (fun n => take n p) <$> seq 0 (length p).

(** Why a path names nothing: a component is not a directory, or is missing. *)
Definition missing_errno (fs : gmap path node) (p : path) : errno :=
  if existsb (fun q => match fs !! q with Some (NFile _) | Some NSock => true | _ => false end)
       (prefixes p)
  then ENOTDIR else ENOENT.

Definition find_node (w : world) (s : string) : errno + node :=
  if decide (s = "") then inl ENOENT
  else match w_fs w !! at_path w s with
       | Some n => inr n
       | None => inl (missing_errno (w_fs w) (at_path w s))
       end.

(** os.Stat. *)
Definition Stat (s : string) : M node :=
  syscall (fail_with "stat" s) (fun w =>
    match find_node w s with
    | inr n => (Ret n, w)
    | inl e => (Err (EPath "stat" s e), w)
    end).

(** An open file: its name and the entry it was opened at. *)
Record file := File { f_name : string; f_path : path }.

(** os.Open. *)
Definition Open (s : string) : M file :=
  syscall (fail_with "open" s) (fun w =>
    match find_node w s with
    | inr NSock => (Err (EPath "open" s ENXIO), w)
    | inr _ => (Ret (File s (at_path w s)), w)
    | inl e => (Err (EPath "open" s e), w)
    end).

(** Whether an entry can be created at a path: its parent is a directory. *)
Definition parent_errno (fs : gmap path node) (p : path) : option errno :=
  match p with
  | [] => Some EISDIR
  | _ => match fs !! removelast p with
         | Some NDir => None
         | Some _ => Some ENOTDIR
         | None => Some (missing_errno fs p)
         end
  end.

(** open(2) with O_CREAT|O_WRONLY: with [trunc], what was in the file goes. *)
Definition open_create (trunc : bool) (s : string) : M file :=
  syscall (fail_with "open" s) (fun w =>
    let p := at_path w s in
    if decide (s = "") then (Err (EPath "open" s ENOENT), w)
    else match w_fs w !! p with
    | Some NDir => (Err (EPath "open" s EISDIR), w)
    | Some NSock => (Err (EPath "open" s ENXIO), w)
    | Some (NFile c) =>
        (Ret (File s p), if trunc then set_fs (<[p := NFile []]> (w_fs w)) w else w)
    | None =>
        match parent_errno (w_fs w) p with
        | Some e => (Err (EPath "open" s e), w)
        | None => (Ret (File s p), set_fs (<[p := NFile []]> (w_fs w)) w)
        end
    end).

(** os.Create. *)
Definition Create (s : string) : M file := open_create true s.

Definition append_at (p : path) (data : bytes) (fs : gmap path node) : gmap path node :=
  match fs !! p with
  | Some (NFile c) => <[p := NFile (c ++ data)]> fs
  | _ => fs
  end.

(** f.Write on a file opened for writing: the code writes each file from its
    start to its end, so a write appends. A failing write may have written a
    prefix. *)
Definition fwrite (f : file) (data : bytes) : M unit :=
  syscall
    (fun flt w => (Err (EPath "write" (f_name f) (f_errno flt)),
                   set_fs (append_at (f_path f) (take (f_progress flt) data) (w_fs w)) w))
    (fun w => (Ret tt, set_fs (append_at (f_path f) data (w_fs w)) w)).

(** What read(2) finds in an open file. *)
Definition file_bytes (w : world) (f : file) : errno + bytes :=
  match w_fs w !! f_path f with
  | Some (NFile c) => inr c
  | Some NDir => inl EISDIR
  | _ => inl EIO
  end.

(** Reading an open file from its start. The code reads a file in one sequence
    of reads with no effect in between, so a failing read is charged here; the
    part of the content each read gets is computed by a [reader] below. *)
Definition fread (f : file) : M bytes :=
  syscall (fail_with "read" (f_name f)) (fun w =>
    match file_bytes w f with
    | inr c => (Ret c, w)
    | inl e => (Err (EPath "read" (f_name f) e), w)
    end).

(** f.ReadAt(buf, off) with a buffer of [n] bytes. *)
Definition ReadAt (f : file) (n off : Z) : M bytes :=
  if decide (off < 0)%Z then throw (EPathText "readat" (f_name f) "negative offset")
  else if decide (n <= 0)%Z then mret []
  else syscall (fail_with "read" (f_name f)) (fun w =>
    match file_bytes w f with
    | inl e => (Err (EPath "read" (f_name f) e), w)
    | inr c =>
        if decide (off + n <= Z.of_nat (length c))%Z
        then (Ret (slice (Z.to_nat off) (Z.to_nat (off + n)) c), w)
        else (Err EOF, w)
    end).

(** os.ReadFile. *)
Definition ReadFile (s : string) : M bytes := f ← Open s; fread f.

(** os.WriteFile. *)
Definition WriteFile (s : string) (data : bytes) : M unit := f ← Create s; fwrite f data.

(** os.MkdirAll. *)
Definition mkdirs (fs : gmap path node) (l : list path) : gmap path node :=
  foldl (fun fs q => match fs !! q with Some _ => fs | None => <[q := NDir]> fs end) fs l.

Definition blocked (fs : gmap path node) (l : list path) : bool :=
  existsb (fun q => match fs !! q with Some (NFile _) | Some NSock => true | _ => false end) l.

Definition MkdirAll (s : string) : M unit :=
  syscall
    (fun flt w => (Err (EPath "mkdir" s (f_errno flt)),
       let l := prefixes (at_path w s) ++ [at_path w s] in
       if blocked (w_fs w) l then w
       else set_fs (mkdirs (w_fs w) (take (f_progress flt) l)) w))
    (fun w =>
       let l := prefixes (at_path w s) ++ [at_path w s] in
       if decide (s = "") then (Err (EPath "mkdir" s ENOENT), w)
       else if blocked (w_fs w) l then (Err (EPath "mkdir" s ENOTDIR), w)
       else (Ret tt, set_fs (mkdirs (w_fs w) l) w)).

(** The file system without the tree at [p]. *)
Definition remove_tree (p : path) (fs : gmap path node) : gmap path node :=
  filter (fun x => ~ p `prefix_of` x.1) fs.

(** The entries of the tree at [p], deepest first: the order of removal. *)
Definition deeper (q r : path) : Prop := (length r <= length q)%nat.
#[global] Instance deeper_dec q r : Decision (deeper q r).
Proof. unfold deeper; apply _. Defined.

Definition removal_order (p : path) (fs : gmap path node) : list path :=
  merge_sort deeper
    (filter (fun q => p `prefix_of` q) (map_to_list fs).*1).

Definition delete_all (l : list path) (fs : gmap path node) : gmap path node :=
  foldl (fun fs q => delete q fs) fs l.

Definition ends_with_dot (s : string) : bool :=
  bool_decide (s = ".") || HasSuffix s "/.".

(** os.RemoveAll: a missing path is no error; a failing removal may have
    removed a part of the tree. *)
Definition RemoveAll (s : string) : M unit :=
  if decide (s = "") then mret tt
  else if ends_with_dot s then throw (EPath "RemoveAll" s EINVAL)
  else syscall
    (fun flt w => (Err (EPath "unlinkat" s (f_errno flt)),
       set_fs (delete_all (take (f_progress flt) (removal_order (at_path w s) (w_fs w)))
                 (w_fs w)) w))
    (fun w =>
       let p := at_path w s in
       match w_fs w !! p with
       | None => match missing_errno (w_fs w) p with
                 | ENOENT => (Ret tt, w)
                 | e => (Err (EPath "unlinkat" s e), w)
                 end
       | Some _ =>
           if decide (p = [])
           then (Err (EPath "unlinkat" s EBUSY),
                 set_fs (filter (fun x => x.1 = []) (w_fs w)) w)
           else (Ret tt, set_fs (remove_tree p (w_fs w)) w)
       end).

(** The tree at [p] moved to [q], over what was there. *)
Definition rebase (p q x : path) : path := q ++ drop (length p) x.

Definition move_tree (p q : path) (fs : gmap path node) : gmap path node :=
  list_to_map (prod_map (rebase p q) id <$> map_to_list (filter (fun x => p `prefix_of` x.1) fs))
  ∪ remove_tree q (remove_tree p fs).

(** os.Rename. *)
Definition Rename_body (old new : string) : M unit := fun w =>
  let p := at_path w old in
  let q := at_path w new in
  let fail e := (Err (ELink "rename" old new e), w) in
  match find_node w old with
  | inl e => fail e
  | inr n =>
      match find_node w new with
      | inr NDir => if decide (p = q /\ old <> new) then (Ret tt, w) else fail EEXIST
      | r =>
          if decide (new = "") then fail ENOENT
          else match parent_errno (w_fs w) q with
          | Some e => fail e
          | None =>
              if decide (n = NDir /\ p `prefix_of` q) then fail EINVAL
              else match n, r with
              | NDir, inr _ => fail ENOTDIR
              | _, _ => (Ret tt, set_fs (move_tree p q (w_fs w)) w)
              end
          end
      end
  end.

Definition Rename (old new : string) : M unit :=
  syscall (fun flt => throw (ELink "rename" old new (f_errno flt))) (Rename_body old new).

(** os.Remove. *)
Definition Remove (s : string) : M unit :=
  syscall (fail_with "remove" s) (fun w =>
    let p := at_path w s in
    match find_node w s with
    | inl e => (Err (EPath "remove" s e), w)
    | inr NDir =>
        if existsb (fun q => bool_decide (p `prefix_of` q /\ p <> q)) (map_to_list (w_fs w)).*1
        then (Err (EPath "remove" s ENOTEMPTY), w)
        else (Ret tt, set_fs (delete p (w_fs w)) w)
    | inr _ => (Ret tt, set_fs (delete p (w_fs w)) w)
    end).

(** os.ReadDir: the entries sorted by name. *)
Record dirent := DirEnt { de_name : string; de_isdir : bool }.

Definition name_le (a b : dirent) : Prop := String.le (de_name a) (de_name b).
#[global] Instance name_le_dec a b : Decision (name_le a b).
Proof. unfold name_le; apply _. Defined.

Definition children (p : path) (fs : gmap path node) : list dirent :=
  merge_sort name_le
    (omap (fun x : path * node =>
       match last x.1 with
       | Some nm => if decide (removelast x.1 = p) then Some (DirEnt nm (bool_decide (x.2 = NDir)))
                    else None
       | None => None
       end) (map_to_list fs)).

Definition ReadDir (s : string) : M (list dirent) :=
  syscall (fail_with "open" s) (fun w =>
    match find_node w s with
    | inl e => (Err (EPath "open" s e), w)
    | inr NDir => (Ret (children (at_path w s) (w_fs w)), w)
    | inr _ => (Err (EPath "readdirent" s ENOTDIR), w)
    end).
