(* ===== verification/OSFacts.v ===== *)
(** Facts about the operations of [OS]: the content of the file system after
    each of them, the step equations of fault-free runs, and the frame rules
    that bound what a computation can touch whatever fails. *)
From S2P Require Export OS.

(** Paths of different lengths. *)
Ltac path_ne :=
  let E := fresh in intros E; apply (f_equal length) in E; rewrite ?length_app in E; cbn in E; lia.

Lemma path_snoc_ne (p : path) x : p <> p ++ [x].
Proof. path_ne. Qed.

Lemma path_snoc_ne' (p : path) x : p ++ [x] <> p.
Proof. path_ne. Qed.

Lemma snoc_prefix (p : path) x y q : p ++ [x] `prefix_of` p ++ [y] ++ q -> x = y.
Proof. intros [k E]. rewrite <- app_assoc in E. apply app_inv_head in E. by injection E. Qed.

(** The trees of two entries of one directory have no path in common. *)
Lemma siblings_disjoint (p : path) x y q :
  x <> y -> p ++ [x] `prefix_of` q -> ~ p ++ [y] `prefix_of` q.
Proof.
  intros Hne [k ->] H. rewrite <- app_assoc in H. by apply snoc_prefix in H.
Qed.

Lemma set_fs_set_fs f g w : set_fs f (set_fs g w) = set_fs f w.
Proof. done. Qed.

Lemma set_fs_id w : set_fs (w_fs w) w = w.
Proof. by destruct w. Qed.

(** ** The file system after an operation *)

Lemma lookup_remove_tree p fs q :
  remove_tree p fs !! q = if decide (p `prefix_of` q) then None else fs !! q.
Proof.
  unfold remove_tree. case_decide as H.
  - apply map_lookup_filter_None_2. right. intros n _. cbn. tauto.
  - destruct (fs !! q) as [n|] eqn:E.
    + by apply map_lookup_filter_Some_2.
    + apply map_lookup_filter_None_2. by left.
Qed.

Lemma rebase_app p q x : rebase p q (p ++ x) = q ++ x.
Proof. unfold rebase. by rewrite drop_app_length. Qed.

Lemma NoDup_rebase p q (l : list (path * node)) :
  Forall (fun y => p `prefix_of` y.1) l -> NoDup l.*1 ->
  NoDup (prod_map (rebase p q) id <$> l).*1.
Proof.
  induction l as [|[y n] l IH]; cbn; [constructor|].
  intros [[z Hz] Hpre]%Forall_cons [HN1 HN2]%NoDup_cons. cbn in Hz. subst y.
  constructor; [|by apply IH]. rewrite <- list_fmap_compose.
  intros ([y' n'] & Heq & Hy')%list_elem_of_fmap. cbn in Heq.
  rewrite Forall_forall in Hpre. destruct (Hpre _ Hy') as [z' Hz']. cbn in Hz'. subst y'.
  rewrite !rebase_app in Heq. apply app_inv_head in Heq. subst z'.
  apply HN1. apply list_elem_of_fmap. by exists (p ++ z, n').
Qed.

Lemma lookup_move_tree p q fs x :
  move_tree p q fs !! x =
  if decide (q `prefix_of` x) then fs !! (p ++ drop (length q) x)
  else if decide (p `prefix_of` x) then None else fs !! x.
Proof.
  unfold move_tree.
  set (sub := filter (fun y => p `prefix_of` y.1) fs).
  set (moved := prod_map (rebase p q) id <$> map_to_list sub).
  assert (Hin : forall y n, (y, n) ∈ moved <-> exists z, y = q ++ z /\ fs !! (p ++ z) = Some n).
  { intros y n. unfold moved. rewrite list_elem_of_fmap. split.
    - intros ([y' n'] & [= -> ->] & Hy%elem_of_map_to_list).
      apply map_lookup_filter_Some in Hy as [Hy [z Hz]]. cbn in *. subst y'.
      exists z. by rewrite rebase_app.
    - intros (z & -> & Hz). exists (p ++ z, n). cbn. rewrite rebase_app. split; [done|].
      apply elem_of_map_to_list, map_lookup_filter_Some. split; [done|]. by exists z. }
  assert (Hnd : NoDup moved.*1).
  { apply NoDup_rebase; [|apply NoDup_fst_map_to_list].
    apply Forall_forall. intros [y n] Hy%elem_of_map_to_list.
    by apply map_lookup_filter_Some in Hy as [_ ?]. }
  destruct (decide (q `prefix_of` x)) as [[z ->]|Hq].
  - rewrite drop_app_length. destruct (fs !! (p ++ z)) as [n|] eqn:E.
    + apply lookup_union_Some_l. apply elem_of_list_to_map; [done|]. apply Hin. by exists z.
    + rewrite lookup_union_r.
      * rewrite lookup_remove_tree. rewrite decide_True; [done|by exists z].
      * apply not_elem_of_list_to_map_1. intros ([y n] & Hy & Hy')%list_elem_of_fmap. cbn in Hy.
        subst y. apply Hin in Hy' as (z' & Hz' & ?). apply app_inv_head in Hz'. by simplify_eq.
  - rewrite lookup_union_r.
    + rewrite lookup_remove_tree, decide_False by done. by rewrite lookup_remove_tree.
    + apply not_elem_of_list_to_map_1. intros ([y n] & Hy & Hy')%list_elem_of_fmap. cbn in Hy.
      subst y. apply Hin in Hy' as (z' & -> & ?). apply Hq. by exists z'.
Qed.

Lemma lookup_mkdirs fs l q :
  mkdirs fs l !! q =
  match fs !! q with Some n => Some n | None => if decide (q ∈ l) then Some NDir else None end.
Proof.
  unfold mkdirs. revert fs. induction l as [|x l IH]; intros fs; cbn [foldl].
  - destruct (fs !! q); [done|]. rewrite decide_False; [done|]. apply not_elem_of_nil.
  - rewrite IH. destruct (fs !! x) as [n|] eqn:Ex.
    + destruct (fs !! q) eqn:Eq; [done|]. assert (q <> x) by congruence.
      repeat case_decide; set_solver.
    + destruct (decide (q = x)) as [->|Hne].
      * rewrite lookup_insert_eq, Ex, decide_True; set_solver.
      * rewrite lookup_insert_ne by done. destruct (fs !! q); [done|].
        repeat case_decide; set_solver.
Qed.

Lemma elem_of_prefixes p q : q ∈ prefixes p ++ [p] <-> q `prefix_of` p.
Proof.
  unfold prefixes. rewrite elem_of_app, list_elem_of_singleton, list_elem_of_fmap. split.
  - intros [(n & -> & _)| ->]; [|done]. exists (drop n p). by rewrite take_drop.
  - intros [k ->]. destruct k as [|x k]; [rewrite app_nil_r; auto|]. left.
    exists (length q). rewrite take_app_length. split; [done|].
    apply elem_of_seq. rewrite length_app. cbn. lia.
Qed.

Lemma lookup_delete_all l fs q :
  delete_all l fs !! q = if decide (q ∈ l) then None else fs !! q.
Proof.
  unfold delete_all. revert fs. induction l as [|x l IH]; intros fs; cbn [foldl].
  - by rewrite decide_False by apply not_elem_of_nil.
  - rewrite IH. destruct (decide (q = x)) as [->|Hne].
    + rewrite lookup_delete_eq, (decide_True (P := x ∈ x :: l)) by set_solver. by case_decide.
    + rewrite lookup_delete_ne by done. repeat case_decide; set_solver.
Qed.

Lemma removal_order_below p fs q : q ∈ removal_order p fs -> p `prefix_of` q.
Proof.
  unfold removal_order. rewrite merge_sort_Permutation. by intros [H _]%list_elem_of_filter.
Qed.

Lemma lookup_append_at_ne p q d fs : p <> q -> append_at p d fs !! q = fs !! q.
Proof.
  intros H. unfold append_at. destruct (fs !! p) as [[]|]; try done. by rewrite lookup_insert_ne.
Qed.

Lemma append_at_insert p c d fs : append_at p d (<[p := NFile c]> fs) = <[p := NFile (c ++ d)]> fs.
Proof. unfold append_at. by rewrite lookup_insert_eq, insert_insert_eq. Qed.

(** ** Well-formed file systems: the parent of an entry is a directory *)

Record fs_wf (fs : gmap path node) : Prop := {
  wf_root : fs !! [] = Some NDir;
  wf_parent : forall p x n, fs !! (p ++ [x]) = Some n -> fs !! p = Some NDir;
}.

Lemma fs_wf_alt fs :
  fs_wf fs <->
  fs !! [] = Some NDir /\ map_Forall (fun q _ => q = [] \/ fs !! removelast q = Some NDir) fs.
Proof.
  split.
  - intros [Hr Hp]. split; [done|]. intros q n Hq.
    destruct q as [|x q _] using rev_ind; [by left|right]. rewrite removelast_last. by eapply Hp.
  - intros [Hr Hp]. split; [done|]. intros q x n Hq.
    destruct (Hp _ _ Hq) as [E|E]; [by destruct q|]. by rewrite removelast_last in E.
Qed.

#[global] Instance fs_wf_dec fs : Decision (fs_wf fs).
Proof.
  refine (cast_if (decide (fs !! [] = Some NDir /\ 
    map_Forall (fun q _ => q = [] \/ fs !! removelast q = Some NDir) fs)));
    by rewrite fs_wf_alt.
Defined.

Lemma fs_wf_prefix fs p q n :
  fs_wf fs -> fs !! (p ++ q) = Some n -> q <> [] -> fs !! p = Some NDir.
Proof.
  intros Hwf. revert n. induction q as [|x q IH] using rev_ind; intros n H Hq; [done|].
  rewrite app_assoc in H. apply (wf_parent _ Hwf) in H.
  destruct (decide (q = [])) as [->|]; [by rewrite app_nil_r in H|by eapply IH].
Qed.

Lemma fs_wf_below_nondir fs p q :
  fs_wf fs -> fs !! p <> Some NDir -> q <> [] -> fs !! (p ++ q) = None.
Proof.
  intros Hwf Hp Hq. destruct (fs !! (p ++ q)) eqn:E; [|done].
  by apply (fs_wf_prefix _ _ _ _ Hwf) in E.
Qed.

(** A path below something that is not there is reported as not existing. *)
Lemma fs_wf_not_blocked fs p q :
  fs_wf fs -> fs !! p = Some NDir -> q `prefix_of` p -> fs !! q = Some NDir.
Proof.
  intros Hwf Hp [k ->]. destruct (decide (k = [])) as [->|]; [by rewrite app_nil_r in Hp|].
  by eapply fs_wf_prefix.
Qed.

Lemma missing_errno_child fs p x :
  fs_wf fs -> fs !! p = Some NDir -> missing_errno fs (p ++ [x]) = ENOENT.
Proof.
  intros Hwf Hp. unfold missing_errno.
  destruct (existsb _ _) eqn:E; [|done]. apply existsb_exists in E as (q & Hq & Hb).
  apply list_elem_of_In in Hq. unfold prefixes in Hq.
  apply list_elem_of_fmap in Hq as (n & -> & Hn%elem_of_seq).
  rewrite length_app in Hn. cbn in Hn.
  rewrite take_app_le in Hb by lia.
  by rewrite (fs_wf_not_blocked fs p) in Hb by (done || by apply prefix_take).
Qed.

Lemma missing_errno_below fs p x k :
  fs_wf fs -> fs !! p = Some NDir -> fs !! (p ++ [x]) = None ->
  missing_errno fs (p ++ x :: k) = ENOENT.
Proof.
  intros Hwf Hp Hx. unfold missing_errno.
  destruct (existsb _ _) eqn:E; [|done]. apply existsb_exists in E as (q & Hq & Hb).
  apply list_elem_of_In in Hq. unfold prefixes in Hq.
  apply list_elem_of_fmap in Hq as (n & -> & _).
  destruct (decide (n <= length p)) as [Hn|Hn].
  - rewrite take_app_le in Hb by done.
    by rewrite (fs_wf_not_blocked fs p) in Hb by (done || by apply prefix_take).
  - rewrite take_app_ge in Hb by lia. destruct (n - length p) as [|m] eqn:Em; [lia|]. cbn in Hb.
    change (x :: take m k) with ([x] ++ take m k) in Hb. rewrite app_assoc in Hb.
    destruct (decide (take m k = [])) as [E'|E']; [by rewrite E', app_nil_r, Hx in Hb|].
    by rewrite fs_wf_below_nondir in Hb by (done || congruence).
Qed.

Lemma fs_wf_remove_tree fs p : fs_wf fs -> p <> [] -> fs_wf (remove_tree p fs).
Proof.
  intros Hwf Hp. split.
  - rewrite lookup_remove_tree, decide_False; [apply Hwf|].
    intros [k E]. by destruct p.
  - intros q x n. rewrite !lookup_remove_tree. case_decide as H1; [done|].
    intros Hq%(wf_parent _ Hwf). rewrite decide_False; [done|].
    intros H2. apply H1. by apply prefix_app_r.
Qed.

Lemma fs_wf_insert_file fs d x c :
  fs_wf fs -> fs !! d = Some NDir -> fs !! (d ++ [x]) <> Some NDir ->
  fs_wf (<[d ++ [x] := NFile c]> fs).
Proof.
  intros Hwf Hd Hx. split.
  - rewrite lookup_insert_ne; [apply Hwf|by destruct d].
  - intros p y n. destruct (decide (p ++ [y] = d ++ [x])) as [Heq|Hne].
    + intros _. apply app_inj_tail in Heq as [-> ->].
      rewrite lookup_insert_ne; [done|]. intros E. apply (f_equal length) in E.
      rewrite length_app in E. cbn in E. lia.
    + rewrite lookup_insert_ne by congruence. intros H%(wf_parent _ Hwf).
      destruct (decide (d ++ [x] = p)) as [<-|]; [done|]. by rewrite lookup_insert_ne.
Qed.

Lemma fs_wf_insert_dir fs d x :
  fs_wf fs -> fs !! d = Some NDir -> (forall n, fs !! (d ++ [x]) = Some n -> n = NDir) ->
  fs_wf (<[d ++ [x] := NDir]> fs).
Proof.
  intros Hwf Hd Hx. split.
  - rewrite lookup_insert_ne; [apply Hwf|by destruct d].
  - intros p y n. destruct (decide (p = d ++ [x])) as [->|Hp].
    + intros _. apply lookup_insert_eq.
    + rewrite (lookup_insert_ne _ _ p) by done.
      destruct (decide (p ++ [y] = d ++ [x])) as [Heq|Hne].
      * intros _. by apply app_inj_tail in Heq as [-> ->].
      * rewrite lookup_insert_ne by done. apply Hwf.
Qed.

(** mkdir -p of a child of an existing directory, complete or stopped half-way. *)
Lemma mkdirs_child fs d x :
  fs_wf fs -> fs !! d = Some NDir -> (forall n, fs !! (d ++ [x]) = Some n -> n = NDir) ->
  blocked fs (prefixes (d ++ [x]) ++ [d ++ [x]]) = false /\
  forall l, (forall q, q ∈ l -> q `prefix_of` d ++ [x]) ->
    mkdirs fs l = if decide (d ++ [x] ∈ l) then <[d ++ [x] := NDir]> fs else fs.
Proof.
  intros Hwf Hd Hx.
  assert (Hpre : forall q, q `prefix_of` d ++ [x] -> q = d ++ [x] \/ fs !! q = Some NDir).
  { intros q Hq. destruct (decide (q = d ++ [x])) as [|Hne]; [by left|right].
    apply (fs_wf_not_blocked fs d); [done..|]. destruct Hq as [k Hk].
    destruct k as [|y k _] using rev_ind; [by rewrite app_nil_r in Hk|].
    rewrite app_assoc in Hk. apply app_inj_tail in Hk as [-> _]. by exists k. }
  split.
  - unfold blocked. destruct (existsb _ _) eqn:E; [|done].
    apply existsb_exists in E as (q & Hq & Hb). apply list_elem_of_In, elem_of_prefixes in Hq.
    destruct (Hpre q Hq) as [->|H]; [|by rewrite H in Hb].
    destruct (fs !! (d ++ [x])) as [n|] eqn:E; [|done]. by rewrite (Hx n) in Hb.
  - intros l Hl. apply map_eq. intros q. rewrite lookup_mkdirs.
    destruct (decide (q = d ++ [x])) as [->|Hne].
    + destruct (fs !! (d ++ [x])) as [n|] eqn:E.
      * rewrite (Hx n) by done. case_decide; [by rewrite lookup_insert_eq|]. by rewrite E, (Hx n).
      * case_decide; [by rewrite lookup_insert_eq|done].
    + assert (Hr : (if decide (d ++ [x] ∈ l) then <[d ++ [x] := NDir]> fs else fs) !! q = fs !! q)
        by (case_decide; [by rewrite lookup_insert_ne|done]).
      rewrite Hr. destruct (fs !! q) eqn:E; [done|]. rewrite decide_False; [done|].
      intros Hq%Hl. destruct (Hpre q Hq); congruence.
Qed.

(** The paths [MkdirAll] makes. *)
Lemma elem_of_take_prefixes p k q : q ∈ take k (prefixes p ++ [p]) -> q `prefix_of` p.
Proof.
  intros (i & Hi & _)%elem_of_take. apply elem_of_prefixes. by apply list_elem_of_lookup_2 in Hi.
Qed.

Lemma mkdirs_child_all fs d x :
  fs_wf fs -> fs !! d = Some NDir -> (forall n, fs !! (d ++ [x]) = Some n -> n = NDir) ->
  mkdirs fs (prefixes (d ++ [x]) ++ [d ++ [x]]) = <[d ++ [x] := NDir]> fs.
Proof.
  intros Hwf Hd Hx. destruct (mkdirs_child fs d x Hwf Hd Hx) as [_ ->].
  - rewrite decide_True; [done|]. by apply elem_of_prefixes.
  - intros q. apply elem_of_prefixes.
Qed.

(** Renaming a file. *)
Lemma move_tree_file fs p q c :
  fs_wf fs -> fs !! p = Some (NFile c) -> fs !! q <> Some NDir -> p <> q ->
  move_tree p q fs = <[q := NFile c]> (delete p fs).
Proof.
  intros Hwf Hp Hq Hne. apply map_eq. intros x. rewrite lookup_move_tree.
  destruct (decide (q `prefix_of` x)) as [[z ->]|Hqx].
  - rewrite drop_app_length. destruct (decide (z = [])) as [->|Hz].
    + by rewrite !app_nil_r, lookup_insert_eq.
    + rewrite lookup_insert_ne by (intros E; apply (f_equal length) in E;
        rewrite length_app in E; destruct z; [done|cbn in E; lia]).
      rewrite (fs_wf_below_nondir fs p z) by (done || congruence).
      destruct (decide (p = q ++ z)) as [->|]; [by rewrite lookup_delete_eq|].
      rewrite lookup_delete_ne by done. by rewrite (fs_wf_below_nondir fs q z).
  - rewrite lookup_insert_ne by (intros ->; by apply Hqx).
    destruct (decide (p `prefix_of` x)) as [[z ->]|Hpx].
    + destruct (decide (z = [])) as [->|Hz]; [by rewrite app_nil_r, lookup_delete_eq|].
      rewrite lookup_delete_ne by (intros E; apply (f_equal length) in E;
        rewrite length_app in E; destruct z; [done|cbn in E; lia]).
      by rewrite (fs_wf_below_nondir fs p z) by (done || congruence).
    + rewrite lookup_delete_ne; [done|]. intros ->. by apply Hpx.
Qed.

Lemma fs_wf_delete_file fs p : fs_wf fs -> fs !! p <> Some NDir -> fs_wf (delete p fs).
Proof.
  intros Hwf Hp. split.
  - rewrite lookup_delete_ne; [apply Hwf|]. intros ->. by destruct Hp; apply Hwf.
  - intros q y n Hq. apply lookup_delete_Some in Hq as [_ Hq%(wf_parent _ Hwf)].
    rewrite lookup_delete_ne; congruence.
Qed.

(** ** Paths inside a directory *)

Lemma at_path_Join w d n :
  d <> "" -> proper n = true -> at_path w (PathJoin [d; n]) = at_path w d ++ [n].
Proof. apply resolve_Join. Qed.

Lemma Join_entry w d n :
  d <> "" -> proper n = true ->
  PathJoin [d; n] <> "" /\ at_path w (PathJoin [d; n]) = at_path w d ++ [n].
Proof. intros Hd Hn. split; [by apply Join_nonempty|by apply at_path_Join]. Qed.

Lemma at_path_set_fs fs w s : at_path (set_fs fs w) s = at_path w s.
Proof. done. Qed.

(** A file can be created or truncated at [p]. *)
Definition can_create (fs : gmap path node) (p : path) : Prop :=
  (exists c, fs !! p = Some (NFile c)) \/ (fs !! p = None /\ parent_errno fs p = None).

Lemma can_create_sibling fs d x y c :
  x <> y -> can_create fs (d ++ [x]) -> can_create (<[d ++ [y] := NFile c]> fs) (d ++ [x]).
Proof.
  intros Hne H. unfold can_create, parent_errno in *. rewrite removelast_last in *.
  assert (Hxy : d ++ [y] <> d ++ [x]) by (intros E; apply app_inv_head in E; congruence).
  rewrite (lookup_insert_ne _ _ (d ++ [x])) by done. destruct H as [H|[Hn H]]; [by left|right].
  split; [done|]. rewrite lookup_insert_ne by path_ne.
  destruct (d ++ [x]); [done|]. by destruct (fs !! d) as [[]|].
Qed.

Lemma can_create_child fs d n :
  fs !! d = Some NDir ->
  match fs !! (d ++ [n]) with Some (NFile _) | None => true | _ => false end = true ->
  can_create fs (d ++ [n]).
Proof.
  intros Hd Hn. destruct (fs !! (d ++ [n])) as [[c| |]|] eqn:E; try done.
  - left. eauto.
  - right. split; [done|]. unfold parent_errno. rewrite removelast_last, Hd.
    by destruct (d ++ [n]) eqn:E2; [destruct d|].
Qed.

(** The entries os.ReadDir lists. *)
Lemma elem_of_children p fs e :
  e ∈ children p fs <->
  exists n, fs !! (p ++ [de_name e]) = Some n /\ de_isdir e = bool_decide (n = NDir).
Proof.
  unfold children. rewrite merge_sort_Permutation, list_elem_of_omap. split.
  - intros ([q n] & Hq%elem_of_map_to_list & Hl). cbn in Hl.
    destruct q as [|x q _] using rev_ind; [done|]. rewrite last_snoc, removelast_last in Hl.
    case_decide as Hp; [|done]. injection Hl as <-. subst q. by exists n.
  - intros (n & Hn & Hd). exists (p ++ [de_name e], n). split; [by apply elem_of_map_to_list|].
    cbn. rewrite last_snoc, removelast_last, decide_True by done. f_equal. destruct e. by cbn in *; subst.
Qed.

Lemma children_NoDup p fs : NoDup (de_name <$> children p fs).
Proof.
  unfold children. rewrite merge_sort_Permutation.
  pose proof (NoDup_fst_map_to_list fs) as Hnd. revert Hnd. generalize (map_to_list fs). intros l.
  induction l as [|[q n] l IH]; [constructor|]. intros [Hq Hnd]%NoDup_cons. cbn [omap list_omap].
  destruct q as [|x q _] using rev_ind; cbn [fst last]; [by apply IH|].
  rewrite last_snoc, removelast_last. case_decide as Hp; [|by apply IH]. subst q.
  rewrite fmap_cons. constructor; [|by apply IH]. cbn [de_name].
  intros (e & -> & ([q m] & Hin & Hl)%list_elem_of_omap)%list_elem_of_fmap. cbn in Hl.
  destruct q as [|y q _] using rev_ind; [done|]. rewrite last_snoc, removelast_last in Hl.
  case_decide as Hp; [|done]. injection Hl as <-. subst q. cbn in Hq.
  apply Hq. apply list_elem_of_fmap. by exists (p ++ [y], m).
Qed.

(** ** Fault-free runs *)

Definition nofault (w : world) : Prop := w_faults w = [].

Lemma syscall_run {A} fail (m : M A) w : nofault w -> syscall fail m w = m w.
Proof. intros H. unfold syscall. by rewrite H. Qed.

Lemma bind_run {A B} (m : M A) (f : A -> M B) w a w' :
  m w = (Ret a, w') -> (m ≫= f) w = f a w'.
Proof. intros H. unfold mbind, M_bind. by rewrite H. Qed.

Lemma bind_err {A B} (m : M A) (f : A -> M B) w e w' :
  m w = (Err e, w') -> (m ≫= f) w = (Err e, w').
Proof. intros H. unfold mbind, M_bind. by rewrite H. Qed.

Lemma bind_diverge {A B} (m : M A) (f : A -> M B) w w' :
  m w = (Diverge, w') -> (m ≫= f) w = (Diverge, w').
Proof. intros H. unfold mbind, M_bind. by rewrite H. Qed.

Lemma attempt_run {A} (m : M A) w a w' : m w = (Ret a, w') -> attempt m w = (Ret (inr a), w').
Proof. intros H. unfold attempt. by rewrite H. Qed.

Lemma attempt_err {A} (m : M A) w e w' : m w = (Err e, w') -> attempt m w = (Ret (inl e), w').
Proof. intros H. unfold attempt. by rewrite H. Qed.

Lemma wrap_err_run {A} c s (m : M A) w a w' : m w = (Ret a, w') -> wrap_err c s m w = (Ret a, w').
Proof. intros H. unfold wrap_err. by rewrite (bind_run _ _ _ _ _ (attempt_run _ _ _ _ H)). Qed.

Lemma ignore_run {A} (m : M A) w a w' : m w = (Ret a, w') -> ignore m w = (Ret tt, w').
Proof. intros H. unfold ignore. by rewrite (bind_run _ _ _ _ _ (attempt_run _ _ _ _ H)). Qed.

(** What a successful bind did. *)
Lemma bind_inv {A B} (m : M A) (f : A -> M B) w b w' :
  (m ≫= f) w = (Ret b, w') -> exists a w1, m w = (Ret a, w1) /\ f a w1 = (Ret b, w').
Proof. unfold mbind, M_bind. destruct (m w) as [[a|e| |] w1]; naive_solver. Qed.

Lemma attempt_inv {A} (m : M A) w r w' :
  attempt m w = (Ret r, w') ->
  (exists a, r = inr a /\ m w = (Ret a, w')) \/ (exists e, r = inl e /\ m w = (Err e, w')).
Proof. unfold attempt. destruct (m w) as [[a|e| |] w1]; intros [= <- <-]; eauto. Qed.

Lemma ignore_inv {A} (m : M A) w u w' : ignore m w = (Ret u, w') -> w' = (m w).2.
Proof.
  unfold ignore. intros (r & w1 & H & E)%bind_inv. injection E as _ <-.
  apply attempt_inv in H as [(a & _ & ->)|(e & _ & ->)]; done.
Qed.

Lemma find_node_some w s n :
  s <> "" -> w_fs w !! at_path w s = Some n -> find_node w s = inr n.
Proof. intros Hs H. unfold find_node. by rewrite decide_False, H. Qed.

Lemma find_node_none w s :
  s <> "" -> w_fs w !! at_path w s = None ->
  find_node w s = inl (missing_errno (w_fs w) (at_path w s)).
Proof. intros Hs H. unfold find_node. by rewrite decide_False, H. Qed.

Section runs.
Context (w : world) (Hnf : nofault w).

Lemma Stat_run s n :
  s <> "" -> w_fs w !! at_path w s = Some n -> Stat s w = (Ret n, w).
Proof using Hnf.
  intros. unfold Stat. rewrite syscall_run by done. by rewrite (find_node_some w s n).
Qed.

Lemma Open_run s n :
  s <> "" -> w_fs w !! at_path w s = Some n -> n <> NSock ->
  Open s w = (Ret (File s (at_path w s)), w).
Proof using Hnf.
  intros. unfold Open. rewrite syscall_run by done. rewrite (find_node_some w s n) by done.
  by destruct n.
Qed.

Lemma Open_missing s :
  s <> "" -> w_fs w !! at_path w s = None ->
  Open s w = (Err (EPath "open" s (missing_errno (w_fs w) (at_path w s))), w).
Proof using Hnf.
  intros. unfold Open. rewrite syscall_run by done. by rewrite find_node_none.
Qed.

Lemma Create_run s p :
  s <> "" -> at_path w s = p -> can_create (w_fs w) p ->
  Create s w = (Ret (File s p), set_fs (<[p := NFile []]> (w_fs w)) w).
Proof using Hnf.
  intros Hs <- Hp. unfold Create, open_create. rewrite syscall_run by done.
  rewrite decide_False by done.
  by destruct Hp as [[c ->]|[-> ->]].
Qed.

Lemma fwrite_run f data :
  fwrite f data w = (Ret tt, set_fs (append_at (f_path f) data (w_fs w)) w).
Proof using Hnf. unfold fwrite. by rewrite syscall_run. Qed.

Lemma fread_run f c :
  w_fs w !! f_path f = Some (NFile c) -> fread f w = (Ret c, w).
Proof using Hnf. intros H. unfold fread, file_bytes. rewrite syscall_run by done. by rewrite H. Qed.

Lemma ReadFile_run s c :
  s <> "" -> w_fs w !! at_path w s = Some (NFile c) -> ReadFile s w = (Ret c, w).
Proof using Hnf.
  intros. unfold ReadFile. erewrite bind_run by (by eapply Open_run). by apply fread_run.
Qed.

Lemma ReadAt_run f n off c :
  w_fs w !! f_path f = Some (NFile c) -> (0 <= off)%Z -> (0 <= n)%Z ->
  (off + n <= Z.of_nat (length c))%Z ->
  ReadAt f n off w = (Ret (slice (Z.to_nat off) (Z.to_nat (off + n)) c), w).
Proof using Hnf.
  intros Hc H0 H1 H2. unfold ReadAt. rewrite decide_False by lia. case_decide.
  - replace n with 0%Z by lia. rewrite Z.add_0_r. unfold slice. by rewrite Nat.sub_diag.
  - rewrite syscall_run by done. unfold file_bytes. rewrite Hc. by rewrite decide_True.
Qed.

Lemma RemoveAll_missing s :
  s <> "" -> ends_with_dot s = false -> w_fs w !! at_path w s = None ->
  missing_errno (w_fs w) (at_path w s) = ENOENT ->
  RemoveAll s w = (Ret tt, w).
Proof using Hnf.
  intros Hs Hd H H'. unfold RemoveAll. rewrite decide_False, Hd, syscall_run by done.
  by rewrite H, H'.
Qed.

Lemma RemoveAll_run s n :
  s <> "" -> ends_with_dot s = false -> w_fs w !! at_path w s = Some n -> at_path w s <> [] ->
  RemoveAll s w = (Ret tt, set_fs (remove_tree (at_path w s) (w_fs w)) w).
Proof using Hnf.
  intros Hs Hd H H'. unfold RemoveAll. rewrite decide_False, Hd, syscall_run by done.
  by rewrite H, decide_False.
Qed.

Lemma MkdirAll_run s :
  s <> "" -> blocked (w_fs w) (prefixes (at_path w s) ++ [at_path w s]) = false ->
  MkdirAll s w =
    (Ret tt, set_fs (mkdirs (w_fs w) (prefixes (at_path w s) ++ [at_path w s])) w).
Proof using Hnf.
  intros Hs Hb. unfold MkdirAll. rewrite syscall_run by done.
  by rewrite decide_False, Hb by done.
Qed.
End runs.

Lemma Rename_body_file w old new p q c :
  fs_wf (w_fs w) -> old <> "" -> new <> "" ->
  at_path w old = p -> at_path w new = q -> p <> q ->
  w_fs w !! p = Some (NFile c) -> w_fs w !! q <> Some NDir ->
  parent_errno (w_fs w) q = None ->
  Rename_body old new w = (Ret tt, set_fs (<[q := NFile c]> (delete p (w_fs w))) w).
Proof.
  intros Hwf Ho Hn <- <- Hne Hp Hq Hpar. unfold Rename_body.
  rewrite (find_node_some w old (NFile c)) by done.
  rewrite <- (move_tree_file (w_fs w) (at_path w old) (at_path w new) c) by done.
  rewrite (decide_False (P := new = "")) by done. rewrite Hpar.
  rewrite (decide_False (P := NFile c = NDir /\ _)) by (intros [? _]; done).
  unfold find_node. rewrite decide_False by done.
  by destruct (w_fs w !! at_path w new) as [[]|].
Qed.

Lemma Rename_file_run w old new p q c :
  nofault w -> fs_wf (w_fs w) -> old <> "" -> new <> "" ->
  at_path w old = p -> at_path w new = q -> p <> q ->
  w_fs w !! p = Some (NFile c) -> w_fs w !! q <> Some NDir ->
  parent_errno (w_fs w) q = None ->
  Rename old new w = (Ret tt, set_fs (<[q := NFile c]> (delete p (w_fs w))) w).
Proof. intros. unfold Rename. rewrite syscall_run by done. by apply Rename_body_file. Qed.

Lemma parent_errno_child fs d x : fs !! d = Some NDir -> parent_errno fs (d ++ [x]) = None.
Proof.
  intros Hd. unfold parent_errno. rewrite removelast_last, Hd.
  by destruct (d ++ [x]) eqn:E; [destruct d|].
Qed.

Lemma WriteFile_run w s p data :
  nofault w -> s <> "" -> at_path w s = p -> can_create (w_fs w) p ->
  WriteFile s data w = (Ret tt, set_fs (<[p := NFile data]> (w_fs w)) w).
Proof.
  intros Hnf Hs Hp Hc. unfold WriteFile.
  erewrite bind_run by (by eapply Create_run). rewrite fwrite_run by done.
  cbn. by rewrite append_at_insert.
Qed.

(** ** Runs under any fault schedule *)

(** A system call either runs or fails; either way it consumes an entry. *)
Lemma syscall_any {A} fail (m : M A) w :
  exists l, syscall fail m w = m (set_faults l w) \/
            exists f, syscall fail m w = fail f (set_faults l w).
Proof.
  unfold syscall. destruct (w_faults w) as [|[f|] l] eqn:E; [exists []|exists l|exists l]; eauto.
  left. by destruct w; cbn in *; subst.
Qed.

Lemma Stat_any s w :
  exists l, (exists n, Stat s w = (Ret n, set_faults l w) /\ find_node w s = inr n) \/
            (exists e, Stat s w = (Err e, set_faults l w)).
Proof.
  unfold Stat. destruct (syscall_any (fail_with "stat" s) (fun w =>
    match find_node w s with
    | inr n => (Ret n, w)
    | inl e => (Err (EPath "stat" s e), w)
    end) w) as (l & [->|[f ->]]); exists l; [|right; by eexists].
  change (find_node (set_faults l w) s) with (find_node w s).
  destruct (find_node w s); eauto.
Qed.

Lemma Create_any w s p :
  s <> "" -> at_path w s = p -> can_create (w_fs w) p ->
  exists l, Create s w = (Ret (File s p), set_fs (<[p := NFile []]> (w_fs w)) (set_faults l w)) \/
            exists e, Create s w = (Err e, set_faults l w).
Proof.
  intros Hs <- Hp. unfold Create, open_create.
  match goal with |- context [syscall ?a ?b] => destruct (syscall_any a b w) as (l & [->|[f ->]]) end;
    exists l; [left|right; by eexists].
  change (at_path (set_faults l w) s) with (at_path w s). cbn [w_fs set_faults].
  rewrite decide_False by done. by destruct Hp as [[c ->]|[-> ->]].
Qed.

Lemma fwrite_any w f data :
  exists l, fwrite f data w = (Ret tt, set_fs (append_at (f_path f) data (w_fs w)) (set_faults l w)) \/
            exists e k, fwrite f data w =
              (Err e, set_fs (append_at (f_path f) (take k data) (w_fs w)) (set_faults l w)).
Proof.
  unfold fwrite.
  match goal with |- context [syscall ?a ?b] => destruct (syscall_any a b w) as (l & [->|[g ->]]) end;
    exists l; [by left|right; by do 2 eexists].
Qed.

(** Writing a file: on an error the entry is as it was, or a file. *)
Lemma WriteFile_any w s p data :
  s <> "" -> at_path w s = p -> can_create (w_fs w) p ->
  exists l, WriteFile s data w = (Ret tt, set_fs (<[p := NFile data]> (w_fs w)) (set_faults l w)) \/
            exists e fs, WriteFile s data w = (Err e, set_fs fs (set_faults l w)) /\
              (fs = w_fs w \/ exists d, fs = <[p := NFile d]> (w_fs w)).
Proof.
  intros Hs Hp Hc. unfold WriteFile, mbind, M_bind.
  destruct (Create_any w s p Hs Hp Hc) as (l & [->|[e ->]]).
  - destruct (fwrite_any (set_fs (<[p := NFile []]> (w_fs w)) (set_faults l w)) (File s p) data)
      as (l' & [->|(e & k & ->)]); exists l'; [left|right]; cbn; rewrite append_at_insert.
    + done.
    + do 2 eexists. split; [done|]. right. by eexists.
  - exists l. right. exists e, (w_fs w). split; [by destruct w|by left].
Qed.

Lemma MkdirAll_any w s :
  s <> "" -> let l0 := prefixes (at_path w s) ++ [at_path w s] in blocked (w_fs w) l0 = false ->
  exists l, MkdirAll s w = (Ret tt, set_fs (mkdirs (w_fs w) l0) (set_faults l w)) \/
            exists e k, MkdirAll s w = (Err e, set_fs (mkdirs (w_fs w) (take k l0)) (set_faults l w)).
Proof.
  intros Hs l0 Hb. unfold MkdirAll.
  match goal with |- context [syscall ?a ?b] => destruct (syscall_any a b w) as (l & [->|[f ->]]) end;
    exists l; [left|right]; change (at_path (set_faults l w) s) with (at_path w s);
    cbn [w_fs set_faults]; fold l0; rewrite Hb.
  - by rewrite decide_False.
  - by do 2 eexists.
Qed.

Lemma Rename_file_any w old new p q c :
  fs_wf (w_fs w) -> old <> "" -> new <> "" ->
  at_path w old = p -> at_path w new = q -> p <> q ->
  w_fs w !! p = Some (NFile c) -> w_fs w !! q <> Some NDir ->
  parent_errno (w_fs w) q = None ->
  exists l, Rename old new w =
              (Ret tt, set_fs (<[q := NFile c]> (delete p (w_fs w))) (set_faults l w)) \/
            exists e, Rename old new w = (Err e, set_faults l w).
Proof.
  intros Hwf Ho Hn Hp Hq Hne Hfp Hfq Hpar.
  destruct (syscall_any (fun flt => throw (ELink "rename" old new (f_errno flt)))
    (Rename_body old new) w) as (l & H). exists l. unfold Rename.
  destruct H as [->|[f ->]]; [left|right; by eexists].
  by apply (Rename_body_file (set_faults l w)).
Qed.

Lemma Remove_file_any w s p :
  s <> "" -> at_path w s = p -> w_fs w !! p <> Some NDir ->
  exists l, Remove s w = (Ret tt, set_fs (delete p (w_fs w)) (set_faults l w)) \/
            exists e, Remove s w = (Err e, set_faults l w).
Proof.
  intros Hs <- Hp. unfold Remove.
  match goal with |- context [syscall ?a ?b] => destruct (syscall_any a b w) as (l & [->|[f ->]]) end;
    exists l; [|right; by eexists].
  change (find_node (set_faults l w) s) with (find_node w s).
  change (at_path (set_faults l w) s) with (at_path w s). cbn [w_fs set_faults].
  unfold find_node. rewrite decide_False by done.
  destruct (w_fs w !! at_path w s) as [[]|]; [by left|done|by left|right; by eexists].
Qed.

(** A world with an empty image directory, for concrete runs. *)
Definition demo_world : world :=
  World (<[[] := NDir]> (<[["img"] := NDir]> ∅)) (fun _ => 0%Z) [] ∅ 0%Z ∅ ∅ [] ∅ "".

(** ** Frames: what a computation can touch, whatever the fault schedule *)

Definition frame (S : path -> Prop) (w w' : world) : Prop :=
  w_cwd w' = w_cwd w /\ w_env w' = w_env w /\ w_mtime w' = w_mtime w /\
  forall q, ~ S q -> w_fs w' !! q = w_fs w !! q.

Lemma frame_refl S w : frame S w w.
Proof. done. Qed.

Lemma frame_trans S w1 w2 w3 : frame S w1 w2 -> frame S w2 w3 -> frame S w1 w3.
Proof.
  intros (H1 & H2 & H3 & H4) (K1 & K2 & K3 & K4).
  repeat split; try congruence. intros q Hq. by rewrite K4, H4.
Qed.

#[export] Instance frame_preorder S : PreOrder (frame S).
Proof. split; [intros w; apply frame_refl|intros ???; apply frame_trans]. Qed.

Lemma frame_weaken (S T : path -> Prop) w w' :
  (forall q, S q -> T q) -> frame S w w' -> frame T w w'.
Proof. intros H (H1 & H2 & H3 & H4). repeat split; auto. Qed.

(** [framed cwd S m]: run from the working directory [cwd], the computation
    changes no entry outside [S], whatever fails and wherever it stops. *)
Definition framed {A} (cwd : path) (S : path -> Prop) (m : M A) : Prop :=
  forall w, w_cwd w = cwd -> frame S w (m w).2.

Section framed.
Context (cwd : path) (S : path -> Prop).

Lemma framed_ret {A} (a : A) : framed cwd S (mret a).
Proof. intros w _. apply frame_refl. Qed.

Lemma framed_throw {A} e : framed cwd S (throw (A:=A) e).
Proof. intros w _. apply frame_refl. Qed.

Lemma framed_panic {A} : framed cwd S (panic (A:=A)).
Proof. intros w _. apply frame_refl. Qed.

Lemma framed_diverge {A} : framed cwd S (diverge (A:=A)).
Proof. intros w _. apply frame_refl. Qed.

Lemma framed_bind {A B} (m : M A) (f : A -> M B) :
  framed cwd S m -> (forall a, framed cwd S (f a)) -> framed cwd S (m ≫= f).
Proof.
  intros Hm Hf w Hw. specialize (Hm w Hw). unfold mbind, M_bind.
  destruct (m w) as [[a|e| |] w1]; cbn in *; try done.
  etrans; [exact Hm|]. apply Hf. destruct Hm as [-> _]. done.
Qed.

Lemma framed_attempt {A} (m : M A) : framed cwd S m -> framed cwd S (attempt m).
Proof.
  intros Hm w Hw. specialize (Hm w Hw). unfold attempt.
  by destruct (m w) as [[a|e| |] w1].
Qed.

Lemma framed_ignore {A} (m : M A) : framed cwd S m -> framed cwd S (ignore m).
Proof. intros. apply framed_bind; [by apply framed_attempt|intros; apply framed_ret]. Qed.

Lemma framed_wrap {A} c s (m : M A) : framed cwd S m -> framed cwd S (wrap_err c s m).
Proof.
  intros. apply framed_bind; [by apply framed_attempt|].
  intros [e|a]; [apply framed_throw|apply framed_ret].
Qed.

Lemma framed_gets {A} (f : world -> A) : framed cwd S (gets f).
Proof. intros w _. apply frame_refl. Qed.

Lemma framed_forM {A} (l : list A) f :
  (forall a, framed cwd S (f a)) -> framed cwd S (forM_ l f).
Proof.
  intros Hf. induction l as [|a l IH]; cbn; [apply framed_ret|].
  apply framed_bind; auto.
Qed.

Lemma framed_syscall {A} fail (m : M A) :
  (forall f, framed cwd S (fail f)) -> framed cwd S m -> framed cwd S (syscall fail m).
Proof.
  intros Hf Hm w Hw. unfold syscall.
  assert (H : forall l, frame S w (set_faults l w)) by done.
  destruct (w_faults w) as [|[f|] l]; [by apply Hm| |];
    (etrans; [apply (H l)|]); [by apply Hf|by apply Hm].
Qed.
End framed.

(** A bind whose continuation may rely on what the first part returns. *)
Lemma framed_bind_post {A B} cwd S (m : M A) (Q : A -> Prop) (f : A -> M B) :
  framed cwd S m -> (forall w a w', w_cwd w = cwd -> m w = (Ret a, w') -> Q a) ->
  (forall a, Q a -> framed cwd S (f a)) -> framed cwd S (m ≫= f).
Proof.
  intros Hm HQ Hf w Hw. specialize (Hm w Hw). specialize (HQ w). unfold mbind, M_bind.
  destruct (m w) as [[a|e| |] w1]; cbn in *; try done.
  etrans; [exact Hm|]. apply Hf; [by eapply HQ|]. by destruct Hm as [-> _].
Qed.

Lemma framed_weaken {A} cwd (S T : path -> Prop) (m : M A) :
  (forall q, S q -> T q) -> framed cwd S m -> framed cwd T m.
Proof. intros H Hm w Hw. eapply frame_weaken; [exact H|by apply Hm]. Qed.

Lemma frame_set_fs S fs w :
  (forall q, ~ S q -> fs !! q = w_fs w !! q) -> frame S w (set_fs fs w).
Proof. done. Qed.

(** ** Frames of the system calls *)

Section framed_calls.
Context (cwd : path) (S : path -> Prop).

Lemma framed_Stat s : framed cwd S (Stat s).
Proof.
  apply framed_syscall; [intros; apply framed_throw|]. intros w _. by destruct (find_node w s).
Qed.

Lemma framed_Open s : framed cwd S (Open s).
Proof.
  apply framed_syscall; [intros; apply framed_throw|]. intros w _.
  by destruct (find_node w s) as [|[]].
Qed.

Lemma framed_fread f : framed cwd S (fread f).
Proof.
  apply framed_syscall; [intros; apply framed_throw|]. intros w _. by destruct (file_bytes w f).
Qed.

Lemma framed_ReadAt f n off : framed cwd S (ReadAt f n off).
Proof.
  unfold ReadAt. case_decide; [apply framed_throw|]. case_decide; [apply framed_ret|].
  apply framed_syscall; [intros; apply framed_throw|]. intros w _.
  destruct (file_bytes w f); [done|]. by case_decide.
Qed.

Lemma framed_ReadFile s : framed cwd S (ReadFile s).
Proof. apply framed_bind; [apply framed_Open|intros; apply framed_fread]. Qed.

Lemma framed_ReadDir s : framed cwd S (ReadDir s).
Proof.
  apply framed_syscall; [intros; apply framed_throw|]. intros w _.
  by destruct (find_node w s) as [|[]].
Qed.

Lemma framed_fwrite f data : S (f_path f) -> framed cwd S (fwrite f data).
Proof.
  intros Hf. apply framed_syscall; intros; intros w _; apply frame_set_fs; intros q Hq;
    apply lookup_append_at_ne; congruence.
Qed.

Lemma framed_Create s : S (resolve cwd s) -> framed cwd S (Create s).
Proof.
  intros Hs. apply framed_syscall; [intros; apply framed_throw|]. intros w Hw.
  unfold at_path. rewrite Hw. case_decide; [done|].
  assert (Hi : frame S w (set_fs (<[resolve cwd s := NFile []]> (w_fs w)) w))
    by (apply frame_set_fs; intros q Hq; apply lookup_insert_ne; congruence).
  destruct (w_fs w !! resolve cwd s) as [[]|]; try done. by destruct (parent_errno _ _).
Qed.

Lemma Create_path s w f w' : w_cwd w = cwd -> Create s w = (Ret f, w') -> f_path f = resolve cwd s.
Proof.
  intros Hw. unfold Create, open_create.
  match goal with |- context [syscall ?a ?b] => destruct (syscall_any a b w) as (l & [->|[g ->]]) end;
    [|done].
  change (at_path (set_faults l w) s) with (at_path w s). unfold at_path. rewrite Hw.
  case_decide; [done|]. cbn [w_fs set_faults].
  destruct (w_fs w !! resolve cwd s) as [[]|]; try done; [by intros [= <- _]|].
  destruct (parent_errno _ _); [done|by intros [= <- _]].
Qed.

(** Creating a file and going on with it. *)
Lemma framed_Create_bind {B} s (k : file -> M B) :
  S (resolve cwd s) -> (forall f, S (f_path f) -> framed cwd S (k f)) ->
  framed cwd S (Create s ≫= k).
Proof.
  intros Hs Hk. eapply (framed_bind_post _ _ _ (fun f => S (f_path f))); [by apply framed_Create| |done].
  intros w f w' Hw Hf. by rewrite (Create_path _ _ _ _ Hw Hf).
Qed.

Lemma framed_WriteFile s data : S (resolve cwd s) -> framed cwd S (WriteFile s data).
Proof. intros Hs. apply framed_Create_bind; [done|]. intros f. apply framed_fwrite. Qed.

Lemma frame_mkdirs fs l w :
  w_fs w = fs -> (forall q, q ∈ l -> S q) -> frame S w (set_fs (mkdirs fs l) w).
Proof.
  intros <- Hl. apply frame_set_fs. intros q Hq. rewrite lookup_mkdirs.
  destruct (w_fs w !! q); [done|]. rewrite decide_False; [done|]. by intros ?%Hl.
Qed.

Lemma framed_MkdirAll s :
  (forall q, q `prefix_of` resolve cwd s -> S q) -> framed cwd S (MkdirAll s).
Proof.
  intros Hs. apply framed_syscall; [intros flt|]; intros w Hw; unfold at_path; rewrite Hw.
  - cbn [snd]. destruct (blocked _ _); [done|]. apply frame_mkdirs; [done|].
    intros q Hq. apply Hs. by eapply elem_of_take_prefixes.
  - case_decide; [done|]. destruct (blocked _ _); [done|]. apply frame_mkdirs; [done|].
    intros q Hq%elem_of_prefixes. by apply Hs.
Qed.

Lemma framed_RemoveAll s :
  (forall q, resolve cwd s `prefix_of` q -> S q) -> framed cwd S (RemoveAll s).
Proof.
  intros Hs. unfold RemoveAll. case_decide; [apply framed_ret|].
  destruct (ends_with_dot s); [apply framed_throw|].
  apply framed_syscall; [intros flt|]; intros w Hw; unfold at_path; rewrite Hw.
  - apply frame_set_fs. intros q Hq. rewrite lookup_delete_all, decide_False; [done|].
    intros (i & Hi & _)%elem_of_take. apply list_elem_of_lookup_2, removal_order_below in Hi.
    by apply Hq, Hs.
  - destruct (w_fs w !! resolve cwd s) eqn:E; [|by destruct (missing_errno _ _)].
    case_decide as Hr.
    + apply frame_set_fs. intros q Hq. destruct Hq. apply Hs. rewrite Hr. apply prefix_nil.
    + apply frame_set_fs. intros q Hq. rewrite lookup_remove_tree, decide_False; [done|].
      by intros ?%Hs.
Qed.

Lemma framed_Remove s : S (resolve cwd s) -> framed cwd S (Remove s).
Proof.
  intros Hs. apply framed_syscall; [intros; apply framed_throw|]. intros w Hw.
  unfold at_path. rewrite Hw.
  assert (Hd : frame S w (set_fs (delete (resolve cwd s) (w_fs w)) w))
    by (apply frame_set_fs; intros q Hq; apply lookup_delete_ne; congruence).
  destruct (find_node w s) as [|[]]; try done. by destruct (existsb _ _).
Qed.

Lemma framed_Rename old new :
  (forall q, resolve cwd old `prefix_of` q \/ resolve cwd new `prefix_of` q -> S q) ->
  framed cwd S (Rename old new).
Proof.
  intros Hs. apply framed_syscall; [intros; apply framed_throw|]. intros w Hw. unfold Rename_body.
  unfold at_path. rewrite Hw.
  assert (Hm : frame S w (set_fs (move_tree (resolve cwd old) (resolve cwd new) (w_fs w)) w)).
  { apply frame_set_fs. intros q Hq. rewrite lookup_move_tree.
    rewrite !decide_False; [done| |]; intros H; apply Hq, Hs; auto. }
  repeat case_match; done.
Qed.
End framed_calls.

(** ** Computations that always come to an end *)

(** [ends m]: run in any world, [m] does not run out of fuel. *)
Definition ends {A} (m : M A) : Prop := forall w, (m w).1 <> Diverge.

Section terminating.
Lemma total_ret {A} (a : A) : ends (mret a).
Proof. done. Qed.
Lemma total_throw {A} e : ends (throw (A:=A) e).
Proof. done. Qed.
Lemma total_panic {A} : ends (panic (A:=A)).
Proof. done. Qed.

Lemma bind_ends {A B} (m : M A) (f : A -> M B) w :
  (m w).1 <> Diverge -> (forall a w', m w = (Ret a, w') -> (f a w').1 <> Diverge) ->
  ((m ≫= f) w).1 <> Diverge.
Proof.
  intros Hm Hf. unfold mbind, M_bind. destruct (m w) as [[a|e| |] w']; cbn in *; try done.
  by apply Hf.
Qed.

Lemma total_bind {A B} (m : M A) (f : A -> M B) :
  ends m -> (forall a, ends (f a)) -> ends (m ≫= f).
Proof. intros Hm Hf w. apply bind_ends; [apply Hm|]. intros. apply Hf. Qed.

Lemma total_attempt {A} (m : M A) : ends m -> ends (attempt m).
Proof. intros Hm w. specialize (Hm w). unfold attempt. by destruct (m w) as [[a|e| |] w']. Qed.

Lemma total_ignore {A} (m : M A) : ends m -> ends (ignore m).
Proof. intros. apply total_bind; [by apply total_attempt|done]. Qed.

Lemma total_wrap {A} c s (m : M A) : ends m -> ends (wrap_err c s m).
Proof. intros. apply total_bind; [by apply total_attempt|]. by intros []. Qed.

Lemma total_forM {A} (l : list A) f : (forall a, ends (f a)) -> ends (forM_ l f).
Proof. intros Hf. induction l; cbn; [done|]. by apply total_bind. Qed.

Lemma total_syscall {A} fail (m : M A) :
  (forall f, ends (fail f)) -> ends m -> ends (syscall fail m).
Proof. intros Hf Hm w. unfold syscall. destruct (w_faults w) as [|[f|] l]; auto; apply Hf. Qed.

Lemma total_Stat s : ends (Stat s).
Proof. apply total_syscall; [done|]. intros w. by destruct (find_node w s). Qed.
Lemma total_Open s : ends (Open s).
Proof. apply total_syscall; [done|]. intros w. by destruct (find_node w s) as [|[]]. Qed.
Lemma total_Create s : ends (Create s).
Proof.
  apply total_syscall; [done|]. intros w. case_decide; [done|].
  cbv zeta. repeat case_match; done.
Qed.
Lemma total_fwrite f d : ends (fwrite f d).
Proof. by apply total_syscall. Qed.
Lemma total_fread f : ends (fread f).
Proof. apply total_syscall; [done|]. intros w. by destruct (file_bytes w f). Qed.
Lemma total_ReadAt f n o : ends (ReadAt f n o).
Proof.
  unfold ReadAt. case_decide; [done|]. case_decide; [done|]. apply total_syscall; [done|].
  intros w. destruct (file_bytes w f); [done|]. by case_decide.
Qed.
Lemma total_ReadFile s : ends (ReadFile s).
Proof. apply total_bind; [apply total_Open|intros; apply total_fread]. Qed.
Lemma total_WriteFile s d : ends (WriteFile s d).
Proof. apply total_bind; [apply total_Create|intros; apply total_fwrite]. Qed.
End terminating.

#[export] Hint Resolve total_ret total_throw total_panic total_bind total_attempt total_ignore
  total_wrap total_forM total_Stat total_Open total_Create total_fwrite total_fread total_ReadAt
  total_ReadFile total_WriteFile : cudackpt.

(** What opening and reading a file leave of the world: the fault schedule is
    all that changes. *)
Lemma Open_inv s w f w' :
  Open s w = (Ret f, w') -> exists l, w' = set_faults l w /\ f_path f = at_path w s.
Proof.
  unfold Open.
  match goal with |- context [syscall ?a ?b] => destruct (syscall_any a b w) as (l & [->|[g ->]]) end;
    [|done].
  change (find_node (set_faults l w) s) with (find_node w s).
  destruct (find_node w s) as [|[]]; intros [= <- <-]; by exists l.
Qed.

Lemma fread_inv f w c w' :
  fread f w = (Ret c, w') -> exists l, w' = set_faults l w /\ w_fs w !! f_path f = Some (NFile c).
Proof.
  unfold fread.
  match goal with |- context [syscall ?a ?b] => destruct (syscall_any a b w) as (l & [->|[g ->]]) end;
    [|done].
  unfold file_bytes. cbn [w_fs set_faults]. destruct (w_fs w !! f_path f) as [[]|]; try done.
  intros [= <- <-]. by exists l.
Qed.

Lemma Open_any s w :
  exists l, (exists f, Open s w = (Ret f, set_faults l w) /\ f_path f = at_path w s) \/
            (exists e, Open s w = (Err e, set_faults l w)).
Proof.
  unfold Open.
  match goal with |- context [syscall ?a ?b] => destruct (syscall_any a b w) as (l & [->|[g ->]]) end;
    exists l; [|right; by eexists].
  change (find_node (set_faults l w) s) with (find_node w s).
  destruct (find_node w s) as [e|[]]; eauto.
Qed.

Lemma fread_any f w :
  exists l, (exists c, fread f w = (Ret c, set_faults l w) /\ w_fs w !! f_path f = Some (NFile c)) \/
            (exists e, fread f w = (Err e, set_faults l w)).
Proof.
  unfold fread.
  match goal with |- context [syscall ?a ?b] => destruct (syscall_any a b w) as (l & [->|[g ->]]) end;
    exists l; [|right; by eexists].
  unfold file_bytes. cbn [w_fs set_faults]. destruct (w_fs w !! f_path f) as [[]|]; eauto.
Qed.

(** Reading a whole file, whatever fails: the content, or an error, which
    without failing calls there is only when there is no file. *)
Lemma Open_fread_any s w :
  s <> "" ->
  let file := w_fs w !! at_path w s in
  let blameless := forall c, file = Some (NFile c) -> ~ nofault w in
  exists l l' f,
    (exists e, Open s w = (Err e, set_faults l w) /\ blameless) \/
    (Open s w = (Ret f, set_faults l w) /\
     ((exists c, fread f (set_faults l w) = (Ret c, set_faults l' w) /\ file = Some (NFile c)) \/
      (exists e, fread f (set_faults l w) = (Err e, set_faults l' w) /\ blameless))).
Proof.
  intros Hs file blameless.
  assert (Hok : forall c, file = Some (NFile c) -> nofault w -> ReadFile s w = (Ret c, w))
    by (intros; by apply ReadFile_run).
  unfold ReadFile in Hok. destruct (Open_any s w) as (l & [(f & Ho & Hf)|[e Ho]]).
  - destruct (fread_any f (set_faults l w)) as (l' & [(c & Hr & Hc)|[e Hr]]); exists l, l', f; right.
    + split; [done|]. left. exists c. split; [done|]. unfold file. by rewrite <- Hf.
    + split; [done|]. right. exists e. split; [done|]. intros c Hc Hnf. specialize (Hok c Hc Hnf).
      by rewrite (bind_run _ _ _ _ _ Ho), Hr in Hok.
  - exists l, [], (File "" []). left. exists e. split; [done|]. intros c Hc Hnf. specialize (Hok c Hc Hnf).
    by rewrite (bind_err _ _ _ _ _ Ho) in Hok.
Qed.
