(* ===== verification/Crc32c.v ===== *)
(** CRC-32C: package [hash/crc32] with the Castagnoli table, as [image.CRC32C]
    uses it, and what the checksum detects. *)
From S2P Require Export Prelude.
Local Open Scope Z_scope.

(** crc32.Castagnoli, in reversed bit order. *)
Definition Castagnoli : Z := 0x82F63B78.

Definition crc_shift (c : Z) : Z :=
  if Z.odd c then Z.lxor (Z.shiftr c 1) Castagnoli else Z.shiftr c 1.

(** One entry of the table crc32.MakeTable(Castagnoli) builds. *)
Definition crc_table (i : Z) : Z := Nat.iter 8 crc_shift i.

Definition crc_update (crc : Z) (b : byte) : Z :=
  Z.lxor (crc_table (Z.lxor (Z.land crc 255) (Z_of_byte b))) (Z.shiftr crc 8).

Definition crc_run (crc : Z) (data : bytes) : Z := foldl crc_update crc data.

(** crc32.Checksum(data, crc32.MakeTable(crc32.Castagnoli)). *)
Definition Checksum (data : bytes) : Z :=
  Z.lxor (crc_run 0xFFFFFFFF data) 0xFFFFFFFF.

(** The check value of CRC-32C. *)
Example Checksum_check : Checksum (bytes_of_string "123456789") = 0xE3069283.
Proof. vm_compute. reflexivity. Qed.
Example Checksum_empty : Checksum [] = 0. Proof. reflexivity. Qed.

(** ** Ranges *)

Lemma lxor_range n a b : 0 <= n -> 0 <= a < 2 ^ n -> 0 <= b < 2 ^ n -> 0 <= Z.lxor a b < 2 ^ n.
Proof.
  intros Hn Ha Hb. split; [apply Z.lxor_nonneg; lia|].
  destruct (decide (Z.lxor a b = 0)) as [->|Hne]; [lia|].
  assert (0 <= Z.lxor a b) by (apply Z.lxor_nonneg; lia).
  destruct (decide (n = 0)) as [->|].
  { assert (a = 0) as -> by lia. assert (b = 0) as -> by lia. done. }
  apply Z.log2_lt_pow2; [lia|].
  pose proof (Z.log2_lxor a b ltac:(lia) ltac:(lia)).
  assert (forall x, 0 <= x < 2 ^ n -> Z.log2 x < n) as Hl.
  { intros x Hx. destruct (decide (x = 0)) as [->|]; [cbn; lia|]. apply Z.log2_lt_pow2; lia. }
  pose proof (Hl a Ha). pose proof (Hl b Hb). lia.
Qed.

Lemma crc_shift_range c : is_u32 c -> is_u32 (crc_shift c).
Proof.
  intros H. unfold crc_shift, is_u32 in *.
  assert (0 <= Z.shiftr c 1 < 2 ^ 32).
  { rewrite Z.shiftr_div_pow2 by lia. split; [apply Z.div_pos; lia|].
    apply Z.div_lt_upper_bound; lia. }
  destruct (Z.odd c); [|done]. apply lxor_range; [lia|done|]. unfold Castagnoli; lia.
Qed.

Lemma crc_table_range i : is_u32 i -> is_u32 (crc_table i).
Proof. intros H. unfold crc_table. cbn. by do 8 apply crc_shift_range. Qed.

Lemma land_255 c : Z.land c 255 = c `mod` 256.
Proof. change 255 with (Z.ones 8). by rewrite Z.land_ones. Qed.

Lemma crc_index_range c b : 0 <= Z.lxor (Z.land c 255) (Z_of_byte b) < 256.
Proof.
  rewrite land_255. apply (lxor_range 8); [lia|apply Z.mod_pos_bound; lia|apply Z_of_byte_range].
Qed.

Lemma crc_update_range c b : is_u32 c -> is_u32 (crc_update c b).
Proof.
  intros H. unfold crc_update. apply lxor_range; [lia| |].
  - apply crc_table_range. pose proof (crc_index_range c b). unfold is_u32. lia.
  - unfold is_u32 in H. rewrite Z.shiftr_div_pow2 by lia.
    split; [apply Z.div_pos; lia|apply Z.div_lt_upper_bound; lia].
Qed.

Lemma crc_run_range c l : is_u32 c -> is_u32 (crc_run c l).
Proof.
  unfold crc_run. revert c. induction l as [|b l IH]; intros c H; [done|].
  apply IH. by apply crc_update_range.
Qed.

Lemma Checksum_range data : is_u32 (Checksum data).
Proof.
  unfold Checksum. apply lxor_range; [lia| |lia].
  apply crc_run_range. unfold is_u32. lia.
Qed.

(** ** The update step is injective

    The leading bytes of the 256 table entries are pairwise different, so the
    leading byte of the new state tells the index used. *)

Definition table_lead (i : Z) : Z := Z.shiftr (crc_table i) 24.

Lemma table_leads_distinct : NoDup (table_lead <$> seqZ 0 256).
Proof.
  assert (H : bool_decide (NoDup (table_lead <$> seqZ 0 256)) = true)
    by (vm_compute; reflexivity).
  by apply bool_decide_eq_true in H.
Qed.

Lemma table_lead_inj i j :
  0 <= i < 256 -> 0 <= j < 256 -> table_lead i = table_lead j -> i = j.
Proof.
  intros Hi Hj H. pose proof table_leads_distinct as HN.
  rewrite NoDup_alt in HN.
  assert (Hl : forall k, 0 <= k < 256 ->
    (table_lead <$> seqZ 0 256) !! Z.to_nat k = Some (table_lead k)).
  { intros k Hk. rewrite list_lookup_fmap, lookup_seqZ_lt by lia. cbn. f_equal. f_equal. lia. }
  specialize (HN (Z.to_nat i) (Z.to_nat j) (table_lead i) (Hl i Hi)).
  rewrite H in HN. specialize (HN (Hl j Hj)). lia.
Qed.

Lemma shiftr_small c n : 0 <= c < 2 ^ n -> 0 <= n -> Z.shiftr c n = 0.
Proof. intros H Hn. rewrite Z.shiftr_div_pow2 by done. by apply Z.div_small. Qed.

Lemma crc_update_lead c b :
  is_u32 c -> Z.shiftr (crc_update c b) 24 = table_lead (Z.lxor (Z.land c 255) (Z_of_byte b)).
Proof.
  intros H. unfold crc_update. rewrite Z.shiftr_lxor, Z.shiftr_shiftr by lia.
  rewrite (shiftr_small c); [by rewrite Z.lxor_0_r|unfold is_u32 in H; lia|lia].
Qed.

Lemma lxor_cancel_r a b c : Z.lxor a c = Z.lxor b c -> a = b.
Proof.
  intros H. apply (f_equal (fun x => Z.lxor x c)) in H.
  by rewrite !Z.lxor_assoc, Z.lxor_nilpotent, !Z.lxor_0_r in H.
Qed.

Lemma lxor_cancel_l a b c : Z.lxor c a = Z.lxor c b -> a = b.
Proof. rewrite !(Z.lxor_comm c). apply lxor_cancel_r. Qed.

Lemma crc_update_inj c d b : is_u32 c -> is_u32 d -> crc_update c b = crc_update d b -> c = d.
Proof.
  intros Hc Hd H.
  assert (Hi : Z.lxor (Z.land c 255) (Z_of_byte b) = Z.lxor (Z.land d 255) (Z_of_byte b)).
  { apply table_lead_inj; [apply crc_index_range..|].
    rewrite <- !crc_update_lead by done. by rewrite H. }
  unfold crc_update in H. rewrite Hi in H. apply lxor_cancel_l in H.
  apply lxor_cancel_r in Hi. rewrite !land_255 in Hi. rewrite !Z.shiftr_div_pow2 in H by lia.
  change (2 ^ 8) with 256 in H.
  rewrite (Z.div_mod c 256), (Z.div_mod d 256) by lia. congruence.
Qed.

Lemma crc_run_inj l c d : is_u32 c -> is_u32 d -> crc_run c l = crc_run d l -> c = d.
Proof.
  unfold crc_run. revert c d. induction l as [|b l IH]; intros c d Hc Hd H; [done|].
  apply (crc_update_inj c d b); [done..|].
  apply IH; [by apply crc_update_range..|done].
Qed.

(** ** A window of up to four bytes acts as one exclusive-or into the state *)

Lemma land_lxor_distr a b c : Z.land (Z.lxor a b) c = Z.lxor (Z.land a c) (Z.land b c).
Proof.
  apply Z.bits_inj. intros n. rewrite Z.land_spec, !Z.lxor_spec, !Z.land_spec.
  by destruct (Z.testbit a n), (Z.testbit b n), (Z.testbit c n).
Qed.

Lemma land_255_lxor_word c b r :
  Z.land (Z.lxor c (Z_of_byte b + 256 * r)) 255 = Z.lxor (Z.land c 255) (Z_of_byte b).
Proof.
  rewrite land_lxor_distr. f_equal. rewrite land_255.
  rewrite Z.mul_comm, Z.mod_add by lia. apply Z.mod_small, Z_of_byte_range.
Qed.

Lemma shiftr_lxor_word c b r :
  Z.shiftr (Z.lxor c (Z_of_byte b + 256 * r)) 8 = Z.lxor (Z.shiftr c 8) r.
Proof.
  rewrite Z.shiftr_lxor. f_equal. rewrite Z.shiftr_div_pow2 by lia.
  change (2 ^ 8) with 256. pose proof (Z_of_byte_range b).
  rewrite Z.mul_comm, Z.div_add, Z.div_small by lia. lia.
Qed.

Lemma crc_run_window c l :
  crc_run c l = crc_run (Z.lxor c (le_dec l)) (replicate (length l) Byte.x00).
Proof.
  unfold crc_run. revert c. induction l as [|b l IH]; intros c; cbn [length replicate foldl le_dec].
  - by rewrite Z.lxor_0_r.
  - rewrite IH. f_equal. unfold crc_update.
    rewrite land_255_lxor_word, shiftr_lxor_word. change (Z_of_byte Byte.x00) with 0.
    by rewrite Z.lxor_0_r, Z.lxor_assoc.
Qed.

Lemma le_dec_inj l k : length l = length k -> le_dec l = le_dec k -> l = k.
Proof. intros Hl H. by rewrite <- (le_enc_dec l), <- (le_enc_dec k), Hl, H. Qed.

Lemma crc_run_window_inj c x y :
  is_u32 c -> length x = length y -> (length x <= 4)%nat ->
  crc_run c x = crc_run c y -> x = y.
Proof.
  intros Hc Hl H4 H. rewrite (crc_run_window c x), (crc_run_window c y), <- Hl in H.
  assert (Hw : forall l, (length l <= 4)%nat -> is_u32 (Z.lxor c (le_dec l))).
  { intros l Hll. apply lxor_range; [lia|done|].
    pose proof (le_dec_range l). split; [lia|].
    apply Z.lt_le_trans with (256 ^ Z.of_nat (length l)); [lia|].
    change (2 ^ 32) with (256 ^ 4). apply Z.pow_le_mono_r; lia. }
  apply crc_run_inj in H; [|apply Hw; lia..].
  apply lxor_cancel_l in H. by apply le_dec_inj.
Qed.

(** Two byte sequences that differ only inside a window of four bytes have
    different checksums. *)
Lemma Checksum_window a x y b :
  length x = length y -> (length x <= 4)%nat -> x <> y ->
  Checksum (a ++ x ++ b) <> Checksum (a ++ y ++ b).
Proof.
  intros Hl H4 Hne H. apply Hne. unfold Checksum in H. apply lxor_cancel_r in H.
  unfold crc_run in H. rewrite !foldl_app in H.
  set (c := foldl crc_update 0xFFFFFFFF a) in *.
  assert (Hc : is_u32 c) by (apply (crc_run_range 0xFFFFFFFF a); unfold is_u32; lia).
  apply (crc_run_window_inj c); [done..|].
  apply (crc_run_inj b); [by apply crc_run_range..|exact H].
Qed.
