(* ===== verification/Sha256.v ===== *)
(** SHA-256: crypto/sha256.Sum256, which storage.CAS names its objects with. *)
From S2P Require Export Prelude.
Local Open Scope Z_scope.

Definition rotr (n x : Z) : Z := Z.lor (Z.shiftr x n) (u32 (Z.shiftl x (32 - n))).
Definition ch (x y z : Z) : Z := Z.lxor (Z.land x y) (Z.land (Z.lxor x 0xFFFFFFFF) z).
Definition maj (x y z : Z) : Z :=
  Z.lxor (Z.lxor (Z.land x y) (Z.land x z)) (Z.land y z).
Definition big_sigma0 (x : Z) : Z := Z.lxor (Z.lxor (rotr 2 x) (rotr 13 x)) (rotr 22 x).
Definition big_sigma1 (x : Z) : Z := Z.lxor (Z.lxor (rotr 6 x) (rotr 11 x)) (rotr 25 x).
Definition small_sigma0 (x : Z) : Z := Z.lxor (Z.lxor (rotr 7 x) (rotr 18 x)) (Z.shiftr x 3).
Definition small_sigma1 (x : Z) : Z := Z.lxor (Z.lxor (rotr 17 x) (rotr 19 x)) (Z.shiftr x 10).

(** The 32-bit words of a number, the [n] lowest of them, highest first. *)
Fixpoint words_of (n : nat) (z : Z) (acc : list Z) : list Z :=
  match n with
  | O => acc
  | S n => words_of n (Z.shiftr z 32) (Z.land z (Z.ones 32) :: acc)
  end.

(** The constants of the 64 rounds, one after the other. *)
Definition round_constants : list Z :=
  Eval vm_compute in words_of 64
    0x428a2f9871374491b5c0fbcfe9b5dba53956c25b59f111f1923f82a4ab1c5ed5d807aa9812835b01243185be550c7dc372be5d7480deb1fe9bdc06a7c19bf174e49b69c1efbe47860fc19dc6240ca1cc2de92c6f4a7484aa5cb0a9dc76f988da983e5152a831c66db00327c8bf597fc7c6e00bf3d5a7914706ca63511429296727b70a852e1b21384d2c6dfc53380d13650a7354766a0abb81c2c92e92722c85a2bfe8a1a81a664bc24b8b70c76c51a3d192e819d6990624f40e3585106aa07019a4c1161e376c082748774c34b0bcb5391c0cb34ed8aa4a5b9cca4f682e6ff3748f82ee78a5636f84c878148cc7020890befffaa4506cebbef9a3f7c67178f2 [].

Definition initial_state : list Z :=
  [0x6a09e667; 0xbb67ae85; 0x3c6ef372; 0xa54ff53a; 0x510e527f; 0x9b05688c; 0x1f83d9ab; 0x5be0cd19].

(** The message schedule, latest word first. *)
Fixpoint schedule (n : nat) (ws : list Z) : list Z :=
  match n with
  | O => ws
  | S n =>
      let w i := nth i ws 0 in
      schedule n (u32 (small_sigma1 (w 1%nat) + w 6%nat + small_sigma0 (w 14%nat) + w 15%nat) :: ws)
  end.

Definition compress_round (s : list Z) (kw : Z * Z) : list Z :=
  match s with
  | [a; b; c; d; e; f; g; h] =>
      let t1 := h + big_sigma1 e + ch e f g + kw.1 + kw.2 in
      let t2 := big_sigma0 a + maj a b c in
      [u32 (t1 + t2); a; b; c; u32 (d + t1); e; f; g]
  | _ => s
  end.

Fixpoint words (n : nat) (l : bytes) : list Z :=
  match n with
  | O => []
  | S n => be_dec (take 4 l) :: words n (drop 4 l)
  end.

Definition block (s : list Z) (b : bytes) : list Z :=
  let ws := reverse (schedule 48 (reverse (words 16 b))) in
  zip_with (fun x y => u32 (x + y)) s (foldl compress_round s (zip round_constants ws)).

Fixpoint blocks (n : nat) (s : list Z) (l : bytes) : list Z :=
  match n with
  | O => s
  | S n => blocks n (block s (take 64 l)) (drop 64 l)
  end.

Definition pad (l : bytes) : bytes :=
  let n := length l in
  let zeros := ((119 - n `mod` 64) `mod` 64)%nat in
  l ++ Byte.x80 :: replicate zeros Byte.x00 ++ be_enc 8 (8 * Z.of_nat n).

(** sha256.Sum256. *)
Definition Sum256 (l : bytes) : bytes :=
  let p := pad l in
  flat_map (be_enc 4) (blocks (length p / 64)%nat initial_state p).

Lemma length_compress_round s kw : length (compress_round s kw) = length s.
Proof. unfold compress_round. by do 9 (destruct s as [|? s]; [done|]). Qed.

Lemma length_compress l s : length (foldl compress_round s l) = length s.
Proof.
  revert s. induction l as [|x l IH]; intros s; [done|]. cbn [foldl].
  by rewrite IH, length_compress_round.
Qed.

Lemma length_block s b : length (block s b) = length s.
Proof. unfold block. rewrite length_zip_with, length_compress. lia. Qed.

Lemma length_blocks n s l : length (blocks n s l) = length s.
Proof.
  revert s l. induction n as [|n IH]; intros s l; [done|]. cbn [blocks].
  by rewrite IH, length_block.
Qed.

Lemma length_flat_be s : length (flat_map (be_enc 4) s) = (4 * length s)%nat.
Proof.
  induction s as [|x s IH]; [done|]. cbn [flat_map length].
  rewrite length_app, IH, length_be_enc. lia.
Qed.

Lemma length_Sum256 l : length (Sum256 l) = 32%nat.
Proof. unfold Sum256. by rewrite length_flat_be, length_blocks. Qed.

(** The test vector of FIPS 180-4 for "abc". *)
Example Sum256_abc :
  be_dec (Sum256 (bytes_of_string "abc")) =
  0xba7816bf8f01cfea414140de5dae2223b00361a396177a9cb410ff61f20015ad.
Proof. vm_compute. reflexivity. Qed.

Example Sum256_two_blocks :
  be_dec (Sum256 (bytes_of_string "abcdbcdecdefdefgefghfghighijhijkijkljklmklmnlmnomnopnopq")) =
  0x248d6a61d20638b8e5c026930c3e6039a33ce45964ff2167f6ecedd419db06c1.
Proof. vm_compute. reflexivity. Qed.
