(* ===== verification/Binary.v ===== *)
(** Packages [encoding/binary] and [io] on the bytes of a file: readers that
    consume a prefix of what is left, with Go's two end-of-file errors. *)
From S2P Require Export OSFacts.
Local Open Scope Z_scope.

(** A reader takes what is left of the input to a value and the rest. *)
Definition reader (A : Type) : Type := bytes -> goerr + (A * bytes).

#[global] Instance reader_ret : MRet reader := fun A a l => inr (a, l).
#[global] Instance reader_bind : MBind reader := fun A B f m l =>
  match m l with
  | inl e => inl e
  | inr (a, l) => f a l
  end.

Definition reader_fail {A} (e : goerr) : reader A := fun _ => inl e.

(** io.ReadFull(r, buf) with a buffer of [n] bytes. *)
Definition read_full (n : nat) : reader bytes := fun l =>
  if decide (n <= length l)%nat then inr (take n l, drop n l)
  else match l with [] => inl EOF | _ => inl ErrUnexpectedEOF end.

(** binary.Read(r, binary.LittleEndian, &v) for a [v] of [n] bytes. *)
Definition read_le (n : nat) : reader Z := b ← read_full n; mret (le_dec b).

(** A Go result ([value, err]) as a computation. *)
Definition lift {A} (r : goerr + A) : M A :=
  match r with inl e => throw e | inr a => mret a end.

(** [n] values in a row. *)
Fixpoint read_list {A} (n : nat) (r : reader A) : reader (list A) :=
  match n with
  | O => mret []
  | S n => a ← r; l ← read_list n r; mret (a :: l)
  end.

(** ** What a reader does on an encoding followed by anything *)

(** [reads r enc a]: on input starting with [enc], [r] consumes exactly [enc]
    and gives [a]. *)
Definition reads {A} (r : reader A) (enc : bytes) (a : A) : Prop :=
  forall rest, r (enc ++ rest) = inr (a, rest).

Lemma reads_ret {A} (a : A) : reads (mret a) [] a.
Proof. done. Qed.

Lemma reads_bind {A B} (r : reader A) (f : A -> reader B) x a y b :
  reads r x a -> reads (f a) y b -> reads (r ≫= f) (x ++ y) b.
Proof.
  intros H1 H2 rest. unfold mbind, reader_bind. rewrite <- app_assoc, H1. apply H2.
Qed.

Lemma reads_full b : reads (read_full (length b)) b b.
Proof.
  intros rest. unfold read_full. rewrite decide_True by (rewrite length_app; lia).
  by rewrite take_app_length, drop_app_length.
Qed.

Lemma reads_le n z : 0 <= z < 256 ^ Z.of_nat n -> reads (read_le n) (le_enc n z) z.
Proof.
  intros Hz rest. unfold read_le, mbind, reader_bind.
  pose proof (reads_full (le_enc n z) rest) as H. rewrite length_le_enc in H. rewrite H.
  unfold mret, reader_ret. by rewrite le_dec_enc_small.
Qed.

Lemma reads_u64 z : is_u64 z -> reads (read_le 8) (le_enc 8 z) z.
Proof. apply (reads_le 8). Qed.
Lemma reads_u32 z : is_u32 z -> reads (read_le 4) (le_enc 4 z) z.
Proof. apply (reads_le 4). Qed.
Lemma reads_u16 z : is_u16 z -> reads (read_le 2) (le_enc 2 z) z.
Proof. apply (reads_le 2). Qed.

Lemma reads_list {A} (r : reader A) (enc : A -> bytes) l :
  Forall (fun a => reads r (enc a) a) l ->
  reads (read_list (length l) r) (flat_map enc l) l.
Proof.
  induction 1 as [|a l Ha _ IH]; [apply reads_ret|]. cbn [length read_list flat_map].
  apply (reads_bind _ _ _ a _ _ Ha).
  rewrite <- (app_nil_r (flat_map enc l)). by apply (reads_bind _ _ _ l).
Qed.

Lemma reads_all {A} (r : reader A) enc a : reads r enc a -> r enc = inr (a, []).
Proof. intros H. specialize (H []). by rewrite app_nil_r in H. Qed.

(** ** Truncated input *)

Definition eof_error (e : goerr) : Prop := e = EOF \/ e = ErrUnexpectedEOF.

(** [short r enc]: on a strict prefix of [enc], [r] fails with an end-of-file
    error. *)
Definition short {A} (r : reader A) (enc : bytes) : Prop :=
  forall n, (n < length enc)%nat -> exists e, r (take n enc) = inl e /\ eof_error e.

Lemma short_bind {A B} (r : reader A) (f : A -> reader B) x a y :
  reads r x a -> short r x -> short (f a) y -> short (r ≫= f) (x ++ y).
Proof.
  intros Hr Hx Hy n Hn. unfold mbind, reader_bind.
  destruct (decide (n < length x)%nat) as [Hlt|Hge].
  - rewrite take_app_le by lia. destruct (Hx n Hlt) as (e & -> & He). eauto.
  - rewrite take_app_ge by lia. rewrite Hr. apply Hy. rewrite length_app in Hn. lia.
Qed.

Lemma short_full b : short (read_full (length b)) b.
Proof.
  intros n Hn. unfold read_full. rewrite length_take.
  rewrite decide_False by lia. unfold eof_error.
  destruct (take n b); eauto.
Qed.

Lemma short_nil {A} (r : reader A) : short r [].
Proof. intros n Hn. cbn in Hn. lia. Qed.

Lemma short_le n z : short (read_le n) (le_enc n z).
Proof.
  intros k Hk. unfold read_le, mbind, reader_bind.
  destruct (short_full (le_enc n z) k Hk) as (e & He & Hee). rewrite length_le_enc in He.
  rewrite He. eauto.
Qed.

Lemma short_list {A} (r : reader A) (enc : A -> bytes) l :
  Forall (fun a => reads r (enc a) a /\ short r (enc a)) l ->
  short (read_list (length l) r) (flat_map enc l).
Proof.
  induction 1 as [|a l [Ha Hs] HF IH]; [apply short_nil|]. cbn [length read_list flat_map].
  apply (short_bind _ _ _ a); [done..|].
  rewrite <- (app_nil_r (flat_map enc l)).
  apply (short_bind _ _ _ l); [|done|apply short_nil].
  apply reads_list. eapply Forall_impl; [exact HF|]. by intros ? [? _].
Qed.

#[export] Hint Resolve reads_ret reads_u64 reads_u32 reads_u16 short_le short_nil : cudackpt.

(** ** What a successful read consumed *)

(** [exact r enc]: when [r] gives [a], what it consumed is [enc a], and [P a]. *)
Definition exact {A} (r : reader A) (enc : A -> bytes) (P : A -> Prop) : Prop :=
  forall l a rest, r l = inr (a, rest) -> l = enc a ++ rest /\ P a.

Lemma reader_bind_inv {A B} (r : reader A) (f : A -> reader B) l b rest :
  (r ≫= f) l = inr (b, rest) -> exists a l', r l = inr (a, l') /\ f a l' = inr (b, rest).
Proof.
  unfold mbind, reader_bind. destruct (r l) as [e|[a l']]; [done|]. eauto.
Qed.

Lemma exact_full n : exact (read_full n) id (fun b => length b = n).
Proof.
  intros l a rest. unfold read_full. case_decide; [|by destruct l].
  intros [= <- <-]. unfold id. rewrite length_take, take_drop. split; [done|lia].
Qed.

Lemma exact_le n : exact (read_le n) (le_enc n) (fun z => 0 <= z < 256 ^ Z.of_nat n).
Proof.
  intros l z rest H. apply reader_bind_inv in H as (b & l' & Hb & Hz).
  apply exact_full in Hb as [-> Hl]. injection Hz as <- <-. subst n. split.
  - by rewrite le_enc_dec.
  - apply le_dec_range.
Qed.

Lemma exact_list {A} n (r : reader A) enc P :
  exact r enc P -> exact (read_list n r) (flat_map enc) (fun l => length l = n /\ Forall P l).
Proof.
  intros Hr. induction n as [|n IH]; intros l a rest H.
  - injection H as <- <-. done.
  - apply reader_bind_inv in H as (x & l1 & H1 & H).
    apply reader_bind_inv in H as (xs & l2 & H2 & H). injection H as <- <-.
    apply Hr in H1 as [-> Hx]. apply IH in H2 as [-> [Hl HF]].
    cbn [flat_map length]. rewrite <- app_assoc. auto.
Qed.

(** Readers of fixed-size values fail with end-of-file errors only. *)
Definition eof_only {A} (r : reader A) : Prop := forall l e, r l = inl e -> eof_error e.

Lemma eof_only_ret {A} (a : A) : eof_only (mret a).
Proof. done. Qed.

Lemma eof_only_bind {A B} (r : reader A) (f : A -> reader B) :
  eof_only r -> (forall a, eof_only (f a)) -> eof_only (r ≫= f).
Proof.
  intros Hr Hf l e. unfold mbind, reader_bind. destruct (r l) as [e'|[a l']] eqn:E.
  - intros [= <-]. by apply (Hr l).
  - apply Hf.
Qed.

Lemma eof_only_full n : eof_only (read_full n).
Proof.
  intros l e. unfold read_full, eof_error. case_decide; [done|].
  destruct l; intros [= <-]; auto.
Qed.

Lemma eof_only_le n : eof_only (read_le n).
Proof. apply eof_only_bind; [apply eof_only_full|intros; apply eof_only_ret]. Qed.

Lemma eof_only_list {A} n (r : reader A) : eof_only r -> eof_only (read_list n r).
Proof.
  intros Hr. induction n as [|n IH]; cbn [read_list]; [apply eof_only_ret|].
  apply eof_only_bind; [done|]. intros a. apply eof_only_bind; [done|intros; apply eof_only_ret].
Qed.

#[export] Hint Resolve eof_only_ret eof_only_bind eof_only_full eof_only_le eof_only_list : cudackpt.
