(* ===== verification/Manifest.v ===== *)
(** pkg/image/flags.go and pkg/image/format.go: the manifest of an image. *)
From S2P Require Export Binary Crc32c.
Local Open Scope Z_scope.

(** ** Flags (flags.go) *)

Definition VersionV1 : Z := 1.
Definition VersionV2 : Z := 2.

Definition FlagNone : Z := 0.
Definition FlagCompressed : Z := Z.shiftl 1 0.
Definition FlagSparse : Z := Z.shiftl 1 1.
Definition FlagDedup : Z := Z.shiftl 1 2.
Definition FlagDelta : Z := Z.shiftl 1 3.

Definition HasFlag (flags bit : Z) : bool := bool_decide (Z.land flags bit <> 0).

(** [flags |= bit] and [flags &^= bit] on uint16. *)
Definition set_flag (flags bit : Z) : Z := Z.lor flags bit.
Definition clear_flag (flags bit : Z) : Z := Z.ldiff flags bit.

(** ** The manifest (format.go) *)

Definition Magic : Z := 0x434B5054.

Record Header := mkHeader {
  h_Magic : Z;
  h_Version : Z;
  h_Flags : Z;
  h_Count : Z;
  h_TotalBytes : Z;
}.

Record Entry := mkEntry {
  e_Ptr : Z;
  e_Size : Z;
  e_Offset : Z;
  e_CRC32C : Z;
  e_Seq : Z;
  e_ContentHash : bytes;
}.

#[global] Instance Header_eq_dec : EqDecision Header.
Proof. solve_decision. Defined.
#[global] Instance Entry_eq_dec : EqDecision Entry.
Proof. solve_decision. Defined.

Definition entryV1Size : Z := 40.
Definition entryV2Size : Z := 72.

Definition EntrySize (version : Z) : Z :=
  if decide (version >= VersionV2) then entryV2Size else entryV1Size.

(** What binary.Write makes of a [Header]. *)
Definition header_bytes (h : Header) : bytes :=
  le_enc 4 (h_Magic h) ++ le_enc 2 (h_Version h) ++ le_enc 2 (h_Flags h) ++
  le_enc 4 (h_Count h) ++ le_enc 8 (h_TotalBytes h).

Definition writeEntry (w : file) (e : Entry) (version : Z) : M unit :=
  fwrite w (le_enc 8 (e_Ptr e)) ;;
  fwrite w (le_enc 8 (e_Size e)) ;;
  fwrite w (le_enc 8 (e_Offset e)) ;;
  fwrite w (le_enc 4 (e_CRC32C e)) ;;
  fwrite w (le_enc 4 (e_Seq e)) ;;
  (if decide (version >= VersionV2) then fwrite w (e_ContentHash e) else mret tt).

Definition total_size (entries : list Entry) : Z :=
  foldl (fun total e => u64 (total + e_Size e)) 0 entries.

Definition WriteManifestFlags (path : string) (entries : list Entry) (flags version : Z) : M unit :=
  f ← Create path;
  let h := mkHeader Magic version flags (u32 (Z.of_nat (length entries))) (total_size entries) in
  fwrite f (header_bytes h) ;;
  forM_ entries (fun e => writeEntry f e version).

Definition WriteManifest (path : string) (entries : list Entry) : M unit :=
  WriteManifestFlags path entries FlagNone VersionV2.

Definition readEntry (version : Z) : reader Entry :=
  ptr ← read_le 8;
  size ← read_le 8;
  offset ← read_le 8;
  crc ← read_le 4;
  seq ← read_le 4;
  hash ← (if decide (version >= VersionV2) then read_full 32
          else mret (replicate 32 Byte.x00));
  mret (mkEntry ptr size offset crc seq hash).

(** binary.Read(f, binary.LittleEndian, &h). *)
Definition read_header : reader Header :=
  b ← read_full 20;
  mret (mkHeader (le_dec (slice 0 4 b)) (le_dec (slice 4 6 b)) (le_dec (slice 6 8 b))
         (le_dec (slice 8 12 b)) (le_dec (slice 12 20 b))).

Definition parse_manifest : reader (list Entry * Header) :=
  h ← read_header;
  if decide (h_Magic h <> Magic) then reader_fail ErrInvalid
  else out ← read_list (Z.to_nat (h_Count h)) (readEntry (h_Version h));
       mret (out, h).

Definition ReadManifest (path : string) : M (list Entry * Header) :=
  f ← Open path;
  c ← fread f;
  r ← lift (parse_manifest c);
  mret r.1.

(** compress.go: readManifestHeader. *)
Definition readManifestHeader (path : string) : M Header :=
  f ← Open path;
  c ← fread f;
  r ← lift (read_header c);
  if decide (h_Magic r.1 <> Magic) then throw ErrInvalid else mret r.1.

Definition CRC32C (data : bytes) : Z := Checksum data.

(** The largest slice the Go runtime allocates on linux/amd64: make panics
    beyond it. *)
Definition maxAlloc : Z := 2 ^ 48.

Definition make_ok (n : Z) : bool := bool_decide (0 <= n <= maxAlloc).

Definition VerifyChunk (r : file) (off size want : Z) : M bool :=
  if make_ok size then
    buf ← ReadAt r size off;
    mret (bool_decide (CRC32C buf = want))
  else panic.

(** [buf := make([]byte, size); f.ReadAt(buf, int64(offset))], as ApplySparse and
    DedupDevice read an entry. *)
Definition read_chunk (f : file) (size offset : Z) : M bytes :=
  if make_ok size then ReadAt f size (int64_of_u64 offset) else panic.
