(* ===== verification/ManifestFacts.v ===== *)
(** The manifest format: what is written is what is read back, what is
    truncated or foreign is refused, and what the checksum of a chunk detects. *)
From S2P Require Export Manifest.
Local Open Scope Z_scope.

(** ** Encodings *)

Definition entry_bytes (version : Z) (e : Entry) : bytes :=
  le_enc 8 (e_Ptr e) ++ le_enc 8 (e_Size e) ++ le_enc 8 (e_Offset e) ++
  le_enc 4 (e_CRC32C e) ++ le_enc 4 (e_Seq e) ++
  (if decide (version >= VersionV2) then e_ContentHash e else []).

Definition manifest_header (entries : list Entry) (flags version : Z) : Header :=
  mkHeader Magic version flags (u32 (Z.of_nat (length entries))) (total_size entries).

Definition manifest_bytes (entries : list Entry) (flags version : Z) : bytes :=
  header_bytes (manifest_header entries flags version) ++ flat_map (entry_bytes version) entries.

(** The values the fields of an [Entry] can have. *)
Record wf_entry (e : Entry) : Prop := {
  wf_ptr : is_u64 (e_Ptr e);
  wf_size : is_u64 (e_Size e);
  wf_offset : is_u64 (e_Offset e);
  wf_crc : is_u32 (e_CRC32C e);
  wf_seq : is_u32 (e_Seq e);
  wf_hash : length (e_ContentHash e) = 32%nat;
}.

Record wf_manifest (entries : list Entry) (flags version : Z) : Prop := {
  wfm_entries : Forall wf_entry entries;
  wfm_count : is_u32 (Z.of_nat (length entries));
  wfm_flags : is_u16 flags;
  wfm_version : is_u16 version;
}.

(** An entry as a manifest of the given version keeps it: version 1 has no
    content hash. *)
Definition stored (version : Z) (e : Entry) : Entry :=
  if decide (version >= VersionV2) then e
  else mkEntry (e_Ptr e) (e_Size e) (e_Offset e) (e_CRC32C e) (e_Seq e) (replicate 32 Byte.x00).

Lemma total_size_range entries : is_u64 (total_size entries).
Proof.
  unfold total_size. destruct entries as [|e l] using rev_ind; [unfold is_u64; cbn; lia|].
  rewrite foldl_snoc. apply Z.mod_pos_bound. lia.
Qed.

Lemma length_header_bytes h : length (header_bytes h) = 20%nat.
Proof. unfold header_bytes. by rewrite !length_app, !length_le_enc. Qed.

(** The bytes one entry takes in a manifest: eight fewer than [EntrySize] says. *)
Definition encoded_size (version : Z) : Z := if decide (version >= VersionV2) then 64 else 32.

Lemma length_entry_bytes version e :
  wf_entry e -> Z.of_nat (length (entry_bytes version e)) = encoded_size version.
Proof.
  intros []. unfold entry_bytes, encoded_size. rewrite !length_app, !length_le_enc.
  case_decide; [by rewrite wf_hash0|done].
Qed.

Lemma length_manifest_bytes entries flags version :
  Forall wf_entry entries ->
  Z.of_nat (length (manifest_bytes entries flags version)) =
  20 + Z.of_nat (length entries) * encoded_size version.
Proof.
  intros HF. unfold manifest_bytes. rewrite length_app, length_header_bytes.
  enough (Z.of_nat (length (flat_map (entry_bytes version) entries)) =
          Z.of_nat (length entries) * encoded_size version) by lia.
  induction HF as [|e l He HF IH]; [done|]. cbn [flat_map length].
  rewrite length_app, Nat2Z.inj_add, IH, length_entry_bytes by done. lia.
Qed.

(** ** Readers on encodings *)

Definition wf_header (h : Header) : Prop :=
  is_u32 (h_Magic h) /\ is_u16 (h_Version h) /\ is_u16 (h_Flags h) /\
  is_u32 (h_Count h) /\ is_u64 (h_TotalBytes h).

Lemma reads_header h : wf_header h -> reads read_header (header_bytes h) h.
Proof.
  intros (H1 & H2 & H3 & H4 & H5).
  pose proof (reads_full (header_bytes h)) as Hr. rewrite length_header_bytes in Hr.
  rewrite <- (app_nil_r (header_bytes h)). eapply reads_bind; [exact Hr|].
  destruct h as [m v f c t]; cbn [h_Magic h_Version h_Flags h_Count h_TotalBytes] in *.
  unfold header_bytes; cbn [h_Magic h_Version h_Flags h_Count h_TotalBytes].
  set (b1 := le_enc 4 m). set (b2 := le_enc 2 v). set (b3 := le_enc 2 f).
  set (b4 := le_enc 4 c). set (b5 := le_enc 8 t).
  assert (E1 : slice 0 4 (b1 ++ b2 ++ b3 ++ b4 ++ b5) = b1)
    by (apply (slice_app_mid [] b1); [done|by unfold b1; rewrite length_le_enc]).
  assert (E2 : slice 4 6 (b1 ++ b2 ++ b3 ++ b4 ++ b5) = b2)
    by (apply (slice_app_mid b1 b2); unfold b1, b2; by rewrite ?length_le_enc).
  assert (E3 : slice 6 8 (b1 ++ b2 ++ b3 ++ b4 ++ b5) = b3).
  { rewrite (app_assoc b1). apply (slice_app_mid (b1 ++ b2) b3);
      unfold b1, b2, b3; by rewrite ?length_app, ?length_le_enc. }
  assert (E4 : slice 8 12 (b1 ++ b2 ++ b3 ++ b4 ++ b5) = b4).
  { rewrite (app_assoc b2), (app_assoc b1). apply (slice_app_mid (b1 ++ b2 ++ b3) b4);
      unfold b1, b2, b3, b4; by rewrite ?length_app, ?length_le_enc. }
  assert (E5 : slice 12 20 (b1 ++ b2 ++ b3 ++ b4 ++ b5) = b5).
  { rewrite <- (app_nil_r b5) at 1. rewrite (app_assoc b3), (app_assoc b2), (app_assoc b1).
    apply (slice_app_mid (b1 ++ b2 ++ b3 ++ b4) b5);
      unfold b1, b2, b3, b4, b5; by rewrite ?length_app, ?length_le_enc. }
  rewrite E1, E2, E3, E4, E5. unfold b1, b2, b3, b4, b5.
  rewrite !le_dec_enc_small by done. apply reads_ret.
Qed.

Lemma reads_entry version e :
  wf_entry e -> reads (readEntry version) (entry_bytes version e) (stored version e).
Proof.
  intros [H1 H2 H3 H4 H5 H6]. unfold readEntry, entry_bytes, stored.
  destruct e as [p s o c q h]; cbn [e_Ptr e_Size e_Offset e_CRC32C e_Seq e_ContentHash] in *.
  apply (reads_bind _ _ _ p); [by apply reads_u64|].
  apply (reads_bind _ _ _ s); [by apply reads_u64|].
  apply (reads_bind _ _ _ o); [by apply reads_u64|].
  apply (reads_bind _ _ _ c); [by apply reads_u32|].
  apply (reads_bind _ _ _ q); [by apply reads_u32|].
  case_decide.
  - rewrite <- (app_nil_r h). eapply reads_bind; [|apply reads_ret].
    rewrite <- H6, app_nil_r. apply reads_full.
  - apply (reads_bind _ _ [] (replicate 32 Byte.x00)); apply reads_ret.
Qed.

Lemma short_entry version e :
  wf_entry e -> short (readEntry version) (entry_bytes version e).
Proof.
  intros [H1 H2 H3 H4 H5 H6]. unfold readEntry, entry_bytes.
  destruct e as [p s o c q h]; cbn [e_Ptr e_Size e_Offset e_CRC32C e_Seq e_ContentHash] in *.
  apply (short_bind _ _ _ p); [by apply reads_u64|apply short_le|].
  apply (short_bind _ _ _ s); [by apply reads_u64|apply short_le|].
  apply (short_bind _ _ _ o); [by apply reads_u64|apply short_le|].
  apply (short_bind _ _ _ c); [by apply reads_u32|apply short_le|].
  apply (short_bind _ _ _ q); [by apply reads_u32|apply short_le|].
  case_decide; [|apply short_nil].
  rewrite <- (app_nil_r h). apply (short_bind _ _ _ h); [| |apply short_nil];
    rewrite <- H6; [apply reads_full|apply short_full].
Qed.

Lemma short_header h : short read_header (header_bytes h).
Proof.
  pose proof (reads_full (header_bytes h)) as Hr. pose proof (short_full (header_bytes h)) as Hs.
  rewrite length_header_bytes in Hr, Hs.
  rewrite <- (app_nil_r (header_bytes h)). eapply short_bind; [exact Hr|exact Hs|apply short_nil].
Qed.

Lemma manifest_header_wf entries flags version :
  wf_manifest entries flags version -> wf_header (manifest_header entries flags version).
Proof.
  intros [_ Hc Hf Hv]. unfold wf_header. cbn. repeat split; try apply Hf; try apply Hv;
    try apply total_size_range; try (rewrite u32_small by done; apply Hc); unfold Magic; lia.
Qed.

Lemma reads_entries version entries :
  Forall wf_entry entries ->
  reads (read_list (length entries) (readEntry version))
    (flat_map (entry_bytes version) entries) (stored version <$> entries).
Proof.
  induction 1 as [|e l He HF IH]; [apply reads_ret|]. cbn [length read_list flat_map].
  eapply reads_bind; [by apply reads_entry|].
  rewrite <- (app_nil_r (flat_map _ l)). eapply reads_bind; [exact IH|apply reads_ret].
Qed.

Lemma short_entries version entries :
  Forall wf_entry entries ->
  short (read_list (length entries) (readEntry version)) (flat_map (entry_bytes version) entries).
Proof.
  induction 1 as [|e l He HF IH]; [apply short_nil|]. cbn [length read_list flat_map].
  eapply short_bind; [by apply reads_entry|by apply short_entry|].
  rewrite <- (app_nil_r (flat_map _ l)).
  eapply short_bind; [by apply reads_entries|exact IH|apply short_nil].
Qed.

Lemma reads_manifest entries flags version :
  wf_manifest entries flags version ->
  reads parse_manifest (manifest_bytes entries flags version)
    (stored version <$> entries, manifest_header entries flags version).
Proof.
  intros Hwf. unfold parse_manifest, manifest_bytes.
  eapply reads_bind; [by apply reads_header, manifest_header_wf|].
  rewrite decide_False by (cbn; tauto). cbn [h_Count h_Version manifest_header].
  rewrite u32_small, Nat2Z.id by apply Hwf.
  rewrite <- (app_nil_r (flat_map _ _)).
  eapply reads_bind; [by apply reads_entries, Hwf|apply reads_ret].
Qed.

Lemma short_manifest entries flags version :
  wf_manifest entries flags version ->
  short parse_manifest (manifest_bytes entries flags version).
Proof.
  intros Hwf. unfold parse_manifest, manifest_bytes.
  eapply short_bind; [by apply reads_header, manifest_header_wf|apply short_header|].
  rewrite decide_False by (cbn; tauto). cbn [h_Count h_Version manifest_header].
  rewrite u32_small, Nat2Z.id by apply Hwf.
  rewrite <- (app_nil_r (flat_map _ _)).
  eapply short_bind; [by apply reads_entries, Hwf|by apply short_entries, Hwf|apply short_nil].
Qed.

(** ** Fault-free runs *)

(** A write to a file whose content is known. *)
Lemma fwrite_known w f c data :
  nofault w -> w_fs w !! f_path f = Some (NFile c) ->
  fwrite f data w = (Ret tt, set_fs (<[f_path f := NFile (c ++ data)]> (w_fs w)) w).
Proof. intros Hnf H. rewrite fwrite_run by done. unfold append_at. by rewrite H. Qed.

(** One more write to a file that starts with [c]. *)
Ltac fwrite_step :=
  erewrite bind_run by (eapply fwrite_known; [done|apply lookup_insert_eq]).

Lemma writeEntry_run w f c e version :
  nofault w -> w_fs w !! f_path f = Some (NFile c) ->
  writeEntry f e version w =
  (Ret tt, set_fs (<[f_path f := NFile (c ++ entry_bytes version e)]> (w_fs w)) w).
Proof.
  intros Hnf Hc. unfold writeEntry.
  erewrite bind_run by (by eapply fwrite_known).
  do 4 fwrite_step. cbn [w_fs set_fs]. rewrite !insert_insert_eq, !set_fs_set_fs.
  unfold entry_bytes. case_decide.
  - erewrite fwrite_known by (first [done|apply lookup_insert_eq]). cbn [w_fs set_fs].
    by rewrite insert_insert_eq, set_fs_set_fs, !app_assoc.
  - unfold mret, M_ret. by rewrite app_nil_r, !app_assoc.
Qed.

Lemma write_entries_run w f c entries version :
  nofault w -> w_fs w !! f_path f = Some (NFile c) ->
  forM_ entries (fun e => writeEntry f e version) w =
  (Ret tt, set_fs (<[f_path f := NFile (c ++ flat_map (entry_bytes version) entries)]> (w_fs w)) w).
Proof.
  revert w c. induction entries as [|e l IH]; intros w c Hnf Hc; cbn [forM_ flat_map].
  - rewrite app_nil_r, insert_id by done. by rewrite set_fs_id.
  - erewrite bind_run by (by eapply writeEntry_run).
    erewrite IH by (first [done|apply lookup_insert_eq]).
    cbn [w_fs set_fs]. by rewrite insert_insert_eq, set_fs_set_fs, app_assoc.
Qed.

Lemma WriteManifestFlags_run w path p entries flags version :
  nofault w -> path <> "" -> at_path w path = p -> can_create (w_fs w) p ->
  WriteManifestFlags path entries flags version w =
  (Ret tt, set_fs (<[p := NFile (manifest_bytes entries flags version)]> (w_fs w)) w).
Proof.
  intros Hnf Hs Hp Hc. unfold WriteManifestFlags.
  erewrite bind_run by (by eapply Create_run). cbn zeta.
  fwrite_step. erewrite write_entries_run by (first [done|apply lookup_insert_eq]).
  cbn [w_fs set_fs f_path]. by rewrite !insert_insert_eq, !set_fs_set_fs.
Qed.

Lemma ReadManifest_run w path c es h rest :
  nofault w -> path <> "" -> w_fs w !! at_path w path = Some (NFile c) ->
  parse_manifest c = inr (es, h, rest) ->
  ReadManifest path w = (Ret (es, h), w).
Proof.
  intros Hnf Hs Hc Hp. unfold ReadManifest.
  erewrite bind_run by (by eapply Open_run). erewrite bind_run by (by eapply fread_run).
  rewrite Hp. done.
Qed.

Lemma ReadManifest_fails w path c e :
  nofault w -> path <> "" -> w_fs w !! at_path w path = Some (NFile c) ->
  parse_manifest c = inl e ->
  ReadManifest path w = (Err e, w).
Proof.
  intros Hnf Hs Hc Hp. unfold ReadManifest.
  erewrite bind_run by (by eapply Open_run). erewrite bind_run by (by eapply fread_run).
  rewrite Hp. done.
Qed.

(** A stored manifest: a file with the encoding of well-formed entries. *)
Definition manifest_at (w : world) (p : path) (es : list Entry) (flags version : Z) : Prop :=
  w_fs w !! p = Some (NFile (manifest_bytes es flags version)) /\ wf_manifest es flags version.

Lemma ReadManifest_at w path p es flags version :
  nofault w -> path <> "" -> at_path w path = p -> manifest_at w p es flags version ->
  ReadManifest path w = (Ret (stored version <$> es, manifest_header es flags version), w).
Proof.
  intros Hnf Hs <- [Hc Hwf]. eapply ReadManifest_run; [done..|].
  by apply reads_all, reads_manifest.
Qed.

Lemma readManifestHeader_at w path p es flags version :
  nofault w -> path <> "" -> at_path w path = p -> manifest_at w p es flags version ->
  readManifestHeader path w = (Ret (manifest_header es flags version), w).
Proof.
  intros Hnf Hs <- [Hc Hwf]. unfold readManifestHeader.
  erewrite bind_run by (by eapply Open_run). erewrite bind_run by (by eapply fread_run).
  pose proof (reads_header _ (manifest_header_wf _ _ _ Hwf)
                (flat_map (entry_bytes version) es)) as Hr.
  unfold manifest_bytes. rewrite Hr. erewrite bind_run by done. cbn. by rewrite decide_False by tauto.
Qed.

Lemma stored_wf version e : wf_entry e -> wf_entry (stored version e).
Proof. intros H. unfold stored. case_decide; [done|]. destruct H. by split. Qed.

Lemma stored_idem version e : stored version (stored version e) = stored version e.
Proof. unfold stored. by case_decide. Qed.

(** A manifest of version 2 keeps its entries as they are. *)
Lemma stored_v2 version (es : list Entry) : version >= VersionV2 -> stored version <$> es = es.
Proof.
  intros Hv. rewrite <- (list_fmap_id es) at 2. apply list_fmap_ext. intros i e _.
  unfold stored. by rewrite decide_True.
Qed.

(** ** What a manifest that is read contains *)

Lemma exact_header : exact read_header header_bytes wf_header.
Proof.
  intros l h rest H. apply reader_bind_inv in H as (b & l' & Hb & Hh).
  apply exact_full in Hb as [-> Hl]. injection Hh as <- <-.
  do 20 (destruct b as [|? b]; [done|]). destruct b; [|done]. split.
  - unfold header_bytes. cbn [h_Magic h_Version h_Flags h_Count h_TotalBytes].
    unfold slice; cbn [Nat.sub take drop firstn skipn].
    rewrite !(le_enc_dec [_; _; _; _]), !(le_enc_dec [_; _]), (le_enc_dec [_; _; _; _; _; _; _; _]).
    done.
  - unfold wf_header. cbn [h_Magic h_Version h_Flags h_Count h_TotalBytes].
    exact (conj (le_dec_range [_; _; _; _]) (conj (le_dec_range [_; _])
      (conj (le_dec_range [_; _]) (conj (le_dec_range [_; _; _; _])
      (le_dec_range [_; _; _; _; _; _; _; _]))))).
Qed.

Lemma exact_entry version :
  exact (readEntry version) (entry_bytes version) wf_entry.
Proof.
  intros l e rest H. unfold readEntry in H.
  apply reader_bind_inv in H as (p & l1 & H1 & H). apply exact_le in H1 as [-> H1].
  apply reader_bind_inv in H as (s & l2 & H2 & H). apply exact_le in H2 as [-> H2].
  apply reader_bind_inv in H as (o & l3 & H3 & H). apply exact_le in H3 as [-> H3].
  apply reader_bind_inv in H as (c & l4 & H4 & H). apply exact_le in H4 as [-> H4].
  apply reader_bind_inv in H as (q & l5 & H5 & H). apply exact_le in H5 as [-> H5].
  apply reader_bind_inv in H as (h & l6 & H6 & H). injection H as <- <-.
  unfold entry_bytes. cbn [e_Ptr e_Size e_Offset e_CRC32C e_Seq e_ContentHash].
  case_decide.
  - apply exact_full in H6 as [-> H6]. rewrite <- !app_assoc. by split; [|split].
  - injection H6 as <- <-. rewrite <- !app_assoc. by split; [|split].
Qed.

(** A manifest is accepted only when the file starts with the encoding of what
    is returned. *)
Lemma parse_manifest_exact c es h rest :
  parse_manifest c = inr (es, h, rest) ->
  c = header_bytes h ++ flat_map (entry_bytes (h_Version h)) es ++ rest /\
  wf_header h /\ h_Magic h = Magic /\ Z.of_nat (length es) = h_Count h /\ Forall wf_entry es.
Proof.
  intros H. unfold parse_manifest in H. apply reader_bind_inv in H as (h' & l1 & H1 & H).
  apply exact_header in H1 as [-> Hh]. case_decide as Hm; [done|].
  apply reader_bind_inv in H as (es' & l2 & H2 & H). injection H as -> -> ->.
  apply (exact_list _ _ _ _ (exact_entry _)) in H2 as [-> [Hl HF]].
  split; [done|]. split; [done|]. split; [done|]. split; [|done].
  rewrite Hl. apply Z2Nat.id. apply Hh.
Qed.

Lemma eof_only_entry version : eof_only (readEntry version).
Proof. unfold readEntry. case_decide; eauto 20 with cudackpt. Qed.

(** * Properties of the manifest *)

(** C19: what [WriteManifestFlags] writes, [ReadManifest] reads back: the same
    entries (less the content hashes in a version-1 file), the same flags and
    version, the entry count and the total size; nothing but the file changes,
    and the file has 20 bytes of header and 32 or 64 bytes per entry. *)
Theorem manifest_roundtrip w path entries flags version :
  nofault w -> path <> "" -> can_create (w_fs w) (at_path w path) ->
  wf_manifest entries flags version ->
  exists w' c,
    WriteManifestFlags path entries flags version w = (Ret tt, w') /\
    ReadManifest path w' =
      (Ret (stored version <$> entries,
            mkHeader Magic version flags (Z.of_nat (length entries)) (total_size entries)), w') /\
    w_fs w' = <[at_path w path := NFile c]> (w_fs w) /\
    Z.of_nat (length c) =
      20 + Z.of_nat (length entries) * (if decide (version >= VersionV2) then 64 else 32).
Proof.
  intros Hnf Hs Hc Hwf. eexists _, _.
  split; [by apply WriteManifestFlags_run|]. split; [|split; [done|]].
  - erewrite ReadManifest_at; [|done|done|done|split; [apply lookup_insert_eq|done]].
    unfold manifest_header. by rewrite u32_small by apply Hwf.
  - rewrite length_manifest_bytes by apply Hwf. done.
Qed.

Definition demo_entry : Entry := mkEntry 4096 4 0 7 1 (replicate 32 Byte.x61).

Lemma demo_entry_wf : wf_entry demo_entry.
Proof. by split; vm_compute. Qed.

Lemma manifest_roundtrip_witness :
  exists w' c,
    WriteManifestFlags "/img/manifest.bin" [demo_entry] FlagSparse 2 demo_world = (Ret tt, w') /\
    ReadManifest "/img/manifest.bin" w' =
      (Ret (stored 2 <$> [demo_entry],
            mkHeader Magic 2 FlagSparse 1 4), w') /\
    w_fs w' = <[["img"; "manifest.bin"] := NFile c]> (w_fs demo_world) /\
    Z.of_nat (length c) = 84.
Proof.
  apply (manifest_roundtrip demo_world "/img/manifest.bin" [demo_entry] FlagSparse 2).
  - done.
  - done.
  - right. done.
  - split; [|done..]. constructor; [apply demo_entry_wf|constructor].
Defined.

(** A manifest cut short anywhere is refused with an end-of-file error. *)
Theorem manifest_truncated w path entries flags version n :
  nofault w -> path <> "" -> wf_manifest entries flags version ->
  (n < length (manifest_bytes entries flags version))%nat ->
  w_fs w !! at_path w path = Some (NFile (take n (manifest_bytes entries flags version))) ->
  exists e, ReadManifest path w = (Err e, w) /\ eof_error e.
Proof.
  intros Hnf Hs Hwf Hn Hc. destruct (short_manifest _ _ _ Hwf n Hn) as (e & He & Hee).
  exists e. split; [|done]. by eapply ReadManifest_fails.
Qed.

Lemma manifest_truncated_witness :
  let w := set_fs (<[["m"] := NFile (take 50 (manifest_bytes [demo_entry] 0 2))]>
                     (w_fs demo_world)) demo_world in
  exists e, ReadManifest "m" w = (Err e, w) /\ eof_error e.
Proof.
  intros w. apply (manifest_truncated w "m" [demo_entry] 0 2 50).
  - done.
  - done.
  - split; [|done..]. constructor; [apply demo_entry_wf|constructor].
  - vm_compute. lia.
  - done.
Defined.

(** C32: [ReadManifest] accepts a file only when it begins with the manifest
    magic and is, up to trailing bytes, exactly the encoding of the header and
    entries returned; the entry count is the header's. *)
Theorem manifest_accepts w path es h w' :
  nofault w -> path <> "" -> ReadManifest path w = (Ret (es, h), w') ->
  w' = w /\
  exists rest,
    w_fs w !! at_path w path =
      Some (NFile (header_bytes h ++ flat_map (entry_bytes (h_Version h)) es ++ rest)) /\
    h_Magic h = Magic /\ h_Count h = Z.of_nat (length es) /\ Forall wf_entry es.
Proof.
  intros Hnf Hs H. unfold ReadManifest in H.
  destruct (w_fs w !! at_path w path) as [n|] eqn:Hp;
    [|by erewrite bind_err in H by (by apply Open_missing)].
  destruct n as [c| |].
  - erewrite bind_run in H by (by eapply Open_run).
    erewrite bind_run in H by (by eapply fread_run).
    apply bind_inv in H as (r & w1 & Hr & H). injection H as Hres ->.
    destruct (parse_manifest c) as [e|[[es' h'] rest]] eqn:Hpm; [done|].
    injection Hr as <- <-. cbn in Hres. injection Hres as -> ->. split; [done|]. exists rest.
    apply parse_manifest_exact in Hpm as (-> & _ & ? & ? & ?). auto.
  - erewrite bind_run in H by (by eapply Open_run).
    unfold fread, mbind, M_bind, file_bytes in H. rewrite syscall_run in H by done.
    cbn [f_path] in H. by rewrite Hp in H.
  - unfold Open, mbind, M_bind in H. rewrite syscall_run in H by done.
    by rewrite (find_node_some w path NSock) in H.
Qed.

Lemma manifest_accepts_witness :
  let w := set_fs (<[["m"] := NFile (manifest_bytes [demo_entry] 0 2 ++ [Byte.x00])]>
                     (w_fs demo_world)) demo_world in
  let h := mkHeader Magic 2 0 1 4 in
  w = w /\
  exists rest,
    w_fs w !! at_path w "m" =
      Some (NFile (header_bytes h ++ flat_map (entry_bytes (h_Version h)) [demo_entry] ++ rest)) /\
    h_Magic h = Magic /\ h_Count h = Z.of_nat (length [demo_entry]) /\ Forall wf_entry [demo_entry].
Proof.
  intros w h. apply (manifest_accepts w "m" [demo_entry] h w); reflexivity || done.
Defined.

(** The sizes [EntrySize] reports are not the sizes [writeEntry] writes:
    each written entry is eight bytes shorter, in both versions. *)
Theorem entry_size_overstated w f c e version :
  nofault w -> wf_entry e -> w_fs w !! f_path f = Some (NFile c) ->
  exists c', writeEntry f e version w = (Ret tt, set_fs (<[f_path f := NFile c']> (w_fs w)) w) /\
    Z.of_nat (length c') - Z.of_nat (length c) = EntrySize version - 8.
Proof.
  intros Hnf He Hc. eexists. split; [by eapply writeEntry_run|].
  rewrite length_app, Nat2Z.inj_add, length_entry_bytes by done.
  unfold encoded_size, EntrySize, entryV1Size, entryV2Size. case_decide; lia.
Qed.

Lemma entry_size_overstated_witness :
  let w := set_fs (<[["m"] := NFile []]> (w_fs demo_world)) demo_world in
  let f := File "m" ["m"] in
  exists c', writeEntry f demo_entry 2 w = (Ret tt, set_fs (<[f_path f := NFile c']> (w_fs w)) w) /\
    Z.of_nat (length c') - Z.of_nat (length (@nil byte)) = EntrySize 2 - 8.
Proof.
  intros w f. apply (entry_size_overstated w f [] demo_entry 2); [done|apply demo_entry_wf|done].
Defined.
