(* ===== verification/ShimFormat.v ===== *)
(** The manifest as the shim writes it (shim/ckpt_ops.h, shim/snapshot.cu): the
    other producer of manifest.bin, which [ReadManifest] has to read. *)
From S2P Require Export ManifestFacts.
Local Open Scope Z_scope.

(** struct ChunkEntry, 32 bytes on x86-64; [pad] carries the sequence number. *)
Record ChunkEntry := mkChunk {
  ck_ptr : Z;
  ck_size : Z;
  ck_offset : Z;
  ck_crc32c : Z;
  ck_pad : Z;
}.

Definition chunk_bytes (e : ChunkEntry) : bytes :=
  le_enc 8 (ck_ptr e) ++ le_enc 8 (ck_size e) ++ le_enc 8 (ck_offset e) ++
  le_enc 4 (ck_crc32c e) ++ le_enc 4 (ck_pad e).

(** The local struct of ckpt_snapshot_write: magic, version 2, flags 0, count,
    then, after four bytes of alignment padding, the total. *)
Definition shim_header (padding : bytes) (count total : Z) : bytes :=
  le_enc 4 0x434B5054 ++ le_enc 2 2 ++ le_enc 2 0 ++ le_enc 4 count ++ padding ++ le_enc 8 total.

Definition shim_manifest (padding : bytes) (total : Z) (chunks : list ChunkEntry) : bytes :=
  shim_header padding (Z.of_nat (length chunks)) total ++ flat_map chunk_bytes chunks.

Lemma length_chunks chunks : length (flat_map chunk_bytes chunks) = (32 * length chunks)%nat.
Proof.
  induction chunks as [|e l IH]; [done|]. cbn [flat_map length].
  rewrite length_app, IH. unfold chunk_bytes. rewrite !length_app, !length_le_enc. lia.
Qed.

(** The header [ReadManifest] makes of the shim's: its total is the padding and
    the low half of the shim's total. *)
Definition seen_header (padding : bytes) (count total : Z) : Header :=
  mkHeader Magic 2 0 count (le_dec (padding ++ take 4 (le_enc 8 total))).

Lemma shim_header_seen padding count total :
  length padding = 4%nat ->
  shim_header padding count total =
  header_bytes (seen_header padding count total) ++ drop 4 (le_enc 8 total).
Proof.
  intros Hp. unfold shim_header, header_bytes, seen_header.
  cbn [h_Magic h_Version h_Flags h_Count h_TotalBytes].
  assert (E : le_enc 8 (le_dec (padding ++ take 4 (le_enc 8 total))) =
              padding ++ take 4 (le_enc 8 total)).
  { rewrite <- le_enc_dec, length_app, Hp, length_take, length_le_enc. done. }
  rewrite E, <- !app_assoc, take_drop. done.
Qed.

Lemma parse_shim_manifest padding total chunks :
  length padding = 4%nat -> chunks <> [] -> is_u32 (Z.of_nat (length chunks)) ->
  exists e, parse_manifest (shim_manifest padding total chunks) = inl e /\ eof_error e.
Proof.
  intros Hp Hne Hc. unfold shim_manifest. rewrite shim_header_seen by done.
  set (h := seen_header _ _ _). rewrite <- app_assoc.
  assert (Hwf : wf_header h).
  { unfold h, seen_header, wf_header. cbn. split; [by vm_compute|].
    split; [by vm_compute|]. split; [by vm_compute|]. split; [done|].
    pose proof (le_dec_range (padding ++ take 4 (le_enc 8 total))) as Hr.
    by rewrite length_app, Hp, length_take, length_le_enc in Hr. }
  unfold parse_manifest, mbind, reader_bind. rewrite (reads_header h Hwf).
  rewrite decide_False by (cbn; tauto).
  change (h_Count h) with (Z.of_nat (length chunks)). rewrite Nat2Z.id.
  change (h_Version h) with 2.
  set (l := drop 4 (le_enc 8 total) ++ flat_map chunk_bytes chunks).
  destruct (read_list (length chunks) (readEntry 2) l) as [e|[es rest]] eqn:E.
  - exists e. split; [done|]. by apply (eof_only_list _ _ (eof_only_entry 2) _ _ E).
  - exfalso. apply (exact_list _ _ _ _ (exact_entry 2)) in E as [E [Hl HF]].
    apply (f_equal length) in E. unfold l in E.
    rewrite !length_app, length_drop, length_le_enc, length_chunks in E.
    assert (Hes : length (flat_map (entry_bytes 2) es) = (64 * length es)%nat).
    { clear -HF. induction HF as [|x l Hx HF IH]; [done|]. cbn [flat_map length].
      rewrite length_app, IH. pose proof (length_entry_bytes 2 x Hx) as H.
      change (encoded_size 2) with 64 in H. lia. }
    rewrite Hes, Hl in E. destruct chunks; [done|]. cbn [length] in E. lia.
Qed.

(** A manifest written by the shim's snapshot, whatever its chunks and
    whatever the alignment padding holds, is refused by [ReadManifest] as
    truncated: the two sides disagree on the header's padding and on the size of
    a version-2 entry. *)
Theorem shim_manifest_refused w path padding total chunks :
  nofault w -> path <> "" -> length padding = 4%nat ->
  chunks <> [] -> is_u32 (Z.of_nat (length chunks)) ->
  w_fs w !! at_path w path = Some (NFile (shim_manifest padding total chunks)) ->
  exists e, ReadManifest path w = (Err e, w) /\ eof_error e.
Proof.
  intros Hnf Hs Hp Hne Hc Hf.
  destruct (parse_shim_manifest padding total chunks Hp Hne Hc) as (e & He & Hee).
  exists e. split; [|done]. by eapply ReadManifest_fails.
Qed.

Lemma shim_manifest_refused_witness :
  let chunks := [mkChunk 4096 4 0 7 1; mkChunk 8192 4 4 8 2] in
  let w := set_fs (<[["m"] := NFile (shim_manifest (replicate 4 Byte.x00) 8 chunks)]>
                     (w_fs demo_world)) demo_world in
  exists e, ReadManifest "m" w = (Err e, w) /\ eof_error e.
Proof.
  intros chunks w. apply (shim_manifest_refused w "m" (replicate 4 Byte.x00) 8 chunks);
    done || (vm_compute; intuition congruence).
Defined.
