(* ===== verification/Meta.v ===== *)
(** pkg/image/meta.go: the metadata file of an image. *)
From S2P Require Export Binary.
Local Open Scope Z_scope.

Definition MetaMagic : Z := 0x4d435054.

Record Meta := mkMeta {
  m_Magic : Z;
  m_Version : Z;
  m_Flags : Z;
  m_Pid : Z;
  m_Dev : Z;
  m_Preload : string;
  m_Visible : string;
}.

#[global] Instance Meta_eq_dec : EqDecision Meta.
Proof. solve_decision. Defined.

(** The buffer [WriteMeta] fills: Preload and Visible with their lengths. *)
Definition meta_bytes (m : Meta) : bytes :=
  let pl := bytes_of_string (m_Preload m) in
  let vl := bytes_of_string (m_Visible m) in
  le_enc 4 (m_Magic m) ++ le_enc 2 (m_Version m) ++ le_enc 2 (m_Flags m) ++
  le_enc 4 (m_Pid m) ++ le_enc 4 (m_Dev m) ++
  le_enc 4 (u32 (Z.of_nat (length pl))) ++ pl ++
  le_enc 4 (u32 (Z.of_nat (length vl))) ++ vl.

Definition WriteMeta (path : string) (m : Meta) : M unit :=
  let m := mkMeta MetaMagic 2 (m_Flags m) (m_Pid m) (m_Dev m) (m_Preload m) (m_Visible m) in
  WriteFile path (meta_bytes m).

(** A Go slice expression [b[lo:hi]] on a slice of length and capacity
    [length b]: it panics out of range. *)
Definition go_slice (lo hi : Z) (b : bytes) : M bytes :=
  if decide (0 <= lo <= hi /\ hi <= Z.of_nat (length b))
  then mret (slice (Z.to_nat lo) (Z.to_nat hi) b) else panic.

Definition Meta0 : Meta := mkMeta 0 0 0 0 0 "" "".

Definition with_Preload (s : string) (m : Meta) : Meta :=
  mkMeta (m_Magic m) (m_Version m) (m_Flags m) (m_Pid m) (m_Dev m) s (m_Visible m).
Definition with_Visible (s : string) (m : Meta) : Meta :=
  mkMeta (m_Magic m) (m_Version m) (m_Flags m) (m_Pid m) (m_Dev m) (m_Preload m) s.

(** binary.LittleEndian.Uint32(b[lo:lo+n]) and Uint16. *)
Definition le_at (lo n : Z) (b : bytes) : M Z := s ← go_slice lo (lo + n) b; mret (le_dec s).

Definition decode_meta (b : bytes) : M Meta :=
  let len := Z.of_nat (length b) in
  if decide (len < 16) then throw ErrInvalid
  else
    magic ← le_at 0 4 b;
    version ← le_at 4 2 b;
    flags ← le_at 6 2 b;
    pid ← le_at 8 4 b;
    dev ← le_at 12 4 b;
    let m := mkMeta magic version flags pid dev "" "" in
    if decide (magic <> MetaMagic) then throw ErrInvalid
    else if decide (version >= 2 /\ len >= 20) then
      pl ← le_at 16 4 b;
      if decide (20 + pl <= len) then
        preload ← go_slice 20 (20 + pl) b;
        let m := with_Preload (string_of_bytes preload) m in
        let o := 20 + pl in
        if decide (o + 4 <= len) then
          vl ← le_at o 4 b;
          if decide (o + 4 + vl <= len) then
            visible ← go_slice (o + 4) (o + 4 + vl) b;
            mret (with_Visible (string_of_bytes visible) m)
          else mret m
        else mret m
      else mret m
    else if decide (len > 16) then
      preload ← go_slice 16 len b;
      mret (with_Preload (string_of_bytes preload) m)
    else mret m.

Definition ReadMeta (path : string) : M Meta := b ← ReadFile path; decode_meta b.

Definition ReadDev (path : string) : M Z :=
  b ← ReadFile path;
  if decide (Z.of_nat (length b) < 4) then throw ErrInvalid else le_at 0 4 b.

(** ** Facts *)

Lemma go_slice_ok lo hi b w :
  0 <= lo <= hi -> hi <= Z.of_nat (length b) ->
  go_slice lo hi b w = (Ret (slice (Z.to_nat lo) (Z.to_nat hi) b), w).
Proof. intros. unfold go_slice. by rewrite decide_True. Qed.

Lemma le_at_ok lo n b w :
  0 <= lo -> 0 <= n -> lo + n <= Z.of_nat (length b) ->
  le_at lo n b w = (Ret (le_dec (slice (Z.to_nat lo) (Z.to_nat (lo + n)) b)), w).
Proof. intros. unfold le_at. erewrite bind_run by (apply go_slice_ok; lia). done. Qed.

(** The field found at an offset of a buffer. *)
Lemma go_slice_field k x c lo hi b w :
  lo = Z.of_nat k -> hi = lo + Z.of_nat (length x) -> drop k b = x ++ c -> (k <= length b)%nat ->
  go_slice lo hi b w = (Ret x, w).
Proof.
  intros -> -> Hd Hk. apply (f_equal length) in Hd as Hl. rewrite length_drop, length_app in Hl.
  rewrite go_slice_ok by lia. unfold slice. rewrite Nat2Z.id, Hd.
  rewrite take_app_exact; [done|lia].
Qed.

Lemma le_at_field k n z c lo nz b w :
  lo = Z.of_nat k -> nz = Z.of_nat n -> drop k b = le_enc n z ++ c -> (k <= length b)%nat ->
  0 <= z < 256 ^ Z.of_nat n ->
  le_at lo nz b w = (Ret z, w).
Proof.
  intros Hlo -> Hd Hk Hz. unfold le_at.
  erewrite bind_run by (eapply go_slice_field; [done|by rewrite length_le_enc|done|done]).
  by rewrite le_dec_enc_small.
Qed.

(** The values the fields of a [Meta] can have, with strings short enough for
    their length to fit the format's 32-bit length fields. *)
Record wf_meta (m : Meta) : Prop := {
  wfmeta_flags : is_u16 (m_Flags m);
  wfmeta_pid : is_u32 (m_Pid m);
  wfmeta_dev : is_u32 (m_Dev m);
  wfmeta_preload : is_u32 (Z.of_nat (length (bytes_of_string (m_Preload m))));
  wfmeta_visible : is_u32 (Z.of_nat (length (bytes_of_string (m_Visible m))));
}.

Lemma decode_meta_bytes m w :
  wf_meta m -> m_Magic m = MetaMagic -> m_Version m = 2 ->
  decode_meta (meta_bytes m) w = (Ret m, w).
Proof.
  intros [Hf Hp Hd Hpl Hvl] Hm Hv.
  destruct m as [mg v f p d ps vs]; cbn in *; subst mg v.
  set (pl := bytes_of_string ps) in *. set (vl := bytes_of_string vs) in *.
  set (b := meta_bytes (mkMeta MetaMagic 2 f p d ps vs)).
  assert (Hb : b = le_enc 4 MetaMagic ++ le_enc 2 2 ++ le_enc 2 f ++ le_enc 4 p ++ le_enc 4 d ++
    le_enc 4 (Z.of_nat (length pl)) ++ pl ++ le_enc 4 (Z.of_nat (length vl)) ++ vl).
  { unfold b, meta_bytes. cbn [m_Magic m_Version m_Flags m_Pid m_Dev m_Preload m_Visible].
    fold pl vl. by rewrite !u32_small. }
  clearbody b.
  assert (Hlen : length b = (24 + length pl + length vl)%nat).
  { subst b. rewrite !length_app, !length_le_enc. lia. }
  assert (H20 : drop 20 b = pl ++ le_enc 4 (Z.of_nat (length vl)) ++ vl) by (by subst b).
  assert (Hpv : drop (20 + length pl) b = le_enc 4 (Z.of_nat (length vl)) ++ vl).
  { rewrite <- drop_drop, H20. apply drop_app_length. }
  assert (Hvv : drop (24 + length pl) b = vl).
  { replace (24 + length pl)%nat with ((20 + length pl) + 4)%nat by lia.
    by rewrite <- drop_drop, Hpv. }
  unfold decode_meta. cbv zeta. rewrite decide_False by lia.
  erewrite bind_run by (eapply (le_at_field 0 4); [done|done|by subst b|lia|by vm_compute]).
  erewrite bind_run by (eapply (le_at_field 4 2); [done|done|by subst b|lia|by vm_compute]).
  erewrite bind_run by (eapply (le_at_field 6 2); [done|done|by subst b|lia|exact Hf]).
  erewrite bind_run by (eapply (le_at_field 8 4); [done|done|by subst b|lia|exact Hp]).
  erewrite bind_run by (eapply (le_at_field 12 4); [done|done|by subst b|lia|exact Hd]).
  rewrite decide_False by tauto. rewrite decide_True by lia.
  erewrite bind_run by (eapply (le_at_field 16 4); [done|done|by subst b|lia|exact Hpl]).
  rewrite decide_True by lia.
  erewrite bind_run by (eapply (go_slice_field 20 pl); [done|done|exact H20|lia]).
  rewrite decide_True by lia.
  erewrite bind_run by (eapply (le_at_field (20 + length pl) 4);
    [lia|done|exact Hpv|lia|exact Hvl]).
  rewrite decide_True by lia.
  erewrite bind_run by (eapply (go_slice_field (24 + length pl) vl []);
    [lia|done|by rewrite app_nil_r|lia]).
  unfold with_Visible, with_Preload. cbn. unfold pl, vl.
  by rewrite !string_of_bytes_of_string.
Qed.

(** C33: [ReadMeta] gives back what [WriteMeta] was given, with the magic and the
    version WriteMeta sets; nothing but the file changes. *)
Theorem meta_roundtrip w path m :
  nofault w -> path <> "" -> can_create (w_fs w) (at_path w path) -> wf_meta m ->
  exists w' c,
    WriteMeta path m w = (Ret tt, w') /\
    ReadMeta path w' =
      (Ret (mkMeta MetaMagic 2 (m_Flags m) (m_Pid m) (m_Dev m) (m_Preload m) (m_Visible m)), w') /\
    w_fs w' = <[at_path w path := NFile c]> (w_fs w).
Proof.
  intros Hnf Hs Hc Hwf. eexists _, _.
  split; [by apply WriteFile_run|]. split; [|done].
  unfold ReadMeta. erewrite bind_run by (eapply ReadFile_run; [done|done|apply lookup_insert_eq]).
  apply decode_meta_bytes; [|done..]. by destruct Hwf.
Qed.

Lemma meta_roundtrip_witness :
  let m := mkMeta 0 0 0 4242 1 "/usr/lib/libcudackpt.so" "0,1" in
  exists w' c,
    WriteMeta "/img/meta.bin" m demo_world = (Ret tt, w') /\
    ReadMeta "/img/meta.bin" w' =
      (Ret (mkMeta MetaMagic 2 (m_Flags m) (m_Pid m) (m_Dev m) (m_Preload m) (m_Visible m)), w') /\
    w_fs w' = <[["img"; "meta.bin"] := NFile c]> (w_fs demo_world).
Proof.
  intros m. apply (meta_roundtrip demo_world "/img/meta.bin" m).
  - done.
  - done.
  - right. done.
  - by split; vm_compute.
Defined.

(** The record is returned: its magic and the size of its strings. *)
Ltac decoded :=
  eexists; split; [done|split; [done|]]; cbn;
  rewrite ?bytes_of_string_of_bytes, ?length_bytes_empty, ?length_slice by lia; lia.

Lemma ReadMeta_file w path b :
  nofault w -> path <> "" -> w_fs w !! at_path w path = Some (NFile b) ->
  ReadMeta path w = (Err ErrInvalid, w) \/
  exists m, ReadMeta path w = (Ret m, w) /\ m_Magic m = MetaMagic /\
    Z.of_nat (length (bytes_of_string (m_Preload m))) +
    Z.of_nat (length (bytes_of_string (m_Visible m))) <= Z.of_nat (length b) - 16.
Proof.
  intros Hnf Hs Hc. unfold ReadMeta. erewrite bind_run by (by eapply ReadFile_run).
  clear Hc. unfold decode_meta. cbv zeta. case_decide as H16; [by left|].
  do 5 (erewrite bind_run by (apply le_at_ok; lia)).
  case_decide as Hm; [by left|]. right.
  case_decide as Hv; [|case_decide].
  - erewrite bind_run by (apply le_at_ok; lia). set (pl := le_dec _).
    pose proof (le_dec_nonneg (slice (Z.to_nat 16) (Z.to_nat (16 + 4)) b) : 0 <= pl).
    clearbody pl. case_decide as Hp; [|decoded].
    erewrite bind_run by (apply go_slice_ok; lia). case_decide as Ho; [|decoded].
    erewrite bind_run by (apply le_at_ok; lia). set (vl := le_dec _).
    pose proof (le_dec_nonneg (slice (Z.to_nat (20 + pl)) (Z.to_nat (20 + pl + 4)) b) : 0 <= vl).
    clearbody vl. case_decide as Hvle; [|decoded].
    erewrite bind_run by (apply go_slice_ok; lia). decoded.
  - erewrite bind_run by (apply go_slice_ok; lia). decoded.
  - decoded.
Qed.

Lemma ReadMeta_attempt w path :
  nofault w -> path <> "" -> exists r, attempt (ReadMeta path) w = (Ret r, w).
Proof.
  intros Hnf Hs. destruct (w_fs w !! at_path w path) as [[c| |]|] eqn:E.
  1: destruct (ReadMeta_file w path c Hnf Hs E) as [H|(m & H & _)]; unfold attempt; rewrite H; by eexists.
  all: eexists; apply attempt_err; unfold ReadMeta, ReadFile.
  - apply bind_err. erewrite bind_run by (by eapply Open_run). unfold fread. rewrite syscall_run by done.
    unfold file_bytes. cbn [f_path]. by rewrite E.
  - apply bind_err, bind_err. unfold Open. rewrite syscall_run by done. by rewrite (find_node_some w path NSock).
  - apply bind_err, bind_err. by apply Open_missing.
Qed.

(** On a file with any content, [ReadMeta] never indexes out of range: it
    returns a metadata record carrying the magic, or os.ErrInvalid, and changes
    nothing. *)
Theorem ReadMeta_total w path b :
  nofault w -> path <> "" -> w_fs w !! at_path w path = Some (NFile b) ->
  ReadMeta path w = (Err ErrInvalid, w) \/
  exists m, ReadMeta path w = (Ret m, w) /\ m_Magic m = MetaMagic /\
    Z.of_nat (length (bytes_of_string (m_Preload m))) +
    Z.of_nat (length (bytes_of_string (m_Visible m))) <= Z.of_nat (length b) - 16.
Proof. apply ReadMeta_file. Qed.

Lemma ReadMeta_total_witness :
  let w := set_fs (<[["m"] := NFile (replicate 40 Byte.xff)]> (w_fs demo_world)) demo_world in
  ReadMeta "m" w = (Err ErrInvalid, w) \/
  exists m, ReadMeta "m" w = (Ret m, w) /\ m_Magic m = MetaMagic /\
    Z.of_nat (length (bytes_of_string (m_Preload m))) +
    Z.of_nat (length (bytes_of_string (m_Visible m))) <=
    Z.of_nat (length (replicate 40 Byte.xff)) - 16.
Proof. intros w. apply (ReadMeta_total w "m"); done. Defined.
