(* ===== verification/Storage.v ===== *)
(** pkg/storage: the content-addressed store (cas.go) and the storage tier
    (tier.go). *)
From S2P Require Export Binary Sha256.
Local Open Scope Z_scope.

(** ** cas.go *)

(** A CAS is the root directory of its objects. *)
Record CAS := mkCAS { Root : string }.

Definition NewCAS (root : string) : M CAS :=
  let dir := PathJoin [root; "cas"] in
  MkdirAll dir ;; mret (mkCAS dir).

(** The two parts of an object's name: hexHash[:2] and hexHash[2:]. *)
Definition str_to (n : nat) (s : string) : string := String.substring 0 n s.
Definition str_from (n : nat) (s : string) : string := String.substring n (String.length s - n) s.

Definition cas_path (c : CAS) (hash : bytes) : string :=
  let hexHash := hex_encode hash in
  PathJoin [Root c; str_to 2 hexHash; str_from 2 hexHash].

Definition Put (c : CAS) (data : bytes) : M bytes :=
  let sum := Sum256 data in
  let path := cas_path c sum in
  st ← attempt (Stat path);
  match st with
  | inr _ => mret sum
  | inl _ =>
      MkdirAll (PathDir path) ;;
      let tmp := path +:+ ".tmp" in
      WriteFile tmp data ;;
      r ← attempt (Rename tmp path);
      match r with
      | inl e => ignore (Remove tmp) ;; throw e
      | inr _ => mret sum
      end
  end.

Definition Get (c : CAS) (hash : bytes) : M bytes := ReadFile (cas_path c hash).

Definition Has (c : CAS) (hash : bytes) : M bool :=
  st ← attempt (Stat (cas_path c hash));
  mret (match st with inr _ => true | inl _ => false end).

Definition HashString (h : bytes) : string := hex_encode h.

(** The errors of [ParseHash]: "hash: %w" around the error of hex.DecodeString,
    and "hash length %d". *)
Inductive hash_error :=
  | HashHex
  | HashLength (n : Z).

Definition ParseHash (s : string) : hash_error + bytes :=
  match hex_decode s with
  | None => inl HashHex
  | Some b =>
      if decide (length b <> 32%nat) then inl (HashLength (Z.of_nat (length b))) else inr b
  end.

(** ** tier.go *)

Record Tier := mkTier { t_Dir : string }.

Definition New (dir : string) : M Tier := MkdirAll dir ;; mret (mkTier dir).

Definition Spill (t : Tier) (name : string) (data : bytes) : M Z :=
  let p := PathJoin [t_Dir t; name] in
  f ← open_create true p;
  fwrite f data ;;
  mret (Z.of_nat (length data)).

(** The mapped file copied out; an empty file is not mapped. *)
Definition MmapRead (t : Tier) (name : string) : M bytes :=
  let p := PathJoin [t_Dir t; name] in
  f ← Open p;
  data ← fread f;
  mret data.

Definition DevicePath (t : Tier) : string := PathJoin [t_Dir t; "device.bin"].
Definition ManifestPath (t : Tier) : string := PathJoin [t_Dir t; "manifest.bin"].

(** ** Names of objects *)

Lemma length_hexdigits l : String.length (hex_encode l) = (2 * length l)%nat.
Proof. apply length_hex_encode. Qed.

Lemma hex_char_ne d c : 0 <= d < 16 -> hex_val c = None -> hex_char d <> c.
Proof. intros Hd Hc E. apply (f_equal hex_val) in E. by rewrite hex_val_char, Hc in E. Qed.

Lemma nibbles b : 0 <= Z_of_byte b / 16 < 16 /\ 0 <= Z_of_byte b `mod` 16 < 16.
Proof.
  pose proof (Z_of_byte_range b). split; [|apply Z.mod_pos_bound; lia].
  split; [apply Z.div_pos; lia|apply Z.div_lt_upper_bound; lia].
Qed.

(** A non-empty hexadecimal string, with any suffix without a slash, is the
    name of a directory entry. *)
Lemma hex_proper b l suf :
  contains_char slash suf = false -> proper (hex_encode (b :: l) +:+ suf) = true.
Proof.
  intros Hs. cbn [hex_encode]. rewrite !app_cons_str. apply proper_head.
  - apply hex_char_ne; [apply nibbles|done].
  - rewrite <- !app_cons_str.
    change (contains_char slash (hex_encode (b :: l) +:+ suf) = false).
    by rewrite contains_char_app, hex_encode_no_slash, Hs.
Qed.

Lemma substring_all s : String.substring 0 (String.length s) s = s.
Proof. induction s as [|c s IH]; [done|]. cbn. by rewrite IH. Qed.

Lemma str_split_hex b l :
  str_to 2 (hex_encode (b :: l)) = hex_encode [b] /\ str_from 2 (hex_encode (b :: l)) = hex_encode l.
Proof.
  unfold str_to, str_from. cbn [hex_encode]. generalize (hex_encode l). intros s. split.
  - by destruct s.
  - cbn. rewrite Nat.sub_0_r. apply substring_all.
Qed.

(** The directory and the entry of an object. *)
Definition obj_dir (w : world) (c : CAS) (b : byte) : path := at_path w (Root c) ++ [hex_encode [b]].

Lemma cas_path_resolves w c b l :
  Root c <> "" -> l <> [] ->
  cas_path c (b :: l) <> "" /\
  at_path w (cas_path c (b :: l)) = obj_dir w c b ++ [hex_encode l] /\
  at_path w (PathDir (cas_path c (b :: l))) = obj_dir w c b /\
  at_path w (cas_path c (b :: l) +:+ ".tmp") = obj_dir w c b ++ [hex_encode l +:+ ".tmp"].
Proof.
  intros Hr Hl. unfold cas_path. destruct (str_split_hex b l) as [-> ->].
  pose proof (hex_proper b [] "" eq_refl) as Hp1. rewrite app_nil_str in Hp1.
  assert (Hp : forall suf, contains_char slash suf = false -> proper (hex_encode l +:+ suf) = true).
  { intros. destruct l; [done|]. by apply hex_proper. }
  pose proof (Hp "" eq_refl) as Hp2. rewrite app_nil_str in Hp2.
  destruct (PathJoin3_last (Root c) _ _ Hr Hp1 Hp2) as [parts Hparts].
  set (s := PathJoin [Root c; hex_encode [b]; hex_encode l]) in *.
  assert (Hs : s <> "").
  { unfold s, PathJoin. rewrite bool_decide_eq_false_2 by done. apply Clean_nonempty. }
  assert (Hat : at_path w s = obj_dir w c b ++ [hex_encode l]).
  { unfold at_path, s, obj_dir. rewrite resolve_Join3 by done. by rewrite <- app_assoc. }
  split; [done|]. split; [done|]. split.
  - pose proof (resolve_PathDir (w_cwd w) s _ _ Hparts Hp2) as E. fold (at_path w s) in E.
    rewrite Hat in E. apply app_inj_tail in E as [E _]. by rewrite E.
  - unfold at_path. rewrite (resolve_proper_suffix _ _ _ _ _ Hparts Hs) by (done || by apply Hp).
    fold (at_path w s). by rewrite Hat, removelast_last.
Qed.
