(* ===== verification/StorageFacts.v ===== *)
(** The content-addressed store: every object has the digest its name says,
    [Put] keeps that and stores what [Get] returns; the text form of hashes;
    the storage tier. *)
From S2P Require Export Storage.
Local Open Scope Z_scope.

(** ** The store's invariant *)

Record cas_inv (c : CAS) (w : world) : Prop := {
  ci_wf : fs_wf (w_fs w);
  ci_root_name : Root c <> "";
  ci_root_dir : w_fs w !! at_path w (Root c) = Some NDir;
  ci_dirs : forall b n, w_fs w !! obj_dir w c b = Some n -> n = NDir;
  ci_objects : forall b l n, length l = 31%nat ->
    w_fs w !! (obj_dir w c b ++ [hex_encode l]) = Some n ->
    exists d, n = NFile d /\ Sum256 d = b :: l;
  ci_tmp : forall b l n, length l = 31%nat ->
    w_fs w !! (obj_dir w c b ++ [hex_encode l +:+ ".tmp"]) = Some n -> exists d, n = NFile d;
}.

Lemma Sum256_cons data : exists b l, Sum256 data = b :: l /\ length l = 31%nat.
Proof.
  pose proof (length_Sum256 data) as H. destruct (Sum256 data) as [|b l]; [done|].
  exists b, l. cbn in H. split; [done|lia].
Qed.

Lemma hex_encode_inj l k : hex_encode l = hex_encode k -> l = k.
Proof. intros H. apply (f_equal hex_decode) in H. rewrite !hex_decode_encode in H. congruence. Qed.

Lemma hex_not_tmp l k : length l = length k -> hex_encode l <> hex_encode k +:+ ".tmp".
Proof.
  intros Hl E. apply (f_equal String.length) in E.
  rewrite length_app_str, !length_hex_encode, Hl in E. cbn in E. lia.
Qed.

Lemma app_two_inj {A} (p q : list A) a b x y :
  (p ++ [a]) ++ [x] = (q ++ [b]) ++ [y] -> p = q /\ a = b /\ x = y.
Proof. intros H. apply app_inj_tail in H as [H ->]. by apply app_inj_tail in H as [-> ->]. Qed.

Lemma obj_dir_set_fs w fs c b : obj_dir (set_fs fs w) c b = obj_dir w c b.
Proof. done. Qed.

(** ** Steps that keep the invariant *)

Lemma cas_inv_eq c w w' : w_fs w' = w_fs w -> w_cwd w' = w_cwd w -> cas_inv c w -> cas_inv c w'.
Proof.
  intros Hf Hc [? ? ? ? ? ?]. assert (Ho : forall b, obj_dir w' c b = obj_dir w c b)
    by (intros; unfold obj_dir, at_path; by rewrite Hc).
  split; rewrite ?Hf; try done.
  - unfold at_path. by rewrite Hc.
  - intros b n. rewrite Ho. eauto.
  - intros b l n. rewrite Ho. eauto.
  - intros b l n. rewrite Ho. eauto.
Qed.

Lemma cas_inv_insert c w x n :
  cas_inv c w -> fs_wf (<[x := n]> (w_fs w)) -> at_path w (Root c) <> x ->
  (forall b, x = obj_dir w c b -> n = NDir) ->
  (forall b l, length l = 31%nat -> x = obj_dir w c b ++ [hex_encode l] ->
     exists d, n = NFile d /\ Sum256 d = b :: l) ->
  (forall b l, length l = 31%nat -> x = obj_dir w c b ++ [hex_encode l +:+ ".tmp"] ->
     exists d, n = NFile d) ->
  cas_inv c (set_fs (<[x := n]> (w_fs w)) w).
Proof.
  intros [] Hwf Hr Hd Ho Ht. split; try done; cbn [w_fs set_fs].
  - change (at_path (set_fs _ w) (Root c)) with (at_path w (Root c)). by rewrite lookup_insert_ne.
  - intros b m. rewrite obj_dir_set_fs. intros [[-> <-]|[_ H]]%lookup_insert_Some; [by eapply Hd|eauto].
  - intros b l m Hl. rewrite obj_dir_set_fs. intros [[-> <-]|[_ H]]%lookup_insert_Some; [by eapply Ho|eauto].
  - intros b l m Hl. rewrite obj_dir_set_fs. intros [[-> <-]|[_ H]]%lookup_insert_Some; [by eapply Ht|eauto].
Qed.

(** What a computation on the store leaves: a store, with every object it had
    or, under the same digest, the data being stored; nothing outside the store
    changes. *)
Record cas_ext (c : CAS) (data : bytes) (w w' : world) : Prop := {
  ce_inv : cas_inv c w';
  ce_cwd : w_cwd w' = w_cwd w;
  ce_frame : forall x, ~ at_path w (Root c) `prefix_of` x -> w_fs w' !! x = w_fs w !! x;
  ce_keeps : forall b l d, length l = 31%nat ->
    w_fs w !! (obj_dir w c b ++ [hex_encode l]) = Some (NFile d) ->
    exists d', w_fs w' !! (obj_dir w c b ++ [hex_encode l]) = Some (NFile d') /\
      (d' = d \/ d' = data);
}.

Lemma cas_ext_faults c data w l : cas_inv c w -> cas_ext c data w (set_faults l w).
Proof. intros H. split; [by apply (cas_inv_eq c w)|done|done|eauto]. Qed.

Lemma cas_ext_trans c data w1 w2 w3 :
  cas_ext c data w1 w2 -> cas_ext c data w2 w3 -> cas_ext c data w1 w3.
Proof.
  intros [I1 C1 F1 K1] [I2 C2 F2 K2].
  assert (Ha : at_path w2 (Root c) = at_path w1 (Root c)) by (unfold at_path; by rewrite C1).
  split; [done|congruence| |].
  - intros x Hx. rewrite F2; [by apply F1|by rewrite Ha].
  - intros b l d Hl Hd. destruct (K1 b l d Hl Hd) as (d1 & H1 & E1).
    assert (Ho : obj_dir w2 c b = obj_dir w1 c b) by (unfold obj_dir; by rewrite Ha).
    rewrite <- Ho in H1. destruct (K2 b l d1 Hl H1) as (d2 & H2 & E2).
    rewrite Ho in H2. exists d2. split; [done|]. destruct E1, E2; subst; auto.
Qed.

Section steps.
Context (c : CAS) (data : bytes) (w : world) (b : byte) (l : bytes).
Context (Hinv : cas_inv c w) (Hl : length l = 31%nat).

Lemma cas_ext_dir : cas_ext c data w (set_fs (<[obj_dir w c b := NDir]> (w_fs w)) w).
Proof using Hinv.
  clear Hl. split; [|done| |].
  - apply cas_inv_insert; [done| |apply path_snoc_ne|done| |].
    + apply fs_wf_insert_dir; [apply Hinv|apply Hinv|]. intros n. apply (ci_dirs _ _ Hinv).
    + intros b' l' _. unfold obj_dir; path_ne.
    + intros b' l' _. unfold obj_dir; path_ne.
  - intros x Hx. cbn. rewrite lookup_insert_ne; [done|]. intros <-. apply Hx. by eexists.
  - intros b' l' d Hl' Hd. exists d. split; [|by left]. cbn.
    rewrite lookup_insert_ne; [done|]. unfold obj_dir; path_ne.
Qed.

Context (Hdir : w_fs w !! obj_dir w c b = Some NDir).

Lemma cas_ext_tmp d :
  cas_ext c data w (set_fs (<[obj_dir w c b ++ [hex_encode l +:+ ".tmp"] := NFile d]> (w_fs w)) w).
Proof using Hinv Hl Hdir.
  split; [|done| |].
  - apply cas_inv_insert; [done| |unfold obj_dir; path_ne|unfold obj_dir; intros ?; path_ne| |by eexists].
    + apply fs_wf_insert_file; [apply Hinv|done|].
      intros E. by apply (ci_tmp _ _ Hinv) in E as [? ?].
    + intros b' l' Hl' E. unfold obj_dir in E. apply app_two_inj in E as (_ & _ & E).
      symmetry in E. apply hex_not_tmp in E; [done|congruence].
  - intros x Hx. cbn. rewrite lookup_insert_ne; [done|]. intros <-. apply Hx.
    unfold obj_dir. rewrite <- app_assoc. by eexists.
  - intros b' l' d' Hl' Hd. exists d'. split; [|by left]. cbn. rewrite lookup_insert_ne; [done|].
    intros E. unfold obj_dir in E. apply app_two_inj in E as (_ & _ & E).
    symmetry in E. apply hex_not_tmp in E; [done|congruence].
Qed.

Lemma cas_ext_untmp :
  cas_ext c data w (set_fs (delete (obj_dir w c b ++ [hex_encode l +:+ ".tmp"]) (w_fs w)) w).
Proof using Hinv Hl.
  split; [|done| |].
  - destruct Hinv as [? ? ? Hd Ho Ht]. split; try done; cbn [w_fs set_fs].
    + apply fs_wf_delete_file; [done|]. intros E. by apply Ht in E as [? ?].
    + change (at_path (set_fs _ w) (Root c)) with (at_path w (Root c)).
      rewrite lookup_delete_ne; [done|]. unfold obj_dir; path_ne.
    + intros b' n [_ H]%lookup_delete_Some. eauto.
    + intros b' l' n Hl' [_ H]%lookup_delete_Some. eauto.
    + intros b' l' n Hl' [_ H]%lookup_delete_Some. eauto.
  - intros x Hx. cbn. rewrite lookup_delete_ne; [done|]. intros <-. apply Hx.
    unfold obj_dir. rewrite <- app_assoc. by eexists.
  - intros b' l' d' Hl' Hd. exists d'. split; [|by left]. cbn. rewrite lookup_delete_ne; [done|].
    intros E. unfold obj_dir in E. apply app_two_inj in E as (_ & _ & E).
    symmetry in E. apply hex_not_tmp in E; [done|congruence].
Qed.

Lemma cas_ext_obj :
  Sum256 data = b :: l ->
  cas_ext c data w (set_fs (<[obj_dir w c b ++ [hex_encode l] := NFile data]> (w_fs w)) w).
Proof using Hinv Hl Hdir.
  intros Hsum. split; [|done| |].
  - apply cas_inv_insert; [done| |unfold obj_dir; path_ne|unfold obj_dir; intros ?; path_ne| |by eexists].
    + apply fs_wf_insert_file; [apply Hinv|done|].
      intros E. by apply (ci_objects _ _ Hinv) in E as (? & ? & _).
    + intros b' l' Hl' E. exists data. split; [done|].
      unfold obj_dir in E. apply app_two_inj in E as (_ & E1 & E2).
      apply hex_encode_inj in E1, E2. congruence.
  - intros x Hx. cbn. rewrite lookup_insert_ne; [done|]. intros <-. apply Hx.
    unfold obj_dir. rewrite <- app_assoc. by eexists.
  - intros b' l' d' Hl' Hd. cbn.
    destruct (decide (obj_dir w c b ++ [hex_encode l] = obj_dir w c b' ++ [hex_encode l'])) as [E|E].
    + exists data. rewrite E. split; [apply lookup_insert_eq|by right].
    + exists d'. split; [by rewrite lookup_insert_ne|by left].
Qed.
End steps.

(** The file system after an object is stored. *)
Definition stored_fs (w : world) (c : CAS) (b : byte) (l data : bytes) : gmap path node :=
  <[obj_dir w c b ++ [hex_encode l] := NFile data]>
    (delete (obj_dir w c b ++ [hex_encode l +:+ ".tmp"]) (<[obj_dir w c b := NDir]> (w_fs w))).

Section put.
Context (w : world) (c : CAS) (b : byte) (l data : bytes).
Context (Hnf : nofault w) (Hinv : cas_inv c w).
Context (Hsum : Sum256 data = b :: l) (Hl : length l = 31%nat).

Local Notation o := (obj_dir w c b ++ [hex_encode l]).
Local Notation t := (obj_dir w c b ++ [hex_encode l +:+ ".tmp"]).

Lemma l_nonnil : l <> [].
Proof. by destruct l. Qed.

Lemma Put_present n : w_fs w !! o = Some n -> Put c data w = (Ret (Sum256 data), w).
Proof.
  intros Hn. destruct (cas_path_resolves w c b l (ci_root_name _ _ Hinv) l_nonnil)
    as (Hne & Hat & _). unfold Put. rewrite Hsum.
  erewrite bind_run by (apply attempt_run; eapply Stat_run; [done|done|by rewrite Hat]).
  done.
Qed.

Lemma dir_inserted : fs_wf (<[obj_dir w c b := NDir]> (w_fs w)).
Proof.
  apply fs_wf_insert_dir; [apply Hinv|apply Hinv|]. intros n. apply (ci_dirs _ _ Hinv).
Qed.

Lemma Put_absent :
  w_fs w !! o = None ->
  Put c data w = (Ret (Sum256 data), set_fs (stored_fs w c b l data) w).
Proof.
  intros Hn. destruct (cas_path_resolves w c b l (ci_root_name _ _ Hinv) l_nonnil)
    as (Hne & Hat & Hdir & Htmp). unfold Put. rewrite Hsum.
  set (s := cas_path c (b :: l)) in *.
  erewrite bind_run by (apply attempt_err; unfold Stat; rewrite syscall_run by done;
    rewrite find_node_none by (rewrite ?Hat; done); reflexivity). cbv beta iota.
  destruct (mkdirs_child (w_fs w) (at_path w (Root c)) (hex_encode [b])) as [Hb _];
    [apply Hinv|apply Hinv|intros n; apply (ci_dirs _ _ Hinv)|].
  assert (Hm : mkdirs (w_fs w) (prefixes (obj_dir w c b) ++ [obj_dir w c b]) =
    <[obj_dir w c b := NDir]> (w_fs w))
    by (apply mkdirs_child_all; [apply Hinv|apply Hinv|intros n; apply (ci_dirs _ _ Hinv)]).
  erewrite bind_run by (apply MkdirAll_run; [done|apply Clean_nonempty|by rewrite Hdir]).
  rewrite Hdir, Hm.
  set (fs1 := <[obj_dir w c b := NDir]> (w_fs w)).
  assert (Hto : t <> o).
  { intros E. apply app_inj_tail in E as [_ E]. symmetry in E.
    revert E. by apply hex_not_tmp. }
  assert (Hf1 : forall x, x = t \/ x = o -> fs1 !! x = w_fs w !! x).
  { intros x Hx. unfold fs1. apply lookup_insert_ne.
    destruct Hx as [-> | ->]; apply path_snoc_ne. }
  assert (Hd1 : fs1 !! obj_dir w c b = Some NDir) by (apply lookup_insert_eq).
  assert (Htf : forall n, fs1 !! t = Some n -> exists d, n = NFile d).
  { intros n. rewrite Hf1 by auto. by apply (ci_tmp _ _ Hinv). }
  assert (Hc1 : can_create fs1 t).
  { apply can_create_child; [done|]. destruct (fs1 !! t) as [n|] eqn:E; [|done].
    by destruct (Htf n eq_refl) as [d ->]. }
  assert (Hne2 : s +:+ ".tmp" <> "") by (by destruct s).
  erewrite bind_run by (apply (WriteFile_run _ _ t); [done|done|exact Htmp|exact Hc1]).
  set (w1 := set_fs _ (set_fs fs1 w)).
  assert (Hren : Rename (s +:+ ".tmp") s w1 = (Ret tt, set_fs (<[o := NFile data]> (delete t (w_fs w1))) w1)).
  { apply (Rename_file_run _ _ _ t o data); try done; cbn [w1 w_fs set_fs].
    - apply fs_wf_insert_file; [apply dir_inserted|done|]. intros E. by destruct (Htf _ E).
    - apply lookup_insert_eq.
    - rewrite lookup_insert_ne by done. by rewrite Hf1, Hn by auto.
    - apply parent_errno_child. rewrite lookup_insert_ne; [done|].
      intros E. symmetry in E. by apply path_snoc_ne in E. }
  rewrite (bind_run _ _ _ _ _ (attempt_run _ _ _ _ Hren)). unfold w1.
  cbn [w_fs set_fs]. by rewrite delete_insert_eq.
Qed.

Lemma stored_fs_obj : stored_fs w c b l data !! o = Some (NFile data).
Proof. apply lookup_insert_eq. Qed.

(** What is outside the object's directory, its entry and its temporary name
    stays. *)
Lemma stored_fs_other x :
  x <> o -> x <> t -> x <> obj_dir w c b -> stored_fs w c b l data !! x = w_fs w !! x.
Proof.
  intros H1 H2 H3. unfold stored_fs. by rewrite lookup_insert_ne, lookup_delete_ne, lookup_insert_ne.
Qed.

Lemma Put_absent_ext : cas_inv c (set_fs (stored_fs w c b l data) w).
Proof.
  pose proof (ce_inv _ _ _ _ (cas_ext_dir c data w b Hinv)) as I1.
  pose proof (ce_inv _ _ _ _ (cas_ext_untmp c data _ b l I1 Hl)) as I2.
  refine (ce_inv _ _ _ _ (cas_ext_obj c data _ b l I2 Hl _ Hsum)).
  cbn [w_fs set_fs]. rewrite !obj_dir_set_fs, lookup_delete_ne; [apply lookup_insert_eq|].
  intros E. symmetry in E. by apply path_snoc_ne in E.
Qed.
End put.

(** What a [Put] does, in both cases. *)
Record put_post (c : CAS) (data : bytes) (w w' : world) : Prop := {
  pp_nofault : nofault w';
  pp_inv : cas_inv c w';
  pp_cwd : w_cwd w' = w_cwd w;
  pp_frame : forall x, ~ at_path w (Root c) `prefix_of` x -> w_fs w' !! x = w_fs w !! x;
  pp_keeps : forall b l d, length l = 31%nat ->
    w_fs w !! (obj_dir w c b ++ [hex_encode l]) = Some (NFile d) ->
    w_fs w' !! (obj_dir w c b ++ [hex_encode l]) = Some (NFile d);
  pp_stored : forall b l, Sum256 data = b :: l -> exists d,
    w_fs w' !! (obj_dir w c b ++ [hex_encode l]) = Some (NFile d) /\ Sum256 d = Sum256 data /\
    (w_fs w !! (obj_dir w c b ++ [hex_encode l]) = None -> d = data);
}.

Lemma Put_run w c data :
  nofault w -> cas_inv c w ->
  exists w', Put c data w = (Ret (Sum256 data), w') /\ put_post c data w w'.
Proof.
  intros Hnf Hinv. destruct (Sum256_cons data) as (b & l & Hsum & Hl).
  destruct (w_fs w !! (obj_dir w c b ++ [hex_encode l])) as [n|] eqn:Ho.
  - exists w. split; [by eapply Put_present|]. split; try done.
    intros b' l' Hs. rewrite Hsum in Hs. injection Hs as <- <-.
    destruct (ci_objects _ _ Hinv b l n Hl Ho) as (d & -> & Hd).
    exists d. rewrite Hsum. split_and!; [done|done|congruence].
  - eexists. split; [by eapply Put_absent|].
    assert (Hother : forall x, x <> obj_dir w c b ++ [hex_encode l] ->
      x <> obj_dir w c b ++ [hex_encode l +:+ ".tmp"] -> x <> obj_dir w c b ->
      stored_fs w c b l data !! x = w_fs w !! x) by (by apply stored_fs_other).
    split; [done|by eapply Put_absent_ext|done| | |]; cbn [w_fs set_fs].
    + intros x Hx. unfold obj_dir in *.
      apply Hother; intros ->; apply Hx; rewrite <- ?app_assoc; by eexists.
    + intros b' l' d Hl' Hd. destruct (decide (obj_dir w c b' ++ [hex_encode l'] =
        obj_dir w c b ++ [hex_encode l])) as [E|Hne]; [rewrite E in Hd; congruence|].
      rewrite Hother; [done|done| |].
      * unfold obj_dir. intros E. apply app_two_inj in E as (_ & _ & E).
        revert E. apply hex_not_tmp. congruence.
      * unfold obj_dir; path_ne.
    + intros b' l' Hs. rewrite Hsum in Hs. injection Hs as <- <-.
      exists data. split_and!; [apply stored_fs_obj|done|done].
Qed.

Lemma Get_run w c b l d :
  nofault w -> Root c <> "" -> l <> [] ->
  w_fs w !! (obj_dir w c b ++ [hex_encode l]) = Some (NFile d) ->
  Get c (b :: l) w = (Ret d, w).
Proof.
  intros Hnf Hr Hl Hd. destruct (cas_path_resolves w c b l Hr Hl) as (Hne & Hat & _).
  unfold Get. apply ReadFile_run; [done..|]. by rewrite Hat.
Qed.

Lemma obj_dir_cwd w w' c b : w_cwd w' = w_cwd w -> obj_dir w' c b = obj_dir w c b.
Proof. intros E. unfold obj_dir, at_path. by rewrite E. Qed.

(** One step of a run under faults: the world with fewer faults, then an
    update that extends the store. *)
Lemma cas_ext_step c data w w1 l (f : world -> world) :
  (forall v, cas_inv c v -> w_fs v = w_fs w1 -> w_cwd v = w_cwd w1 -> cas_ext c data v (f v)) ->
  cas_ext c data w w1 -> cas_ext c data w (f (set_faults l w1)).
Proof.
  intros Hf He. eapply cas_ext_trans; [exact He|].
  pose proof (cas_ext_faults c data w1 l (ce_inv _ _ _ _ He)) as H1.
  eapply cas_ext_trans; [exact H1|]. apply Hf; [apply H1|done|done].
Qed.

(** mkdir -p of an object's directory, complete or not. *)
Lemma cas_ext_mkdirs c data w b l :
  cas_inv c w -> (forall q, q ∈ l -> q `prefix_of` obj_dir w c b) ->
  cas_ext c data w (set_fs (mkdirs (w_fs w) l) w).
Proof.
  intros Hinv Hl.
  destruct (mkdirs_child (w_fs w) (at_path w (Root c)) (hex_encode [b])) as [_ Hm];
    [apply Hinv|apply Hinv|intros n; apply (ci_dirs _ _ Hinv)|].
  fold (obj_dir w c b) in Hm. rewrite Hm by done. case_decide; [by apply cas_ext_dir|].
  replace (set_fs (w_fs w) w) with (set_faults (w_faults w) w) by (by destruct w).
  by apply cas_ext_faults.
Qed.

(** The digest names an object of the store. *)
Definition stores (c : CAS) (w : world) (h : bytes) : Prop :=
  exists b l d, h = b :: l /\ length l = 31%nat /\ Sum256 d = h /\
    w_fs w !! (obj_dir w c b ++ [hex_encode l]) = Some (NFile d).

Definition put_result (c : CAS) (data : bytes) (r : outcome bytes) (w' : world) : Prop :=
  match r with
  | Ret h => h = Sum256 data /\ stores c w' h
  | Err _ => True
  | Panic | Diverge => False
  end.

(** The last two steps of [Put]: the temporary file is there, and is renamed or
    removed. *)
Lemma Put_rename_any c data w b l s :
  cas_inv c w -> Sum256 data = b :: l -> length l = 31%nat -> s = cas_path c (b :: l) ->
  w_fs w !! obj_dir w c b = Some NDir ->
  w_fs w !! (obj_dir w c b ++ [hex_encode l +:+ ".tmp"]) = Some (NFile data) ->
  exists r w', (r ← attempt (Rename (s +:+ ".tmp") s);
      match r with
      | inl e => ignore (Remove (s +:+ ".tmp")) ;; throw e
      | inr _ => mret (b :: l)
      end) w = (r, w') /\ cas_ext c data w w' /\ put_result c data r w'.
Proof.
  intros Hinv Hsum Hl -> Hdir Htf.
  destruct (cas_path_resolves w c b l (ci_root_name _ _ Hinv)) as (Hne & Hat & _ & Htmp);
    [by destruct l|].
  set (s := cas_path c (b :: l)) in *.
  assert (Hne2 : s +:+ ".tmp" <> "") by (by destruct s).
  assert (Hto : obj_dir w c b ++ [hex_encode l +:+ ".tmp"] <> obj_dir w c b ++ [hex_encode l]).
  { intros E. apply app_inj_tail in E as [_ E]. symmetry in E. revert E. by apply hex_not_tmp. }
  destruct (Rename_file_any w (s +:+ ".tmp") s _ _ data (ci_wf _ _ Hinv) Hne2 Hne Htmp Hat Hto Htf)
    as (l1 & [H|[e H]]).
  - intros E. by apply (ci_objects _ _ Hinv) in E as (? & ? & _).
  - by apply parent_errno_child.
  - eexists _, _. split; [by rewrite (bind_run _ _ _ _ _ (attempt_run _ _ _ _ H))|].
    change (set_fs ?fs (set_faults l1 w)) with ((fun v => set_fs fs v) (set_faults l1 w)).
    assert (He : cas_ext c data w (set_fs (<[obj_dir w c b ++ [hex_encode l] := NFile data]>
        (delete (obj_dir w c b ++ [hex_encode l +:+ ".tmp"]) (w_fs w))) w)).
    { pose proof (cas_ext_untmp c data w b l Hinv Hl) as E1.
      eapply cas_ext_trans; [exact E1|].
      refine (cas_ext_obj c data _ b l (ce_inv _ _ _ _ E1) Hl _ Hsum).
      cbn [w_fs set_fs]. rewrite lookup_delete_ne; [done|].
      intros E. symmetry in E. by apply path_snoc_ne in E. }
    split.
    + eapply cas_ext_trans; [exact He|]. cbn beta.
      exact (cas_ext_faults c data (set_fs _ w) l1 (ce_inv _ _ _ _ He)).
    + split; [done|]. exists b, l, data. split_and!; try done. cbn. by rewrite lookup_insert_eq.
  - rewrite (bind_run _ _ _ _ _ (attempt_err _ _ _ _ H)). cbv beta iota.
    set (w1 := set_faults l1 w).
    pose proof (cas_ext_faults c data w l1 Hinv) as E1.
    assert (Hnd : w_fs w1 !! (obj_dir w c b ++ [hex_encode l +:+ ".tmp"]) <> Some NDir)
      by (cbn; congruence).
    destruct (Remove_file_any w1 (s +:+ ".tmp") _ Hne2 Htmp Hnd) as (l2 & [H2|[e2 H2]]).
    + eexists (Err e), _. split; [by rewrite (bind_run _ _ _ _ _ (ignore_run _ _ _ _ H2))|].
      split; [|done]. refine (cas_ext_step c data w w1 l2 (fun v => set_fs _ v) _ E1).
      intros v Hv Hf Hc. rewrite <- Hf.
      replace (obj_dir w c b) with (obj_dir v c b) by (unfold obj_dir, at_path; by rewrite Hc).
      by apply cas_ext_untmp.
    + eexists (Err e), _. split.
      { unfold ignore, mbind, M_bind. by rewrite (attempt_err _ _ _ _ H2). }
      split; [|done]. eapply cas_ext_trans; [exact E1|]. apply cas_ext_faults, E1.
Qed.

(** The steps of [Put] once the object's directory is there. *)
Lemma Put_write_any c data w b l s :
  cas_inv c w -> Sum256 data = b :: l -> length l = 31%nat -> s = cas_path c (b :: l) ->
  w_fs w !! obj_dir w c b = Some NDir ->
  exists r w', (WriteFile (s +:+ ".tmp") data ;;
      r ← attempt (Rename (s +:+ ".tmp") s);
      match r with
      | inl e => ignore (Remove (s +:+ ".tmp")) ;; throw e
      | inr _ => mret (b :: l)
      end) w = (r, w') /\ cas_ext c data w w' /\ put_result c data r w'.
Proof.
  intros Hinv Hsum Hl Hs Hdir.
  destruct (cas_path_resolves w c b l (ci_root_name _ _ Hinv)) as (Hne & _ & _ & Htmp);
    [by destruct l|]. rewrite <- Hs in Hne, Htmp.
  assert (Hne2 : s +:+ ".tmp" <> "") by (by destruct s).
  assert (Hc : can_create (w_fs w) (obj_dir w c b ++ [hex_encode l +:+ ".tmp"])).
  { apply can_create_child; [done|].
    destruct (w_fs w !! (obj_dir w c b ++ [hex_encode l +:+ ".tmp"])) as [n|] eqn:E; [|done].
    by destruct (ci_tmp _ _ Hinv b l n Hl E) as [d ->]. }
  pose proof (cas_ext_faults c data w (w_faults w) Hinv) as E0.
  replace (set_faults (w_faults w) w) with w in E0 by (by destruct w).
  destruct (WriteFile_any w (s +:+ ".tmp") _ data Hne2 Htmp Hc) as (l3 & Hwr).
  assert (Ewr : forall d, cas_ext c data w
    (set_fs (<[obj_dir w c b ++ [hex_encode l +:+ ".tmp"] := NFile d]> (w_fs w)) (set_faults l3 w))).
  { intros d. refine (cas_ext_step c data w w l3 (fun v => set_fs _ v) _ E0).
    intros v Hv Hf Hcw. rewrite <- Hf.
    replace (obj_dir w c b) with (obj_dir v c b) by (unfold obj_dir, at_path; by rewrite Hcw).
    apply cas_ext_tmp; [done..|]. unfold obj_dir, at_path. rewrite Hf, Hcw. exact Hdir. }
  destruct Hwr as [Hwr|(e3 & fs & Hwr & Hfs)].
  - rewrite (bind_run _ _ _ _ _ Hwr). specialize (Ewr data).
    edestruct (Put_rename_any c data _ b l s (ce_inv _ _ _ _ Ewr) Hsum Hl Hs)
      as (r & w' & -> & E3 & Hr).
    + cbn. rewrite lookup_insert_ne; [exact Hdir|]. intros E. symmetry in E. by apply path_snoc_ne in E.
    + apply lookup_insert_eq.
    + exists r, w'. split; [done|]. split; [by eapply cas_ext_trans|done].
  - exists (Err e3). eexists. split; [by rewrite (bind_err _ _ _ _ _ Hwr)|]. split; [|done].
    destruct Hfs as [->|[d ->]]; [|apply Ewr]. exact (cas_ext_faults c data w l3 Hinv).
Qed.

(** A run under any fault schedule: the store stays a store, keeps its objects,
    and a success means the object is there. *)
Lemma Put_any c data w :
  cas_inv c w ->
  exists r w', Put c data w = (r, w') /\ cas_ext c data w w' /\ put_result c data r w'.
Proof.
  intros Hinv. destruct (Sum256_cons data) as (b & l & Hsum & Hl).
  destruct (cas_path_resolves w c b l (ci_root_name _ _ Hinv)) as (Hne & Hat & Hdir & Htmp);
    [by destruct l|].
  unfold Put. rewrite Hsum. set (s := cas_path c (b :: l)) in *.
  assert (Hne2 : s +:+ ".tmp" <> "") by (by destruct s).
  destruct (Stat_any s w) as (l1 & [(n & Hst & Hn)|(e & Hst)]).
  { rewrite (bind_run _ _ _ _ _ (attempt_run _ _ _ _ Hst)). do 2 eexists. split; [done|].
    split; [by apply cas_ext_faults|]. cbn. split; [done|].
    unfold find_node in Hn. rewrite decide_False, Hat in Hn by done.
    destruct (w_fs w !! (obj_dir w c b ++ [hex_encode l])) as [m|] eqn:E; [|done].
    destruct (ci_objects _ _ Hinv b l m Hl E) as (d & -> & Hd).
    by exists b, l, d. }
  rewrite (bind_run _ _ _ _ _ (attempt_err _ _ _ _ Hst)). cbv beta iota.
  set (w1 := set_faults l1 w). pose proof (cas_ext_faults c data w l1 Hinv) as E1.
  fold w1 in E1.
  assert (Hb1 : blocked (w_fs w1) (prefixes (at_path w1 (PathDir s)) ++ [at_path w1 (PathDir s)]) = false).
  { change (at_path w1 (PathDir s)) with (at_path w (PathDir s)). rewrite Hdir.
    apply mkdirs_child; [apply Hinv|apply Hinv|intros n; apply (ci_dirs _ _ Hinv)]. }
  destruct (MkdirAll_any w1 (PathDir s) ltac:(apply Clean_nonempty) Hb1) as (l2 & Hmk).
  change (at_path w1 (PathDir s)) with (at_path w (PathDir s)) in Hmk. rewrite Hdir in Hmk.
  assert (Emk : forall k, (forall q, q ∈ k -> q `prefix_of` obj_dir w c b) ->
    cas_ext c data w (set_fs (mkdirs (w_fs w1) k) (set_faults l2 w1))).
  { intros k Hk. refine (cas_ext_step c data w w1 l2 (fun v => set_fs _ v) _ E1).
    intros v Hv Hf Hc. rewrite <- Hf. apply (cas_ext_mkdirs c data v b); [done|].
    by replace (obj_dir v c b) with (obj_dir w c b) by (unfold obj_dir, at_path; by rewrite Hc). }
  destruct Hmk as [Hmk|(e2 & k & Hmk)].
  2:{ exists (Err e2). eexists. split; [by rewrite (bind_err _ _ _ _ _ Hmk)|]. split; [|done].
      apply Emk. intros q. apply elem_of_take_prefixes. }
  rewrite (bind_run _ _ _ _ _ Hmk).
  specialize (Emk _ (fun q => proj1 (elem_of_prefixes _ q))).
  set (w2 := set_fs _ _) in *.
  assert (Hd2 : w_fs w2 !! obj_dir w2 c b = Some NDir).
  { cbn. unfold obj_dir at 1 2. rewrite mkdirs_child_all.
    - apply lookup_insert_eq.
    - apply Hinv.
    - apply Hinv.
    - intros n. apply (ci_dirs _ _ Hinv). }
  destruct (Put_write_any c data w2 b l s (ce_inv _ _ _ _ Emk) Hsum Hl eq_refl Hd2)
    as (r & w' & -> & E3 & Hr).
  exists r, w'. split; [done|]. split; [by eapply cas_ext_trans|done].
Qed.

(** ** Hashes as text *)

(** The lower-case form of an ASCII string. *)
Definition lower_ascii (c : ascii) : ascii :=
  let n := N_of_ascii c in
  if decide (65 <= n <= 90)%N then ascii_of_N (n + 32) else c.

Fixpoint lower (s : string) : string :=
  match s with
  | EmptyString => EmptyString
  | String c s => String (lower_ascii c) (lower s)
  end.

Lemma hex_char_val c x : hex_val c = Some x -> 0 <= x < 16 /\ hex_char x = lower_ascii c.
Proof.
  destruct c as [[] [] [] [] [] [] [] []]; vm_compute; intros H; try discriminate H;
    injection H as <-; (split; [split; congruence|reflexivity]).
Qed.

Lemma hex_encode_decode s l : hex_decode s = Some l -> hex_encode l = lower s.
Proof.
  revert l. induction s as [s IH] using (induction_ltof1 _ String.length). unfold ltof in IH.
  destruct s as [|a [|b s]]; cbn [hex_decode]; intros l; [by intros [= <-]|done|].
  destruct (hex_val a) as [x|] eqn:Ha; [|done]. destruct (hex_val b) as [y|] eqn:Hb; [|done].
  destruct (hex_decode s) as [k|] eqn:Hs; [|done]. intros [= <-].
  apply hex_char_val in Ha as [Hx Ha], Hb as [Hy Hb]. cbn [hex_encode lower].
  rewrite Z_of_byte_of_Z by lia. rewrite (IH s ltac:(cbn; lia) k Hs), <- Ha, <- Hb.
  rewrite (Z.mod_small (16 * x + y) 256) by lia.
  replace ((16 * x + y) / 16) with x by (apply (Z.div_unique_pos _ _ _ y); lia).
  replace ((16 * x + y) `mod` 16) with y by (apply (Z.mod_unique_pos _ _ x); lia). done.
Qed.

(** ** The store's properties *)

(** C9: [Put] on a content-addressed store, under any schedule of failing
    system calls and wherever it stops: it returns the data's digest or an
    error, and never panics; a returned digest names an object of that digest;
    every file under an object name still has the digest its name says; no
    object is lost (under its digest there is what there was, or the new data);
    nothing outside the store's directory changes. *)
Theorem put_crash_safe (c : CAS) (data : bytes) (w : world) (Hinv : cas_inv c w) :
  exists r w', Put c data w = (r, w') /\ put_result c data r w' /\ cas_inv c w' /\
    (forall b l d, length l = 31%nat ->
       w_fs w !! (obj_dir w c b ++ [hex_encode l]) = Some (NFile d) ->
       exists d', w_fs w' !! (obj_dir w c b ++ [hex_encode l]) = Some (NFile d') /\
         (d' = d \/ d' = data)) /\
    (forall x, ~ at_path w (Root c) `prefix_of` x -> w_fs w' !! x = w_fs w !! x).
Proof.
  destruct (Put_any c data w Hinv) as (r & w' & H & [] & Hr). by exists r, w'.
Qed.

(** C27: without faults [Put] returns the data's digest and [Get] of that digest
    then returns data of that digest: the stored data itself unless an object
    of the same digest was already there. What [Get] returned for any digest
    before the [Put], it still returns. *)
Theorem put_get (c : CAS) (data : bytes) (w : world) (Hnf : nofault w) (Hinv : cas_inv c w) :
  exists w' d, Put c data w = (Ret (Sum256 data), w') /\
    Get c (Sum256 data) w' = (Ret d, w') /\ Sum256 d = Sum256 data /\
    (~ stores c w (Sum256 data) -> d = data) /\
    (forall h, stores c w h -> exists k, Get c h w = (Ret k, w) /\ Get c h w' = (Ret k, w')).
Proof.
  destruct (Put_run w c data Hnf Hinv) as (w' & H & [Hnf' Hinv' Hcwd _ Hk Hs]).
  destruct (Sum256_cons data) as (b & l & Hsum & Hl).
  destruct (Hs b l Hsum) as (d & Hd & Hsd & Hfresh).
  assert (Ho : forall b, obj_dir w' c b = obj_dir w c b)
    by (intros; unfold obj_dir, at_path; by rewrite Hcwd).
  pose proof (ci_root_name _ _ Hinv) as Hr.
  exists w', d. split; [done|]. rewrite Hsum in *. split; [|split; [done|split]].
  - apply Get_run; [done|done|by destruct l|by rewrite Ho].
  - intros Hno. apply Hfresh. destruct (w_fs w !! _) as [n|] eqn:E; [|done].
    destruct Hno. destruct (ci_objects _ _ Hinv b l n Hl E) as (e & -> & He).
    by exists b, l, e.
  - intros h (b' & l' & e & -> & Hl' & He & Hf). exists e.
    split; apply Get_run; try done; try (by destruct l'). rewrite Ho. by apply Hk.
Qed.

(** [ParseHash] accepts exactly the texts of 32-byte hashes: it inverts
    [HashString] on them, and what it accepts is, in lower case, the text of the
    hash it returns. *)
Theorem ParseHash_HashString (h : bytes) (s : string) :
  (ParseHash (HashString h) =
     if decide (length h = 32%nat) then inr h else inl (HashLength (Z.of_nat (length h)))) /\
  match ParseHash s with
  | inr k => length k = 32%nat /\ HashString k = lower s
  | inl _ => forall k, length k = 32%nat -> HashString k <> s
  end.
Proof.
  unfold ParseHash, HashString. split.
  - rewrite hex_decode_encode. by do 2 case_decide.
  - destruct (hex_decode s) as [k|] eqn:E.
    + case_decide as Hk; [|split; [done|by apply hex_encode_decode]].
      intros k' Hk' <-. rewrite hex_decode_encode in E. congruence.
    + intros k _ <-. by rewrite hex_decode_encode in E.
Qed.

(** The entry of a name of the tier. *)
Definition tier_entry (w : world) (t : Tier) (name : string) : path := at_path w (t_Dir t) ++ [name].

(** What [Spill] writes under a name, [MmapRead] of that name returns; the
    length it reports is the data's; no other file changes. *)
Theorem spill_read (t : Tier) (name : string) (data : bytes) (w : world)
    (Hnf : nofault w) (Hdir : t_Dir t <> "") (Hname : proper name = true)
    (Hd : w_fs w !! at_path w (t_Dir t) = Some NDir)
    (Hn : match w_fs w !! tier_entry w t name with Some (NFile _) | None => true | _ => false end = true) :
  exists w', Spill t name data w = (Ret (Z.of_nat (length data)), w') /\
    MmapRead t name w' = (Ret data, w') /\
    w_fs w' = <[tier_entry w t name := NFile data]> (w_fs w).
Proof.
  unfold tier_entry in *. pose proof (can_create_child _ _ _ Hd Hn) as Hc.
  pose proof (at_path_Join w _ _ Hdir Hname) as Hp.
  pose proof (Join_nonempty (t_Dir t) name Hdir) as Hne.
  eexists. unfold Spill, MmapRead. split; [|split].
  - erewrite bind_run by (by eapply Create_run).
    erewrite bind_run by (by apply fwrite_run). done.
  - cbn [w_fs set_fs f_path]. rewrite append_at_insert.
    erewrite bind_run.
    2:{ eapply (Open_run (set_fs _ _)); [done|done| |].
        - cbn [w_fs set_fs]. change (at_path (set_fs _ _) ?s) with (at_path w s).
          rewrite Hp. apply lookup_insert_eq.
        - done. }
    erewrite bind_run; [done|]. apply fread_run; [done|].
    cbn [w_fs set_fs f_path]. change (at_path (set_fs _ _) ?s) with (at_path w s).
    rewrite Hp. apply lookup_insert_eq.
  - cbn [w_fs set_fs f_path]. by rewrite append_at_insert.
Qed.

(** ** A concrete store *)

Lemma cas_inv_fresh c w :
  fs_wf (w_fs w) -> Root c <> "" -> w_fs w !! at_path w (Root c) = Some NDir ->
  (forall x y, w_fs w !! (at_path w (Root c) ++ x :: y) = None) -> cas_inv c w.
Proof.
  intros Hwf Hr Hd Hn. unfold obj_dir. split; try done.
  - intros b n. unfold obj_dir. by rewrite Hn.
  - intros b l n _. unfold obj_dir. rewrite <- app_assoc. cbn [app]. by rewrite Hn.
  - intros b l n _. unfold obj_dir. rewrite <- app_assoc. cbn [app]. by rewrite Hn.
Qed.

Definition demo_cas : CAS := mkCAS "/cas".

Definition demo_cas_world (faults : list (option fault)) : world :=
  set_faults faults (set_fs (<[[] := NDir]> (<[["cas"] := NDir]> ∅)) demo_world).

Lemma demo_cas_inv faults : cas_inv demo_cas (demo_cas_world faults).
Proof.
  assert (Hfs : forall x, w_fs (demo_cas_world faults) !! x =
    if decide (x = []) then Some NDir else if decide (x = ["cas"]) then Some NDir else None).
  { intros x. cbn [w_fs demo_cas_world set_faults set_fs]. rewrite !lookup_insert, lookup_empty.
    repeat case_decide; congruence. }
  apply cas_inv_fresh; [|done|done|].
  - split; [done|]. intros p x n. rewrite !Hfs.
    destruct p as [|y [|]]; cbn; repeat case_decide; congruence.
  - intros x y. change (at_path _ _) with ["cas"]. by rewrite Hfs.
Qed.

(** Writing the temporary file stops after two bytes. *)
Lemma put_crash_safe_witness :
  let w := demo_cas_world [None; None; None; Some (Fault EIO 2)] in
  exists r w', Put demo_cas [Byte.x61; Byte.x62; Byte.x63] w = (r, w') /\
    put_result demo_cas [Byte.x61; Byte.x62; Byte.x63] r w' /\ cas_inv demo_cas w' /\
    (forall b l d, length l = 31%nat ->
       w_fs w !! (obj_dir w demo_cas b ++ [hex_encode l]) = Some (NFile d) ->
       exists d', w_fs w' !! (obj_dir w demo_cas b ++ [hex_encode l]) = Some (NFile d') /\
         (d' = d \/ d' = [Byte.x61; Byte.x62; Byte.x63])) /\
    (forall x, ~ at_path w (Root demo_cas) `prefix_of` x -> w_fs w' !! x = w_fs w !! x).
Proof. intros w. apply (put_crash_safe demo_cas _ w). apply demo_cas_inv. Defined.

Lemma put_get_witness :
  let w := demo_cas_world [] in
  let data := [Byte.x61; Byte.x62; Byte.x63] in
  exists w' d, Put demo_cas data w = (Ret (Sum256 data), w') /\
    Get demo_cas (Sum256 data) w' = (Ret d, w') /\ Sum256 d = Sum256 data /\
    (~ stores demo_cas w (Sum256 data) -> d = data) /\
    (forall h, stores demo_cas w h ->
       exists k, Get demo_cas h w = (Ret k, w) /\ Get demo_cas h w' = (Ret k, w')).
Proof. intros w data. apply (put_get demo_cas data w); [done|apply demo_cas_inv]. Defined.

Lemma spill_read_witness :
  let t := mkTier "/img" in
  exists w', Spill t "device.bin" [Byte.x01; Byte.x02] demo_world = (Ret 2, w') /\
    MmapRead t "device.bin" w' = (Ret [Byte.x01; Byte.x02], w') /\
    w_fs w' = <[["img"; "device.bin"] := NFile [Byte.x01; Byte.x02]]> (w_fs demo_world).
Proof. intros t. apply (spill_read t "device.bin" [Byte.x01; Byte.x02] demo_world); done. Defined.
