(* ===== verification/Staging.v ===== *)
(** pkg/image/finalize.go: an image is written in a staging directory next to
    its destination and moved there when it is complete. *)
From S2P Require Export OSFacts.

Definition completeName : string := "COMPLETE".

Definition StageDir (dest : string) : string := dest +:+ ".staging".

Definition Finalize (staging dest : string) : M unit :=
  WriteFile (PathJoin [staging; completeName]) (bytes_of_string (String "1" (String newline ""))) ;;
  r ← attempt (RemoveAll dest);
  match r with
  | inl e => if IsNotExist e then Rename staging dest else throw e
  | inr _ => Rename staging dest
  end.

Definition IsComplete (dir : string) : M bool :=
  r ← attempt (Stat (PathJoin [dir; completeName]));
  mret (match r with inr _ => true | inl _ => false end).

Definition WriteStaging (dir : string) (fn : string -> M unit) : M unit :=
  let staging := StageDir dir in
  ignore (RemoveAll staging) ;;
  MkdirAll staging ;;
  r ← attempt (fn staging);
  match r with
  | inl e => ignore (RemoveAll staging) ;; throw e
  | inr _ => Finalize staging dir
  end.

(** ** The staging directory is the destination's neighbour *)

(** The string names the entry [x] of the directory [p]: its last component is
    the name of an entry. *)
Definition names (cwd : path) (s : string) (p : path) (x : string) : Prop :=
  s <> "" /\ (exists l, split_char slash s = l ++ [x]) /\ proper x = true /\
  resolve cwd s = p ++ [x].

Lemma proper_staging x : proper x = true -> proper (x +:+ ".staging") = true.
Proof.
  intros (H1 & H2 & H3 & H4)%proper_spec. apply proper_spec. split_and!.
  - by destruct x.
  - intros E. apply (f_equal String.length) in E. rewrite length_app_str in E. cbn in E.
    destruct x; [done|cbn in E; lia].
  - intros E. apply (f_equal String.length) in E. rewrite length_app_str in E. cbn in E.
    destruct x; [done|cbn in E; lia].
  - by rewrite contains_char_app, H4.
Qed.

Lemma StageDir_names cwd dir p x :
  names cwd dir p x -> names cwd (StageDir dir) p (x +:+ ".staging").
Proof.
  intros (Hne & [l Hl] & Hx & Hr). unfold StageDir. split; [by destruct dir|].
  destruct (resolve_app_suffix cwd dir ".staging" eq_refl Hne) as (base & y & H1 & H2 & l' & Hl').
  rewrite Hl in Hl'. apply app_inj_tail in Hl' as [_ <-].
  rewrite resolve_step_proper in H1, H2 by (done || by apply proper_staging).
  rewrite Hr in H1. apply app_inj_tail in H1 as [-> _]. split; [|split; [by apply proper_staging|done]].
  destruct (split_char_app_plain slash dir ".staging" eq_refl) as (k & y & E1 & E2).
  rewrite Hl in E1. apply app_inj_tail in E1 as [-> ->]. by exists k.
Qed.

Lemma names_not_dot cwd s p x : names cwd s p x -> ends_with_dot s = false.
Proof.
  intros (Hne & [l Hl] & (H1 & H2 & H3 & H4)%proper_spec & _).
  unfold ends_with_dot. apply orb_false_iff. split.
  - apply bool_decide_eq_false. intros ->. by apply (app_inj_tail [] l) in Hl as [_ <-].
  - destruct (HasSuffix s "/.") eqn:E; [|done]. apply HasSuffix_app in E as [a ->].
    change "/." with (String slash ".") in Hl. rewrite split_char_app in Hl. cbn in Hl.
    by apply app_inj_tail in Hl as [_ <-].
Qed.

Lemma staging_ne x : x +:+ ".staging" <> x.
Proof. intros E. apply (f_equal String.length) in E. rewrite length_app_str in E. cbn in E. lia. Qed.

(** ** The computation up to the call of the function *)

(** Nothing but the staging tree and its missing ancestors. *)
Definition staging_area (s : path) : path -> Prop := fun q => s `prefix_of` q \/ q `prefix_of` s.

(** The staging area has nothing of the destination. *)
Lemma staging_area_out (p : path) x q :
  p ++ [x] `prefix_of` q -> ~ staging_area (p ++ [x +:+ ".staging"]) q.
Proof.
  intros Hq [H|H].
  - revert H. by apply siblings_disjoint with x; [intros E; by apply (staging_ne x)|].
  - assert (H2 : p ++ [x] `prefix_of` p ++ [x +:+ ".staging"]) by (by etrans).
    apply (snoc_prefix p x (x +:+ ".staging") []) in H2. by apply (staging_ne x).
Qed.

(** [WriteStaging] gets to [Finalize] only after the function has returned
    without an error; before that, and whenever it fails, panics or runs for
    ever earlier, only the staging area has changed. *)
Lemma WriteStaging_cases w dir p x (fn : string -> M unit) :
  let S := staging_area (p ++ [x +:+ ".staging"]) in
  names (w_cwd w) dir p x -> framed (w_cwd w) S (fn (StageDir dir)) ->
  (exists w1 w2, fn (StageDir dir) w1 = (Ret tt, w2) /\
     WriteStaging dir fn w = Finalize (StageDir dir) dir w2 /\ frame S w w2) \/
  ((forall r, (WriteStaging dir fn w).1 <> Ret r) /\ frame S w (WriteStaging dir fn w).2).
Proof.
  intros S Hd Hfn. destruct (StageDir_names _ _ _ _ Hd) as (Hne & _ & _ & Hst).
  assert (Hrm : framed (w_cwd w) S (ignore (RemoveAll (StageDir dir)))).
  { apply framed_ignore, framed_RemoveAll. rewrite Hst. by left. }
  assert (Hmk : framed (w_cwd w) S (MkdirAll (StageDir dir))).
  { apply framed_MkdirAll. rewrite Hst. by right. }
  assert (Hgo : forall {A} (m : M A) w', frame S w w' -> framed (w_cwd w) S m ->
    frame S w (m w').2) by (intros A m w' H Hm; etrans; [exact H|apply Hm, H]).
  destruct (WriteStaging dir fn w) as [r w'] eqn:E. cbn [fst snd].
  unfold WriteStaging in E. cbv zeta in E. set (st := StageDir dir) in *.
  unfold mbind, M_bind, attempt in E. pose proof (Hrm w eq_refl) as F1.
  destruct (ignore (RemoveAll st) w) as [[[]|e| |] w1]; cbn [snd] in F1;
    try (right; injection E as <- <-; by split).
  pose proof (Hgo _ _ _ F1 Hmk) as F2.
  destruct (MkdirAll st w1) as [[[]|e| |] w2]; cbn [snd] in F2;
    try (right; injection E as <- <-; by split).
  pose proof (Hgo _ _ _ F2 Hfn) as F3.
  destruct (fn st w2) as [[[]|e| |] w3] eqn:Efn; cbn [snd] in F3;
    try (right; injection E as <- <-; by split).
  - left. by exists w2, w3.
  - right. pose proof (Hgo _ _ _ F3 Hrm) as F4.
    destruct (ignore (RemoveAll st) w3) as [[[]|e'| |] w4]; cbn [snd] in F4;
      injection E as <- <-; by split.
Qed.

(** ** Finalize *)

(** Renaming a directory to a free name. *)
Lemma Rename_dir_body w old new p q :
  old <> "" -> new <> "" -> at_path w old = p -> at_path w new = q ->
  w_fs w !! p = Some NDir -> w_fs w !! q = None -> parent_errno (w_fs w) q = None ->
  ~ p `prefix_of` q ->
  Rename_body old new w = (Ret tt, set_fs (move_tree p q (w_fs w)) w).
Proof.
  intros Ho Hn <- <- Hp Hq Hpar Hnp. unfold Rename_body.
  rewrite (find_node_some w old NDir), (find_node_none w new) by done.
  rewrite (decide_False (P := new = "")) by done. rewrite Hpar.
  by rewrite decide_False by (intros [_ ?]; done).
Qed.

(** The file system after [Finalize]: the staging tree with its completion
    mark, at the destination. *)
Definition finalized (s d : path) (fs : gmap path node) : gmap path node :=
  move_tree s d (remove_tree d (<[s ++ [completeName] := NFile [Byte.x31; Byte.x0a]]> fs)).

Lemma lookup_finalized p a b fs x :
  a <> b ->
  finalized (p ++ [a]) (p ++ [b]) fs !! x =
  if decide (p ++ [b] `prefix_of` x) then
    let k := drop (length (p ++ [b])) x in
    if decide (k = [completeName]) then Some (NFile [Byte.x31; Byte.x0a]) else fs !! ((p ++ [a]) ++ k)
  else if decide (p ++ [a] `prefix_of` x) then None else fs !! x.
Proof.
  intros Hne. unfold finalized. rewrite lookup_move_tree.
  destruct (decide (p ++ [b] `prefix_of` x)) as [[k ->]|Hb].
  - rewrite drop_app_length. cbv zeta. rewrite lookup_remove_tree, decide_False.
    2:{ intros H. revert H. eapply siblings_disjoint; [exact Hne|by eexists]. }
    case_decide as Hk; [by rewrite Hk, lookup_insert_eq|].
    rewrite lookup_insert_ne; [done|]. intros E%app_inv_head. congruence.
  - case_decide as Ha; [done|]. rewrite lookup_remove_tree, decide_False by done.
    rewrite lookup_insert_ne; [done|]. intros <-. apply Ha. by eexists.
Qed.

(** The staging directory and the destination as [WriteStaging] sets them up. *)
Record staged (w : world) (s d : string) (p : path) (a b : string) : Prop := {
  sg_wf : fs_wf (w_fs w);
  sg_s : names (w_cwd w) s p a;
  sg_d : names (w_cwd w) d p b;
  sg_ne : a <> b;
  sg_dir : w_fs w !! (p ++ [a]) = Some NDir;
  sg_mark : w_fs w !! (p ++ [a; completeName]) <> Some NDir /\
            w_fs w !! (p ++ [a; completeName]) <> Some NSock;
}.

Section finalize.
Context (w : world) (s d : string) (p : path) (a b : string).
Context (Hst : staged w s d p a b).

Lemma sg_parent : w_fs w !! p = Some NDir.
Proof using Hst. destruct Hst as [Hwf _ _ _ Hd _]. by apply (wf_parent _ Hwf) in Hd. Qed.

Lemma mark_path : at_path w (PathJoin [s; completeName]) = (p ++ [a]) ++ [completeName].
Proof using Hst.
  destruct Hst as [_ (Hs & _ & _ & Hr) _ _ _ _]. rewrite at_path_Join by done.
  unfold at_path. by rewrite Hr.
Qed.

Lemma mark_can_create : can_create (w_fs w) ((p ++ [a]) ++ [completeName]).
Proof using Hst.
  destruct Hst as [_ _ _ _ Hd [H1 H2]]. apply can_create_child; [done|].
  rewrite <- app_assoc. cbn [app]. by destruct (w_fs w !! (p ++ [a; completeName])) as [[]|].
Qed.

(** What the steps of [Finalize] do when they run: the mark is written, the
    destination is removed, the staging tree is moved. *)
Lemma removed_dest fs :
  fs_wf fs -> remove_tree (p ++ [b]) fs !! (p ++ [b]) = None /\
  (fs !! p = Some NDir -> parent_errno (remove_tree (p ++ [b]) fs) (p ++ [b]) = None).
Proof using Type.
  intros Hwf. split.
  - by rewrite lookup_remove_tree, decide_True.
  - intros Hp. apply parent_errno_child. rewrite lookup_remove_tree, decide_False; [done|].
    intros [k E]; revert E; path_ne.
Qed.

Let fs1 : gmap path node := <[(p ++ [a]) ++ [completeName] := NFile [Byte.x31; Byte.x0a]]> (w_fs w).

Lemma marked_wf : fs_wf fs1.
Proof using Hst.
  apply fs_wf_insert_file; [apply Hst|apply Hst|]. rewrite <- app_assoc. apply Hst.
Qed.

Lemma dest_below_not_staging : ~ p ++ [a] `prefix_of` p ++ [b].
Proof using Hst. intros H. apply (snoc_prefix p a b []) in H. by apply (sg_ne _ _ _ _ _ _ Hst). Qed.

Lemma RemoveAll_dest w1 :
  nofault w1 -> w_fs w1 = fs1 -> w_cwd w1 = w_cwd w ->
  RemoveAll d w1 = (Ret tt, set_fs (remove_tree (p ++ [b]) fs1) w1).
Proof using Hst.
  intros Hnf Hfs Hcwd. pose proof (sg_d _ _ _ _ _ _ Hst) as Hd.
  pose proof (names_not_dot _ _ _ _ Hd) as Hdot. destruct Hd as (Hne & _ & _ & Hr).
  assert (Hat : at_path w1 d = p ++ [b]) by (unfold at_path; by rewrite Hcwd).
  destruct (fs1 !! (p ++ [b])) as [n|] eqn:E.
  - erewrite RemoveAll_run; [by rewrite Hat, Hfs|done..| |].
    + by rewrite Hat, Hfs.
    + rewrite Hat. by destruct p.
  - rewrite RemoveAll_missing; try done; rewrite ?Hat, ?Hfs; try done.
    + replace (remove_tree (p ++ [b]) fs1) with (w_fs w1); [by rewrite set_fs_id|].
      rewrite Hfs. apply map_eq. intros x. rewrite lookup_remove_tree.
      case_decide as Hx; [|done]. destruct Hx as [k ->].
      destruct (decide (k = [])) as [->|]; [by rewrite app_nil_r|].
      apply fs_wf_below_nondir; [apply marked_wf|congruence|done].
    + apply missing_errno_child; [apply marked_wf|]. unfold fs1.
      rewrite lookup_insert_ne; [apply sg_parent|].
      path_ne.
Qed.

Lemma Finalize_run :
  nofault w -> Finalize s d w = (Ret tt, set_fs (finalized (p ++ [a]) (p ++ [b]) (w_fs w)) w).
Proof using Hst.
  intros Hnf. pose proof (sg_s _ _ _ _ _ _ Hst) as (Hs & _ & _ & Hrs).
  pose proof (sg_d _ _ _ _ _ _ Hst) as (Hd & _ & _ & Hrd).
  unfold Finalize. erewrite bind_run.
  2:{ apply (WriteFile_run _ _ ((p ++ [a]) ++ [completeName])); [done| |apply mark_path|apply mark_can_create].
      by apply Join_nonempty. }
  erewrite bind_run by (apply attempt_run, RemoveAll_dest; done). cbv beta iota.
  unfold Rename. rewrite syscall_run by done.
  assert (Hdb : ~ p ++ [b] `prefix_of` p ++ [a]).
  { intros H. apply (snoc_prefix p b a []) in H. by apply (sg_ne _ _ _ _ _ _ Hst). }
  rewrite (Rename_dir_body _ s d (p ++ [a]) (p ++ [b])); try done.
  - cbn [w_fs set_fs]. rewrite lookup_remove_tree, decide_False by done. unfold fs1.
    rewrite lookup_insert_ne by apply path_snoc_ne'. apply Hst.
  - cbn [w_fs set_fs]. by apply removed_dest, marked_wf.
  - cbn [w_fs set_fs]. apply removed_dest; [apply marked_wf|]. unfold fs1.
    rewrite lookup_insert_ne; [apply sg_parent|].
    path_ne.
  - apply dest_below_not_staging.
Qed.
End finalize.

(** ** Properties of staging *)

Lemma Rename_failed S old new w r w' :
  Rename old new w = (r, w') -> (forall u, r <> Ret u) -> frame S w w'.
Proof.
  intros H Hr. unfold Rename in H.
  destruct (syscall_any (fun flt => throw (ELink "rename" old new (f_errno flt)))
    (Rename_body old new) w) as (l & [E|[f E]]); rewrite E in H.
  - unfold Rename_body in H. repeat case_match; injection H as <- <-; try done;
      by destruct (Hr tt).
  - by injection H as <- <-.
Qed.

(** A fault-free [Finalize] puts the staging tree at the destination,
    whatever was there: every entry of it is what it was in staging, [COMPLETE]
    is there, the staging directory is gone and nothing else has changed; and
    [IsComplete] then holds of the destination. *)
Theorem Finalize_installs w s d p a b :
  staged w s d p a b -> nofault w ->
  exists w', Finalize s d w = (Ret tt, w') /\
    (forall k, w_fs w' !! ((p ++ [b]) ++ k) =
       if decide (k = [completeName]) then Some (NFile [Byte.x31; Byte.x0a])
       else w_fs w !! ((p ++ [a]) ++ k)) /\
    (forall k, w_fs w' !! ((p ++ [a]) ++ k) = None) /\
    (forall x, ~ p ++ [a] `prefix_of` x -> ~ p ++ [b] `prefix_of` x -> w_fs w' !! x = w_fs w !! x) /\
    IsComplete d w' = (Ret true, w').
Proof.
  intros Hst Hnf. eexists. split; [by eapply Finalize_run|].
  pose proof (sg_ne _ _ _ _ _ _ Hst) as Hne. cbn [w_fs set_fs].
  assert (Hk : forall k, finalized (p ++ [a]) (p ++ [b]) (w_fs w) !! ((p ++ [b]) ++ k) =
    if decide (k = [completeName]) then Some (NFile [Byte.x31; Byte.x0a]) else w_fs w !! ((p ++ [a]) ++ k)).
  { intros k. rewrite lookup_finalized, decide_True by (done || by eexists).
    by rewrite drop_app_length. }
  split_and!; [done| | |].
  - intros k. rewrite lookup_finalized by done. rewrite decide_False, decide_True; [done|by eexists|].
    eapply siblings_disjoint; [exact Hne|by eexists].
  - intros x Ha Hb. rewrite lookup_finalized by done. by rewrite !decide_False.
  - destruct (sg_d _ _ _ _ _ _ Hst) as (Hd & _ & _ & Hr). unfold IsComplete.
    erewrite bind_run; [|apply attempt_run; eapply Stat_run; [done|by apply Join_nonempty|]]; [done|].
    rewrite at_path_Join by done. unfold at_path. cbn [w_fs w_cwd set_fs]. rewrite Hr, Hk.
    by rewrite decide_True.
Qed.

(** Whenever [Finalize] does not succeed, whatever fails and after however
    much of its work, the image is not lost: the staging tree is as it was
    (apart from its completion mark), and so is everything outside the two
    directories. *)
Theorem Finalize_keeps_image w s d p a b :
  staged w s d p a b -> (forall u, (Finalize s d w).1 <> Ret u) ->
  (forall k, k <> [completeName] ->
     w_fs (Finalize s d w).2 !! ((p ++ [a]) ++ k) = w_fs w !! ((p ++ [a]) ++ k)) /\
  (forall x, ~ p ++ [a] `prefix_of` x -> ~ p ++ [b] `prefix_of` x ->
     w_fs (Finalize s d w).2 !! x = w_fs w !! x).
Proof.
  intros Hst. pose proof (sg_ne _ _ _ _ _ _ Hst) as Hne.
  set (S := fun q => q = (p ++ [a]) ++ [completeName] \/ p ++ [b] `prefix_of` q).
  assert (Hw : framed (w_cwd w) S (WriteFile (PathJoin [s; completeName])
      (bytes_of_string (String "1" (String newline ""))))).
  { apply framed_WriteFile. left. apply (mark_path _ _ _ _ _ _ Hst). }
  assert (Hr : framed (w_cwd w) S (RemoveAll d)).
  { apply framed_RemoveAll. destruct (sg_d _ _ _ _ _ _ Hst) as (_ & _ & _ & ->). by right. }
  assert (HS : forall w', frame S w w' ->
    (forall k, k <> [completeName] -> w_fs w' !! ((p ++ [a]) ++ k) = w_fs w !! ((p ++ [a]) ++ k)) /\
    (forall x, ~ p ++ [a] `prefix_of` x -> ~ p ++ [b] `prefix_of` x -> w_fs w' !! x = w_fs w !! x)).
  { intros w' (_ & _ & _ & Hf). split.
    - intros k Hk. apply Hf. intros [E%app_inv_head|E]; [done|]. revert E.
      eapply siblings_disjoint; [exact Hne|by eexists].
    - intros x Ha Hb. apply Hf. intros [->|E]; [|done]. apply Ha. by eexists. }
  destruct (Finalize s d w) as [r w'] eqn:E. cbn [fst snd]. intros Hnr. apply HS.
  unfold Finalize, mbind, M_bind, attempt in E. pose proof (Hw w eq_refl) as F1.
  destruct (WriteFile _ _ w) as [[[]|e| |] w1]; cbn [snd] in F1; try (by injection E as <- <-).
  pose proof (Hr w1 ltac:(apply F1)) as F2.
  assert (F3 : frame S w (RemoveAll d w1).2) by (etrans; [exact F1|exact F2]).
  destruct (RemoveAll d w1) as [[[]|e| |] w2]; cbn [snd] in F3; try (by injection E as <- <-).
  - etrans; [exact F3|by eapply Rename_failed].
  - destruct (IsNotExist e); [|by injection E as <- <-].
    etrans; [exact F3|by eapply Rename_failed].
Qed.

(** A name with a trailing slash: the staging directory is below it. *)
Lemma slash_paths cwd d p b :
  names cwd d p b ->
  ends_with_dot (d +:+ "/") = false /\ d +:+ "/" <> "" /\ resolve cwd (d +:+ "/") = p ++ [b] /\
  resolve cwd (StageDir (d +:+ "/")) = (p ++ [b]) ++ [".staging"].
Proof.
  intros (Hne & [l Hl] & Hb & Hr). change "/" with (String slash "").
  assert (Hn2 : d +:+ String slash "" <> "") by (by destruct d).
  split_and!; [|done| |].
  - unfold ends_with_dot. apply orb_false_iff. split.
    + apply bool_decide_eq_false. intros E. destruct d as [|c d]; [done|].
      rewrite app_cons_str in E. injection E as _ E. by destruct d.
    + destruct (HasSuffix _ _) eqn:E; [|done]. apply HasSuffix_app in E as [a Ha].
      apply (f_equal (split_char slash)) in Ha. change "/." with (String slash ".") in Ha.
      rewrite !split_char_app in Ha. by apply app_inj_tail in Ha as [_ Ha].
  - rewrite resolve_app_slash by done. by rewrite Hr.
  - unfold StageDir. rewrite app_assoc_str.
    change (String slash "" +:+ ".staging") with (String slash ".staging").
    rewrite resolve_app_slash by done. by rewrite Hr.
Qed.

(** [Finalize] of a destination given with a trailing slash: the staging
    directory is then inside the destination, is removed with it, and the
    rename finds nothing to move. The call fails, and neither the new image nor
    the one that was there is left. *)
Theorem Finalize_trailing_slash w d p b :
  nofault w -> fs_wf (w_fs w) -> names (w_cwd w) d p b ->
  w_fs w !! (p ++ [b; ".staging"]) = Some NDir ->
  w_fs w !! (p ++ [b; ".staging"; completeName]) <> Some NDir ->
  w_fs w !! (p ++ [b; ".staging"; completeName]) <> Some NSock ->
  exists w', Finalize (StageDir (d +:+ "/")) (d +:+ "/") w =
      (Err (ELink "rename" (StageDir (d +:+ "/")) (d +:+ "/") ENOENT), w') /\
    forall k, w_fs w' !! ((p ++ [b]) ++ k) = None.
Proof.
  intros Hnf Hwf Hd Hdir Hm1 Hm2. destruct (slash_paths _ _ _ _ Hd) as (Hdot & Hne & Hrd & Hrs).
  set (st := StageDir (d +:+ "/")) in *. set (sp := (p ++ [b]) ++ [".staging"]) in *.
  assert (Esp : sp = p ++ [b; ".staging"]) by (unfold sp; by rewrite <- app_assoc).
  assert (Hst : st <> "") by (unfold st, StageDir; by destruct d).
  assert (Hmark : at_path w (PathJoin [st; completeName]) = sp ++ [completeName]).
  { rewrite at_path_Join by done. unfold at_path. by rewrite Hrs. }
  assert (Hcc : can_create (w_fs w) (sp ++ [completeName])).
  { apply can_create_child; [by rewrite Esp|]. rewrite Esp, <- app_assoc. cbn [app].
    by destruct (w_fs w !! (p ++ [b; ".staging"; completeName])) as [[]|]. }
  set (fs1 := <[sp ++ [completeName] := NFile [Byte.x31; Byte.x0a]]> (w_fs w)).
  set (w1 := set_fs fs1 w).
  assert (Hb : fs1 !! (p ++ [b]) = Some NDir).
  { unfold fs1, sp. rewrite lookup_insert_ne by path_ne.
    apply (wf_parent _ Hwf) with ".staging" NDir. by rewrite <- app_assoc. }
  assert (Hgone : forall k, remove_tree (p ++ [b]) fs1 !! ((p ++ [b]) ++ k) = None)
    by (intros k; rewrite lookup_remove_tree, decide_True; [done|by eexists]).
  exists (set_fs (remove_tree (p ++ [b]) fs1) w1). split; [|exact Hgone].
  unfold Finalize. erewrite bind_run.
  2:{ apply (WriteFile_run _ _ (sp ++ [completeName])); [done|by apply Join_nonempty|done..]. }
  fold fs1. fold w1.
  assert (Hrm : RemoveAll (d +:+ "/") w1 = (Ret tt, set_fs (remove_tree (p ++ [b]) fs1) w1)).
  { rewrite (RemoveAll_run w1 Hnf _ NDir); try done; unfold at_path, w1; cbn [w_cwd w_fs set_fs];
      rewrite Hrd; [done|done|by destruct p]. }
  erewrite bind_run by (apply attempt_run; exact Hrm). cbv beta iota.
  unfold Rename. rewrite syscall_run by done. unfold Rename_body.
  assert (Hat : at_path (set_fs (remove_tree (p ++ [b]) fs1) w1) st = (p ++ [b]) ++ [".staging"])
    by (unfold at_path, w1; cbn [w_cwd set_fs]; by rewrite Hrs).
  rewrite find_node_none by (done || by rewrite Hat; apply Hgone). rewrite Hat.
  cbn [w_fs set_fs]. rewrite <- app_assoc. cbn [app].
  rewrite missing_errno_below; [done| | |].
  - apply fs_wf_remove_tree; [|by destruct p]. unfold fs1. apply fs_wf_insert_file; [done|by rewrite Esp|].
    rewrite Esp, <- app_assoc. done.
  - rewrite lookup_remove_tree, decide_False by (intros [k E]; revert E; path_ne).
    unfold fs1, sp. rewrite lookup_insert_ne by path_ne.
    apply (wf_parent _ Hwf) with b NDir. apply (wf_parent _ Hwf) with ".staging" NDir.
    by rewrite <- app_assoc.
  - specialize (Hgone []). by rewrite app_nil_r in Hgone.
Qed.

(** ** Concrete runs *)

(** An old image at [/img] and a new one in its staging directory. *)
Definition demo_staged (old new : bytes) (faults : list (option fault)) : world :=
  set_faults faults (set_fs (list_to_map
    [([], NDir); (["img"], NDir); (["img"; "device.bin"], NFile old);
     (["img.staging"], NDir); (["img.staging"; "device.bin"], NFile new)]) demo_world).

Lemma demo_staged_ok faults :
  staged (demo_staged [Byte.x00] [Byte.x01] faults) "/img.staging" "/img" [] "img.staging" "img".
Proof.
  split.
  - apply (bool_decide_unpack _). by vm_compute.
  - split_and!; [done|by exists [""]|done|done].
  - split_and!; [done|by exists [""]|done|done].
  - done.
  - done.
  - split; by vm_compute.
Qed.

(** [Finalize] is not atomic: when the rename fails (with any error), the
    old image has been removed and nothing is at the destination; the new one
    is in the staging directory only. *)
Theorem Finalize_not_atomic old new e :
  let w := demo_staged old new [None; None; None; Some (Fault e 0)] in
  let r := Finalize "/img.staging" "/img" w in
  r.1 = Err (ELink "rename" "/img.staging" "/img" e) /\
  w_fs w !! ["img"; "device.bin"] = Some (NFile old) /\
  w_fs r.2 !! ["img"] = None /\ w_fs r.2 !! ["img"; "device.bin"] = None /\
  w_fs r.2 !! ["img.staging"; "device.bin"] = Some (NFile new).
Proof. vm_compute. tauto. Qed.

Lemma Finalize_installs_witness :
  let w := demo_staged [Byte.x00] [Byte.x01] [] in
  exists w', Finalize "/img.staging" "/img" w = (Ret tt, w') /\
    (forall k, w_fs w' !! (([] ++ ["img"]) ++ k) =
       if decide (k = [completeName]) then Some (NFile [Byte.x31; Byte.x0a])
       else w_fs w !! (([] ++ ["img.staging"]) ++ k)) /\
    (forall k, w_fs w' !! (([] ++ ["img.staging"]) ++ k) = None) /\
    (forall x, ~ [] ++ ["img.staging"] `prefix_of` x -> ~ [] ++ ["img"] `prefix_of` x ->
       w_fs w' !! x = w_fs w !! x) /\
    IsComplete "/img" w' = (Ret true, w').
Proof. intros w. apply (Finalize_installs w). - apply demo_staged_ok. - done. Defined.

Lemma Finalize_keeps_image_witness :
  let w := demo_staged [Byte.x00] [Byte.x01] [None; None; Some (Fault EACCES 1)] in
  (forall k, k <> [completeName] ->
     w_fs (Finalize "/img.staging" "/img" w).2 !! (([] ++ ["img.staging"]) ++ k) =
     w_fs w !! (([] ++ ["img.staging"]) ++ k)) /\
  (forall x, ~ [] ++ ["img.staging"] `prefix_of` x -> ~ [] ++ ["img"] `prefix_of` x ->
     w_fs (Finalize "/img.staging" "/img" w).2 !! x = w_fs w !! x).
Proof.
  intros w. apply (Finalize_keeps_image w).
  - apply demo_staged_ok.
  - intros u. by vm_compute.
Defined.

Lemma Finalize_trailing_slash_witness :
  let w := set_fs (<[["img"; ".staging"] := NDir]> (w_fs (demo_staged [Byte.x00] [Byte.x01] [])))
             demo_world in
  exists w', Finalize (StageDir ("/img" +:+ "/")) ("/img" +:+ "/") w =
      (Err (ELink "rename" (StageDir ("/img" +:+ "/")) ("/img" +:+ "/") ENOENT), w') /\
    forall k, w_fs w' !! (([] ++ ["img"]) ++ k) = None.
Proof.
  intros w. apply (Finalize_trailing_slash w "/img" [] "img").
  - done.
  - apply (bool_decide_unpack _). by vm_compute.
  - split_and!; [done|by exists [""]|done|done].
  - done.
  - by vm_compute.
  - by vm_compute.
Defined.
