(* ===== verification/StagingFacts.v ===== *)
(** What a crash or a failing call during a staged write may leave at the
    destination (pkg/image/finalize.go). A crash at a system call is a schedule
    in which that call and every later one fail without doing anything, so the
    theorems for every fault schedule cover the crashes. *)
From S2P Require Export Staging.

(** ** Removals only remove *)

(** The computation changes entries in [S] only, and only by removing them. *)
Definition gutted (S : path -> Prop) (w w' : world) : Prop :=
  frame S w w' /\ forall q, w_fs w' !! q = w_fs w !! q \/ w_fs w' !! q = None.

Lemma gutted_fs (S : path -> Prop) fs w :
  (forall q, ~ S q -> fs !! q = w_fs w !! q) ->
  (forall q, fs !! q = w_fs w !! q \/ fs !! q = None) -> gutted S w (set_fs fs w).
Proof. intros H1 H2. split; [by apply frame_set_fs|done]. Qed.

Lemma gutted_refl S w : gutted S w w.
Proof. split; [apply frame_refl|auto]. Qed.

Lemma RemoveAll_gutted s w : gutted (fun q => at_path w s `prefix_of` q) w (RemoveAll s w).2.
Proof.
  split; [by apply (framed_RemoveAll (w_cwd w))|]. intros q. unfold RemoveAll.
  case_decide; [by left|]. destruct (ends_with_dot s); [by left|].
  match goal with |- context [syscall ?a ?b] =>
    destruct (syscall_any a b w) as (l & [->|[f ->]]) end; cbn [snd].
  - change (at_path (set_faults l w) s) with (at_path w s). cbn [w_fs set_faults].
    destruct (w_fs w !! at_path w s) as [n|]; [|by destruct (missing_errno _ _); left].
    case_decide; cbn [snd w_fs set_fs].
    + destruct (filter _ (w_fs w) !! q) eqn:E; [|by right].
      apply map_lookup_filter_Some in E as [-> _]. by left.
    + rewrite lookup_remove_tree. case_decide; [by right|by left].
  - cbn [w_fs set_fs set_faults]. rewrite lookup_delete_all. case_decide; [by right|by left].
Qed.

(** ** What a write and a rename that succeed have done *)

Lemma WriteFile_inv s data w w' :
  WriteFile s data w = (Ret tt, w') -> w_fs w' !! at_path w s = Some (NFile data).
Proof.
  intros H. apply bind_inv in H as (f & w1 & H1 & H2).
  pose proof (Create_path _ _ _ _ _ eq_refl H1) as Hf.
  assert (Hc : w_fs w1 !! f_path f = Some (NFile [])).
  { rewrite Hf. unfold Create, open_create in H1.
    match type of H1 with context [syscall ?a ?b] =>
      destruct (syscall_any a b w) as (l & [E|[g E]]) end; rewrite E in H1; [|done].
    change (at_path (set_faults l w) s) with (at_path w s) in H1. unfold at_path in *.
    case_decide; [done|]. cbn [w_fs set_faults] in H1.
    destruct (w_fs w !! resolve (w_cwd w) s) as [[]|]; try done;
      [|destruct (parent_errno _ _); [done|]]; injection H1 as _ <-; cbn [w_fs set_fs]; by rewrite lookup_insert_eq. }
  unfold fwrite in H2.
  match type of H2 with context [syscall ?a ?b] =>
    destruct (syscall_any a b w1) as (l & [E|[g E]]) end; rewrite E in H2; [|done].
  injection H2 as <-. unfold at_path. rewrite <- Hf. cbn [w_fs set_fs set_faults].
  unfold append_at. by rewrite Hc, lookup_insert_eq.
Qed.

Lemma Rename_inv old new w w' :
  at_path w old <> at_path w new -> Rename old new w = (Ret tt, w') ->
  forall k, w_fs w' !! (at_path w new ++ k) = w_fs w !! (at_path w old ++ k).
Proof.
  intros Hne H k. unfold Rename in H.
  match type of H with context [syscall ?a ?b] =>
    destruct (syscall_any a b w) as (l & [E|[g E]]) end; rewrite E in H; [|done].
  assert (Hm : w_fs w' = move_tree (at_path w old) (at_path w new) (w_fs w)).
  { unfold Rename_body in H. change (at_path (set_faults l w)) with (at_path w) in H.
    repeat case_match; try done; try (injection H as <-; done). by destruct_and!. }
  rewrite Hm, lookup_move_tree, decide_True by (by eexists).
  by rewrite drop_app_length.
Qed.

(** ** The staged write *)

(** The destination [d] holds what was in the tree at [s] of [w2] and the mark. *)
Definition installed (s d : path) (w2 w' : world) : Prop :=
  forall k, w_fs w' !! (d ++ k) =
    if decide (k = [completeName]) then Some (NFile [Byte.x31; Byte.x0a])
    else w_fs w2 !! (s ++ k).

(** Only entries of the destination [d] of [w] are there. *)
Definition leftover (d : path) (w w' : world) : Prop :=
  forall k, w_fs w' !! (d ++ k) = w_fs w !! (d ++ k) \/ w_fs w' !! (d ++ k) = None.

Lemma Finalize_all_or_old w s d p a b :
  names (w_cwd w) s p a -> names (w_cwd w) d p b -> a <> b ->
  ((Finalize s d w).1 = Ret tt /\ installed (p ++ [a]) (p ++ [b]) w (Finalize s d w).2) \/
  ((Finalize s d w).1 <> Ret tt /\ leftover (p ++ [b]) w (Finalize s d w).2).
Proof.
  intros (Hs & _ & _ & Hrs) (_ & _ & _ & Hrd) Hne.
  set (mark := (p ++ [a]) ++ [completeName]).
  assert (Hmark : resolve (w_cwd w) (PathJoin [s; completeName]) = mark).
  { change (at_path w (PathJoin [s; completeName]) = mark). rewrite at_path_Join by done.
    unfold at_path. by rewrite Hrs. }
  assert (Hd : forall k, (p ++ [b]) ++ k <> mark).
  { intros k E. apply (siblings_disjoint p a b mark); [done|by exists [completeName]|by exists k]. }
  destruct (Finalize s d w) as [r w'] eqn:E. cbn [fst snd]. unfold Finalize in E.
  set (text := bytes_of_string _) in E.
  unfold mbind, M_bind, attempt in E.
  pose proof (framed_WriteFile (w_cwd w) (fun q => q = mark) (PathJoin [s; completeName]) text
    Hmark w eq_refl) as F1.
  destruct (WriteFile _ _ w) as [[[]|e| |] w1] eqn:E1; cbn [snd] in F1;
    try (right; injection E as <- <-; split; [done|]; intros k; left; by apply F1).
  apply WriteFile_inv in E1. unfold at_path in E1. rewrite Hmark in E1.
  pose proof (RemoveAll_gutted d w1) as [G1 G2]. unfold at_path in G1.
  rewrite (proj1 F1), Hrd in G1.
  destruct (RemoveAll d w1) as [r2 w2]. cbn [snd] in G1, G2.
  assert (Hleft : leftover (p ++ [b]) w w2).
  { intros k. destruct (G2 ((p ++ [b]) ++ k)) as [-> | ->]; [left; by apply F1|by right]. }
  assert (Hren : Rename s d w2 = (r, w') ->
    (r = Ret tt /\ installed (p ++ [a]) (p ++ [b]) w w') \/ (r <> Ret tt /\ leftover (p ++ [b]) w w')).
  { intros R. assert (Hcwd : w_cwd w2 = w_cwd w) by (rewrite (proj1 G1); apply F1).
    assert (Es : at_path w2 s = p ++ [a]) by (unfold at_path; by rewrite Hcwd).
    assert (Ed : at_path w2 d = p ++ [b]) by (unfold at_path; by rewrite Hcwd).
    assert (Hr : r = Ret tt \/ r <> Ret tt) by (destruct r as [[]|e| |]; auto).
    destruct Hr as [->|Hr].
    - left. split; [done|]. intros k. apply Rename_inv with (k := k) in R.
      2:{ rewrite Es, Ed. intros [=]%app_inv_head. by apply Hne. }
      rewrite Es, Ed in R. rewrite R. destruct G1 as (_ & _ & _ & G1).
      rewrite G1 by (apply siblings_disjoint with a; [done|by eexists]).
      case_decide as Hk; [by rewrite Hk|]. apply F1. unfold mark. intros ?%app_inv_head. done.
    - right. split; [done|]. intros k. specialize (Hleft k).
      pose proof (Rename_failed (fun _ => False) s d w2 r w' R) as F.
      destruct F as (_ & _ & _ & F); [intros []; done|]. by rewrite F by (intros []). }
  destruct r2 as [[]|e| |]; try (right; injection E as <- <-; done); [by apply Hren|].
  destruct (IsNotExist e); [by apply Hren|]. right. injection E as <- <-. done.
Qed.

(** C7: a staged write never leaves a mixture at its destination. Whatever the
    calls that fail and wherever the process is stopped (the function itself
    writing nothing outside the staging directory), one of these holds: the
    write succeeds, and the destination is what the function left in the
    staging directory, entry for entry, with the completion mark; it fails
    after the function, and every entry at the destination is one of the image
    that was there; it fails before the function has returned without an error,
    and nothing at the destination has changed. *)
Theorem WriteStaging_no_mixture w dir p x (fn : string -> M unit) :
  let w' := (WriteStaging dir fn w).2 in
  names (w_cwd w) dir p x ->
  framed (w_cwd w) (staging_area (p ++ [x +:+ ".staging"])) (fn (StageDir dir)) ->
  ((WriteStaging dir fn w).1 = Ret tt /\
   exists w1 w2, fn (StageDir dir) w1 = (Ret tt, w2) /\
     installed (p ++ [x +:+ ".staging"]) (p ++ [x]) w2 w') \/
  ((WriteStaging dir fn w).1 <> Ret tt /\ leftover (p ++ [x]) w w' /\
   exists w1 w2, fn (StageDir dir) w1 = (Ret tt, w2)) \/
  ((WriteStaging dir fn w).1 <> Ret tt /\
   forall k, w_fs w' !! ((p ++ [x]) ++ k) = w_fs w !! ((p ++ [x]) ++ k)).
Proof.
  cbv zeta. intros Hd Hfn.
  assert (Hout : forall w', frame (staging_area (p ++ [x +:+ ".staging"])) w w' ->
    forall k, w_fs w' !! ((p ++ [x]) ++ k) = w_fs w !! ((p ++ [x]) ++ k)).
  { intros w' (_ & _ & _ & F) k. apply F, staging_area_out. by eexists. }
  destruct (WriteStaging_cases w dir p x fn Hd Hfn) as [(w1 & w2 & Hf & -> & F)|[Hr F]].
  - assert (Hcwd : w_cwd w2 = w_cwd w) by apply F.
    pose proof (StageDir_names _ _ _ _ Hd) as Hs. rewrite <- Hcwd in Hd, Hs.
    destruct (Finalize_all_or_old w2 _ _ _ _ _ Hs Hd (staging_ne x)) as [[Hr Hi]|[Hr Hl]].
    + left. split; [done|]. by exists w1, w2.
    + right; left. split; [done|]. split; [|by exists w1, w2].
      intros k. rewrite <- (Hout w2 F k). apply Hl.
  - right; right. split; [apply Hr|]. by apply Hout.
Qed.

(** ** Concrete runs *)

(** The disk fails while the function writes. *)
Lemma WriteStaging_no_mixture_witness :
  let w := demo_staged [Byte.x00] [Byte.x01] [None; Some (Fault EIO 0)] in
  let fn := fun st => WriteFile (PathJoin [st; "device.bin"]) [Byte.x02] in
  let w' := (WriteStaging "/img" fn w).2 in
  ((WriteStaging "/img" fn w).1 = Ret tt /\
   exists w1 w2, fn (StageDir "/img") w1 = (Ret tt, w2) /\
     installed ([] ++ ["img" +:+ ".staging"]) ([] ++ ["img"]) w2 w') \/
  ((WriteStaging "/img" fn w).1 <> Ret tt /\ leftover ([] ++ ["img"]) w w' /\
   exists w1 w2, fn (StageDir "/img") w1 = (Ret tt, w2)) \/
  ((WriteStaging "/img" fn w).1 <> Ret tt /\
   forall k, w_fs w' !! (([] ++ ["img"]) ++ k) = w_fs w !! (([] ++ ["img"]) ++ k)).
Proof.
  intros w fn. apply (WriteStaging_no_mixture w "/img" [] "img" fn).
  - split_and!; [done|by exists [""]|done|done].
  - apply framed_WriteFile. left. by exists ["device.bin"].
Defined.

(** What is left may look complete. The old image is removed before the new one
    is moved, its completion mark is an entry like the others, and the removal
    goes through a subdirectory before its parent's files: when it stops in
    between, [COMPLETE] is there, [criu] has lost its files, and [IsComplete]
    holds. The schedule lets the calls up to the removal run, stops it after
    one entry and fails every later call. *)
Example gutted_image_complete :
  let old := w_fs (demo_staged [Byte.x00] [Byte.x01] []) in
  let w := set_fs (<[["img"; "COMPLETE"] := NFile [Byte.x31; Byte.x0a]]>
             (<[["img"; "criu"] := NDir]>
             (<[["img"; "criu"; "core-1.img"] := NFile [Byte.x07]]> old))) demo_world in
  let stop := Fault EIO 0 in
  let fn := fun st => WriteFile (PathJoin [st; "device.bin"]) [Byte.x02] in
  let r := WriteStaging "/img" fn
     (set_faults [None; None; None; None; None; None; Some (Fault EIO 1); Some stop; Some stop] w) in
  r.1 = Err (EPath "unlinkat" "/img" EIO) /\
  w_fs r.2 !! ["img"; "criu"] = Some NDir /\
  w_fs r.2 !! ["img"; "criu"; "core-1.img"] = None /\
  (IsComplete "/img" (set_faults [] r.2)).1 = Ret true.
Proof. cbv zeta. split_and!; vm_compute; reflexivity. Qed.
