(* ===== verification/Image.v ===== *)
(** Images on disk: a directory with a manifest and the device content it
    describes, and how the parts of pkg/image read them. *)
From S2P Require Export ManifestFacts.
Local Open Scope Z_scope.

(** The bytes of an entry in the device content. *)
Definition chunk (d : bytes) (e : Entry) : bytes :=
  slice (Z.to_nat (e_Offset e)) (Z.to_nat (e_Offset e + e_Size e)) d.

(** The entry lies within device content that the runtime can hold. *)
Definition in_device (d : bytes) (e : Entry) : Prop :=
  0 <= e_Offset e /\ 0 <= e_Size e /\ e_Offset e + e_Size e <= Z.of_nat (length d).

(** [dir] is the directory [p], with a manifest of the given entries and the
    device content [d]. *)
Record image_at (w : world) (dir : string) (p : path)
    (es : list Entry) (flags version : Z) (d : bytes) : Prop := {
  im_name : dir <> "";
  im_path : at_path w dir = p;
  im_dir : w_fs w !! p = Some NDir;
  im_manifest : manifest_at w (p ++ ["manifest.bin"]) es flags version;
  im_device : w_fs w !! (p ++ ["device.bin"]) = Some (NFile d);
  im_chunks : Forall (in_device d) es;
  im_size : Z.of_nat (length d) <= maxAlloc;
}.

Lemma image_file w dir p name :
  dir <> "" -> at_path w dir = p -> proper name = true ->
  PathJoin [dir; name] <> "" /\ at_path w (PathJoin [dir; name]) = p ++ [name].
Proof. intros Hd <- Hn. by apply Join_entry. Qed.

(** A file of an image directory is read. *)
Lemma ReadFile_image w dir p name c :
  nofault w -> dir <> "" -> at_path w dir = p -> proper name = true ->
  w_fs w !! (p ++ [name]) = Some (NFile c) ->
  ReadFile (PathJoin [dir; name]) w = (Ret c, w).
Proof.
  intros Hnf Hd Hp Hn Hc. destruct (image_file w dir p name Hd Hp Hn) as [Hne Hat].
  apply ReadFile_run; [done..|by rewrite Hat].
Qed.

Lemma Open_image w dir p name c :
  nofault w -> dir <> "" -> at_path w dir = p -> proper name = true ->
  w_fs w !! (p ++ [name]) = Some (NFile c) ->
  Open (PathJoin [dir; name]) w = (Ret (File (PathJoin [dir; name]) (p ++ [name])), w).
Proof.
  intros Hnf Hd Hp Hn Hc. destruct (image_file w dir p name Hd Hp Hn) as [Hne Hat].
  erewrite Open_run by (done || by rewrite Hat). by rewrite Hat.
Qed.

(** A name that can be written in a directory: free, or a file. *)
Definition writable (fs : gmap path node) (q : path) : Prop :=
  fs !! q <> Some NDir /\ fs !! q <> Some NSock.

Lemma writable_create fs p name :
  fs !! p = Some NDir -> writable fs (p ++ [name]) -> can_create fs (p ++ [name]).
Proof.
  intros Hp [H1 H2]. apply can_create_child; [done|].
  by destruct (fs !! (p ++ [name])) as [[]|].
Qed.

Lemma none_writable fs q : fs !! q = None -> writable fs q.
Proof. unfold writable. intros ->. done. Qed.

Lemma file_writable fs q c : fs !! q = Some (NFile c) -> writable fs q.
Proof. unfold writable. intros ->. done. Qed.

Lemma WriteFile_image w dir p name data :
  nofault w -> dir <> "" -> at_path w dir = p -> proper name = true ->
  w_fs w !! p = Some NDir -> writable (w_fs w) (p ++ [name]) ->
  WriteFile (PathJoin [dir; name]) data w =
  (Ret tt, set_fs (<[p ++ [name] := NFile data]> (w_fs w)) w).
Proof.
  intros Hnf Hd Hp Hn Hdir Hw. destruct (image_file w dir p name Hd Hp Hn) as [Hne Hat].
  apply WriteFile_run; [done..|]. by apply writable_create.
Qed.

Lemma Create_image w dir p name :
  nofault w -> dir <> "" -> at_path w dir = p -> proper name = true ->
  w_fs w !! p = Some NDir -> writable (w_fs w) (p ++ [name]) ->
  Create (PathJoin [dir; name]) w =
  (Ret (File (PathJoin [dir; name]) (p ++ [name])), set_fs (<[p ++ [name] := NFile []]> (w_fs w)) w).
Proof.
  intros Hnf Hd Hp Hn Hdir Hw. destruct (image_file w dir p name Hd Hp Hn) as [Hne Hat].
  apply Create_run; [done..|]. by apply writable_create.
Qed.

Lemma WriteManifest_image w dir p es flags version c :
  nofault w -> dir <> "" -> at_path w dir = p -> w_fs w !! p = Some NDir ->
  w_fs w !! (p ++ ["manifest.bin"]) = Some (NFile c) ->
  WriteManifestFlags (PathJoin [dir; "manifest.bin"]) es flags version w =
  (Ret tt, set_fs (<[p ++ ["manifest.bin"] := NFile (manifest_bytes es flags version)]> (w_fs w)) w).
Proof.
  intros Hnf Hd Hp Hdir Hw. destruct (image_file w dir p "manifest.bin" Hd Hp eq_refl) as [Hne Hat].
  apply WriteManifestFlags_run; [done..|]. apply writable_create; [done|by eapply file_writable].
Qed.

(** One chunk read from an open device file. *)
Lemma read_chunk_run w f d e :
  nofault w -> w_fs w !! f_path f = Some (NFile d) -> in_device d e ->
  Z.of_nat (length d) <= maxAlloc ->
  read_chunk f (e_Size e) (e_Offset e) w = (Ret (chunk d e), w).
Proof.
  intros Hnf Hd (H0 & H1 & H2) Hm. unfold maxAlloc in Hm. unfold read_chunk, make_ok.
  rewrite bool_decide_eq_true_2 by (unfold maxAlloc; lia).
  replace (int64_of_u64 (e_Offset e)) with (e_Offset e)
    by (unfold int64_of_u64; rewrite u64_small by (unfold is_u64; lia);
      by rewrite decide_True by lia).
  by eapply ReadAt_run.
Qed.

(** Appending to a file just created, in one write or one per element. *)
Lemma fwrite_each {A} (enc : A -> bytes) f l w c :
  nofault w -> w_fs w !! f_path f = Some (NFile c) ->
  forM_ l (fun a => fwrite f (enc a)) w =
  (Ret tt, set_fs (<[f_path f := NFile (c ++ flat_map enc l)]> (w_fs w)) w).
Proof.
  revert w c. induction l as [|a l IH]; intros w c Hnf Hc; cbn [forM_ flat_map].
  - rewrite app_nil_r, insert_id by done. by rewrite set_fs_id.
  - erewrite bind_run by (by eapply fwrite_known).
    erewrite IH by (first [done|apply lookup_insert_eq]).
    cbn [w_fs set_fs]. by rewrite insert_insert_eq, set_fs_set_fs, app_assoc.
Qed.

Lemma wf_manifest_flags es f g version :
  wf_manifest es f version -> is_u16 g -> wf_manifest es g version.
Proof. intros [] ?. by split. Qed.

(** Setting and clearing flags stays within uint16. *)
Lemma set_flag_u16 f b : is_u16 f -> is_u16 b -> is_u16 (set_flag f b).
Proof.
  unfold is_u16, set_flag. intros [H1 H2] [H3 H4]. split; [by apply Z.lor_nonneg|].
  destruct (decide (Z.lor f b = 0)) as [->|Hn]; [lia|].
  assert (0 < Z.lor f b) by (assert (0 <= Z.lor f b) by (by apply Z.lor_nonneg); lia).
  apply Z.log2_lt_pow2; [done|]. rewrite Z.log2_lor by done.
  apply Z.max_lub_lt.
  - destruct (decide (f = 0)) as [->|]; [done|]. apply Z.log2_lt_pow2; lia.
  - destruct (decide (b = 0)) as [->|]; [done|]. apply Z.log2_lt_pow2; lia.
Qed.

Lemma clear_flag_u16 f b : is_u16 f -> 0 <= b -> is_u16 (clear_flag f b).
Proof.
  unfold is_u16, clear_flag. intros [H1 H2] H3. split; [apply Z.ldiff_nonneg; by left|].
  assert (Z.ldiff (Z.ldiff f b) f = 0).
  { apply Z.bits_inj'. intros n _. rewrite !Z.ldiff_spec, Z.bits_0. destruct (Z.testbit f n), (Z.testbit b n); done. }
  pose proof (Z.ldiff_le (Z.ldiff f b) f H1). lia.
Qed.

Lemma in_device_stored d version es :
  Forall (in_device d) es -> Forall (in_device d) (stored version <$> es).
Proof.
  rewrite Forall_fmap. intros HF. eapply Forall_impl; [exact HF|]. intros e. unfold stored, in_device. by case_decide.
Qed.

Lemma wf_stored version es : Forall wf_entry es -> Forall wf_entry (stored version <$> es).
Proof.
  rewrite Forall_fmap. intros HF. eapply Forall_impl; [exact HF|]. intros e. apply stored_wf.
Qed.

Lemma total_size_stored version es : total_size (stored version <$> es) = total_size es.
Proof.
  unfold total_size. generalize 0. induction es as [|e l IH]; intros z; [done|].
  cbn. rewrite IH. unfold stored. by case_decide.
Qed.

(** ** Concrete images *)

(** The directory [/img] with a manifest of version 2 and device content. *)
Definition demo_image (es : list Entry) (flags : Z) (d : bytes) : world :=
  set_fs (<[["img"; "manifest.bin"] := NFile (manifest_bytes es flags 2)]>
            (<[["img"; "device.bin"] := NFile d]> (w_fs demo_world))) demo_world.

Lemma demo_image_at es flags d :
  wf_manifest es flags 2 -> Forall (in_device d) es -> Z.of_nat (length d) <= maxAlloc ->
  image_at (demo_image es flags d) "/img" ["img"] es flags 2 d.
Proof.
  intros Hwf HF Hm. by split.
Qed.

Lemma demo_image_wf es flags d : fs_wf (w_fs (demo_image es flags d)).
Proof.
  unfold demo_image. cbn [w_fs set_fs].
  apply (fs_wf_insert_file _ ["img"] "manifest.bin"); [|done|done].
  apply (fs_wf_insert_file _ ["img"] "device.bin"); [|done|done].
  apply (bool_decide_unpack _). by vm_compute.
Qed.

(** Two chunks, the first of them all zero. *)
Definition demo_entries : list Entry :=
  [mkEntry 4096 4096 0 7 1 (replicate 32 Byte.x00); mkEntry 16384 8 4096 9 2 (replicate 32 Byte.x00)].

Definition demo_device : bytes := replicate 4096 Byte.x00 ++ replicate 8 Byte.x61.

Lemma demo_entries_wf flags : is_u16 flags -> wf_manifest demo_entries flags 2.
Proof. intros Hf. split; [|by split|done|by split]. repeat constructor; by vm_compute. Qed.

Lemma demo_entries_in : Forall (in_device demo_device) demo_entries.
Proof. repeat constructor; by vm_compute. Qed.
