(* ===== verification/Sparse.v ===== *)
(** pkg/image/sparse.go: the list of the chunks of an image that are all zero. *)
From S2P Require Export Image.
Local Open Scope Z_scope.

Definition sparseMagic : Z := 0x53505253.
Definition minZeroRun : Z := 4096.

Record SparseEntry := mkSparse { sp_Offset : Z; sp_Size : Z }.

#[global] Instance SparseEntry_eq_dec : EqDecision SparseEntry.
Proof. solve_decision. Defined.

Fixpoint isZero (buf : bytes) : bool :=
  match buf with
  | [] => true
  | b :: buf => if decide (b <> Byte.x00) then false else isZero buf
  end.

(** The loop over the entries. *)
Fixpoint sparse_scan (f : file) (entries : list Entry) : M (list SparseEntry) :=
  match entries with
  | [] => mret []
  | e :: l =>
      if decide (e_Size e < minZeroRun) then sparse_scan f l
      else
        buf ← read_chunk f (e_Size e) (e_Offset e);
        rest ← sparse_scan f l;
        mret (if isZero buf then mkSparse (e_Offset e) (e_Size e) :: rest else rest)
  end.

Definition sparse_bytes (s : SparseEntry) : bytes := le_enc 8 (sp_Offset s) ++ le_enc 8 (sp_Size s).

Definition ApplySparse (dir : string) : M unit :=
  let manifestPath := PathJoin [dir; "manifest.bin"] in
  '(entries, hdr) ← ReadManifest manifestPath;
  f ← Open (PathJoin [dir; "device.bin"]);
  sparse ← sparse_scan f entries;
  if decide (length sparse = 0%nat) then mret tt
  else
    sf ← Create (PathJoin [dir; "sparse.bin"]);
    fwrite sf (le_enc 4 sparseMagic) ;;
    fwrite sf (le_enc 4 (u32 (Z.of_nat (length sparse)))) ;;
    forM_ sparse (fun s => fwrite sf (sparse_bytes s)) ;;
    WriteManifestFlags manifestPath entries (set_flag (h_Flags hdr) FlagSparse) (h_Version hdr).

Definition read_sparse_entry : reader SparseEntry :=
  o ← read_le 8; s ← read_le 8; mret (mkSparse o s).

Definition parse_sparse : reader (list SparseEntry) :=
  magic ← read_le 4;
  if decide (magic <> sparseMagic) then reader_fail ErrInvalid
  else count ← read_le 4; read_list (Z.to_nat count) read_sparse_entry.

Definition ReadSparse (path : string) : M (list SparseEntry) :=
  r ← attempt (Open path);
  match r with
  | inl e => if IsNotExist e then mret [] else throw e
  | inr f =>
      c ← fread f;
      r ← lift (parse_sparse c);
      mret r.1
  end.

(** ** Facts *)

Lemma isZero_spec buf : isZero buf = true <-> Forall (fun b => b = Byte.x00) buf.
Proof.
  induction buf as [|b buf IH]; cbn [isZero]; [by split|]. rewrite Forall_cons.
  case_decide as Hb; [by split; [|intros [? _]]|]. naive_solver.
Qed.

(** The chunks of at least [minZeroRun] bytes, all zero. *)
Definition sparse_chunk (d : bytes) (e : Entry) : Prop :=
  minZeroRun <= e_Size e /\ Forall (fun b => b = Byte.x00) (chunk d e).
#[global] Instance sparse_chunk_dec d e : Decision (sparse_chunk d e).
Proof. unfold sparse_chunk; apply _. Defined.

Definition sparse_of (d : bytes) (es : list Entry) : list SparseEntry :=
  (fun e => mkSparse (e_Offset e) (e_Size e)) <$> filter (sparse_chunk d) es.

Lemma sparse_scan_run w f d es :
  nofault w -> w_fs w !! f_path f = Some (NFile d) -> Forall (in_device d) es ->
  Z.of_nat (length d) <= maxAlloc ->
  sparse_scan f es w = (Ret (sparse_of d es), w).
Proof.
  intros Hnf Hd HF Hm. induction HF as [|e l He HF IH]; [done|].
  cbn [sparse_scan]. unfold sparse_of. rewrite filter_cons. unfold sparse_chunk at 1.
  destruct (decide (e_Size e < minZeroRun)) as [Hlt|Hge].
  - rewrite decide_False by (intros [? _]; lia). apply IH.
  - erewrite bind_run by (by eapply read_chunk_run). erewrite bind_run by exact IH.
    destruct (isZero (chunk d e)) eqn:Hz.
    + rewrite decide_True; [done|]. split; [lia|by apply isZero_spec].
    + rewrite decide_False; [done|]. intros [_ H%isZero_spec]. congruence.
Qed.

Lemma sparse_of_stored d version es : sparse_of d (stored version <$> es) = sparse_of d es.
Proof.
  unfold sparse_of. induction es as [|e l IH]; [done|].
  rewrite fmap_cons, !filter_cons.
  assert (Hs : sparse_chunk d (stored version e) <-> sparse_chunk d e)
    by (unfold sparse_chunk, chunk, stored; by case_decide).
  destruct (decide (sparse_chunk d e)).
  - rewrite decide_True by tauto. rewrite !fmap_cons, IH. f_equal. unfold stored. by case_decide.
  - rewrite decide_False by tauto. apply IH.
Qed.

Definition sparse_file (zs : list SparseEntry) : bytes :=
  le_enc 4 sparseMagic ++ le_enc 4 (Z.of_nat (length zs)) ++ flat_map sparse_bytes zs.

Lemma reads_sparse zs :
  Forall (fun s => is_u64 (sp_Offset s) /\ is_u64 (sp_Size s)) zs -> is_u32 (Z.of_nat (length zs)) ->
  reads parse_sparse (sparse_file zs) zs.
Proof.
  intros HF Hl. unfold parse_sparse, sparse_file.
  eapply reads_bind; [by apply reads_u32|]. rewrite decide_False by tauto.
  eapply reads_bind; [by apply reads_u32|]. rewrite Nat2Z.id. apply reads_list.
  eapply Forall_impl; [exact HF|]. intros [o s] [Ho Hs]. unfold read_sparse_entry, sparse_bytes.
  cbn [sp_Offset sp_Size] in *. eapply reads_bind; [by apply reads_u64|].
  rewrite <- (app_nil_r (le_enc 8 s)). eapply reads_bind; [by apply reads_u64|apply reads_ret].
Qed.

Lemma sparse_of_wf d es :
  Forall wf_entry es -> Forall (fun s => is_u64 (sp_Offset s) /\ is_u64 (sp_Size s)) (sparse_of d es).
Proof.
  intros HF. unfold sparse_of. rewrite Forall_fmap. apply Forall_forall. intros e He.
  apply list_elem_of_filter in He as [_ He]. rewrite Forall_forall in HF. by destruct (HF e He).
Qed.

Lemma length_sparse_of d es : (length (sparse_of d es) <= length es)%nat.
Proof. unfold sparse_of. rewrite length_fmap. apply length_filter. Qed.

(** ** Properties *)

(** C29: [ApplySparse] records exactly the chunks of at least 4096 bytes that
    are all zero, in the manifest's order, as [ReadSparse] then reads them; the
    manifest keeps its entries and gets the sparse flag; the device content
    stays. With no such chunk it changes nothing. *)
Theorem ApplySparse_exact w dir p es flags version d :
  nofault w -> image_at w dir p es flags version d -> writable (w_fs w) (p ++ ["sparse.bin"]) ->
  (sparse_of d es = [] -> ApplySparse dir w = (Ret tt, w)) /\
  (sparse_of d es <> [] -> exists w',
    ApplySparse dir w = (Ret tt, w') /\
    ReadSparse (PathJoin [dir; "sparse.bin"]) w' = (Ret (sparse_of d es), w') /\
    ReadManifest (PathJoin [dir; "manifest.bin"]) w' =
      (Ret (stored version <$> es, manifest_header es (set_flag flags FlagSparse) version), w') /\
    (forall q, q <> p ++ ["sparse.bin"] -> q <> p ++ ["manifest.bin"] -> w_fs w' !! q = w_fs w !! q)).
Proof.
  intros Hnf [Hdn Hp Hdir Hm Hdev Hch Hsz] Hw.
  destruct (image_file w dir p "manifest.bin" Hdn Hp eq_refl) as [Hmn Hmp].
  pose proof (ReadManifest_at _ _ _ _ _ _ Hnf Hmn Hmp Hm) as Hrm.
  unfold ApplySparse. cbv zeta. rewrite (bind_run _ _ _ _ _ Hrm).
  erewrite bind_run by (by eapply Open_image).
  erewrite bind_run by (apply (sparse_scan_run _ _ d); [done|done|by apply in_device_stored|done]).
  rewrite sparse_of_stored. destruct Hm as [Hmc Hwf]. split.
  { intros ->. done. }
  intros Hne. rewrite decide_False by (by destruct (sparse_of d es)).
  assert (Hlen : is_u32 (Z.of_nat (length (sparse_of d es)))).
  { pose proof (length_sparse_of d es). pose proof (wfm_count _ _ _ Hwf). unfold is_u32 in *. lia. }
  erewrite bind_run by (by apply Create_image).
  fwrite_step. fwrite_step. erewrite bind_run by (eapply fwrite_each; [done|apply lookup_insert_eq]).
  cbn [w_fs set_fs f_path]. rewrite !insert_insert_eq, !set_fs_set_fs.
  assert (Hpm : p ++ ["sparse.bin"] <> p ++ ["manifest.bin"]) by (intros E%app_inv_head; done).
  erewrite (WriteManifest_image _ dir p); [|done|done|done| |].
  2:{ cbn [w_fs set_fs]. rewrite lookup_insert_ne; [done|path_ne]. }
  2:{ cbn [w_fs set_fs]. rewrite lookup_insert_ne by done. exact Hmc. }
  eexists. split; [done|]. cbn [w_fs set_fs manifest_header h_Flags h_Version].
  rewrite set_fs_set_fs. cbn [app]. rewrite u32_small by done.
  change (le_enc 4 sparseMagic ++ le_enc 4 _) with (le_enc 4 sparseMagic ++ le_enc 4 (Z.of_nat (length (sparse_of d es)))).
  rewrite <- app_assoc. fold (sparse_file (sparse_of d es)).
  destruct (image_file w dir p "sparse.bin" Hdn Hp eq_refl) as [Hsn Hsp].
  split_and!.
  - unfold ReadSparse. erewrite bind_run.
    2:{ apply attempt_run. eapply (Open_image (set_fs _ w) dir p "sparse.bin"); [done|done|done|done|].
        cbn [w_fs set_fs]. rewrite lookup_insert_ne by done. apply lookup_insert_eq. }
    cbv beta iota. erewrite bind_run.
    2:{ apply fread_run; [done|]. cbn [w_fs set_fs f_path]. rewrite lookup_insert_ne by done.
        apply lookup_insert_eq. }
    pose proof (reads_all _ _ _ (reads_sparse _ (sparse_of_wf d _ (wfm_entries _ _ _ Hwf)) Hlen)) as ->.
    done.
  - erewrite (ReadManifest_at (set_fs _ w) _ (p ++ ["manifest.bin"]) (stored version <$> es)
      (set_flag flags FlagSparse) version); [|done|done|done|].
    + rewrite <- list_fmap_compose. f_equal. f_equal. f_equal.
      * apply list_fmap_ext. intros i e _. apply stored_idem.
      * unfold manifest_header. by rewrite length_fmap, total_size_stored.
    + split; [apply lookup_insert_eq|]. split.
      * apply wf_stored, Hwf.
      * rewrite length_fmap. apply Hwf.
      * apply set_flag_u16; [apply Hwf|done].
      * apply Hwf.
  - intros q H1 H2. by rewrite !lookup_insert_ne by congruence.
Qed.

Lemma ApplySparse_exact_witness :
  let w := demo_image demo_entries 0 demo_device in
  exists w', ApplySparse "/img" w = (Ret tt, w') /\
    ReadSparse (PathJoin ["/img"; "sparse.bin"]) w' = (Ret [mkSparse 0 4096], w').
Proof.
  intros w.
  destruct (ApplySparse_exact w "/img" ["img"] demo_entries 0 2 demo_device) as [_ H].
  - done.
  - apply demo_image_at; [by apply demo_entries_wf|apply demo_entries_in|done].
  - split; by vm_compute.
  - destruct H as (w' & H1 & H2 & _); [by vm_compute|]. exists w'. split; [exact H1|].
    assert (E : sparse_of demo_device demo_entries = [mkSparse 0 4096]) by (by vm_compute).
    rewrite E in H2. exact H2.
Defined.
