(* ===== verification/Dedup.v ===== *)
(** pkg/image/dedup.go: the chunks of an image in the content-addressed store. *)
From S2P Require Export Image StorageFacts.
Local Open Scope Z_scope.

(** The loop of [itoa64]: [i] slots of the 32-byte buffer are free; [None] is
    the panic of an index below 0. *)
Fixpoint itoa64_loop (i : nat) (v : Z) (buf : string) : option string :=
  if decide (v > 0) then
    match i with
    | O => None
    | S i => itoa64_loop i (v / 10) (String (ascii_of_N (Z.to_N (48 + v `mod` 10))) buf)
    end
  else Some buf.

Definition itoa64 (v : Z) : option string :=
  if decide (v = 0) then Some "0" else itoa64_loop 32 v "".

Definition itoa64_go (v : Z) : M string :=
  match itoa64 v with Some s => mret s | None => panic end.

Definition set_hash (h : bytes) (e : Entry) : Entry :=
  mkEntry (e_Ptr e) (e_Size e) (e_Offset e) (e_CRC32C e) (e_Seq e) h.

(** The loop over the entries; the code's [seen] and [unique] are written and
    never read. *)
Fixpoint dedup_entries (cas : CAS) (f : file) (entries : list Entry) : M (list Entry) :=
  match entries with
  | [] => mret []
  | e :: l =>
      buf ← read_chunk f (e_Size e) (e_Offset e);
      hash ← Put cas buf;
      rest ← dedup_entries cas f l;
      mret (set_hash hash e :: rest)
  end.

(** A line of device.map. *)
Definition write_map_line (mf : file) (e : Entry) : M unit :=
  size ← itoa64_go (e_Size e);
  ptr ← itoa64_go (e_Ptr e);
  fwrite mf (bytes_of_string
    (HashString (e_ContentHash e) +:+ " " +:+ size +:+ " " +:+ ptr +:+ String newline "")).

Definition DedupDevice (dir : string) : M unit :=
  let manifestPath := PathJoin [dir; "manifest.bin"] in
  '(entries, hdr) ← ReadManifest manifestPath;
  f ← Open (PathJoin [dir; "device.bin"]);
  cas ← NewCAS dir;
  entries ← dedup_entries cas f entries;
  mf ← Create (PathJoin [dir; "device.map"]);
  forM_ entries (write_map_line mf) ;;
  WriteManifestFlags manifestPath entries (set_flag (h_Flags hdr) FlagDedup) (h_Version hdr).

(** ** itoa64 *)

Lemma itoa64_loop_format i v buf fuel :
  0 < v < 10 ^ Z.of_nat i -> v < 2 ^ Z.of_nat fuel ->
  itoa64_loop i v buf = Some (format_digits fuel v buf).
Proof.
  revert v buf fuel. induction i as [|i IH]; intros v buf fuel [H0 Hv] Hf; [cbn in Hv; lia|].
  destruct fuel as [|fuel]; [cbn in Hf; lia|].
  rewrite Nat2Z.inj_succ, Z.pow_succ_r in Hv, Hf by lia.
  cbn [itoa64_loop format_digits]. rewrite decide_True by lia.
  fold (digit_char (v `mod` 10)). destruct (decide (v < 10)) as [Hlt|Hge].
  - rewrite (Z.mod_small v 10), (Z.div_small v 10) by lia. by destruct i.
  - apply IH.
    + split; [apply Z.div_str_pos; lia|apply Z.div_lt_upper_bound; lia].
    + apply Z.div_lt_upper_bound; lia.
Qed.

Lemma itoa64_u64 v : is_u64 v -> itoa64 v = Some (FormatUint v).
Proof.
  unfold is_u64. intros Hv. unfold itoa64. case_decide as H0; [by subst|].
  apply itoa64_loop_format; [split; [lia|]|].
  - apply Z.lt_trans with (2 ^ 64); [lia|done].
  - rewrite Nat2Z.inj_succ, Z2Nat.id by apply Z.log2_nonneg. apply Z.log2_spec. lia.
Qed.

(** ** The loops *)

(** What a sequence of puts leaves: a store with every object it had; nothing
    outside it changes. *)
Record kept (c : CAS) (w w' : world) : Prop := {
  kp_nofault : nofault w';
  kp_inv : cas_inv c w';
  kp_cwd : w_cwd w' = w_cwd w;
  kp_frame : forall x, ~ at_path w (Root c) `prefix_of` x -> w_fs w' !! x = w_fs w !! x;
  kp_stores : forall h, stores c w h -> stores c w' h;
}.

Lemma kept_refl c w : nofault w -> cas_inv c w -> kept c w w.
Proof. by split. Qed.

Lemma kept_trans c w1 w2 w3 : kept c w1 w2 -> kept c w2 w3 -> kept c w1 w3.
Proof.
  intros [? ? C1 F1 ?] [? ? C2 F2 ?]. split; try done.
  - congruence.
  - intros x Hx. rewrite F2; [by apply F1|]. unfold at_path. by rewrite C1.
  - auto.
Qed.

Lemma Put_kept c data w :
  nofault w -> cas_inv c w ->
  exists w', Put c data w = (Ret (Sum256 data), w') /\ kept c w w' /\ stores c w' (Sum256 data).
Proof.
  intros Hnf Hinv. destruct (Put_run w c data Hnf Hinv) as (w' & H & [? ? Hc ? Hk Hs]).
  assert (Ho : forall b, obj_dir w' c b = obj_dir w c b)
    by (intros; unfold obj_dir, at_path; by rewrite Hc).
  exists w'. split; [done|]. split; [split; try done|].
  - intros h (b & l & d & -> & Hl & Hd & Hf). exists b, l, d. rewrite Ho. auto.
  - destruct (Sum256_cons data) as (b & l & Hsum & Hl). destruct (Hs b l Hsum) as (d & Hd & He & _).
    exists b, l, d. rewrite Ho. split_and!; congruence.
Qed.

Definition hashed (d : bytes) (e : Entry) : Entry := set_hash (Sum256 (chunk d e)) e.

Lemma dedup_entries_run c f d es w :
  nofault w -> cas_inv c w -> w_fs w !! f_path f = Some (NFile d) ->
  ~ at_path w (Root c) `prefix_of` f_path f -> Forall (in_device d) es ->
  Z.of_nat (length d) <= maxAlloc ->
  exists w', dedup_entries c f es w = (Ret (hashed d <$> es), w') /\ kept c w w' /\
    Forall (fun e => stores c w' (Sum256 (chunk d e))) es.
Proof.
  intros Hnf Hinv Hd Hout HF Hm. revert w Hnf Hinv Hd Hout.
  induction HF as [|e l He HF IH]; intros w Hnf Hinv Hd Hout.
  { exists w. split; [done|]. split; [by apply kept_refl|constructor]. }
  cbn [dedup_entries]. erewrite bind_run by (by eapply read_chunk_run).
  destruct (Put_kept c (chunk d e) w Hnf Hinv) as (w1 & H1 & K1 & S1).
  rewrite (bind_run _ _ _ _ _ H1). pose proof K1 as [N1 I1 C1 F1 _].
  destruct (IH w1) as (w2 & H2 & K2 & S2); [done|done|by rewrite F1| |].
  { unfold at_path. by rewrite C1. }
  rewrite (bind_run _ _ _ _ _ H2). exists w2. split; [done|].
  split; [by eapply kept_trans|]. constructor; [|done]. by apply K2.
Qed.

Definition map_line (e : Entry) : bytes :=
  bytes_of_string (HashString (e_ContentHash e) +:+ " " +:+ FormatUint (e_Size e) +:+ " " +:+
    FormatUint (e_Ptr e) +:+ String newline "").

Lemma write_map_lines mf es w :
  Forall wf_entry es ->
  forM_ es (write_map_line mf) w = forM_ es (fun e => fwrite mf (map_line e)) w.
Proof.
  intros HF. revert w. induction HF as [|e l He HF IH]; intros w; [done|]. cbn [forM_].
  assert (E : write_map_line mf e = fwrite mf (map_line e)).
  { unfold write_map_line, itoa64_go. by rewrite !itoa64_u64 by apply He. }
  rewrite E. unfold mbind, M_bind.
  destruct (fwrite mf (map_line e) w) as [[a|?| |] w']; [apply IH|done..].
Qed.

Lemma stored_set_hash version h e :
  stored version (set_hash h (stored version e)) = stored version (set_hash h e).
Proof. unfold stored. by case_decide. Qed.

Lemma hashed_stored d version (es : list Entry) :
  stored version <$> (hashed d <$> (stored version <$> es)) = stored version <$> (hashed d <$> es).
Proof.
  rewrite <- !list_fmap_compose. apply list_fmap_ext. intros i e _. unfold compose, hashed.
  replace (chunk d (stored version e)) with (chunk d e) by (unfold chunk, stored; by case_decide).
  apply stored_set_hash.
Qed.

Lemma hashed_wf d es : Forall wf_entry es -> Forall wf_entry (hashed d <$> es).
Proof.
  intros HF. rewrite Forall_fmap. eapply Forall_impl; [exact HF|]. intros e []. split; try done.
  apply length_Sum256.
Qed.

Lemma total_size_hashed d es : total_size (hashed d <$> es) = total_size es.
Proof.
  unfold total_size. generalize 0. induction es as [|e l IH]; intros z; [done|]. cbn. by rewrite IH.
Qed.

(** The store of an image directory. *)
Definition image_cas (dir : string) : CAS := mkCAS (PathJoin [dir; "cas"]).

(** NewCAS of an image directory: its store is there, or nothing is. *)
Lemma NewCAS_run w dir p :
  nofault w -> fs_wf (w_fs w) -> dir <> "" -> at_path w dir = p -> w_fs w !! p = Some NDir ->
  w_fs w !! (p ++ ["cas"]) = None \/ cas_inv (image_cas dir) w ->
  exists w1, NewCAS dir w = (Ret (image_cas dir), w1) /\ w1 = set_fs (w_fs w1) w /\
    cas_inv (image_cas dir) w1 /\ w_fs w1 = <[p ++ ["cas"] := NDir]> (w_fs w).
Proof.
  intros Hnf Hwf Hd Hp Hdir Hc. destruct (image_file w dir p "cas" Hd Hp eq_refl) as [Hne Hat].
  assert (Hx : forall n, w_fs w !! (p ++ ["cas"]) = Some n -> n = NDir).
  { destruct Hc as [Hc|Hc]; [congruence|]. intros n.
    pose proof (ci_root_dir _ _ Hc) as E. cbn [Root image_cas] in E. rewrite Hat in E. congruence. }
  exists (set_fs (<[p ++ ["cas"] := NDir]> (w_fs w)) w). split_and!; [|done| |done].
  - unfold NewCAS. erewrite bind_run; [done|].
    rewrite (MkdirAll_run w Hnf) by (rewrite ?Hat; done || by apply mkdirs_child).
    by rewrite Hat, mkdirs_child_all.
  - destruct Hc as [Hc|Hc].
    + apply cas_inv_fresh; [by apply fs_wf_insert_dir|done| |].
      * change (at_path (set_fs _ w) (Root (image_cas dir))) with (at_path w (PathJoin [dir; "cas"])).
        rewrite Hat. apply lookup_insert_eq.
      * change (at_path (set_fs _ w) (Root (image_cas dir))) with (at_path w (PathJoin [dir; "cas"])).
        rewrite Hat. intros x y. cbn [w_fs set_fs]. rewrite lookup_insert_ne by path_ne.
        apply fs_wf_below_nondir; [done|congruence|done].
    + rewrite insert_id; [by rewrite set_fs_id|].
      pose proof (ci_root_dir _ _ Hc) as E. cbn [Root image_cas] in E. by rewrite Hat in E.
Qed.

(** The run up to the end of the loop over the entries, and what of the image
    is still there. *)
Lemma dedup_stored w dir p es flags version d :
  nofault w -> fs_wf (w_fs w) -> image_at w dir p es flags version d ->
  w_fs w !! (p ++ ["cas"]) = None \/ cas_inv (image_cas dir) w ->
  exists w2, (cas ← NewCAS dir;
      dedup_entries cas (File (PathJoin [dir; "device.bin"]) (p ++ ["device.bin"])) (stored version <$> es)) w =
      (Ret (hashed d <$> (stored version <$> es)), w2) /\
    nofault w2 /\ cas_inv (image_cas dir) w2 /\ w_cwd w2 = w_cwd w /\ w_fs w2 !! p = Some NDir /\
    (forall q, ~ p ++ ["cas"] `prefix_of` q -> w_fs w2 !! q = w_fs w !! q) /\
    Forall (fun e => stores (image_cas dir) w2 (Sum256 (chunk d e))) es.
Proof.
  intros Hnf Hfw [Hdn Hp Hdir Hm Hdev Hch Hsz] Hcas.
  destruct (NewCAS_run w dir p Hnf Hfw Hdn Hp Hdir Hcas) as (w1 & H1 & E1 & I1 & F1).
  assert (Hroot1 : at_path w1 (Root (image_cas dir)) = p ++ ["cas"])
    by (rewrite E1; apply (image_file w dir p "cas" Hdn Hp eq_refl)).
  assert (Hf1 : forall q, ~ p ++ ["cas"] `prefix_of` q -> w_fs w1 !! q = w_fs w !! q).
  { intros q Hq. rewrite F1, lookup_insert_ne; [done|]. by intros <-. }
  assert (Hdb : ~ p ++ ["cas"] `prefix_of` p ++ ["device.bin"])
    by (intros H; by apply (snoc_prefix p "cas" "device.bin" []) in H).
  destruct (dedup_entries_run (image_cas dir) (File (PathJoin [dir; "device.bin"]) (p ++ ["device.bin"])) d
    (stored version <$> es) w1) as (w2 & H2 & [N2 I2 C2 F2 _] & S2); cbn [f_path]; try done.
  { by rewrite E1. }
  { by rewrite Hf1. }
  { by rewrite Hroot1. }
  { by apply in_device_stored. }
  rewrite Hroot1 in F2. exists w2. rewrite (bind_run _ _ _ _ _ H1).
  assert (Hall : forall q, ~ p ++ ["cas"] `prefix_of` q -> w_fs w2 !! q = w_fs w !! q)
    by (intros q Hq; rewrite F2 by done; by apply Hf1).
  split_and!; try done.
  - by rewrite C2, E1.
  - rewrite Hall; [done|]. intros [k E]. revert E. path_ne.
  - rewrite Forall_fmap in S2. eapply Forall_impl; [exact S2|]. intros e. unfold compose.
    by replace (chunk d (stored version e)) with (chunk d e) by (unfold chunk, stored; by case_decide).
Qed.

(** The objects of the store are not files of the image directory. *)
Lemma obj_not_file w dir p x b l :
  dir <> "" -> at_path w dir = p -> p ++ [x] = obj_dir w (image_cas dir) b ++ [hex_encode l] -> False.
Proof.
  intros Hd Hp. unfold obj_dir. cbn [Root image_cas].
  rewrite (proj2 (image_file w dir p "cas" Hd Hp eq_refl)). path_ne.
Qed.

(** ** Properties *)

(** [itoa64] never indexes outside its 32-byte buffer on a uint64, and
    writes the decimal digits of the number: strconv.FormatUint's. *)
Theorem itoa64_FormatUint v : is_u64 v -> itoa64 v = Some (FormatUint v).
Proof. apply itoa64_u64. Qed.

(** C28: [DedupDevice] puts every chunk of the image in the store [dir/cas]:
    afterwards the digest of each entry's bytes is what the manifest holds (a
    manifest of version 1 has no place for it), [Get] of that digest returns
    bytes of that digest, device.map has one line per entry, the flag is set,
    and nothing else changes, the device content in particular. *)
Theorem DedupDevice_stores w dir p es flags version d :
  nofault w -> fs_wf (w_fs w) -> image_at w dir p es flags version d ->
  writable (w_fs w) (p ++ ["device.map"]) ->
  w_fs w !! (p ++ ["cas"]) = None \/ cas_inv (image_cas dir) w ->
  exists w', DedupDevice dir w = (Ret tt, w') /\
    ReadManifest (PathJoin [dir; "manifest.bin"]) w' =
      (Ret (stored version <$> (hashed d <$> es),
            manifest_header es (set_flag flags FlagDedup) version), w') /\
    Forall (fun e => exists k, Get (image_cas dir) (Sum256 (chunk d e)) w' = (Ret k, w') /\
                       Sum256 k = Sum256 (chunk d e)) es /\
    w_fs w' !! (p ++ ["device.map"]) = Some (NFile (flat_map map_line (hashed d <$> (stored version <$> es)))) /\
    (forall q, ~ p ++ ["cas"] `prefix_of` q -> q <> p ++ ["device.map"] -> q <> p ++ ["manifest.bin"] ->
       w_fs w' !! q = w_fs w !! q).
Proof.
  intros Hnf Hfw Him Hw Hcas.
  destruct (dedup_stored w dir p es flags version d Hnf Hfw Him Hcas)
    as (w2 & H2 & N2 & I2 & C2 & Hdir2 & F2 & S2).
  destruct Him as [Hdn Hp Hdir Hm Hdev Hch Hsz].
  destruct (image_file w dir p "manifest.bin" Hdn Hp eq_refl) as [Hmn Hmp].
  pose proof (ReadManifest_at _ _ _ _ _ _ Hnf Hmn Hmp Hm) as Hrm. destruct Hm as [Hmc Hwf].
  apply bind_inv in H2 as (cas & w1 & H1 & H2).
  unfold DedupDevice. cbv zeta. rewrite (bind_run _ _ _ _ _ Hrm).
  erewrite bind_run by (by eapply Open_image).
  rewrite (bind_run _ _ _ _ _ H1), (bind_run _ _ _ _ _ H2).
  assert (Hp2 : at_path w2 dir = p) by (unfold at_path; by rewrite C2).
  assert (Hf2 : forall x, x <> "cas" -> w_fs w2 !! (p ++ [x]) = w_fs w !! (p ++ [x])).
  { intros x Hx. apply F2. intros H. apply (snoc_prefix p "cas" x []) in H. congruence. }
  erewrite bind_run.
  2:{ apply (Create_image w2 dir p); try done. unfold writable. by rewrite Hf2. }
  rewrite (bind_run _ _ _ _ _ (eq_trans (write_map_lines _ _ _ (hashed_wf d _ (wf_stored _ _ (wfm_entries _ _ _ Hwf))))
    (fwrite_each map_line (File (PathJoin [dir; "device.map"]) (p ++ ["device.map"])) _ (set_fs _ w2) [] N2 (lookup_insert_eq _ _ _)))).
  cbn [w_fs set_fs f_path app]. rewrite insert_insert_eq, set_fs_set_fs.
  assert (Hpm : p ++ ["device.map"] <> p ++ ["manifest.bin"]) by (intros E%app_inv_head; done).
  erewrite (WriteManifest_image _ dir p); [|done|done|done| |].
  2:{ cbn [w_fs set_fs]. rewrite lookup_insert_ne; [done|apply path_snoc_ne']. }
  2:{ cbn [w_fs set_fs]. rewrite lookup_insert_ne by done. rewrite Hf2 by done. exact Hmc. }
  eexists. split; [done|]. cbn [w_fs set_fs manifest_header h_Flags h_Version]. rewrite set_fs_set_fs.
  split_and!.
  - erewrite (ReadManifest_at (set_fs _ w2) _ (p ++ ["manifest.bin"]) _ _ version);
      [|done|done| |split; [apply lookup_insert_eq|]].
    + rewrite hashed_stored. unfold manifest_header.
      by rewrite !length_fmap, total_size_hashed, total_size_stored.
    + unfold at_path. cbn [w_cwd set_fs]. rewrite C2. exact Hmp.
    + split; [apply hashed_wf, wf_stored, Hwf|rewrite !length_fmap; apply Hwf| |apply Hwf].
      apply set_flag_u16; [apply Hwf|done].
  - eapply Forall_impl; [exact S2|]. intros e (b & l & k & Hh & Hl & Hk & Hf). exists k.
    split; [|done]. rewrite Hh. apply Get_run; [done|by apply Join_nonempty|by destruct l|].
    change (obj_dir (set_fs _ w2)) with (obj_dir w2). cbn [w_fs set_fs].
    rewrite !lookup_insert_ne; [done|..]; intros E; rewrite <- E in Hf;
      apply (obj_not_file _ _ _ _ _ _ Hdn Hp2) in E; done.
  - cbn. rewrite lookup_insert_ne by congruence. apply lookup_insert_eq.
  - intros q H3 H4 H5. rewrite !lookup_insert_ne by congruence. by apply F2.
Qed.

Lemma itoa64_FormatUint_witness :
  itoa64 18446744073709551615 = Some (FormatUint 18446744073709551615) /\
  FormatUint 18446744073709551615 = "18446744073709551615".
Proof. split; [apply (itoa64_FormatUint 18446744073709551615); by vm_compute|by vm_compute]. Defined.

Lemma DedupDevice_stores_witness :
  let w := demo_image demo_entries 0 demo_device in
  exists w', DedupDevice "/img" w = (Ret tt, w') /\
    ReadManifest (PathJoin ["/img"; "manifest.bin"]) w' =
      (Ret (stored 2 <$> (hashed demo_device <$> demo_entries),
            manifest_header demo_entries (set_flag 0 FlagDedup) 2), w') /\
    w_fs w' !! ["img"; "device.bin"] = Some (NFile demo_device).
Proof.
  intros w.
  destruct (DedupDevice_stores w "/img" ["img"] demo_entries 0 2 demo_device)
    as (w' & H1 & H2 & _ & _ & H3).
  - done.
  - apply demo_image_wf.
  - apply demo_image_at; [by apply demo_entries_wf|apply demo_entries_in|done].
  - split; by vm_compute.
  - left. by vm_compute.
  - exists w'. split; [exact H1|]. split; [exact H2|].
    rewrite (H3 ["img"; "device.bin"]); [by vm_compute|by intros [k E]|done|done].
Defined.
