(* ===== verification/Delta.v ===== *)
(** pkg/image/compress.go and pkg/image/delta.go: compressed images and images
    stored as the difference to a parent, which materialize each other. *)
From S2P Require Export Image.
Local Open Scope Z_scope.

(** ** The compression library *)

(** github.com/klauspost/compress/zstd as the code uses it: [EncodeAll] of an
    encoder at the default level, and io.ReadAll of a decoder over a file's
    content. *)
Class Zstd := {
  EncodeAll : bytes -> bytes;
  DecodeAll : bytes -> goerr + bytes;
}.

(** What the library documents: decoding inverts encoding. *)
Class ZstdLaws `{Zstd} : Prop := decode_encode : forall d, DecodeAll (EncodeAll d) = inr d.

(** ** Go slices with spare capacity *)

(** A slice: its backing array from the slice's start, and its length. *)
Record gslice := mkSlice { sl_arr : bytes; sl_len : nat }.

(** The slice os.ReadFile returns for a file of content [c]: it allocates the
    file's size and one more byte, 512 at least. *)
Definition read_slice (c : bytes) : gslice :=
  mkSlice (c ++ replicate (Nat.max (length c + 1) 512 - length c) Byte.x00) (length c).

Definition sl_bytes (s : gslice) : bytes := take (sl_len s) (sl_arr s).

(** s[lo:hi] is in range: it is the capacity that bounds [hi]. *)
Definition in_cap (lo hi : Z) (s : gslice) : bool :=
  bool_decide (0 <= lo <= hi /\ hi <= Z.of_nat (length (sl_arr s))).

(** The content of s[lo:hi]. *)
Definition sl_sub (lo hi : Z) (s : gslice) : M bytes :=
  if in_cap lo hi s then mret (slice (Z.to_nat lo) (Z.to_nat hi) (sl_arr s)) else panic.

Definition overwrite (lo : nat) (data b : bytes) : bytes :=
  take lo b ++ data ++ drop (lo + length data) b.

(** copy(s[lo:hi], src) for a [src] of [hi - lo] bytes. *)
Definition sl_copy (lo hi : Z) (src : bytes) (s : gslice) : M gslice :=
  if in_cap lo hi s then mret (mkSlice (overwrite (Z.to_nat lo) src (sl_arr s)) (sl_len s))
  else panic.

(** ** delta.go: data *)

Definition deltaMagic : Z := 0x44454C54.

Record DeltaRecord := mkDelta {
  d_Ptr : Z;
  d_Size : Z;
  d_DeviceOff : Z;
  d_PatchOffset : Z;
}.

#[global] Instance DeltaRecord_eq_dec : EqDecision DeltaRecord.
Proof. solve_decision. Defined.

Definition delta_bytes (d : DeltaRecord) : bytes :=
  le_enc 8 (d_Ptr d) ++ le_enc 8 (d_Size d) ++ le_enc 8 (d_DeviceOff d) ++ le_enc 8 (d_PatchOffset d).

Definition read_delta : reader DeltaRecord :=
  p ← read_le 8; s ← read_le 8; o ← read_le 8; q ← read_le 8; mret (mkDelta p s o q).

(** f.Read(buf) with a buffer of [n] bytes: it may fill a part of it. *)
Definition read_some (n : nat) : reader bytes := fun l =>
  if decide (n = 0%nat) then inr ([], l)
  else match l with
       | [] => inl EOF
       | _ => inr (take n l ++ replicate (n - length l) Byte.x00, drop n l)
       end.

(** The head of delta.bin: the number of records and the parent's directory. *)
Definition read_delta_head : reader (Z * string) :=
  magic ← read_le 4;
  if decide (magic <> deltaMagic) then reader_fail ErrInvalid
  else
    count ← read_le 4;
    plen ← read_le 4;
    parent ← read_some (Z.to_nat plen);
    mret (count, string_of_bytes parent).

Section codec.
Context `{Zstd}.

(** ** compress.go *)

Definition deviceZst : string := "device.zst".

Definition CompressDevice (dir : string) : M unit :=
  data ← ReadFile (PathJoin [dir; "device.bin"]);
  WriteFile (PathJoin [dir; deviceZst]) (EncodeAll data) ;;
  '(entries, hdr) ← ReadManifest (PathJoin [dir; "manifest.bin"]);
  WriteManifestFlags (PathJoin [dir; "manifest.bin"]) entries
    (set_flag (h_Flags hdr) FlagCompressed) (h_Version hdr).

Definition DecompressDevice (dir : string) : M unit :=
  '(entries, hdr) ← ReadManifest (PathJoin [dir; "manifest.bin"]);
  if negb (HasFlag (h_Flags hdr) FlagCompressed) then mret tt
  else
    f ← Open (PathJoin [dir; deviceZst]);
    c ← fread f;
    out ← lift (DecodeAll c);
    WriteFile (PathJoin [dir; "device.bin"]) out ;;
    WriteManifestFlags (PathJoin [dir; "manifest.bin"]) entries
      (clear_flag (h_Flags hdr) FlagCompressed) (h_Version hdr).

(** ** delta.go: applying *)

(** The extent of the entries, in uint64. *)
Definition total_step (total : Z) (e : Entry) : Z :=
  let e_end := u64 (e_Offset e + e_Size e) in
  if decide (e_end > total) then e_end else total.

Definition entries_total (entries : list Entry) : Z := foldl total_step 0 entries.

(** The parent's device content at the length of the image's. *)
Definition fit_base (total : Z) (base : gslice) : M gslice :=
  if decide (Z.of_nat (sl_len base) < total) then
    if make_ok total then
      mret (mkSlice (sl_bytes base ++ replicate (Z.to_nat total - sl_len base) Byte.x00)
              (Z.to_nat total))
    else panic
  else if decide (Z.of_nat (sl_len base) > total) then mret (mkSlice (sl_arr base) (Z.to_nat total))
  else mret base.

(** The loop over the records of an open delta.bin, from the position
    [pos] on. *)
Fixpoint apply_records (n : nat) (f : file) (pos : nat) (patch base : gslice) : M gslice :=
  match n with
  | O => mret base
  | S n =>
      c ← fread f;
      '(rec, _) ← lift (read_delta (drop pos c));
      src ← sl_sub (d_PatchOffset rec) (u64 (d_PatchOffset rec + d_Size rec)) patch;
      base ← sl_copy (d_DeviceOff rec) (u64 (d_DeviceOff rec + d_Size rec)) src base;
      apply_records n f (pos + 32) patch base
  end.

(** [ApplyDelta], given what materializes the parent. *)
Definition ApplyDelta_with (ensure : string -> M unit) (dir : string) : M unit :=
  r ← attempt (Open (PathJoin [dir; "delta.bin"]));
  match r with
  | inl e => if IsNotExist e then mret tt else throw e
  | inr f =>
      c ← fread f;
      '((count, parentDir), rest) ← lift (read_delta_head c);
      ensure parentDir ;;
      base ← ReadFile (PathJoin [parentDir; "device.bin"]);
      '(entries, _) ← ReadManifest (PathJoin [dir; "manifest.bin"]);
      base ← fit_base (entries_total entries) (read_slice base);
      patch ← ReadFile (PathJoin [dir; "device.patch"]);
      base ← apply_records (Z.to_nat count) f (length c - length rest) (read_slice patch) base;
      WriteFile (PathJoin [dir; "device.bin"]) (sl_bytes base)
  end.

(** compress.go: the recursion through the parents is bounded by [fuel]. *)
Fixpoint EnsureDeviceMaterialized (fuel : nat) (dir : string) : M unit :=
  match fuel with
  | O => diverge
  | S fuel =>
      hdr ← readManifestHeader (PathJoin [dir; "manifest.bin"]);
      (if HasFlag (h_Flags hdr) FlagDelta
       then ApplyDelta_with (EnsureDeviceMaterialized fuel) dir else mret tt) ;;
      if HasFlag (h_Flags hdr) FlagCompressed then DecompressDevice dir
      else
        r ← attempt (Stat (PathJoin [dir; "device.bin"]));
        match r with
        | inl e => if IsNotExist e then throw e else mret tt
        | inr _ => mret tt
        end
  end.

Definition ApplyDelta (fuel : nat) (dir : string) : M unit :=
  ApplyDelta_with (EnsureDeviceMaterialized fuel) dir.

(** ** delta.go: writing *)

Definition parentByPtr (parentEntries : list Entry) : gmap Z Entry :=
  foldl (fun m pe => <[e_Ptr pe := pe]> m) ∅ parentEntries.

(** The parent has an entry of the same address, size and checksum. *)
Definition unchanged (parents : gmap Z Entry) (e : Entry) : bool :=
  match parents !! e_Ptr e with
  | Some pe => bool_decide (e_Size pe = e_Size e) && bool_decide (e_CRC32C pe = e_CRC32C e)
  | None => false
  end.

(** The loop over the entries: the records and the patch so far. *)
Fixpoint diff_entries (parents : gmap Z Entry) (curDev : gslice) (entries : list Entry)
    (delta : list DeltaRecord) (patch : bytes) : M (list DeltaRecord * bytes) :=
  match entries with
  | [] => mret (delta, patch)
  | e :: l =>
      if unchanged parents e then diff_entries parents curDev l delta patch
      else
        let rec := mkDelta (e_Ptr e) (e_Size e) (e_Offset e) (u64 (Z.of_nat (length patch))) in
        data ← sl_sub (e_Offset e) (u64 (e_Offset e + e_Size e)) curDev;
        diff_entries parents curDev l (delta ++ [rec]) (patch ++ data)
  end.

Definition write_delta_file (path parentDir : string) (delta : list DeltaRecord) : M unit :=
  df ← Create path;
  let parent := bytes_of_string parentDir in
  fwrite df (le_enc 4 deltaMagic) ;;
  fwrite df (le_enc 4 (u32 (Z.of_nat (length delta)))) ;;
  fwrite df (le_enc 4 (u32 (Z.of_nat (length parent)))) ;;
  fwrite df parent ;;
  forM_ delta (fun d => fwrite df (delta_bytes d)).

Definition WriteDelta (fuel : nat) (dir parentDir : string) : M unit :=
  EnsureDeviceMaterialized fuel parentDir ;;
  EnsureDeviceMaterialized fuel dir ;;
  '(entries, hdr) ← ReadManifest (PathJoin [dir; "manifest.bin"]);
  '(parentEntries, _) ← ReadManifest (PathJoin [parentDir; "manifest.bin"]);
  curDev ← ReadFile (PathJoin [dir; "device.bin"]);
  '(delta, patch) ← diff_entries (parentByPtr parentEntries) (read_slice curDev) entries [] [];
  if decide (length delta = 0%nat) then mret tt
  else
    WriteFile (PathJoin [dir; "device.patch"]) patch ;;
    write_delta_file (PathJoin [dir; "delta.bin"]) parentDir delta ;;
    WriteManifestFlags (PathJoin [dir; "manifest.bin"]) entries
      (set_flag (h_Flags hdr) FlagDelta) (h_Version hdr).
End codec.
