(* ===== verification/DeltaFacts.v ===== *)
(** Compressed and delta images: what is written is what is materialized, when
    materialization ends, and when a delta does not describe its image. *)
From S2P Require Export Delta.
Local Open Scope Z_scope.

(** ** Manifests written back *)

Lemma entry_bytes_stored version e : entry_bytes version (stored version e) = entry_bytes version e.
Proof. unfold entry_bytes, stored. by case_decide. Qed.

Lemma manifest_bytes_stored es flags version :
  manifest_bytes (stored version <$> es) flags version = manifest_bytes es flags version.
Proof.
  unfold manifest_bytes, manifest_header. rewrite length_fmap, total_size_stored. f_equal.
  induction es as [|e l IH]; [done|]. cbn. by rewrite entry_bytes_stored, IH.
Qed.

(** Reading the manifest of an image, and writing it back with other flags. *)
Lemma ReadManifest_image w dir p es flags version d :
  nofault w -> image_at w dir p es flags version d ->
  ReadManifest (PathJoin [dir; "manifest.bin"]) w =
    (Ret (stored version <$> es, manifest_header es flags version), w).
Proof.
  intros Hnf [Hdn Hp Hdir Hm _ _ _].
  destruct (image_file w dir p "manifest.bin" Hdn Hp eq_refl) as [Hmn Hmp].
  by eapply ReadManifest_at.
Qed.

Lemma WriteManifest_back w dir p es version g c :
  nofault w -> dir <> "" -> at_path w dir = p -> w_fs w !! p = Some NDir ->
  w_fs w !! (p ++ ["manifest.bin"]) = Some (NFile c) ->
  WriteManifestFlags (PathJoin [dir; "manifest.bin"]) (stored version <$> es) g version w =
  (Ret tt, set_fs (<[p ++ ["manifest.bin"] := NFile (manifest_bytes es g version)]> (w_fs w)) w).
Proof. intros. rewrite <- manifest_bytes_stored. by eapply WriteManifest_image. Qed.

Lemma names_ne (p : path) x y : x <> y -> p ++ [x] <> p ++ [y].
Proof. intros Hne E%app_inv_head. congruence. Qed.

(** The entries of an image directory that are not the one being written. *)
Ltac fs_lookup :=
  cbn [w_fs set_fs];
  repeat first [ rewrite lookup_insert_eq
               | rewrite lookup_insert_ne by (first [apply path_snoc_ne' | apply names_ne; done | done]) ];
  try done.

Section compress.
Context `{ZstdLaws}.

Definition compressed_fs (p : path) (es : list Entry) (flags version : Z) (d : bytes) (fs : gmap path node) : gmap path node :=
  <[p ++ ["manifest.bin"] := NFile (manifest_bytes es (set_flag flags FlagCompressed) version)]>
    (<[p ++ [deviceZst] := NFile (EncodeAll d)]> fs).

Lemma CompressDevice_run w dir p es flags version d :
  nofault w -> image_at w dir p es flags version d -> writable (w_fs w) (p ++ [deviceZst]) ->
  CompressDevice dir w = (Ret tt, set_fs (compressed_fs p es flags version d (w_fs w)) w).
Proof using Type.
  intros Hnf Him Hw. pose proof Him as [Hdn Hp Hdir [Hmc Hwf] Hdev Hch Hsz]. unfold CompressDevice.
  erewrite bind_run by (by eapply ReadFile_image).
  erewrite bind_run by (by apply (WriteFile_image w dir p)).
  erewrite bind_run.
  2:{ eapply (ReadManifest_image _ dir p es flags version d); [done|]. split; try done; fs_lookup.
      by split; fs_lookup. }
  cbn [manifest_header h_Flags h_Version].
  erewrite (WriteManifest_back _ dir p); [|done|done|done|fs_lookup..].
  cbn [w_fs set_fs]. by rewrite set_fs_set_fs.
Qed.

Lemma DecompressDevice_run w dir p es flags version d :
  nofault w -> dir <> "" -> at_path w dir = p -> w_fs w !! p = Some NDir ->
  manifest_at w (p ++ ["manifest.bin"]) es flags version ->
  HasFlag flags FlagCompressed = true ->
  w_fs w !! (p ++ [deviceZst]) = Some (NFile (EncodeAll d)) ->
  writable (w_fs w) (p ++ ["device.bin"]) ->
  DecompressDevice dir w =
  (Ret tt, set_fs (<[p ++ ["manifest.bin"] := NFile (manifest_bytes es (clear_flag flags FlagCompressed) version)]>
             (<[p ++ ["device.bin"] := NFile d]> (w_fs w))) w).
Proof.
  intros Hnf Hdn Hp Hdir Hm Hf Hz Hw. unfold DecompressDevice.
  destruct (image_file w dir p "manifest.bin" Hdn Hp eq_refl) as [Hmn Hmp].
  rewrite (bind_run _ _ _ _ _ (ReadManifest_at _ _ _ _ _ _ Hnf Hmn Hmp Hm)).
  cbn [manifest_header h_Flags h_Version]. rewrite Hf. cbn [negb].
  erewrite bind_run by (by eapply Open_image). erewrite bind_run by (by apply fread_run).
  rewrite decode_encode. cbn [lift]. erewrite bind_run by done.
  erewrite bind_run by (by apply (WriteFile_image w dir p)).
  erewrite (WriteManifest_back _ dir p); [|done|done|done|fs_lookup..].
  - cbn [w_fs set_fs]. by rewrite set_fs_set_fs.
  - apply Hm.
Qed.
End compress.

Lemma HasFlag_set f b : b <> 0 -> HasFlag (set_flag f b) b = true.
Proof.
  intros Hb. unfold HasFlag, set_flag. apply bool_decide_eq_true_2. intros E. apply Hb.
  rewrite Z.land_lor_distr_l, Z.land_diag in E. by apply Z.lor_eq_0_iff in E as [_ ?].
Qed.

Lemma clear_set_flag f b : HasFlag f b = false -> clear_flag (set_flag f b) b = f.
Proof.
  unfold HasFlag, set_flag, clear_flag. intros E%bool_decide_eq_false. apply dec_stable in E.
  apply Z.bits_inj'. intros n Hn. rewrite Z.ldiff_spec, Z.lor_spec.
  pose proof (f_equal (fun z => Z.testbit z n) E) as En. cbn beta in En.
  rewrite Z.land_spec, Z.bits_0 in En. destruct (Z.testbit f n), (Z.testbit b n); done.
Qed.

(** C30: a compressed image decompresses to the device content it was made of,
    whatever has become of device.bin in between; the manifest keeps its entries
    and gets back its flags. *)
Theorem compress_roundtrip `{ZstdLaws} w dir p es flags version d :
  nofault w -> image_at w dir p es flags version d -> writable (w_fs w) (p ++ [deviceZst]) ->
  HasFlag flags FlagCompressed = false ->
  exists w1, CompressDevice dir w = (Ret tt, w1) /\
    w_fs w1 = compressed_fs p es flags version d (w_fs w) /\
    forall w2, nofault w2 -> w_cwd w2 = w_cwd w ->
      (forall q, q <> p ++ ["device.bin"] -> w_fs w2 !! q = w_fs w1 !! q) ->
      writable (w_fs w2) (p ++ ["device.bin"]) ->
      exists w3, DecompressDevice dir w2 = (Ret tt, w3) /\ image_at w3 dir p es flags version d.
Proof.
  intros Hnf Him Hw Hfl. eexists. split; [by eapply CompressDevice_run|]. split; [done|].
  destruct Him as [Hdn Hp Hdir [Hmc Hwf] Hdev Hch Hsz].
  intros w2 Hnf2 Hcwd Hfs Hw2. cbn [w_fs set_fs] in Hfs. unfold compressed_fs in Hfs.
  assert (Hp2 : at_path w2 dir = p) by (unfold at_path; by rewrite Hcwd).
  assert (Hd2 : w_fs w2 !! p = Some NDir) by (rewrite Hfs by apply path_snoc_ne; fs_lookup).
  eexists. split.
  - eapply DecompressDevice_run; [done|done|done|done|split| | |done].
    + rewrite Hfs by (by apply names_ne). fs_lookup.
    + apply (wf_manifest_flags _ flags); [done|]. apply set_flag_u16; [apply Hwf|done].
    + by apply HasFlag_set.
    + rewrite Hfs by (by apply names_ne). fs_lookup.
  - rewrite clear_set_flag by done. split; try done; fs_lookup. split; fs_lookup.
Qed.

(** ** Termination *)

(** The parent that the delta.bin of an image names. *)
Definition recorded_parent (w : world) (dir : string) : option string :=
  match w_fs w !! at_path w (PathJoin [dir; "delta.bin"]) with
  | Some (NFile c) => match read_delta_head c with inr ((_, p), _) => Some p | inl _ => None end
  | _ => None
  end.

(** The chain of parents from [dir] ends after at most [n] steps. *)
Inductive grounded (w : world) : nat -> string -> Prop :=
  | grounded_root n dir : recorded_parent w dir = None -> grounded w n dir
  | grounded_step n dir p : recorded_parent w dir = Some p -> grounded w n p -> grounded w (S n) dir.

Lemma grounded_faults w l n dir : grounded w n dir -> grounded (set_faults l w) n dir.
Proof. induction 1; [by apply grounded_root|by eapply grounded_step]. Qed.

Section terminating.
Context `{Zstd}.

Lemma total_lift {A} (r : goerr + A) : ends (lift r).
Proof. by destruct r. Qed.

Lemma total_sl_sub lo hi s : ends (sl_sub lo hi s).
Proof. unfold sl_sub. by destruct (in_cap lo hi s). Qed.
Lemma total_sl_copy lo hi d s : ends (sl_copy lo hi d s).
Proof. unfold sl_copy. by destruct (in_cap lo hi s). Qed.
Lemma total_fit_base t b : ends (fit_base t b).
Proof. unfold fit_base. case_decide; [by destruct (make_ok t)|]. by case_decide. Qed.

Lemma total_writeEntry f e v : ends (writeEntry f e v).
Proof. unfold writeEntry. case_decide; eauto 10 with cudackpt. Qed.
Lemma total_WriteManifestFlags s es f v : ends (WriteManifestFlags s es f v).
Proof. unfold WriteManifestFlags. eauto using total_writeEntry with cudackpt. Qed.
Lemma total_ReadManifest s : ends (ReadManifest s).
Proof. unfold ReadManifest. eauto using total_lift with cudackpt. Qed.
Lemma total_readManifestHeader s : ends (readManifestHeader s).
Proof.
  unfold readManifestHeader. do 3 (apply total_bind; [eauto using total_lift with cudackpt|intros ?]).
  by case_decide.
Qed.

Lemma total_apply_records n f pos patch base : ends (apply_records n f pos patch base).
Proof.
  revert pos base. induction n as [|n IH]; intros pos base; cbn [apply_records]; [done|].
  apply total_bind; [eauto with cudackpt|intros c].
  apply total_bind; [apply total_lift|intros [rec rest]].
  apply total_bind; [apply total_sl_sub|intros src].
  apply total_bind; [apply total_sl_copy|intros b]. apply IH.
Qed.

Lemma total_DecompressDevice dir : ends (DecompressDevice dir).
Proof.
  unfold DecompressDevice. apply total_bind; [apply total_ReadManifest|intros [es h]].
  destruct (negb _); [done|].
  apply total_bind; [eauto with cudackpt|intros f]. apply total_bind; [eauto with cudackpt|intros c].
  apply total_bind; [apply total_lift|intros o]. apply total_bind; [eauto with cudackpt|intros _].
  apply total_WriteManifestFlags.
Qed.

(** What follows the materialization of the parent ends. *)
Lemma ApplyDelta_ends ensure dir w :
  (forall p l, recorded_parent w dir = Some p -> (ensure p (set_faults l w)).1 <> Diverge) ->
  (ApplyDelta_with ensure dir w).1 <> Diverge.
Proof.
  intros He. unfold ApplyDelta_with. apply bind_ends; [apply total_attempt, total_Open|].
  intros r w1 Hr. unfold attempt in Hr.
  destruct (Open (PathJoin [dir; "delta.bin"]) w) as [[f|e| |] w1'] eqn:Ho; try done;
    injection Hr as <- <-; [|by destruct (IsNotExist e)].
  apply Open_inv in Ho as (l1 & -> & Hf).
  apply bind_ends; [apply total_fread|]. intros c w2 Hc.
  apply fread_inv in Hc as (l2 & -> & Hc). cbn [w_fs set_faults] in Hc. rewrite Hf in Hc.
  apply bind_ends; [apply total_lift|]. intros [[count p] rest] w3 Hl.
  destruct (read_delta_head c) as [e|x] eqn:Eh; [done|]. injection Hl as -> <-.
  apply bind_ends.
  { apply (He p l2). unfold recorded_parent. by rewrite Hc, Eh. }
  intros _ w4 _. apply (total_bind _ _ (total_ReadFile _)). intros base.
  apply total_bind; [apply total_ReadManifest|intros [es h]].
  apply total_bind; [apply total_fit_base|intros b].
  apply total_bind; [eauto with cudackpt|intros patch].
  apply total_bind; [apply total_apply_records|eauto with cudackpt].
Qed.

Lemma readManifestHeader_world s w h w' :
  readManifestHeader s w = (Ret h, w') -> exists l, w' = set_faults l w.
Proof.
  intros E. unfold readManifestHeader in E. apply bind_inv in E as (f & w1 & Ho & E).
  apply Open_inv in Ho as (l1 & -> & _). apply bind_inv in E as (c & w2 & Hc & E).
  apply fread_inv in Hc as (l2 & -> & _). apply bind_inv in E as (x & w3 & Hl & E).
  destruct (read_header c); [done|]. injection Hl as -> <-. exists l2.
  case_decide; [done|]. by injection E as <- <-.
Qed.
End terminating.

(** C31: materializing a device ends on every image whose chain of parents
    does, with as much fuel as the chain is long, whatever the content of the
    files and whatever fails. *)
Theorem materialize_terminates `{Zstd} w n dir fuel :
  grounded w n dir -> (n < fuel)%nat -> (EnsureDeviceMaterialized fuel dir w).1 <> Diverge.
Proof.
  revert w n dir. induction fuel as [|fuel IH]; intros w n dir Hg Hn; [lia|].
  cbn [EnsureDeviceMaterialized]. apply bind_ends; [apply total_readManifestHeader|].
  intros h w1 Hh. apply readManifestHeader_world in Hh as [l1 ->].
  apply bind_ends.
  - destruct (HasFlag (h_Flags h) FlagDelta); [|done]. apply ApplyDelta_ends.
    intros p l Hp. change (recorded_parent (set_faults l1 w) dir) with (recorded_parent w dir) in Hp.
    inversion Hg as [? ? Hnone|m ? p' Hp' Hg']; subst; [congruence|].
    assert (p' = p) as -> by congruence.
    apply (IH _ m); [|lia]. exact (grounded_faults _ l _ _ Hg').
  - intros _ w2 _. destruct (HasFlag (h_Flags h) FlagCompressed); [apply total_DecompressDevice|].
    apply (total_bind _ _ (total_attempt _ (total_Stat _))). intros [e|]; [|done].
    by destruct (IsNotExist e).
Qed.

(** It does not end on images whose parents form a cycle, an image that is
    its own parent in particular: no amount of fuel is enough. *)
Theorem materialize_cycle `{Zstd} w (D : string -> Prop) dir fuel :
  nofault w ->
  (forall x, D x -> x <> "" /\ exists es flags version p,
     manifest_at w (at_path w (PathJoin [x; "manifest.bin"])) es flags version /\
     HasFlag flags FlagDelta = true /\ recorded_parent w x = Some p /\ D p) ->
  D dir -> EnsureDeviceMaterialized fuel dir w = (Diverge, w).
Proof.
  intros Hnf HD. revert dir. induction fuel as [|fuel IH]; intros dir Hdir; [done|].
  destruct (HD dir Hdir) as (Hne & es & flags & version & p & Hm & Hfl & Hp & HDp).
  cbn [EnsureDeviceMaterialized].
  rewrite (bind_run _ _ _ _ _ (readManifestHeader_at w _ _ es flags version Hnf (Join_nonempty _ _ Hne) eq_refl Hm)).
  cbn [h_Flags manifest_header]. rewrite Hfl. apply bind_diverge.
  unfold recorded_parent in Hp. unfold ApplyDelta_with.
  destruct (w_fs w !! at_path w (PathJoin [dir; "delta.bin"])) as [[c| |]|] eqn:Hc; try done.
  destruct (read_delta_head c) as [e|[[cnt q] rest]] eqn:Eh; [done|]. injection Hp as ->.
  erewrite bind_run by (apply attempt_run; eapply Open_run; [done|by apply Join_nonempty|done|done]).
  cbv beta iota. erewrite bind_run by (by apply fread_run). rewrite Eh. cbn [lift].
  erewrite bind_run by done. cbv beta iota. apply bind_diverge. by apply IH.
Qed.

(** ** What a delta records *)

(** The loop over the entries, without the state: the changed entries, their
    records from a position of the patch on, and the patch. *)
Definition changed (parents : gmap Z Entry) (es : list Entry) : list Entry :=
  filter (fun e => unchanged parents e = false) es.

Fixpoint records (d : bytes) (po : nat) (ces : list Entry) : list DeltaRecord :=
  match ces with
  | [] => []
  | e :: l => mkDelta (e_Ptr e) (e_Size e) (e_Offset e) (Z.of_nat po) ::
                records d (po + length (chunk d e)) l
  end.

Definition patch_of (d : bytes) (ces : list Entry) : bytes := flat_map (chunk d) ces.

Lemma chunk_length d e : in_device d e -> length (chunk d e) = Z.to_nat (e_Size e).
Proof. intros (H0 & H1 & H2). unfold chunk. rewrite length_slice; lia. Qed.

Lemma sl_sub_read c lo hi w :
  0 <= lo <= hi -> hi <= Z.of_nat (length c) ->
  sl_sub lo hi (read_slice c) w = (Ret (slice (Z.to_nat lo) (Z.to_nat hi) c), w).
Proof.
  intros H1 H2. unfold sl_sub, in_cap, read_slice. cbn [sl_arr].
  rewrite bool_decide_eq_true_2 by (rewrite length_app; lia).
  unfold slice. rewrite drop_app_le by lia. rewrite take_app_le; [done|].
  rewrite length_drop. lia.
Qed.

Lemma entry_end d e :
  in_device d e -> Z.of_nat (length d) <= maxAlloc -> u64 (e_Offset e + e_Size e) = e_Offset e + e_Size e.
Proof.
  intros (H0 & H1 & H2) Hm. unfold maxAlloc in Hm. apply u64_small. unfold is_u64. lia.
Qed.

Lemma diff_entries_run parents d es delta patch w :
  Forall (in_device d) es -> Z.of_nat (length d) <= maxAlloc ->
  Z.of_nat (length patch + length (patch_of d (changed parents es))) <= maxAlloc ->
  diff_entries parents (read_slice d) es delta patch w =
  (Ret (delta ++ records d (length patch) (changed parents es), patch ++ patch_of d (changed parents es)), w).
Proof.
  intros HF Hm. revert delta patch. induction HF as [|e l He HF IH]; intros delta patch Hp.
  { cbn. by rewrite !app_nil_r. }
  cbn [diff_entries]. unfold changed in *. rewrite filter_cons in Hp |- *.
  destruct (unchanged parents e) eqn:Hu; [rewrite decide_False by done; by apply IH|].
  rewrite decide_True in Hp |- * by done. cbn [records patch_of flat_map] in *.
  fold (patch_of d (filter (fun e => unchanged parents e = false) l)) in *.
  rewrite length_app in Hp. pose proof He as (H0 & H1 & H2).
  rewrite (entry_end d e) by done.
  erewrite bind_run by (apply sl_sub_read; lia). fold (chunk d e).
  rewrite IH by (rewrite length_app; lia). rewrite length_app, <- !app_assoc. cbn [app].
  rewrite u64_small; [done|]. unfold is_u64, maxAlloc in *. lia.
Qed.

(** ** Applying the records *)

Definition patched (d : bytes) (ces : list Entry) (arr : bytes) : bytes :=
  foldl (fun b e => overwrite (Z.to_nat (e_Offset e)) (chunk d e) b) arr ces.

Lemma length_overwrite lo data b : (lo + length data <= length b)%nat -> length (overwrite lo data b) = length b.
Proof. intros H. unfold overwrite. rewrite !length_app, length_take, length_drop. lia. Qed.

Lemma lookup_overwrite lo data b i :
  (lo + length data <= length b)%nat ->
  overwrite lo data b !! i =
  if decide (lo <= i < lo + length data)%nat then data !! (i - lo)%nat else b !! i.
Proof.
  intros H. unfold overwrite. case_decide as Hi.
  - rewrite lookup_app_r by (rewrite length_take; lia). rewrite length_take_le by lia.
    apply lookup_app_l. lia.
  - destruct (decide (i < lo)%nat).
    + rewrite lookup_app_l by (rewrite length_take; lia). by rewrite lookup_take, decide_True.
    + rewrite lookup_app_r by (rewrite length_take; lia). rewrite length_take_le by lia.
      rewrite lookup_app_r by lia. rewrite lookup_drop. f_equal. lia.
Qed.

(** The entry lies within the array. *)
Definition fits (n : nat) (e : Entry) : Prop := (Z.to_nat (e_Offset e + e_Size e) <= n)%nat.

Lemma chunk_span d e n :
  in_device d e -> fits n e -> (Z.to_nat (e_Offset e) + length (chunk d e) <= n)%nat.
Proof. intros He Hf. rewrite chunk_length by done. destruct He as (? & ? & ?). unfold fits in Hf. lia. Qed.

Lemma length_patched d ces arr :
  Forall (in_device d) ces -> Forall (fits (length arr)) ces -> length (patched d ces arr) = length arr.
Proof.
  intros HF. revert arr. induction HF as [|e l He HF IH]; intros arr Hf; [done|].
  apply Forall_cons in Hf as [Hfe Hf]. unfold patched. cbn [foldl].
  assert (Hl : length (overwrite (Z.to_nat (e_Offset e)) (chunk d e) arr) = length arr)
    by (by apply length_overwrite, chunk_span).
  fold (patched d l (overwrite (Z.to_nat (e_Offset e)) (chunk d e) arr)). rewrite IH; by rewrite Hl.
Qed.

(** A byte of the patched array is the image's where a changed entry covers it,
    and the base's elsewhere. *)
Definition covers (i : nat) (e : Entry) : Prop :=
  (Z.to_nat (e_Offset e) <= i < Z.to_nat (e_Offset e + e_Size e))%nat.

#[global] Instance covers_dec i e : Decision (covers i e).
Proof. unfold covers; apply _. Defined.

Lemma lookup_chunk d e i :
  in_device d e -> covers i e -> chunk d e !! (i - Z.to_nat (e_Offset e))%nat = d !! i.
Proof.
  intros (H0 & H1 & H2) [Hi1 Hi2]. unfold chunk, slice. rewrite lookup_take, decide_True by lia.
  rewrite lookup_drop. f_equal. lia.
Qed.

Lemma lookup_patched d ces arr i :
  Forall (in_device d) ces -> Forall (fits (length arr)) ces ->
  (Exists (covers i) ces -> patched d ces arr !! i = d !! i) /\
  (~ Exists (covers i) ces -> patched d ces arr !! i = arr !! i).
Proof.
  intros HF. revert arr. induction HF as [|e l He HF IH]; intros arr Hf.
  { split; [intros H; by inversion H|done]. }
  apply Forall_cons in Hf as [Hfe Hf]. unfold patched. cbn [foldl].
  set (arr' := overwrite (Z.to_nat (e_Offset e)) (chunk d e) arr). fold (patched d l arr').
  pose proof (chunk_span d e _ He Hfe) as Hsp.
  assert (Hl : length arr' = length arr) by (by apply length_overwrite).
  destruct (IH arr') as [IH1 IH2]; [by rewrite Hl|].
  assert (Ha : arr' !! i = if decide (covers i e) then d !! i else arr !! i).
  { unfold arr'. rewrite lookup_overwrite by done. rewrite chunk_length by done.
    pose proof He as (H0 & H1 & H2). destruct (decide (covers i e)) as [Hc|Hc].
    - rewrite decide_True by (unfold covers in Hc; lia). by apply lookup_chunk.
    - rewrite decide_False; [done|]. unfold covers in Hc. lia. }
  split.
  - intros Hex. destruct (decide (Exists (covers i) l)) as [Hl'|Hl']; [by apply IH1|].
    rewrite IH2 by done. apply Exists_cons in Hex as [Hc|]; [|done]. by rewrite Ha, decide_True.
  - intros Hex. rewrite IH2 by (intros H; apply Hex; by right). rewrite Ha, decide_False; [done|].
    intros Hc. apply Hex. by left.
Qed.

Lemma length_records d po ces : length (records d po ces) = length ces.
Proof. revert po. induction ces as [|e l IH]; intros po; cbn; [done|]. by rewrite IH. Qed.

Lemma reads_delta r :
  is_u64 (d_Ptr r) -> is_u64 (d_Size r) -> is_u64 (d_DeviceOff r) -> is_u64 (d_PatchOffset r) ->
  reads read_delta (delta_bytes r) r.
Proof.
  intros H1 H2 H3 H4. destruct r as [p s o q]. unfold read_delta, delta_bytes. cbn in *.
  do 3 (eapply reads_bind; [by apply reads_u64|]).
  rewrite <- (app_nil_r (le_enc 8 q)). eapply reads_bind; [by apply reads_u64|apply reads_ret].
Qed.

Lemma length_delta_bytes r : length (delta_bytes r) = 32%nat.
Proof. unfold delta_bytes. by rewrite !length_app, !length_le_enc. Qed.

Lemma sl_copy_run lo hi src s w :
  0 <= lo <= hi -> hi <= Z.of_nat (length (sl_arr s)) ->
  sl_copy lo hi src s w = (Ret (mkSlice (overwrite (Z.to_nat lo) src (sl_arr s)) (sl_len s)), w).
Proof. intros H1 H2. unfold sl_copy, in_cap. by rewrite bool_decide_eq_true_2. Qed.

Lemma apply_records_run d f c w ces :
  nofault w -> w_fs w !! f_path f = Some (NFile c) -> Z.of_nat (length d) <= maxAlloc ->
  Forall (fun e => wf_entry e /\ in_device d e) ces ->
  forall pos pre patch base,
    drop pos c = flat_map delta_bytes (records d (length pre) ces) ->
    patch = pre ++ patch_of d ces -> Z.of_nat (length patch) <= maxAlloc ->
    Forall (fits (length (sl_arr base))) ces ->
    apply_records (length ces) f pos (read_slice patch) base w =
    (Ret (mkSlice (patched d ces (sl_arr base)) (sl_len base)), w).
Proof.
  intros Hnf Hc Hm HF. induction HF as [|e l [Hwe He] HF IH]; intros pos pre patch base Hd Hpat Hpm Hfit.
  { by destruct base. }
  apply Forall_cons in Hfit as [Hfe Hfit]. pose proof He as (H0 & H1 & H2).
  pose proof (chunk_length d e He) as Hcl.
  assert (Hpl : length patch = (length pre + (length (chunk d e) + length (patch_of d l)))%nat)
    by (rewrite Hpat; cbn [patch_of flat_map]; by rewrite !length_app).
  unfold maxAlloc in *. cbn [length apply_records records flat_map] in *.
  erewrite bind_run by (by apply fread_run). rewrite Hd.
  set (r := mkDelta _ _ _ _).
  assert (Hr : reads read_delta (delta_bytes r) r).
  { apply reads_delta; try apply Hwe. unfold r. cbn. unfold is_u64. lia. }
  rewrite Hr. cbn [lift]. erewrite bind_run by done. cbv beta iota.
  unfold r at 1 2 3 4 5 6. cbn [d_PatchOffset d_Size d_DeviceOff].
  rewrite (u64_small (Z.of_nat (length pre) + e_Size e)) by (unfold is_u64; lia).
  erewrite bind_run by (apply sl_sub_read; lia).
  assert (Hsrc : slice (Z.to_nat (Z.of_nat (length pre))) (Z.to_nat (Z.of_nat (length pre) + e_Size e)) patch = chunk d e).
  { rewrite Hpat, Nat2Z.id. apply slice_app_mid; [done|]. rewrite Hcl. lia. }
  rewrite Hsrc, (entry_end d e) by (unfold maxAlloc; done).
  erewrite bind_run by (apply sl_copy_run; [lia|unfold fits in Hfe; lia]).
  assert (Hdr : drop (pos + 32) c = flat_map delta_bytes (records d (length pre + length (chunk d e)) l)).
  { rewrite <- drop_drop, Hd. apply drop_app_exact. apply length_delta_bytes. }
  rewrite (IH (pos + 32)%nat (pre ++ chunk d e) patch).
  - done.
  - by rewrite length_app.
  - rewrite Hpat, <- app_assoc. done.
  - done.
  - cbn [sl_arr]. by rewrite length_overwrite by by apply chunk_span.
Qed.

(** ** The extent of an image *)

Lemma entries_total_spec d es :
  Forall (in_device d) es -> Z.of_nat (length d) <= maxAlloc ->
  0 <= entries_total es <= Z.of_nat (length d) /\ Forall (fits (Z.to_nat (entries_total es))) es.
Proof.
  intros HF Hm. unfold entries_total.
  enough (H : forall acc, 0 <= acc <= Z.of_nat (length d) ->
    acc <= foldl total_step acc es <= Z.of_nat (length d) /\
    Forall (fits (Z.to_nat (foldl total_step acc es))) es) by (exact (H 0 (conj (Z.le_refl 0) (Nat2Z.is_nonneg _)))).
  induction HF as [|e l He HF IH]; intros acc Hacc; [split; [cbn; lia|constructor]|].
  cbn [foldl]. pose proof He as (H0 & H1 & H2).
  set (acc' := total_step acc e).
  assert (Ha : acc <= acc' /\ e_Offset e + e_Size e <= acc' /\ acc' <= Z.of_nat (length d))
    by (unfold acc', total_step; rewrite (entry_end d e) by done; case_decide; lia).
  destruct (IH acc') as [[I1 I2] I3]; [lia|]. split; [lia|]. constructor; [unfold fits; lia|done].
Qed.

Lemma fit_base_run total pd w :
  0 <= total <= maxAlloc ->
  exists b, fit_base total (read_slice pd) w = (Ret b, w) /\ sl_len b = Z.to_nat total /\
    (Z.to_nat total <= length (sl_arr b))%nat /\
    forall i, (i < Z.to_nat total)%nat -> (i < length pd)%nat -> sl_arr b !! i = pd !! i.
Proof.
  intros Ht. unfold fit_base. cbn [sl_len sl_arr read_slice]. case_decide as H1; [|case_decide as H2].
  - unfold make_ok. rewrite bool_decide_eq_true_2 by done. eexists. split; [done|].
    cbn [sl_len sl_arr]. unfold sl_bytes. cbn [sl_len sl_arr read_slice].
    rewrite take_app_length. split_and!; [done| |].
    + rewrite length_app, length_replicate. lia.
    + intros i Hi1 Hi2. by apply lookup_app_l.
  - eexists. split; [done|]. cbn [sl_len sl_arr read_slice]. split_and!; [done|rewrite length_app; lia|].
    intros i Hi1 Hi2. by apply lookup_app_l.
  - eexists. split; [done|]. cbn [sl_len sl_arr read_slice]. split_and!; [lia|rewrite length_app; lia|].
    intros i Hi1 Hi2. by apply lookup_app_l.
Qed.

(** ** Whole runs *)

Definition plain (flags : Z) : Prop :=
  HasFlag flags FlagDelta = false /\ HasFlag flags FlagCompressed = false.

Definition delta_file (parentDir : string) (recs : list DeltaRecord) : bytes :=
  le_enc 4 deltaMagic ++ le_enc 4 (Z.of_nat (length recs)) ++
  le_enc 4 (Z.of_nat (length (bytes_of_string parentDir))) ++ bytes_of_string parentDir ++
  flat_map delta_bytes recs.

Lemma bytes_of_string_nonempty s : s <> "" -> bytes_of_string s <> [].
Proof. intros Hs E. apply Hs. apply bytes_of_string_inj. by rewrite E. Qed.

Lemma read_delta_head_file parentDir recs :
  parentDir <> "" -> is_u32 (Z.of_nat (length recs)) ->
  is_u32 (Z.of_nat (length (bytes_of_string parentDir))) ->
  read_delta_head (delta_file parentDir recs) =
  inr ((Z.of_nat (length recs), parentDir), flat_map delta_bytes recs).
Proof.
  intros Hp Hc Hl. unfold read_delta_head, delta_file, mbind, reader_bind.
  rewrite reads_u32 by done. rewrite decide_False by tauto.
  rewrite reads_u32 by done. rewrite reads_u32 by done. rewrite Nat2Z.id.
  pose proof (bytes_of_string_nonempty _ Hp) as Hne.
  unfold read_some. rewrite decide_False by (by destruct (bytes_of_string parentDir)).
  destruct (bytes_of_string parentDir ++ flat_map delta_bytes recs) as [|b k] eqn:E.
  { by apply app_eq_nil in E as [? _]. }
  rewrite <- E. rewrite take_app_length, drop_app_length.
  replace (length (bytes_of_string parentDir) - _)%nat with 0%nat by (rewrite length_app; lia).
  cbn [replicate]. rewrite app_nil_r. by rewrite string_of_bytes_of_string.
Qed.

Section delta.
Context `{Zstd}.

(** A plain image is materialized already. *)
Lemma ensure_plain fuel w dir p es flags version d :
  nofault w -> image_at w dir p es flags version d -> plain flags ->
  EnsureDeviceMaterialized (S fuel) dir w = (Ret tt, w).
Proof using Type.
  intros Hnf [Hdn Hp Hdir Hm Hdev Hch Hsz] [Hf1 Hf2]. cbn [EnsureDeviceMaterialized].
  destruct (image_file w dir p "manifest.bin" Hdn Hp eq_refl) as [Hmn Hmp].
  rewrite (bind_run _ _ _ _ _ (readManifestHeader_at _ _ _ _ _ _ Hnf Hmn Hmp Hm)).
  cbn [h_Flags manifest_header]. rewrite Hf1, Hf2. erewrite bind_run by done.
  destruct (image_file w dir p "device.bin" Hdn Hp eq_refl) as [Hbn Hbp].
  erewrite bind_run by (apply attempt_run; eapply Stat_run; [done|done|by rewrite Hbp]). done.
Qed.

Lemma write_delta_file_run w dir p parentDir recs :
  nofault w -> dir <> "" -> at_path w dir = p -> w_fs w !! p = Some NDir ->
  writable (w_fs w) (p ++ ["delta.bin"]) -> is_u32 (Z.of_nat (length recs)) ->
  is_u32 (Z.of_nat (length (bytes_of_string parentDir))) ->
  write_delta_file (PathJoin [dir; "delta.bin"]) parentDir recs w =
  (Ret tt, set_fs (<[p ++ ["delta.bin"] := NFile (delta_file parentDir recs)]> (w_fs w)) w).
Proof using Type.
  intros Hnf Hdn Hp Hdir Hw Hc Hl. unfold write_delta_file.
  erewrite bind_run by (by apply (Create_image w dir p)). cbv zeta.
  do 4 fwrite_step. erewrite fwrite_each by (first [done|apply lookup_insert_eq]).
  cbn [w_fs set_fs f_path]. rewrite !insert_insert_eq, !set_fs_set_fs, !u32_small by done.
  unfold delta_file. by rewrite <- !app_assoc.
Qed.

(** Applying the delta of an image to a plain parent. *)
Lemma ApplyDelta_run fuel w dir p parentDir pp es flags version d pes pflags pv pd parents :
  let ces := changed parents es in
  nofault w -> dir <> "" -> at_path w dir = p -> w_fs w !! p = Some NDir ->
  manifest_at w (p ++ ["manifest.bin"]) es flags version ->
  Forall (in_device d) es -> Z.of_nat (length d) <= maxAlloc ->
  w_fs w !! (p ++ ["delta.bin"]) = Some (NFile (delta_file parentDir (records d 0 ces))) ->
  w_fs w !! (p ++ ["device.patch"]) = Some (NFile (patch_of d ces)) ->
  Z.of_nat (length (patch_of d ces)) <= maxAlloc ->
  is_u32 (Z.of_nat (length (bytes_of_string parentDir))) ->
  image_at w parentDir pp pes pflags pv pd -> plain pflags ->
  writable (w_fs w) (p ++ ["device.bin"]) ->
  exists out, ApplyDelta (S fuel) dir w =
      (Ret tt, set_fs (<[p ++ ["device.bin"] := NFile out]> (w_fs w)) w) /\
    length out = Z.to_nat (entries_total es) /\
    forall i, (i < length out)%nat ->
      (Exists (covers i) ces -> out !! i = d !! i) /\
      (~ Exists (covers i) ces -> (i < length pd)%nat -> out !! i = pd !! i).
Proof using Type.
  intros ces Hnf Hdn Hp Hdir Hm Hch Hsz Hdel Hpat Hpsz Hpl Him Hplain Hw.
  pose proof (wfm_entries _ _ _ (proj2 Hm)) as Hwe. pose proof (wfm_count _ _ _ (proj2 Hm)) as Hcnt.
  assert (Hces : Forall (fun e => wf_entry e /\ in_device d e) ces).
  { apply Forall_forall. intros e He. apply list_elem_of_filter in He as [_ He].
    rewrite Forall_forall in Hwe, Hch. auto. }
  assert (Hlen : (length ces <= length es)%nat) by apply length_filter.
  destruct (entries_total_spec d es Hch Hsz) as [Ht Hfits].
  destruct (fit_base_run (entries_total es) pd w) as (b & Hb & Hbl & Hba & Hbp); [lia|].
  assert (Hfit : Forall (fits (length (sl_arr b))) ces).
  { apply Forall_forall. intros e He. apply list_elem_of_filter in He as [_ He].
    rewrite Forall_forall in Hfits. specialize (Hfits e He). unfold fits in *. lia. }
  pose proof Him as [Hqn Hq _ _ Hqdev _ _].
  unfold ApplyDelta, ApplyDelta_with.
  erewrite bind_run by (apply attempt_run; by eapply Open_image). cbv beta iota.
  erewrite bind_run by (by apply fread_run).
  rewrite read_delta_head_file; [|done|rewrite length_records; unfold is_u32 in *; lia|done].
  cbn [lift]. erewrite bind_run by done. cbv beta iota.
  rewrite (bind_run _ _ _ _ _ (ensure_plain fuel _ _ _ _ _ _ _ Hnf Him Hplain)).
  erewrite bind_run by (by eapply ReadFile_image).
  destruct (image_file w dir p "manifest.bin" Hdn Hp eq_refl) as [Hmn Hmp].
  rewrite (bind_run _ _ _ _ _ (ReadManifest_at _ _ _ _ _ _ Hnf Hmn Hmp Hm)). cbv beta iota.
  replace (entries_total (stored version <$> es)) with (entries_total es).
  2:{ unfold entries_total. generalize 0. clear. induction es as [|e l IH]; intros t; [done|].
      rewrite fmap_cons. cbn [foldl]. rewrite <- IH. f_equal. unfold stored. by destruct (decide (version >= VersionV2)). }
  rewrite (bind_run _ _ _ _ _ Hb).
  erewrite bind_run by (by eapply ReadFile_image).
  rewrite Nat2Z.id, length_records.
  erewrite bind_run.
  2:{ apply (apply_records_run d _ (delta_file parentDir (records d 0 ces)) w ces) with (pre := []);
        [done|done|done|done| |done|done|done].
      unfold delta_file. rewrite !app_assoc. apply drop_app_exact. rewrite !length_app. lia. }
  erewrite (WriteFile_image w dir p) by done. eexists. split; [done|].
  unfold sl_bytes. cbn [sl_arr sl_len].
  assert (Hl : length (patched d ces (sl_arr b)) = length (sl_arr b)).
  { apply length_patched; [|done]. eapply Forall_impl; [exact Hces|]. by intros e [_ ?]. }
  rewrite length_take, Hl, Hbl. split; [lia|]. intros i Hi.
  assert (HF : Forall (in_device d) ces) by (eapply Forall_impl; [exact Hces|]; by intros e [_ ?]).
  destruct (lookup_patched d ces (sl_arr b) i HF Hfit) as [L1 L2].
  rewrite lookup_take, decide_True by lia. split; [done|]. intros Hn Hip. rewrite L2 by done.
  apply Hbp; lia.
Qed.
End delta.

Lemma chunk_stored d version e : chunk d (stored version e) = chunk d e.
Proof. unfold chunk, stored. by case_decide. Qed.

Lemma changed_stored parents version es :
  changed parents (stored version <$> es) = stored version <$> changed parents es.
Proof.
  unfold changed. induction es as [|e l IH]; [done|]. rewrite fmap_cons, !filter_cons.
  replace (unchanged parents (stored version e)) with (unchanged parents e)
    by (unfold unchanged, stored; by case_decide).
  case_decide; [rewrite fmap_cons; by f_equal|done].
Qed.

Lemma records_stored d po version ces : records d po (stored version <$> ces) = records d po ces.
Proof.
  revert po. induction ces as [|e l IH]; intros po; [done|]. rewrite fmap_cons. cbn [records].
  rewrite IH, chunk_stored. f_equal. unfold stored. by case_decide.
Qed.

Lemma patch_of_stored d version ces : patch_of d (stored version <$> ces) = patch_of d ces.
Proof.
  induction ces as [|e l IH]; [done|]. rewrite fmap_cons. unfold patch_of in *. cbn [flat_map].
  by rewrite IH, chunk_stored.
Qed.

(** The three files a delta is made of. *)
Definition delta_fs (p : path) (es : list Entry) (flags version : Z) (parentDir : string)
    (d : bytes) (ces : list Entry) (fs : gmap path node) : gmap path node :=
  <[p ++ ["manifest.bin"] := NFile (manifest_bytes es (set_flag flags FlagDelta) version)]>
    (<[p ++ ["delta.bin"] := NFile (delta_file parentDir (records d 0 ces))]>
      (<[p ++ ["device.patch"] := NFile (patch_of d ces)]> fs)).

Section write_delta.
Context `{Zstd}.

Lemma WriteDelta_run fuel w dir p parentDir pp es flags version d pes pflags pv pd :
  let ces := changed (parentByPtr (stored pv <$> pes)) es in
  nofault w -> image_at w dir p es flags version d -> plain flags ->
  image_at w parentDir pp pes pflags pv pd -> plain pflags ->
  writable (w_fs w) (p ++ ["device.patch"]) -> writable (w_fs w) (p ++ ["delta.bin"]) ->
  Z.of_nat (length (patch_of d ces)) <= maxAlloc ->
  is_u32 (Z.of_nat (length (bytes_of_string parentDir))) ->
  WriteDelta (S fuel) dir parentDir w =
  (Ret tt, if decide (ces = []) then w
           else set_fs (delta_fs p es flags version parentDir d ces (w_fs w)) w).
Proof using Type.
  intros ces Hnf Him Hpl Himp Hplp Hw1 Hw2 Hpsz Hpn. unfold WriteDelta.
  rewrite (bind_run _ _ _ _ _ (ensure_plain fuel _ _ _ _ _ _ _ Hnf Himp Hplp)).
  rewrite (bind_run _ _ _ _ _ (ensure_plain fuel _ _ _ _ _ _ _ Hnf Him Hpl)).
  rewrite (bind_run _ _ _ _ _ (ReadManifest_image _ _ _ _ _ _ _ Hnf Him)). cbv beta iota.
  rewrite (bind_run _ _ _ _ _ (ReadManifest_image _ _ _ _ _ _ _ Hnf Himp)). cbv beta iota.
  destruct Him as [Hdn Hp Hdir [Hmc Hwf] Hdev Hch Hsz].
  erewrite bind_run by (by eapply ReadFile_image).
  erewrite bind_run.
  2:{ apply (diff_entries_run _ d); [by apply in_device_stored|done|].
      rewrite changed_stored, patch_of_stored. exact Hpsz. }
  rewrite changed_stored, records_stored, patch_of_stored. fold ces. cbn [app length].
  rewrite length_records. cbn [h_Flags h_Version manifest_header].
  destruct (decide (ces = [])) as [E|E]; [by rewrite decide_True by (by rewrite E)|].
  rewrite decide_False by (by destruct ces).
  erewrite bind_run by (by apply (WriteFile_image w dir p)).
  assert (Hcl : is_u32 (Z.of_nat (length (records d 0 ces)))).
  { rewrite length_records. pose proof (length_filter (fun e => unchanged (parentByPtr (stored pv <$> pes)) e = false) es) as Hl.
    fold (changed (parentByPtr (stored pv <$> pes)) es) in Hl. fold ces in Hl.
    pose proof (wfm_count _ _ _ Hwf). unfold is_u32 in *. lia. }
  erewrite bind_run.
  2:{ apply (write_delta_file_run _ dir p); [done|done|done|fs_lookup| |done|done].
      unfold writable. fs_lookup. }
  erewrite (WriteManifest_back _ dir p); [|done|done|done|fs_lookup..].
  cbn [w_fs set_fs]. by rewrite !set_fs_set_fs.
Qed.
End write_delta.

Lemma lookup_slice lo hi (l : bytes) i :
  slice lo hi l !! i = if decide (i < hi - lo)%nat then l !! (lo + i)%nat else None.
Proof. unfold slice. rewrite lookup_take, lookup_drop. done. Qed.

Lemma chunk_ext a b e :
  (forall i, covers i e -> a !! i = b !! i) -> chunk a e = chunk b e.
Proof.
  intros H. apply list_eq. intros i. unfold chunk. rewrite !lookup_slice.
  case_decide as Hi; [|done]. apply H. unfold covers. lia.
Qed.

Lemma chunk_agree pd d e i :
  in_device d e -> chunk pd e = chunk d e -> covers i e -> (i < length pd)%nat /\ pd !! i = d !! i.
Proof.
  intros He E Hi. pose proof He as (H0 & H1 & H2).
  apply (f_equal (fun l => l !! (i - Z.to_nat (e_Offset e))%nat)) in E.
  unfold chunk in E. rewrite !lookup_slice in E. destruct Hi as [Hi1 Hi2].
  rewrite !decide_True in E by lia.
  replace (Z.to_nat (e_Offset e) + (i - Z.to_nat (e_Offset e)))%nat with i in E by lia.
  split; [|done]. apply lookup_lt_is_Some. rewrite E. apply lookup_lt_is_Some. lia.
Qed.

(** The entries the delta takes from the parent are at the same place in it. *)
Definition aligned (parents : gmap Z Entry) (d pd : bytes) (es : list Entry) : Prop :=
  forall e, e ∈ es -> unchanged parents e = true -> chunk pd e = chunk d e.

Lemma patched_chunks parents d pd es out :
  Forall (in_device d) es -> aligned parents d pd es ->
  Forall (fits (length out)) es ->
  (forall i, (i < length out)%nat ->
     (Exists (covers i) (changed parents es) -> out !! i = d !! i) /\
     (~ Exists (covers i) (changed parents es) -> (i < length pd)%nat -> out !! i = pd !! i)) ->
  Forall (fun e => chunk out e = chunk d e) es.
Proof.
  intros HF Hal Hfit Hout. apply Forall_forall. intros e He.
  rewrite Forall_forall in HF, Hfit. pose proof (HF e He) as Hin. pose proof (Hfit e He) as Hf.
  apply chunk_ext. intros i Hi.
  assert (Hl : (i < length out)%nat) by (unfold covers, fits in *; lia).
  destruct (Hout i Hl) as [H1 H2].
  destruct (decide (Exists (covers i) (changed parents es))) as [Hx|Hx]; [by apply H1|].
  destruct (unchanged parents e) eqn:Hu.
  - destruct (chunk_agree pd d e i Hin (Hal e He Hu) Hi) as [Hp E]. by rewrite H2.
  - destruct Hx. apply Exists_exists. exists e. split; [|done]. by apply list_elem_of_filter.
Qed.

Lemma HasFlag_set_other f c b : HasFlag f b = false -> Z.land c b = 0 -> HasFlag (set_flag f c) b = false.
Proof.
  unfold HasFlag, set_flag. intros E%bool_decide_eq_false Hc. apply dec_stable in E.
  apply bool_decide_eq_false_2. intros Hx. apply Hx. by rewrite Z.land_lor_distr_l, E, Hc.
Qed.

(** The parent is still there after the delta is written, and whatever becomes
    of the image's device.bin. *)
Lemma parent_survives w w2 p pp parentDir pes pflags pv pd es flags version d ces :
  image_at w parentDir pp pes pflags pv pd -> p <> pp ->
  w_fs w !! p = Some NDir -> writable (w_fs w) (p ++ ["device.bin"]) ->
  writable (w_fs w) (p ++ ["manifest.bin"]) ->
  writable (w_fs w) (p ++ ["device.patch"]) -> writable (w_fs w) (p ++ ["delta.bin"]) ->
  w_cwd w2 = w_cwd w ->
  (forall q, q <> p ++ ["device.bin"] ->
     w_fs w2 !! q = delta_fs p es flags version parentDir d ces (w_fs w) !! q) ->
  image_at w2 parentDir pp pes pflags pv pd.
Proof.
  intros [Jn Jp Jd [Jm Jwf] Jb Jc Js] Hne Hd Hw0 Hwm Hw1 Hw2 Hcwd Hfs.
  assert (Hsame : forall q, (forall x, q <> p ++ [x] \/ ~ writable (w_fs w) (p ++ [x])) ->
    w_fs w2 !! q = w_fs w !! q).
  { intros q Hq. rewrite Hfs by (destruct (Hq "device.bin"); [done|tauto]). unfold delta_fs.
    rewrite !lookup_insert_ne; [done|..]; intros E.
    - destruct (Hq "device.patch"); [by subst|tauto].
    - destruct (Hq "delta.bin"); [by subst|tauto].
    - destruct (Hq "manifest.bin"); [by subst|tauto]. }
  assert (Hin : forall x y, pp ++ [x] <> p ++ [y]) by (intros x y [E _]%app_inj_tail; by apply Hne).
  split; try done.
  - unfold at_path. by rewrite Hcwd.
  - rewrite Hsame; [done|]. intros x. destruct (decide (pp = p ++ [x])) as [->|]; [right|by left].
    by intros [? _].
  - split; [|done]. rewrite Hsame; [done|]. intros x. left. apply Hin.
  - rewrite Hsame; [done|]. intros x. left. apply Hin.
Qed.

(** C5: an image written as a delta to a parent is materialized, later and
    whatever has become of its device.bin, with the content of every entry as it
    was, when the entries the delta leaves to the parent are at the same place
    in it (see the next property for the entries that moved); an image with no
    changed entry is left as it is. *)
Theorem delta_roundtrip `{Zstd} fuel w dir p parentDir pp es flags version d pes pflags pv pd :
  let parents := parentByPtr (stored pv <$> pes) in
  nofault w -> image_at w dir p es flags version d -> plain flags ->
  image_at w parentDir pp pes pflags pv pd -> plain pflags -> p <> pp ->
  writable (w_fs w) (p ++ ["device.patch"]) -> writable (w_fs w) (p ++ ["delta.bin"]) ->
  Z.of_nat (length (patch_of d (changed parents es))) <= maxAlloc ->
  is_u32 (Z.of_nat (length (bytes_of_string parentDir))) ->
  aligned parents d pd es ->
  exists w1, WriteDelta (S fuel) dir parentDir w = (Ret tt, w1) /\
    (changed parents es = [] -> w1 = w) /\
    (changed parents es <> [] ->
     forall w2, nofault w2 -> w_cwd w2 = w_cwd w ->
      (forall q, q <> p ++ ["device.bin"] -> w_fs w2 !! q = w_fs w1 !! q) ->
      writable (w_fs w2) (p ++ ["device.bin"]) ->
      exists out, EnsureDeviceMaterialized (S (S fuel)) dir w2 =
          (Ret tt, set_fs (<[p ++ ["device.bin"] := NFile out]> (w_fs w2)) w2) /\
        Forall (fun e => chunk out e = chunk d e) es).
Proof.
  intros parents Hnf Him Hpl Himp Hplp Hne Hw1 Hw2 Hpsz Hpn Hal.
  eexists. split; [by eapply WriteDelta_run|]. fold parents. split; intros Hch.
  { by rewrite decide_True. }
  rewrite decide_False by done. set (ces := changed parents es) in *.
  intros w2 Hnf2 Hcwd Hfs Hw2'. cbn [w_fs set_fs] in Hfs. unfold delta_fs in Hfs.
  destruct Him as [Hdn Hp Hdir [Hmc Hwf] Hdev Hcs Hsz].
  assert (Hp2 : at_path w2 dir = p) by (unfold at_path; by rewrite Hcwd).
  assert (Hd2 : w_fs w2 !! p = Some NDir) by (rewrite Hfs by apply path_snoc_ne; fs_lookup).
  assert (Hm2 : manifest_at w2 (p ++ ["manifest.bin"]) es (set_flag flags FlagDelta) version).
  { split; [rewrite Hfs by (by apply names_ne); fs_lookup|].
    apply (wf_manifest_flags _ flags); [done|]. apply set_flag_u16; [apply Hwf|done]. }
  assert (Himp2 : image_at w2 parentDir pp pes pflags pv pd).
  { eapply parent_survives; try done; by eapply file_writable. }
  destruct (ApplyDelta_run fuel w2 dir p parentDir pp es (set_flag flags FlagDelta) version d pes pflags pv pd parents)
    as (out & Hrun & Hlen & Hout); try done.
  { rewrite Hfs by (by apply names_ne). fs_lookup. }
  { rewrite Hfs by (by apply names_ne). fs_lookup. }
  destruct (entries_total_spec d es Hcs Hsz) as [Ht Hfits].
  exists out. split; [|by apply (patched_chunks parents d pd); [| |rewrite Hlen|]].
  cbn [EnsureDeviceMaterialized].
  destruct (image_file w2 dir p "manifest.bin" Hdn Hp2 eq_refl) as [Hmn Hmp].
  rewrite (bind_run _ _ _ _ _ (readManifestHeader_at _ _ _ _ _ _ Hnf2 Hmn Hmp Hm2)).
  cbn [h_Flags manifest_header]. rewrite HasFlag_set by done.
  fold (ApplyDelta (S fuel) dir). rewrite (bind_run _ _ _ _ _ Hrun).
  rewrite HasFlag_set_other by (done || apply Hpl).
  destruct (image_file w2 dir p "device.bin" Hdn Hp2 eq_refl) as [Hbn Hbp].
  set (w3 := set_fs _ w2).
  assert (Hst : Stat (PathJoin [dir; "device.bin"]) w3 = (Ret (NFile out), w3)).
  { apply (Stat_run w3 Hnf2); [done|]. change (at_path w3) with (at_path w2). rewrite Hbp.
    apply lookup_insert_eq. }
  by rewrite (bind_run _ _ _ _ _ (attempt_run _ _ _ _ Hst)).
Qed.

(** ** Concrete runs *)

(** A codec that satisfies the laws: a frame marker in front of the data. *)
Definition frame_zstd : Zstd := {|
  EncodeAll d := Byte.x28 :: d;
  DecodeAll c := match c with Byte.x28 :: d => inr d | _ => inl (EText "magic number mismatch") end;
|}.

Lemma frame_zstd_laws : @ZstdLaws frame_zstd.
Proof. done. Qed.

Definition four (b : byte) : bytes := [b; b; b; b].
Definition no_hash : bytes := replicate 32 Byte.x00.

(** An entry of four equal bytes, with its checksum. *)
Definition four_entry (ptr off : Z) (b : byte) : Entry := mkEntry ptr 4 off (CRC32C (four b)) 1 no_hash.

(** The parent has the allocations 1 and 2; the image has freed 1, moved the
    chunk of 2 to its place, and has a new allocation 3. *)
Definition moved_parent : list Entry := [four_entry 1 0 Byte.x61; four_entry 2 4 Byte.x62].
Definition moved_image : list Entry := [four_entry 2 0 Byte.x62; four_entry 3 4 Byte.x63].

Definition two_images (es pes : list Entry) (d pd : bytes) : world :=
  set_fs (list_to_map
    [([], NDir); (["img"], NDir); (["parent"], NDir);
     (["img"; "manifest.bin"], NFile (manifest_bytes es 0 2)); (["img"; "device.bin"], NFile d);
     (["parent"; "manifest.bin"], NFile (manifest_bytes pes 0 2)); (["parent"; "device.bin"], NFile pd)])
    demo_world.

(** The comparison with the parent ignores where an entry's bytes are. When
    an unchanged allocation has moved in the device file, the delta leaves it
    out, and materializing the image (its device.bin still intact) puts the
    parent's bytes of the old place there: the chunk then fails its checksum,
    and every step reports success. *)
Theorem delta_moved_entries `{Zstd} :
  let d := four Byte.x62 ++ four Byte.x63 in
  let w := two_images moved_image moved_parent d (four Byte.x61 ++ four Byte.x62) in
  let r1 := WriteDelta 1 "/img" "/parent" w in
  let r2 := EnsureDeviceMaterialized 2 "/img" r1.2 in
  let out := four Byte.x61 ++ four Byte.x63 in
  r1.1 = Ret tt /\ r2.1 = Ret tt /\
  w_fs r1.2 !! ["img"; "device.bin"] = Some (NFile d) /\
  w_fs r2.2 !! ["img"; "device.bin"] = Some (NFile out) /\
  Forall (fun e => CRC32C (chunk d e) = e_CRC32C e) moved_image /\
  ~ Forall (fun e => CRC32C (chunk out e) = e_CRC32C e) moved_image.
Proof.
  split_and!; [by vm_compute|by vm_compute|by vm_compute|by vm_compute| |].
  - repeat constructor.
  - intros HF. apply Forall_inv in HF. by vm_compute in HF.
Qed.

Lemma compress_roundtrip_witness :
  let H := frame_zstd in
  let w := demo_image demo_entries 0 demo_device in
  exists w1, CompressDevice "/img" w = (Ret tt, w1) /\
    exists w3, DecompressDevice "/img" (set_fs (delete ["img"; "device.bin"] (w_fs w1)) w) = (Ret tt, w3) /\
      image_at w3 "/img" ["img"] demo_entries 0 2 demo_device.
Proof.
  intros H w.
  destruct (@compress_roundtrip frame_zstd frame_zstd_laws w "/img" ["img"] demo_entries 0 2 demo_device)
    as (w1 & H1 & _ & H2).
  - done.
  - apply demo_image_at; [by apply demo_entries_wf|apply demo_entries_in|done].
  - split; by vm_compute.
  - done.
  - exists w1. split; [exact H1|]. apply H2; [done|done| |].
    2:{ exact (none_writable _ _ (lookup_delete_eq (w_fs w1) ["img"; "device.bin"])). }
    intros q Hq. cbn [w_fs set_fs]. by rewrite lookup_delete_ne by (intros <-; by apply Hq).
Defined.

Definition chain_images : world :=
  set_fs (list_to_map
    [([], NDir); (["a"], NDir); (["b"], NDir);
     (["a"; "manifest.bin"], NFile (manifest_bytes [] FlagDelta 2));
     (["a"; "delta.bin"], NFile (delta_file "/b" []));
     (["b"; "manifest.bin"], NFile (manifest_bytes [] FlagDelta 2));
     (["b"; "delta.bin"], NFile (delta_file "/b" []))])
    demo_world.

Lemma materialize_terminates_witness :
  let H := frame_zstd in
  let w := set_fs (delete ["b"; "delta.bin"] (w_fs chain_images)) chain_images in
  (EnsureDeviceMaterialized 2 "/a" w).1 <> Diverge.
Proof.
  intros H w. apply (materialize_terminates w 1 "/a" 2); [|lia].
  apply (grounded_step w 0 "/a" "/b"); [by vm_compute|]. apply grounded_root. by vm_compute.
Defined.

(** [/b] is its own parent. *)
Lemma materialize_cycle_witness :
  let H := frame_zstd in
  EnsureDeviceMaterialized 1000 "/a" chain_images = (Diverge, chain_images).
Proof.
  intros H. apply (materialize_cycle chain_images (fun x => x = "/a" \/ x = "/b") "/a" 1000);
    [done| |by left].
  assert (Hm : forall x, x = "/a" \/ x = "/b" ->
    manifest_at chain_images (at_path chain_images (PathJoin [x; "manifest.bin"])) [] FlagDelta 2).
  { intros x [-> | ->]; (split; [by vm_compute|]); split; by repeat constructor. }
  intros x Hx. split; [by destruct Hx as [-> | ->]|].
  exists [], FlagDelta, 2, "/b". split; [by apply Hm|]. split; [done|].
  split; [by destruct Hx as [-> | ->]; vm_compute|by right].
Defined.

Lemma two_images_img es pes d pd :
  wf_manifest es 0 2 -> Forall (in_device d) es -> Z.of_nat (length d) <= maxAlloc ->
  image_at (two_images es pes d pd) "/img" ["img"] es 0 2 d.
Proof. intros. by split. Qed.

Lemma two_images_parent es pes d pd :
  wf_manifest pes 0 2 -> Forall (in_device pd) pes -> Z.of_nat (length pd) <= maxAlloc ->
  image_at (two_images es pes d pd) "/parent" ["parent"] pes 0 2 pd.
Proof. intros. by split. Qed.

Lemma delta_roundtrip_witness :
  let H := frame_zstd in
  let es := [four_entry 1 0 Byte.x61; four_entry 2 4 Byte.x63] in
  let d := four Byte.x61 ++ four Byte.x63 in
  let w := two_images es moved_parent d (four Byte.x61 ++ four Byte.x62) in
  exists w1, WriteDelta 1 "/img" "/parent" w = (Ret tt, w1) /\
    let w2 := set_fs (delete ["img"; "device.bin"] (w_fs w1)) w in
    exists out, EnsureDeviceMaterialized 2 "/img" w2 =
        (Ret tt, set_fs (<[["img"; "device.bin"] := NFile out]> (w_fs w2)) w2) /\
      Forall (fun e => chunk out e = chunk d e) es.
Proof.
  intros H es d w.
  assert (Hi : forall p, Forall wf_entry p -> Z.of_nat (length p) = 2 -> wf_manifest p 0 2).
  { intros p HF Hl. split; [done|by rewrite Hl|done|done]. }
  destruct (delta_roundtrip 0 w "/img" ["img"] "/parent" ["parent"] es 0 2 d moved_parent 0 2
    (four Byte.x61 ++ four Byte.x62)) as (w1 & H1 & _ & H2).
  - done.
  - apply two_images_img; [apply Hi; [|done]| |by vm_compute]; repeat constructor; by vm_compute.
  - by split.
  - apply two_images_parent; [apply Hi; [|done]| |by vm_compute]; repeat constructor; by vm_compute.
  - by split.
  - done.
  - split; by vm_compute.
  - split; by vm_compute.
  - by vm_compute.
  - by vm_compute.
  - intros e He%list_elem_of_In Hu. destruct He as [<-|[<-|[]]]; [done|by vm_compute in Hu].
  - exists w1. split; [exact H1|]. apply H2; [by vm_compute|done|done| |].
    + intros q Hq. cbn [w_fs set_fs]. by rewrite lookup_delete_ne by (intros <-; by apply Hq).
    + exact (none_writable _ _ (lookup_delete_eq (w_fs w1) ["img"; "device.bin"])).
Defined.
