(* ===== verification/Pipeline.v ===== *)
(** pkg/image/pipeline.go: what is done to an image in its staging directory. *)
From S2P Require Export Staging Sparse Dedup Delta.

Record ProcessOpts := mkOpts {
  Compress : bool;
  Sparse : bool;
  Dedup : bool;
  Parent : string;
}.

Section pipeline.
Context `{Zstd} (fuel : nat).

Definition ProcessImage (dir : string) (opts : ProcessOpts) : M unit :=
  (if Sparse opts then ApplySparse dir else mret tt) ;;
  (if Dedup opts then DedupDevice dir else mret tt) ;;
  (if Compress opts then CompressDevice dir else mret tt) ;;
  (if decide (Parent opts <> "") then WriteDelta fuel dir (Parent opts) else mret tt).

Definition StagingSnapshot (dir : string) (snapshotFn : string -> M unit) (opts : ProcessOpts) : M unit :=
  WriteStaging dir (fun staging => snapshotFn staging ;; ProcessImage staging opts).
End pipeline.

Definition ParentFromEnv : M string := Getenv "CUDACKPT_PARENT_IMAGE".

Definition OptsFromEnv : M ProcessOpts :=
  c ← Getenv "CUDACKPT_COMPRESS";
  s ← Getenv "CUDACKPT_SPARSE";
  d ← Getenv "CUDACKPT_DEDUP";
  p ← ParentFromEnv;
  mret (mkOpts (bool_decide (c = "1")) (bool_decide (s = "1")) (bool_decide (d = "1")) p).

Definition DevicePath (dir : string) : string := PathJoin [dir; "device.bin"].
