(* ===== verification/PipelineFacts.v ===== *)
(** What the options of processing do to each other: pkg/image/pipeline.go. *)
From S2P Require Export Pipeline DeltaFacts.
Local Open Scope Z_scope.

(** Writing a delta begins by materializing both images. *)
Lemma WriteDelta_materialized `{Zstd} fuel dir parent w w1 :
  EnsureDeviceMaterialized fuel parent w = (Ret tt, w) -> EnsureDeviceMaterialized fuel dir w = (Ret tt, w1) ->
  EnsureDeviceMaterialized fuel parent w1 = (Ret tt, w1) -> EnsureDeviceMaterialized fuel dir w1 = (Ret tt, w1) ->
  WriteDelta fuel dir parent w = WriteDelta fuel dir parent w1.
Proof.
  intros Hp Hd Hp1 Hd1. unfold WriteDelta.
  by rewrite (bind_run _ _ _ _ _ Hp), (bind_run _ _ _ _ _ Hd), (bind_run _ _ _ _ _ Hp1), (bind_run _ _ _ _ _ Hd1).
Qed.

(** An image depends on its directory, its manifest and its device content. *)
Lemma image_at_set_fs w fs dir q es flags version d :
  image_at w dir q es flags version d ->
  Forall (fun r => fs !! r = w_fs w !! r) [q; q ++ ["manifest.bin"]; q ++ ["device.bin"]] ->
  image_at (set_fs fs w) dir q es flags version d.
Proof.
  intros [Hn Hp Hd [Hm Hwf] Hdev Hch Hsz]. rewrite !Forall_cons. intros (E1 & E2 & E3 & _).
  split; try done; [by rewrite <- Hd|split; [by rewrite <- Hm|done]|by rewrite <- Hdev].
Qed.

Section pipeline.
Context `{ZstdLaws}.

(** The compressed form of the device content, next to the image. *)
Definition with_zst (p : path) (d : bytes) (w : world) : world :=
  set_fs (<[p ++ [deviceZst] := NFile (EncodeAll d)]> (w_fs w)) w.

Lemma image_at_zst w dir p c q es flags version d :
  writable (w_fs w) (p ++ [deviceZst]) ->
  image_at w dir q es flags version d -> image_at (with_zst p c w) dir q es flags version d.
Proof using Type.
  intros Hw Him. apply image_at_set_fs; [done|]. pose proof (im_dir _ _ _ _ _ _ _ Him) as Hd.
  rewrite !Forall_cons. split_and!; [..|constructor]; apply lookup_insert_ne;
    try (intros [_ E]%app_inj_tail; discriminate).
  intros E. rewrite E in Hw. by destruct Hw.
Qed.

(** Another image is not touched by the compression of this one. *)
Lemma image_at_compressed w p es flags version d dir q es' flags' version' d' :
  writable (w_fs w) (p ++ [deviceZst]) ->
  writable (w_fs w) (p ++ ["manifest.bin"]) -> p <> q ->
  image_at w dir q es' flags' version' d' ->
  image_at (set_fs (compressed_fs p es flags version d (w_fs w)) w) dir q es' flags' version' d'.
Proof using Type.
  intros Hz Hm Hne Him. apply image_at_set_fs; [done|]. pose proof (im_dir _ _ _ _ _ _ _ Him) as Hd.
  unfold compressed_fs.
  rewrite !Forall_cons. split_and!; [..|constructor]; rewrite !lookup_insert_ne; try done;
    try (intros [E1 E2]%app_inj_tail; first [discriminate|congruence]);
    intros E; [rewrite E in Hz; by destruct Hz|rewrite E in Hm; by destruct Hm].
Qed.

(** A compressed image is materialized to what it was. *)
Lemma ensure_compressed fuel w dir p es flags version d :
  nofault w -> image_at w dir p es flags version d -> plain flags ->
  EnsureDeviceMaterialized (S fuel) dir (set_fs (compressed_fs p es flags version d (w_fs w)) w) =
  (Ret tt, with_zst p d w).
Proof using All.
  intros Hnf [Hn Hp Hd [Hm Hwf] Hdev Hch Hsz] [Hf1 Hf2]. set (w1 := set_fs _ w).
  assert (Hm1 : manifest_at w1 (p ++ ["manifest.bin"]) es (set_flag flags FlagCompressed) version).
  { split; [unfold w1, compressed_fs; fs_lookup|].
    apply (wf_manifest_flags _ flags); [done|]. apply set_flag_u16; [apply Hwf|done]. }
  cbn [EnsureDeviceMaterialized].
  destruct (image_file w1 dir p "manifest.bin" Hn Hp eq_refl) as [Hmn Hmp].
  rewrite (bind_run _ _ _ _ _ (readManifestHeader_at w1 _ _ _ _ _ Hnf Hmn Hmp Hm1)).
  cbn [h_Flags manifest_header]. rewrite (HasFlag_set_other flags FlagCompressed FlagDelta Hf1 eq_refl). erewrite bind_run by done.
  rewrite HasFlag_set by done.
  erewrite (DecompressDevice_run w1 dir p es _ version d); [|exact Hnf|exact Hn|exact Hp| |exact Hm1|by apply HasFlag_set| |].
  - rewrite clear_set_flag by done. unfold w1, with_zst. rewrite set_fs_set_fs. f_equal. f_equal. cbn [w_fs set_fs].
    apply map_eq. intros r. unfold compressed_fs.
    destruct (decide (r = p ++ ["manifest.bin"])) as [->|H1]; [fs_lookup|].
    destruct (decide (r = p ++ ["device.bin"])) as [->|H2]; [fs_lookup|].
    do 3 (rewrite lookup_insert_ne by congruence). done.
  - unfold w1, compressed_fs. fs_lookup.
  - unfold w1, compressed_fs. fs_lookup.
  - unfold w1, compressed_fs. apply (file_writable _ _ d). fs_lookup.
Qed.
End pipeline.

(** What processing does after sparse maps and deduplication. *)
Lemma ProcessImage_rest `{Zstd} fuel dir c sp dd parent w0 w :
  ProcessImage fuel dir (mkOpts false sp dd "") w0 = (Ret tt, w) ->
  ProcessImage fuel dir (mkOpts c sp dd parent) w0 =
  ((if c then CompressDevice dir else mret tt) ;;
   (if decide (parent <> "") then WriteDelta fuel dir parent else mret tt)) w.
Proof.
  unfold ProcessImage. cbn [Sparse Dedup Compress Parent].
  intros ([] & w1 & E1 & E)%bind_inv. apply bind_inv in E as ([] & w2 & E2 & E).
  injection E as <-. by rewrite (bind_run _ _ _ _ _ E1), (bind_run _ _ _ _ _ E2).
Qed.

(** ** Properties *)

(** C6: compression is lost where a parent is given. Materializing the image, as
    the writing of a delta does first, undoes what compressing it has just done.
    With any choice of sparse maps and deduplication, where these leave the image
    [d] with the entries [es] and none of the flags of compression and delta, an
    image that is compressed and given a parent is the one that is given the
    parent alone, but for the file device.zst, which is left in it; its manifest
    does not say that it is compressed. *)
Theorem delta_undoes_compression `{ZstdLaws} fuel sp dd w0 w dir p parent pp es flags version d pes pflags pv pd :
  let ces := changed (parentByPtr (stored pv <$> pes)) es in
  ProcessImage (S fuel) dir (mkOpts false sp dd "") w0 = (Ret tt, w) ->
  nofault w -> image_at w dir p es flags version d -> plain flags ->
  image_at w parent pp pes pflags pv pd -> plain pflags -> p <> pp ->
  writable (w_fs w) (p ++ [deviceZst]) ->
  writable (w_fs w) (p ++ ["device.patch"]) -> writable (w_fs w) (p ++ ["delta.bin"]) ->
  Z.of_nat (length (patch_of d ces)) <= maxAlloc ->
  is_u32 (Z.of_nat (length (bytes_of_string parent))) ->
  exists w1, ProcessImage (S fuel) dir (mkOpts false sp dd parent) w0 = (Ret tt, w1) /\
    ProcessImage (S fuel) dir (mkOpts true sp dd parent) w0 = (Ret tt, with_zst p d w1) /\
    exists es' h, ReadManifest (PathJoin [dir; "manifest.bin"]) (with_zst p d w1) = (Ret (es', h), with_zst p d w1) /\
      HasFlag (h_Flags h) FlagCompressed = false.
Proof.
  intros ces Hprep Hnf Him Hpl Himp Hplp Hne Hz Hw1 Hw2 Hsz Hpn.
  assert (Hpar : parent <> "") by apply Himp.
  pose proof (image_at_zst w dir p d p es flags version d Hz Him) as Hzi.
  pose proof (image_at_zst w parent p d pp pes pflags pv pd Hz Himp) as Hzp.
  assert (Hm : writable (w_fs w) (p ++ ["manifest.bin"])) by (eapply file_writable, Him).
  pose proof (image_at_compressed w p es flags version d parent pp pes pflags pv pd Hz Hm Hne Himp) as Hcp.
  assert (E0 : ProcessImage (S fuel) dir (mkOpts false sp dd parent) w0 =
    (Ret tt, if decide (ces = []) then w else set_fs (delta_fs p es flags version parent d ces (w_fs w)) w)).
  { rewrite (ProcessImage_rest _ _ _ _ _ _ _ _ Hprep), decide_True by done.
    erewrite bind_run by done. by eapply WriteDelta_run. }
  eexists. split; [exact E0|]. split.
  - rewrite (ProcessImage_rest _ _ _ _ _ _ _ _ Hprep), decide_True by done. erewrite bind_run by (by eapply CompressDevice_run).
    rewrite (WriteDelta_materialized _ _ _ _ (with_zst p d w)); [|by eapply ensure_plain|by apply ensure_compressed|
      by eapply ensure_plain..].
    erewrite WriteDelta_run; [|done|exact Hzi|done|exact Hzp|done|..|done|done].
    + fold ces. case_decide; [done|]. unfold with_zst. rewrite !set_fs_set_fs. cbn [w_fs set_fs]. f_equal. f_equal.
      unfold delta_fs. apply map_eq. intros r. destruct (decide (r = p ++ [deviceZst])) as [->|Hr].
      * rewrite lookup_insert_eq. do 3 (rewrite lookup_insert_ne by (by apply names_ne)). by rewrite lookup_insert_eq.
      * rewrite (lookup_insert_ne _ (p ++ [deviceZst])) by congruence. rewrite !lookup_insert. repeat case_decide; done.
    + unfold writable. cbn [w_fs set_fs with_zst]. by rewrite lookup_insert_ne by (by apply names_ne).
    + unfold writable. cbn [w_fs set_fs with_zst]. by rewrite lookup_insert_ne by (by apply names_ne).
  - assert (HR : forall fl w1, nofault w1 -> w_cwd w1 = w_cwd w -> manifest_at w1 (p ++ ["manifest.bin"]) es fl version ->
      HasFlag fl FlagCompressed = false -> exists es' h, ReadManifest (PathJoin [dir; "manifest.bin"]) w1 = (Ret (es', h), w1) /\
        HasFlag (h_Flags h) FlagCompressed = false).
    { intros fl w1 Hnf1 Hc Hm1 Hf. destruct Him as [Hdn Hp _ _ _ _ _].
      assert (Hp1 : at_path w1 dir = p) by (unfold at_path; by rewrite Hc).
      destruct (image_file w1 dir p "manifest.bin" Hdn Hp1 eq_refl) as [Hmn Hmp].
      do 2 eexists. split; [by apply (ReadManifest_at _ _ _ _ _ _ Hnf1 Hmn Hmp Hm1)|exact Hf]. }
    destruct Him as [_ _ _ [Hmc Hwf] _ _ _]. case_decide as Hc.
    + eapply HR; [exact Hnf|done| |apply Hpl]. split; [|exact Hwf]. cbn [with_zst w_fs set_fs]. fs_lookup.
    + eapply (HR (set_flag flags FlagDelta)); [exact Hnf|done| |by apply HasFlag_set_other; [apply Hpl|]]. split.
      * cbn [with_zst w_fs set_fs]. unfold delta_fs. fs_lookup.
      * apply (wf_manifest_flags _ flags); [done|]. apply set_flag_u16; [apply Hwf|done].
Qed.

(** A run in which one entry of two has changed, with a search for zeros that
    finds none. *)
Lemma delta_undoes_compression_witness :
  let H := frame_zstd in
  let es := [four_entry 1 0 Byte.x61; four_entry 2 4 Byte.x63] in
  let d := four Byte.x61 ++ four Byte.x63 in
  let w := two_images es moved_parent d (four Byte.x61 ++ four Byte.x62) in
  exists w1, ProcessImage 1 "/img" (mkOpts false true false "/parent") w = (Ret tt, w1) /\
    ProcessImage 1 "/img" (mkOpts true true false "/parent") w = (Ret tt, with_zst ["img"] d w1).
Proof.
  intros H es d w.
  assert (Hi : forall p, Forall wf_entry p -> Z.of_nat (length p) = 2 -> wf_manifest p 0 2).
  { intros p HF Hl. split; [done|by rewrite Hl|done|done]. }
  destruct (@delta_undoes_compression frame_zstd frame_zstd_laws 0 true false w w "/img" ["img"] "/parent" ["parent"] es 0 2 d moved_parent 0 2
    (four Byte.x61 ++ four Byte.x62)) as (w1 & H1 & H2 & _).
  - vm_compute. reflexivity.
  - done.
  - apply two_images_img; [apply Hi; [|done]| |by vm_compute]; repeat constructor; by vm_compute.
  - by split.
  - apply two_images_parent; [apply Hi; [|done]| |by vm_compute]; repeat constructor; by vm_compute.
  - by split.
  - done.
  - split; by vm_compute.
  - split; by vm_compute.
  - split; by vm_compute.
  - by vm_compute.
  - by vm_compute.
  - exists w1. split; [exact H1|exact H2].
Defined.
