(* ===== verification/Verify.v ===== *)
(** The checks of an image: verifyImage (pkg/control/orchestrator.go),
    ValidateImage (validate.go) and PreflightRestore (preflight.go). *)
From S2P Require Export DeltaFacts Staging Meta Storage.
Local Open Scope Z_scope.

Section verify.
Context `{Zstd} (fuel : nat).

(** One round of the loop of [verifyImage]. *)
Definition verify_entry (f : file) (e : Entry) : M unit :=
  ok ← wrap_err Code.IO "verify"
         (VerifyChunk f (int64_of_u64 (e_Offset e)) (int64_of_u64 (e_Size e)) (e_CRC32C e));
  if (ok : bool) then mret tt else throw (Ckpterr.E Code.Invalid "crc mismatch").

Definition verifyImage (dir : string) : M unit :=
  wrap_err Code.IO "materialize" (EnsureDeviceMaterialized fuel dir) ;;
  tier ← wrap_err Code.IO "tier" (Storage.New dir);
  '(entries, hdr) ← wrap_err Code.IO "manifest" (ReadManifest (ManifestPath tier));
  if decide (h_Magic hdr <> Magic) then throw (Ckpterr.E Code.Invalid "bad magic")
  else
    f ← wrap_err Code.IO "device.bin" (Open (Storage.DevicePath tier));
    forM_ entries (verify_entry f).

(** The loops over file names that must exist. *)
Definition stat_all (dir : string) (names : list string) : M unit :=
  forM_ names (fun name => wrap_err Code.Invalid name (Stat (PathJoin [dir; name])) ;; mret tt).

Definition ValidateImage (dir : string) : M unit :=
  verifyImage dir ;;
  stat_all dir ["dev.bin"; "meta.bin"; "criu"] ;;
  complete ← IsComplete dir;
  if negb complete then throw (Ckpterr.E Code.Invalid "checkpoint not finalized")
  else
    m ← wrap_err Code.Invalid "meta" (ReadMeta (PathJoin [dir; "meta.bin"]));
    if decide (m_Preload m = "") then throw (Ckpterr.E Code.Invalid "missing LD_PRELOAD in meta")
    else mret tt.

Definition PreflightRestore (dir : string) : M unit :=
  complete ← IsComplete dir;
  if negb complete then throw (Ckpterr.E Code.Invalid "checkpoint not finalized")
  else
    stat_all dir ["manifest.bin"; "meta.bin"; "criu"] ;;
    meta ← wrap_err Code.Invalid "meta" (ReadMeta (PathJoin [dir; "meta.bin"]));
    if decide (m_Preload meta = "") then throw (Ckpterr.E Code.Invalid "missing LD_PRELOAD in meta")
    else
      '(entries, hdr) ← wrap_err Code.Invalid "manifest" (ReadManifest (PathJoin [dir; "manifest.bin"]));
      if decide (h_Magic hdr <> Magic \/ h_Count hdr = 0)
      then throw (Ckpterr.E Code.Invalid "empty manifest")
      else if HasFlag (h_Flags hdr) FlagCompressed then
        wrap_err Code.Invalid "device.zst" (Stat (PathJoin [dir; "device.zst"])) ;; mret tt
      else
        r ← attempt (Stat (PathJoin [dir; "device.bin"]));
        match r with
        | inl err => if negb (HasFlag (h_Flags hdr) FlagDelta)
                     then throw (Ckpterr.Wrap Code.Invalid "device.bin" (Some err)) else mret tt
        | inr _ => mret tt
        end.
End verify.

(** pkg/control/state.go: the states of a shim. *)
Definition StateName (v : Z) : string :=
  if decide (v = 0) then "idle"
  else if decide (v = 1) then "frozen"
  else if decide (v = 2) then "snapped"
  else if decide (v = 3) then "restored"
  else if decide (v = 4) then "running"
  else "unknown".

(** ** What a check that succeeds has seen *)

(** The device content of the image directory [p]. *)
Definition device_of (fs : gmap path node) (p : path) : bytes :=
  match fs !! (p ++ ["device.bin"]) with Some (NFile d) => d | _ => [] end.

(** The bytes of an entry are there and have its checksum. *)
Definition verified (d : bytes) (e : Entry) : Prop :=
  CRC32C (chunk d e) = e_CRC32C e /\ (e_Size e = 0 \/ in_device d e).

#[global] Instance verified_dec d e : Decision (verified d e).
Proof. unfold verified, in_device; apply _. Defined.

(** The image directory [p] holds a manifest and device content, and every entry
    of the manifest is verified. *)
Definition intact (fs : gmap path node) (p : path) (es : list Entry) : Prop :=
  is_Some (fs !! (p ++ ["device.bin"])) /\
  exists c h rest, fs !! (p ++ ["manifest.bin"]) = Some (NFile c) /\
    parse_manifest c = inr (es, h, rest) /\ Forall (verified (device_of fs p)) es.

Lemma wrap_err_inv {A} c s (m : M A) w a w' : wrap_err c s m w = (Ret a, w') -> m w = (Ret a, w').
Proof.
  unfold wrap_err, attempt, mbind, M_bind. destruct (m w) as [[b|e| |] w1]; intros [=]; by subst.
Qed.

Lemma ReadManifest_inv s w es h w' :
  ReadManifest s w = (Ret (es, h), w') ->
  exists l c rest, w' = set_faults l w /\ w_fs w !! at_path w s = Some (NFile c) /\
    parse_manifest c = inr (es, h, rest).
Proof.
  unfold ReadManifest. intros (f & w1 & Ho & E)%bind_inv. apply Open_inv in Ho as (l1 & -> & Hf).
  apply bind_inv in E as (c & w2 & Hc & E). apply fread_inv in Hc as (l2 & -> & Hc).
  apply bind_inv in E as (x & w3 & Hl & E). destruct (parse_manifest c) as [|[es' rest]] eqn:Hp; [done|].
  injection Hl as <- <-. injection E as -> <-. exists l2, c, rest. rewrite <- Hf. by split_and!.
Qed.

Lemma ReadAt_inv f n off w b w' :
  0 <= n -> ReadAt f n off w = (Ret b, w') ->
  exists l, w' = set_faults l w /\ 0 <= off /\
    ((n = 0 /\ b = []) \/
     exists c, w_fs w !! f_path f = Some (NFile c) /\ off + n <= Z.of_nat (length c) /\
       b = slice (Z.to_nat off) (Z.to_nat (off + n)) c).
Proof.
  intros Hn. unfold ReadAt. case_decide; [done|]. case_decide.
  { intros [= <- <-]. exists (w_faults w). split; [by destruct w|]. split; [lia|]. left. split; [lia|done]. }
  match goal with |- context [syscall ?a ?b] => destruct (syscall_any a b w) as (l & [->|[g ->]]) end;
    [|done].
  unfold file_bytes. cbn [w_fs set_faults]. destruct (w_fs w !! f_path f) as [[c| |]|] eqn:Hc; try done.
  case_decide; [|done]. intros [= <- <-]. exists l. split; [done|]. split; [lia|]. right. by exists c.
Qed.

Lemma int64_nonneg z : is_u64 z -> 0 <= int64_of_u64 z -> int64_of_u64 z = z.
Proof. intros Hz. unfold int64_of_u64. rewrite u64_small by done. unfold is_u64 in Hz. case_decide; lia. Qed.

(** A checked entry is verified. *)
Lemma verify_entry_inv f e w u w' :
  wf_entry e -> verify_entry f e w = (Ret u, w') ->
  exists l, w' = set_faults l w /\
    verified (match w_fs w !! f_path f with Some (NFile d) => d | _ => [] end) e.
Proof.
  intros Hwf. unfold verify_entry. intros (ok & w1 & H%wrap_err_inv & E)%bind_inv.
  destruct ok; [|done]. injection E as <- <-. unfold VerifyChunk in H.
  destruct (make_ok _) eqn:Hm; [|done]. apply bool_decide_eq_true in Hm.
  apply bind_inv in H as (b & w2 & Hr & E). injection E as E <-. apply bool_decide_eq_true in E.
  apply ReadAt_inv in Hr as (l & -> & Hoff & Hr); [|lia]. exists l. split; [done|].
  assert (Hs : int64_of_u64 (e_Size e) = e_Size e) by (apply int64_nonneg; [apply Hwf|lia]).
  assert (Ho : int64_of_u64 (e_Offset e) = e_Offset e) by (apply int64_nonneg; [apply Hwf|lia]).
  rewrite Hs in Hr, Hm. rewrite Ho in Hr, Hoff. unfold verified, chunk, in_device.
  destruct Hr as [[Hz ->]|(c & -> & Hlen & ->)].
  - split; [|by left]. rewrite Hz, Z.add_0_r. unfold slice. by rewrite Nat.sub_diag, take_0.
  - split; [done|]. right. lia.
Qed.

Lemma verify_entries_inv f es w u w' :
  Forall wf_entry es -> forM_ es (verify_entry f) w = (Ret u, w') ->
  exists l, w' = set_faults l w /\
    Forall (verified (match w_fs w !! f_path f with Some (NFile d) => d | _ => [] end)) es.
Proof.
  intros HF. revert w. induction HF as [|e es He HF IH]; intros w; cbn [forM_].
  - intros [= _ <-]. exists (w_faults w). split; [by destruct w|constructor].
  - intros (u1 & w1 & H & E)%bind_inv. apply (verify_entry_inv _ _ _ _ _ He) in H as (l & -> & Hv).
    apply IH in E as (l' & -> & Hvs). exists l'. split; [done|]. by constructor.
Qed.

Lemma Open_some s w f w' : s <> "" -> Open s w = (Ret f, w') -> is_Some (w_fs w !! at_path w s).
Proof.
  intros Hs. unfold Open.
  match goal with |- context [syscall ?a ?b] => destruct (syscall_any a b w) as (l & [->|[g ->]]) end;
    [|done].
  change (find_node (set_faults l w) s) with (find_node w s). unfold find_node. rewrite decide_False by done.
  by destruct (w_fs w !! at_path w s).
Qed.

(** A verified image is intact. *)
Lemma verifyImage_inv `{Zstd} fuel dir w w' u :
  dir <> "" -> verifyImage fuel dir w = (Ret u, w') ->
  exists es, intact (w_fs w') (at_path w' dir) es.
Proof.
  intros Hd. unfold verifyImage.
  intros (u1 & w1 & _ & E)%bind_inv. apply bind_inv in E as (t & w2 & Hx%wrap_err_inv & E).
  apply bind_inv in Hx as (u2 & w2' & _ & Hx). injection Hx as <- ->.
  apply bind_inv in E as ([es h] & w3 & Hx%wrap_err_inv & E).
  apply ReadManifest_inv in Hx as (l3 & c & rest & -> & Hc & Hp).
  case_decide; [done|]. apply bind_inv in E as (f & w4 & Hx%wrap_err_inv & E).
  pose proof (Open_some _ _ _ _ (proj1 (Join_entry w dir "device.bin" Hd eq_refl)) Hx) as Hdev.
  apply Open_inv in Hx as (l4 & -> & Hf).
  pose proof (parse_manifest_exact _ _ _ _ Hp) as (_ & _ & _ & _ & HF).
  apply (verify_entries_inv _ _ _ _ _ HF) in E as (l5 & -> & Hv).
  exists es. cbn [w_fs set_faults] in *.
  change (at_path (set_faults l5 _) dir) with (at_path w2 dir). split; [|exists c, h, rest; split_and!].
  - by rewrite <- (proj2 (Join_entry w2 dir "device.bin" Hd eq_refl)).
  - rewrite <- Hc. f_equal. symmetry. by apply at_path_Join.
  - done.
  - unfold device_of. rewrite Hf in Hv. unfold Storage.DevicePath in Hv. cbn [t_Dir] in Hv.
    change (at_path (set_faults l3 w2) ?s) with (at_path w2 s) in Hv.
    rewrite at_path_Join in Hv by done. exact Hv.
Qed.

(** Computations that only look at values. *)
Definition inert {A} (m : M A) : Prop := forall w, (m w).2 = w.

Lemma inert_bind {A B} (m : M A) (f : A -> M B) :
  inert m -> (forall a, inert (f a)) -> inert (m ≫= f).
Proof.
  intros Hm Hf w. specialize (Hm w). unfold mbind, M_bind.
  destruct (m w) as [[a|e| |] w1]; cbn in Hm; subst; [apply Hf|done..].
Qed.

Lemma inert_go_slice lo hi b : inert (go_slice lo hi b).
Proof. intros w. unfold go_slice. by case_decide. Qed.

Lemma inert_le_at lo n b : inert (le_at lo n b).
Proof. apply inert_bind; [apply inert_go_slice|done]. Qed.

Lemma inert_decode_meta b : inert (decode_meta b).
Proof.
  unfold decode_meta. cbv zeta.
  repeat first [ case_decide; [|] | done
               | apply inert_bind; [first [apply inert_le_at | apply inert_go_slice]|intros ?] ].
Qed.

Lemma Stat_inv s w n w' :
  s <> "" -> Stat s w = (Ret n, w') -> exists l, w' = set_faults l w /\ w_fs w !! at_path w s = Some n.
Proof.
  intros Hs H. destruct (Stat_any s w) as (l & [(n' & E & Hn)|(e & E)]); rewrite E in H; [|done].
  injection H as <- <-. exists l. split; [done|]. unfold find_node in Hn. rewrite decide_False in Hn by done.
  destruct (w_fs w !! at_path w s); [by injection Hn as <-|done].
Qed.

Lemma stat_all_inv dir names w u w' :
  dir <> "" -> Forall (fun x => proper x = true) names -> stat_all dir names w = (Ret u, w') ->
  exists l, w' = set_faults l w /\ Forall (fun x => is_Some (w_fs w !! (at_path w dir ++ [x]))) names.
Proof.
  intros Hd HF. revert w. induction HF as [|x names Hx HF IH]; intros w.
  - intros [= _ <-]. exists (w_faults w). split; [by destruct w|constructor].
  - cbn [stat_all forM_]. intros (u1 & w1 & Hs & E)%bind_inv.
    apply bind_inv in Hs as (n & w2 & Hs%wrap_err_inv & H1). injection H1 as <- <-.
    destruct (Join_entry w dir x Hd Hx) as [Hne Hat].
    apply Stat_inv in Hs as (l & -> & Hn); [|done]. apply IH in E as (l' & -> & Hall).
    exists l'. split; [done|]. constructor; [rewrite <- Hat; by eexists|exact Hall].
Qed.

Lemma IsComplete_inv dir w w' b :
  dir <> "" -> IsComplete dir w = (Ret b, w') ->
  exists l, w' = set_faults l w /\ (b = true -> is_Some (w_fs w !! (at_path w dir ++ [completeName]))).
Proof.
  intros Hd. unfold IsComplete. destruct (Join_entry w dir completeName Hd eq_refl) as [Hne Hat].
  intros (r & w1 & Hs & E)%bind_inv. injection E as <- <-. unfold attempt in Hs.
  destruct (Stat_any (PathJoin [dir; completeName]) w) as (l & [(n' & E & Hn)|(e & E)]);
    rewrite E in Hs; injection Hs as <- <-; exists l; (split; [done|]); [|done].
  intros _. apply Stat_inv in E as (_ & _ & Hs); [|done]. rewrite <- Hat, Hs. by eexists.
Qed.

Lemma ReadFile_inv s w c w' :
  ReadFile s w = (Ret c, w') -> exists l, w' = set_faults l w /\ w_fs w !! at_path w s = Some (NFile c).
Proof.
  unfold ReadFile. intros (f & w1 & Ho & Hr)%bind_inv. apply Open_inv in Ho as (l & -> & Hf).
  apply fread_inv in Hr as (l' & -> & Hc). exists l'. by rewrite <- Hf.
Qed.

(** The metadata the image directory [p] holds. *)
Definition has_meta (fs : gmap path node) (p : path) (m : Meta) : Prop :=
  exists c w, fs !! (p ++ ["meta.bin"]) = Some (NFile c) /\ decode_meta c w = (Ret m, w).

Lemma ReadMeta_inv dir w m w' :
  dir <> "" -> ReadMeta (PathJoin [dir; "meta.bin"]) w = (Ret m, w') ->
  exists l, w' = set_faults l w /\ has_meta (w_fs w) (at_path w dir) m.
Proof.
  intros Hd. unfold ReadMeta. intros (c & w1 & Hr & Hm)%bind_inv.
  apply ReadFile_inv in Hr as (l & -> & Hc).
  pose proof (inert_decode_meta c (set_faults l w)) as Hi. rewrite Hm in Hi. cbn in Hi. subst w'.
  exists l. split; [done|]. exists c, (set_faults l w). split; [|done].
  rewrite <- Hc. f_equal. symmetry. by apply at_path_Join.
Qed.

(** What [ValidateImage] looks for: an image that is complete and intact, with
    its metadata, the library to preload, the device number and the files of
    CRIU. *)
Record validated (fs : gmap path node) (p : path) : Prop := {
  vd_intact : exists es, intact fs p es;
  vd_complete : is_Some (fs !! (p ++ [completeName]));
  vd_meta : exists m, has_meta fs p m /\ m_Preload m <> "";
  vd_files : Forall (fun x => is_Some (fs !! (p ++ [x]))) ["dev.bin"; "meta.bin"; "criu"];
}.

Lemma ValidateImage_inv `{Zstd} fuel dir w w' u :
  dir <> "" -> ValidateImage fuel dir w = (Ret u, w') -> validated (w_fs w') (at_path w' dir).
Proof.
  intros Hd. unfold ValidateImage.
  intros (u1 & w1 & Hv & E)%bind_inv. apply verifyImage_inv in Hv as [es Hes]; [|done].
  apply bind_inv in E as (u2 & w2 & Hs & E).
  apply stat_all_inv in Hs as (l2 & -> & Hfiles); [|done|by repeat constructor].
  apply bind_inv in E as (b & w3 & Hc & E). apply IsComplete_inv in Hc as (l3 & -> & Hc); [|done].
  destruct b; [|done]. cbn [negb] in E.
  apply bind_inv in E as (m & w4 & Hm%wrap_err_inv & E).
  apply ReadMeta_inv in Hm as (l4 & -> & Hm); [|done]. case_decide as Hp; [done|].
  injection E as _ <-. split; [by exists es|by apply Hc|by exists m|exact Hfiles].
Qed.

(** ** What the check before a restore looks for *)

(** Computations whose result does not depend on the world. *)
Definition valued {A} (m : M A) : Prop := exists r, forall w, m w = (r, w).

Lemma valued_bind {A B} (m : M A) (f : A -> M B) :
  valued m -> (forall a, valued (f a)) -> valued (m ≫= f).
Proof.
  intros [r Hr] Hf. destruct r as [a|e| |].
  - destruct (Hf a) as [r' Hr']. exists r'. intros w. unfold mbind, M_bind. by rewrite Hr.
  - exists (Err e). intros w. unfold mbind, M_bind. by rewrite Hr.
  - eexists. intros w. unfold mbind, M_bind. by rewrite Hr.
  - eexists. intros w. unfold mbind, M_bind. by rewrite Hr.
Qed.

Lemma valued_ret {A} (a : A) : valued (mret a).
Proof. by exists (Ret a). Qed.

Lemma valued_throw {A} e : valued (throw (A:=A) e).
Proof. by exists (Err e). Qed.

Lemma valued_go_slice lo hi b : valued (go_slice lo hi b).
Proof. unfold go_slice. case_decide; by eexists. Qed.

Lemma valued_le_at lo n b : valued (le_at lo n b).
Proof. apply valued_bind; [apply valued_go_slice|intros; apply valued_ret]. Qed.

Lemma valued_decode_meta b : valued (decode_meta b).
Proof.
  unfold decode_meta. cbv zeta.
  repeat first [ apply valued_ret | apply valued_throw | case_decide
               | apply valued_bind; [first [apply valued_le_at | apply valued_go_slice]|intros ?] ].
Qed.

Lemma has_meta_run w dir m :
  nofault w -> dir <> "" -> has_meta (w_fs w) (at_path w dir) m ->
  ReadMeta (PathJoin [dir; "meta.bin"]) w = (Ret m, w).
Proof.
  intros Hnf Hd (c & v & Hc & Hm). destruct (Join_entry w dir "meta.bin" Hd eq_refl) as [Hne Hat].
  unfold ReadMeta. rewrite (bind_run _ _ _ c w) by (apply ReadFile_run; [done|done|by rewrite Hat]).
  destruct (valued_decode_meta c) as [r Hr]. rewrite Hr in Hm. injection Hm as ->. apply Hr.
Qed.

(** What [PreflightRestore] looks for: a finalized image with its metadata, the
    library to preload, the directory of CRIU and a manifest of at least one
    chunk; device.zst where the manifest says the image is compressed, and
    otherwise device.bin, unless the image is a delta. It looks at no checksum,
    nor for the device number. *)
Record preflighted (fs : gmap path node) (p : path) : Prop := {
  pr_complete : is_Some (fs !! (p ++ [completeName]));
  pr_criu : is_Some (fs !! (p ++ ["criu"]));
  pr_meta : exists m, has_meta fs p m /\ m_Preload m <> "";
  pr_manifest : exists c es h rest, fs !! (p ++ ["manifest.bin"]) = Some (NFile c) /\
    parse_manifest c = inr (es, h, rest) /\ es <> [] /\
    if HasFlag (h_Flags h) FlagCompressed then is_Some (fs !! (p ++ [deviceZst]))
    else HasFlag (h_Flags h) FlagDelta = true \/ is_Some (fs !! (p ++ ["device.bin"]));
}.

Lemma stat_all_run w dir names :
  nofault w -> dir <> "" -> Forall (fun x => proper x = true) names ->
  Forall (fun x => is_Some (w_fs w !! (at_path w dir ++ [x]))) names -> stat_all dir names w = (Ret tt, w).
Proof.
  intros Hnf Hd HF. induction HF as [|x names Hx HF IH]; intros Hall; [done|].
  apply Forall_cons in Hall as [[n Hn] Hall]. destruct (Join_entry w dir x Hd Hx) as [Hne Hat].
  unfold stat_all. cbn [forM_]. rewrite (bind_run _ _ _ tt w); [by apply IH|].
  rewrite (bind_run _ _ _ n w); [done|]. apply wrap_err_run, Stat_run; [done|done|by rewrite Hat].
Qed.

Lemma entries_count c es h rest : parse_manifest c = inr (es, h, rest) -> h_Magic h = Magic /\ (h_Count h = 0 <-> es = []).
Proof.
  intros (_ & _ & Hm & Hl & _)%parse_manifest_exact. split; [done|]. rewrite <- Hl. split; [|by intros ->].
  intros H0. apply length_zero_iff_nil. lia.
Qed.

Lemma Stat_nofault s w :
  nofault w -> (exists n, Stat s w = (Ret n, w)) \/ (exists e, Stat s w = (Err e, w)).
Proof.
  intros Hnf. unfold Stat. rewrite syscall_run by done. destruct (find_node w s); eauto.
Qed.

Lemma preflighted_run w dir :
  nofault w -> dir <> "" -> preflighted (w_fs w) (at_path w dir) -> PreflightRestore dir w = (Ret tt, w).
Proof.
  intros Hnf Hd [[n Hn] Hcr (m & Hm & Hp) (c & es & h & rest & Hc & Hpm & Hes & Hfl)].
  assert (Hst : forall x k, proper x = true -> w_fs w !! (at_path w dir ++ [x]) = Some k ->
    Stat (PathJoin [dir; x]) w = (Ret k, w)).
  { intros x k Hx Hk. destruct (Join_entry w dir x Hd Hx) as [Hne Hat]. apply Stat_run; [done|done|by rewrite Hat]. }
  unfold PreflightRestore. rewrite (bind_run _ _ _ true w).
  2:{ unfold IsComplete. by rewrite (bind_run _ _ _ (inr n) w) by (by apply attempt_run, Hst). }
  cbn [negb]. rewrite (bind_run _ _ _ tt w).
  2:{ apply stat_all_run; [done..|by repeat constructor|]. destruct Hm as (b & v & Hb & _).
      repeat constructor; [by rewrite Hc|by rewrite Hb|done]. }
  rewrite (bind_run _ _ _ m w) by (by apply wrap_err_run, has_meta_run). rewrite decide_False by done.
  destruct (Join_entry w dir "manifest.bin" Hd eq_refl) as [Hne Hat].
  rewrite (bind_run _ _ _ (es, h) w)
    by (apply wrap_err_run; eapply ReadManifest_run; [done|done|by rewrite Hat|done]).
  destruct (entries_count _ _ _ _ Hpm) as [Hmg Hct]. rewrite decide_False by tauto.
  destruct (HasFlag _ FlagCompressed).
  - destruct Hfl as [k Hk]. by rewrite (bind_run _ _ _ k w) by (by apply wrap_err_run, (Hst deviceZst)).
  - destruct (Stat_nofault (PathJoin [dir; "device.bin"]) w Hnf) as [[k Hk]|[e He]].
    + by rewrite (bind_run _ _ _ (inr k) w) by (by apply attempt_run).
    + rewrite (bind_run _ _ _ (inl e) w) by (by apply attempt_err). destruct Hfl as [->|[k Hk]]; [done|].
      rewrite (Hst "device.bin" k) in He by done. done.
Qed.

Lemma PreflightRestore_inv dir w u w' :
  dir <> "" -> PreflightRestore dir w = (Ret u, w') -> preflighted (w_fs w) (at_path w dir).
Proof.
  intros Hd. unfold PreflightRestore. intros (b & w1 & Hc & E)%bind_inv.
  apply IsComplete_inv in Hc as (l1 & -> & Hc); [|done]. destruct b; [|done]. cbn [negb] in E.
  apply bind_inv in E as (u2 & w2 & Hs & E).
  apply stat_all_inv in Hs as (l2 & -> & Hfiles); [|done|by repeat constructor].
  rewrite !Forall_cons in Hfiles. destruct Hfiles as (_ & _ & Hcr & _).
  apply bind_inv in E as (m & w4 & Hm%wrap_err_inv & E). apply ReadMeta_inv in Hm as (l4 & -> & Hm); [|done].
  case_decide as Hp; [done|]. apply bind_inv in E as ([es h] & w5 & Hx%wrap_err_inv & E).
  apply ReadManifest_inv in Hx as (l5 & c & rest & -> & Hman & Hpm). rewrite at_path_Join in Hman by done.
  destruct (entries_count _ _ _ _ Hpm) as [_ Hct]. case_decide as Hz; [done|].
  split; [by apply Hc|exact Hcr|by exists m|]. exists c, es, h, rest. split_and!; [done|done|tauto|].
  assert (Hdev : forall x v k v', proper x = true -> w_fs v = w_fs w -> at_path v dir = at_path w dir ->
    Stat (PathJoin [dir; x]) v = (Ret k, v') -> is_Some (w_fs w !! (at_path w dir ++ [x]))).
  { intros x v k v' Hx <- <- H. destruct (Join_entry v dir x Hd Hx) as [Hne <-].
    apply Stat_inv in H as (_ & _ & ->); [by eexists|done]. }
  destruct (HasFlag _ FlagCompressed).
  - apply bind_inv in E as (k & w6 & Hx%wrap_err_inv & _). by eapply Hdev, Hx.
  - apply bind_inv in E as (r & w6 & Hx & E). apply attempt_inv in Hx as [(k & -> & Hk)|(e & -> & _)].
    + right. by eapply Hdev, Hk.
    + left. by destruct (HasFlag _ FlagDelta).
Qed.

Lemma preflight_iff w dir :
  nofault w -> dir <> "" ->
  PreflightRestore dir w = (Ret tt, w) <-> preflighted (w_fs w) (at_path w dir).
Proof. intros Hnf Hd. split; [by apply PreflightRestore_inv|by apply preflighted_run]. Qed.

Lemma preflight_ret w dir :
  nofault w -> dir <> "" -> (PreflightRestore dir w).1 = Ret tt -> PreflightRestore dir w = (Ret tt, w).
Proof.
  intros Hnf Hd Hr. apply preflighted_run; [done..|]. destruct (PreflightRestore dir w) as [r w'] eqn:E.
  cbn [fst] in Hr. subst r. by eapply PreflightRestore_inv.
Qed.

(** ** The fault-free check of a plain image *)

(** Creating a directory that is there. *)
Lemma MkdirAll_existing w s :
  nofault w -> fs_wf (w_fs w) -> s <> "" -> w_fs w !! at_path w s = Some NDir ->
  MkdirAll s w = (Ret tt, w).
Proof.
  intros Hnf Hwf Hs Hd. set (l := prefixes (at_path w s) ++ [at_path w s]).
  assert (Hl : forall q, q ∈ l -> w_fs w !! q = Some NDir)
    by (intros q Hq; apply elem_of_prefixes in Hq; by eapply fs_wf_not_blocked).
  rewrite MkdirAll_run; [|done|done|].
  - assert (E : mkdirs (w_fs w) l = w_fs w).
    { apply map_eq. intros q. rewrite lookup_mkdirs. destruct (w_fs w !! q) eqn:Eq; [done|].
      case_decide as Hq; [|done]. apply Hl in Hq. congruence. }
    unfold l in E. by rewrite E, set_fs_id.
  - destruct (blocked _ _) eqn:E; [|done]. apply existsb_exists in E as (q & Hq & Hb).
    apply list_elem_of_In, Hl in Hq. by rewrite Hq in Hb.
Qed.

Lemma verify_entry_run w f d e :
  nofault w -> w_fs w !! f_path f = Some (NFile d) -> in_device d e -> Z.of_nat (length d) <= maxAlloc ->
  verify_entry f e w =
  (if decide (CRC32C (chunk d e) = e_CRC32C e) then Ret tt else Err (Ckpterr.E Code.Invalid "crc mismatch"), w).
Proof.
  intros Hnf Hf (H0 & H1 & H2) Hm. unfold verify_entry. unfold maxAlloc in Hm.
  assert (Hs : forall z, 0 <= z <= 2 ^ 48 -> int64_of_u64 z = z).
  { intros z Hz. unfold int64_of_u64. rewrite u64_small by (unfold is_u64; lia). case_decide; lia. }
  rewrite !Hs by lia.
  erewrite bind_run.
  2:{ apply wrap_err_run. unfold VerifyChunk, make_ok, maxAlloc. rewrite bool_decide_eq_true_2 by lia.
      erewrite bind_run by (eapply ReadAt_run; [done|done|lia..]). done. }
  cbv beta iota. by case_decide as E; [rewrite bool_decide_eq_true_2|rewrite bool_decide_eq_false_2].
Qed.

Lemma verify_entries_run w f d es :
  nofault w -> w_fs w !! f_path f = Some (NFile d) -> Forall (in_device d) es ->
  Z.of_nat (length d) <= maxAlloc ->
  forM_ es (verify_entry f) w =
  (if decide (Forall (fun e => CRC32C (chunk d e) = e_CRC32C e) es) then Ret tt
   else Err (Ckpterr.E Code.Invalid "crc mismatch"), w).
Proof.
  intros Hnf Hf HF Hm. induction HF as [|e es He HF IH]; [done|]. cbn [forM_].
  pose proof (verify_entry_run w f d e Hnf Hf He Hm) as Hv.
  destruct (decide (CRC32C (chunk d e) = e_CRC32C e)) as [Hc|Hc].
  - rewrite (bind_run _ _ _ _ _ Hv), IH. f_equal.
    destruct (decide (Forall _ es)) as [Ha|Ha].
    + rewrite decide_True; [done|]. by constructor.
    + rewrite decide_False; [done|]. by intros [_ ?]%Forall_cons.
  - rewrite (bind_err _ _ _ _ _ Hv). f_equal. rewrite decide_False; [done|]. by intros [? _]%Forall_cons.
Qed.

Lemma verifyImage_run `{Zstd} w dir p es flags version d fuel :
  nofault w -> fs_wf (w_fs w) -> image_at w dir p es flags version d -> plain flags ->
  verifyImage (S fuel) dir w =
  (if decide (Forall (fun e => CRC32C (chunk d e) = e_CRC32C e) es) then Ret tt
   else Err (Ckpterr.E Code.Invalid "crc mismatch"), w).
Proof.
  intros Hnf Hwf Him Hpl. pose proof Him as [Hd Hp Hdir Hman Hdev Hch Hsz]. unfold verifyImage.
  rewrite (bind_run _ _ _ _ _ (wrap_err_run _ _ _ _ _ _ (ensure_plain fuel _ _ _ _ _ _ _ Hnf Him Hpl))).
  assert (Hnew : Storage.New dir w = (Ret (mkTier dir), w)).
  { unfold Storage.New. rewrite (bind_run _ _ _ _ _ (MkdirAll_existing w dir Hnf Hwf Hd ltac:(by rewrite Hp))). done. }
  rewrite (bind_run _ _ _ _ _ (wrap_err_run _ _ _ _ _ _ Hnew)).
  unfold ManifestPath, Storage.DevicePath. cbn [t_Dir].
  rewrite (bind_run _ _ _ _ _ (wrap_err_run _ _ _ _ _ _ (ReadManifest_image _ _ _ _ _ _ _ Hnf Him))).
  cbv beta iota. rewrite decide_False by (cbn; tauto).
  rewrite (bind_run _ _ _ _ _ (wrap_err_run _ _ _ _ _ _ (Open_image w dir p "device.bin" d Hnf Hd Hp eq_refl Hdev))).
  rewrite (verify_entries_run _ _ d) by (done || by apply in_device_stored). f_equal.
  assert (Hiff : Forall (fun e => CRC32C (chunk d e) = e_CRC32C e) (stored version <$> es) <->
    Forall (fun e => CRC32C (chunk d e) = e_CRC32C e) es).
  { rewrite Forall_fmap. apply Forall_proper; [|done]. intros e. unfold stored, compose, chunk. by case_decide. }
  by repeat case_decide; try tauto.
Qed.

(** ** Properties *)

(** C10: an image that passes ValidateImage is whole, whatever failed on the way:
    it has device content, every entry of its manifest lies in it with the
    checksum the entry had when it was taken, the image is complete, its metadata
    can be read and names the library to preload, and the device number and the
    files of CRIU are there. *)
Theorem ValidateImage_sound `{Zstd} fuel dir w w' :
  dir <> "" -> ValidateImage fuel dir w = (Ret tt, w') -> validated (w_fs w') (at_path w' dir).
Proof. apply ValidateImage_inv. Qed.

(** The check of a plain image, neither compressed nor a delta, succeeds
    exactly when every entry has the checksum of its manifest, reports a
    mismatch otherwise, and changes nothing. *)
Theorem verifyImage_exact `{Zstd} w dir p es flags version d fuel :
  nofault w -> fs_wf (w_fs w) -> image_at w dir p es flags version d -> plain flags ->
  verifyImage (S fuel) dir w =
  (if decide (Forall (fun e => CRC32C (chunk d e) = e_CRC32C e) es) then Ret tt
   else Err (Ckpterr.E Code.Invalid "crc mismatch"), w).
Proof. apply verifyImage_run. Qed.

(** C34: corruption of a plain image, neither compressed nor a delta, is found.
    When up to four consecutive bytes of an entry are not what they were when its
    checksum was taken, the image is refused. (The device content of another
    image is not checked as it lies there: it is made again first, from the
    compressed file or the parent image.) *)
Theorem corruption_refused `{Zstd} w dir p es flags version d fuel e a x y b :
  nofault w -> fs_wf (w_fs w) -> image_at w dir p es flags version d -> plain flags ->
  e ∈ es -> e_CRC32C e = CRC32C (a ++ x ++ b) -> chunk d e = a ++ y ++ b ->
  length x = length y -> (length x <= 4)%nat -> x <> y ->
  verifyImage (S fuel) dir w = (Err (Ckpterr.E Code.Invalid "crc mismatch"), w).
Proof.
  intros Hnf Hwf Him Hpl He Hcrc Hch Hl H4 Hne.
  rewrite (verifyImage_run _ _ _ _ _ _ _ _ Hnf Hwf Him Hpl), decide_False; [done|].
  intros HF. rewrite Forall_forall in HF. specialize (HF e He). rewrite Hch, Hcrc in HF.
  symmetry in HF. by apply Checksum_window in HF.
Qed.

(** ** Witnesses *)

Definition eight : bytes := replicate 8 Byte.x61.
Definition eight_entry : Entry := mkEntry 16384 8 0 (CRC32C eight) 1 (replicate 32 Byte.x00).

(** A complete image of one chunk. *)
Definition whole_image : world :=
  set_fs (list_to_map
    [([], NDir); (["img"], NDir);
     (["img"; "manifest.bin"], NFile (manifest_bytes [eight_entry] 0 2));
     (["img"; "device.bin"], NFile eight);
     (["img"; "dev.bin"], NFile (replicate 4 Byte.x00));
     (["img"; "meta.bin"], NFile (meta_bytes (mkMeta MetaMagic 2 0 4242 0 "/lib/shim.so" "0")));
     (["img"; "criu"], NDir);
     (["img"; completeName], NFile [])]) demo_world.

Lemma whole_image_run : ValidateImage (H:=frame_zstd) 2 "/img" whole_image = (Ret tt, whole_image).
Proof. by vm_compute. Qed.

Lemma ValidateImage_sound_witness : validated (w_fs whole_image) ["img"].
Proof. apply (ValidateImage_sound (H:=frame_zstd) 2 "/img" whole_image whole_image); [done|apply whole_image_run]. Defined.

Lemma eight_image_at d : length d = 8%nat ->
  image_at (demo_image [eight_entry] 0 d) "/img" ["img"] [eight_entry] 0 2 d.
Proof.
  intros Hd. apply demo_image_at.
  - split; [|by split|done|by split]. repeat constructor; by vm_compute.
  - constructor; [|constructor]. unfold in_device. cbn. rewrite Hd. lia.
  - rewrite Hd. unfold maxAlloc. lia.
Qed.

Lemma verifyImage_exact_witness :
  let w := demo_image [eight_entry] 0 eight in
  verifyImage (H:=frame_zstd) 1 "/img" w =
  (if decide (Forall (fun e => CRC32C (chunk eight e) = e_CRC32C e) [eight_entry]) then Ret tt
   else Err (Ckpterr.E Code.Invalid "crc mismatch"), w).
Proof.
  apply (verifyImage_exact (H:=frame_zstd) _ "/img" ["img"] [eight_entry] 0 2 eight 0);
    [done|apply demo_image_wf|by apply eight_image_at|done].
Defined.

Lemma corruption_refused_witness :
  let w := demo_image [eight_entry] 0 (replicate 4 Byte.x61 ++ [Byte.x62; Byte.x61] ++ replicate 2 Byte.x61) in
  verifyImage (H:=frame_zstd) 1 "/img" w = (Err (Ckpterr.E Code.Invalid "crc mismatch"), w).
Proof.
  apply (corruption_refused (H:=frame_zstd) _ "/img" ["img"] [eight_entry] 0 2
    (replicate 4 Byte.x61 ++ [Byte.x62; Byte.x61] ++ replicate 2 Byte.x61) 0 eight_entry
    (replicate 4 Byte.x61) [Byte.x61; Byte.x61] [Byte.x62; Byte.x61] (replicate 2 Byte.x61));
    [done|apply demo_image_wf|by apply eight_image_at|done|by left|done..|cbn; lia|done].
Defined.
