(* ===== verification/Text.v ===== *)
(** strings.TrimSpace and bufio.Scanner, as the code reads its line-based
    files with them. *)
From S2P Require Export OSFacts.
Local Open Scope Z_scope.

(** ** TrimSpace *)

(** The UTF-8 encodings of the characters with the White_Space property. *)
Definition spaces : list bytes :=
  [[Byte.x09]; [Byte.x0a]; [Byte.x0b]; [Byte.x0c]; [Byte.x0d]; [Byte.x20];
   [Byte.xc2; Byte.x85]; [Byte.xc2; Byte.xa0]; [Byte.xe1; Byte.x9a; Byte.x80];
   [Byte.xe2; Byte.x80; Byte.x80]; [Byte.xe2; Byte.x80; Byte.x81]; [Byte.xe2; Byte.x80; Byte.x82];
   [Byte.xe2; Byte.x80; Byte.x83]; [Byte.xe2; Byte.x80; Byte.x84]; [Byte.xe2; Byte.x80; Byte.x85];
   [Byte.xe2; Byte.x80; Byte.x86]; [Byte.xe2; Byte.x80; Byte.x87]; [Byte.xe2; Byte.x80; Byte.x88];
   [Byte.xe2; Byte.x80; Byte.x89]; [Byte.xe2; Byte.x80; Byte.x8a]; [Byte.xe2; Byte.x80; Byte.xa8];
   [Byte.xe2; Byte.x80; Byte.xa9]; [Byte.xe2; Byte.x80; Byte.xaf]; [Byte.xe2; Byte.x81; Byte.x9f];
   [Byte.xe3; Byte.x80; Byte.x80]].

(** What follows the first of the given prefixes that [l] has. *)
Fixpoint strip_one (ps : list bytes) (l : bytes) : option bytes :=
  match ps with
  | [] => None
  | p :: ps => if decide (p `prefix_of` l) then Some (drop (length p) l) else strip_one ps l
  end.

Fixpoint trim (ps : list bytes) (fuel : nat) (l : bytes) : bytes :=
  match fuel with
  | O => l
  | S fuel => match strip_one ps l with Some l' => trim ps fuel l' | None => l end
  end.

Definition trim_left (l : bytes) : bytes := trim spaces (length l) l.
Definition trim_right (l : bytes) : bytes := reverse (trim (reverse <$> spaces) (length l) (reverse l)).

Definition TrimSpace (s : string) : string := string_of_bytes (trim_right (trim_left (bytes_of_string s))).

Example trim_ex : TrimSpace (String newline " 42 " +:+ String newline "") = "42".
Proof. reflexivity. Qed.
Example trim_empty : TrimSpace "   " = "".
Proof. reflexivity. Qed.

(** ** bufio.Scanner, by lines *)

(** bufio.MaxScanTokenSize: a longer line is an error. *)
Definition max_token : nat := Z.to_nat 65536.

Definition drop_cr (l : bytes) : bytes :=
  match last l with Some Byte.x0d => removelast l | _ => l end.

(** The lines of [l], and the error the scanner stops with. [line] is what has
    been read of the current one. *)
Fixpoint scan_lines (l line : bytes) : list string * option goerr :=
  match l with
  | [] =>
      if decide (line = []) then ([], None)
      else if decide (max_token <= length line)%nat then ([], Some (EText "bufio.Scanner: token too long"))
      else ([string_of_bytes (drop_cr line)], None)
  | b :: l =>
      if decide (b = Byte.x0a) then
        if decide (max_token <= length line)%nat then ([], Some (EText "bufio.Scanner: token too long"))
        else let '(ls, e) := scan_lines l [] in (string_of_bytes (drop_cr line) :: ls, e)
      else scan_lines l (line ++ [b])
  end.

Definition ScanLines (c : bytes) : list string * option goerr := scan_lines c [].

Example scan_ex :
  ScanLines (bytes_of_string ("/a" +:+ String newline ("b" +:+ String "013" (String newline "c")))) =
  (["/a"; "b"; "c"], None).
Proof. vm_compute. reflexivity. Qed.

(** ** Facts *)

(** A text that has no space at its ends is left as it is. *)
Lemma strip_one_none ps l : Forall (fun p => ~ p `prefix_of` l) ps -> strip_one ps l = None.
Proof. induction 1 as [|p ps Hp _ IH]; [done|]. cbn. by rewrite decide_False. Qed.

Lemma trim_stop ps n l : strip_one ps l = None -> trim ps n l = l.
Proof. intros H. destruct n as [|n]; [done|]. cbn. by rewrite H. Qed.

(** A printable ASCII character that is not a blank. *)
Definition graphic (b : byte) : Prop := 33 <= Z_of_byte b <= 126.

Lemma graphic_head b l p : graphic b -> p ∈ spaces -> ~ p `prefix_of` b :: l.
Proof.
  intros Hb Hp [k E]. revert Hb. unfold graphic.
  apply list_elem_of_In in Hp. cbn in Hp.
  repeat (destruct Hp as [<-|Hp]; [injection E as -> _; vm_compute; tauto|]). done.
Qed.

Lemma graphic_last b l p : graphic b -> p ∈ reverse <$> spaces -> ~ p `prefix_of` b :: l.
Proof.
  intros Hb Hp [k E]. revert Hb. unfold graphic.
  apply list_elem_of_In in Hp. vm_compute in Hp.
  repeat (destruct Hp as [<-|Hp]; [injection E as -> _; vm_compute; tauto|]). done.
Qed.

Lemma trim_left_graphic b l : graphic b -> trim_left (b :: l) = b :: l.
Proof.
  intros Hb. apply trim_stop, strip_one_none, Forall_forall. intros p Hp. by apply graphic_head.
Qed.

Lemma trim_right_graphic l b : graphic b -> trim_right (l ++ [b]) = l ++ [b].
Proof.
  intros Hb. unfold trim_right. rewrite reverse_app. cbn [reverse app].
  rewrite trim_stop; [by rewrite <- (reverse_app l [b]), reverse_involutive|].
  apply strip_one_none, Forall_forall. intros p Hp. by apply graphic_last.
Qed.

Lemma trim_right_newline l b : graphic b -> trim_right (l ++ [b; Byte.x0a]) = l ++ [b].
Proof.
  intros Hb. unfold trim_right. rewrite reverse_app, length_app, Nat.add_comm.
  change (reverse [b; Byte.x0a]) with [Byte.x0a; b]. cbn [length Nat.add app].
  assert (E : forall t, strip_one (reverse <$> spaces) (Byte.x0a :: t) = Some t) by reflexivity.
  cbn [trim]. rewrite E. rewrite (strip_one_none _ (b :: reverse l)).
  - by rewrite reverse_cons, reverse_involutive.
  - apply Forall_forall. intros p Hp. by apply graphic_last.
Qed.

(** A line of printable characters, read back. *)
Lemma TrimSpace_line l :
  l <> [] -> Forall graphic l -> TrimSpace (string_of_bytes (l ++ [Byte.x0a])) = string_of_bytes l.
Proof.
  intros Hne HF. unfold TrimSpace. rewrite bytes_of_string_of_bytes.
  destruct l as [|b l]; [done|]. cbn [app].
  rewrite trim_left_graphic by (by apply Forall_cons in HF as [? _]).
  change (b :: l ++ [Byte.x0a]) with ((b :: l) ++ [Byte.x0a]).
  destruct (b :: l) as [|x k _] eqn:E using rev_ind; [done|].
  rewrite <- app_assoc. cbn [app]. rewrite trim_right_newline; [done|].
  by apply Forall_app in HF as [_ [? _]%Forall_cons].
Qed.
