(* ===== verification/Fmt.v ===== *)
(** What the program uses of fmt, unicode/utf8, strings.Fields and
    strconv.ParseUint beyond decimal integers. *)
From S2P Require Export Text.
Local Open Scope Z_scope.

(** ** fmt: %x and %08x of unsigned integers *)

Fixpoint format_hex (fuel : nat) (z : Z) (acc : string) : string :=
  match fuel with
  | O => acc
  | S fuel =>
      if decide (z < 16) then String (hex_char z) acc
      else format_hex fuel (z / 16) (String (hex_char (z `mod` 16)) acc)
  end.

Definition FormatHex (z : Z) : string := format_hex (S (Z.to_nat (Z.log2 z))) z "".

(** strings.Repeat of a one-byte string. *)
Definition repeat_byte (b : byte) (n : nat) : string := string_of_bytes (replicate n b).

Definition pad_hex (width : nat) (z : Z) : string :=
  let s := FormatHex z in repeat_byte Byte.x30 (width - String.length s) +:+ s.

Example FormatHex_ex : FormatHex 0xbeef = "beef". Proof. reflexivity. Qed.
Example pad_hex_ex : pad_hex 8 0x2a = "0000002a". Proof. reflexivity. Qed.

Definition line (s : string) : string := s +:+ String newline "".

(** ** fmt: %-10s *)

Definition between (lo hi : Z) (b : byte) : bool := bool_decide (lo <= Z_of_byte b <= hi).
Definition cont (b : byte) : bool := between 0x80 0xbf b.

(** How many bytes the first character of [l] has: 1 for a byte that starts no
    valid encoding. *)
Definition rune_len (l : bytes) : nat :=
  match l with
  | a :: b :: t =>
      if between 0xc2 0xdf a && cont b then 2%nat
      else
        match t with
        | c :: t =>
            if ((between 0xe0 0xe0 a && between 0xa0 0xbf b) || (between 0xe1 0xec a && cont b) ||
                (between 0xed 0xed a && between 0x80 0x9f b) || (between 0xee 0xef a && cont b)) && cont c
            then 3%nat
            else
              match t with
              | d :: _ =>
                  if ((between 0xf0 0xf0 a && between 0x90 0xbf b) || (between 0xf1 0xf3 a && cont b) ||
                      (between 0xf4 0xf4 a && between 0x80 0x8f b)) && cont c && cont d
                  then 4%nat else 1%nat
              | [] => 1%nat
              end
        | [] => 1%nat
        end
  | _ => 1%nat
  end.

Fixpoint rune_count (fuel : nat) (l : bytes) : nat :=
  match fuel, l with
  | S fuel, _ :: _ => S (rune_count fuel (drop (rune_len l) l))
  | _, _ => 0%nat
  end.

(** utf8.RuneCountInString. *)
Definition RuneCount (s : string) : nat := rune_count (String.length s) (bytes_of_string s).

(** %-*s: the width counts characters. *)
Definition pad_right (width : nat) (s : string) : string := s +:+ repeat_byte Byte.x20 (width - RuneCount s).

Example RuneCount_ex : RuneCount (string_of_bytes [Byte.x61; Byte.xc3; Byte.xa9; Byte.xff; Byte.xe2; Byte.x82; Byte.xac]) = 4%nat.
Proof. reflexivity. Qed.
Example pad_right_ex : pad_right 4 "ok" = "ok  ". Proof. reflexivity. Qed.

(** ** strings.Fields *)

(** [cur] is what has been read of the current field. *)
Fixpoint fields_from (fuel : nat) (l cur : bytes) : list string :=
  let flush := if decide (cur = []) then [] else [string_of_bytes cur] in
  match fuel with
  | O => flush
  | S fuel =>
      match l with
      | [] => flush
      | b :: t =>
          match strip_one spaces l with
          | Some l => flush ++ fields_from fuel l []
          | None => fields_from fuel t (cur ++ [b])
          end
      end
  end.

Definition Fields (s : string) : list string := fields_from (String.length s) (bytes_of_string s) [].

Example Fields_ex : Fields ("CapEff:" +:+ String "009" " 1f  2") = ["CapEff:"; "1f"; "2"].
Proof. vm_compute. reflexivity. Qed.

(** ** strconv.ParseUint(s, 16, 64) *)

(** [inl] says whether the number is out of range, rather than malformed: with
    both faults the first one counts. *)
Fixpoint parse_hex64 (s : string) (acc : Z) : bool + Z :=
  match s with
  | EmptyString => inr acc
  | String c s =>
      match hex_val c with
      | None => inl false
      | Some d => let n := 16 * acc + d in if decide (n < 2 ^ 64) then parse_hex64 s n else inl true
      end
  end.

Definition ParseUint16 (s : string) : bool + Z :=
  if decide (s = "") then inl false else parse_hex64 s 0.

Example ParseUint16_ex : ParseUint16 "00000000A80425fb" = inr 0xa80425fb. Proof. reflexivity. Qed.
Example ParseUint16_range : ParseUint16 "10000000000000000" = inl true. Proof. reflexivity. Qed.

(** ** Facts *)

Lemma parse_format_hex fuel z acc :
  0 <= z < 2 ^ 64 -> z < 16 ^ Z.of_nat fuel -> parse_hex64 (format_hex fuel z acc) 0 = parse_hex64 acc z.
Proof.
  revert z acc. induction fuel as [|fuel IH]; intros z acc Hz Hf.
  - cbn in *. by replace z with 0 by lia.
  - cbn [format_hex]. case_decide as Hlt.
    + cbn [parse_hex64]. rewrite hex_val_char by lia. cbv zeta. rewrite decide_True by lia. f_equal; lia.
    + rewrite Nat2Z.inj_succ, Z.pow_succ_r in Hf by lia.
      pose proof (Z.div_mod z 16 ltac:(lia)) as Hdm. pose proof (Z.mod_pos_bound z 16 ltac:(lia)) as Hm.
      rewrite IH; [|split; [apply Z.div_pos; lia|lia]|apply Z.div_lt_upper_bound; lia].
      cbn [parse_hex64]. rewrite hex_val_char by lia. cbv zeta. rewrite decide_True by lia. f_equal. lia.
Qed.

Lemma FormatHex_fuel z : 0 <= z -> z < 16 ^ Z.of_nat (S (Z.to_nat (Z.log2 z))).
Proof.
  intros Hz. destruct (decide (z = 0)) as [->|]; [done|].
  rewrite Nat2Z.inj_succ, Z2Nat.id by apply Z.log2_nonneg.
  pose proof (Z.log2_spec z ltac:(lia)) as [_ Hl]. eapply Z.lt_le_trans; [exact Hl|].
  apply Z.pow_le_mono_l. lia.
Qed.

Lemma hex_char_graphic d : 0 <= d < 16 -> graphic (byte_of_ascii (hex_char d)).
Proof.
  intros Hd. assert (H : Forall (fun n => graphic (byte_of_ascii (hex_char n))) (seqZ 0 16)).
  { repeat (constructor; [split; by vm_compute|]). constructor. }
  rewrite Forall_forall in H. apply H, elem_of_seqZ. lia.
Qed.

Lemma format_hex_graphic fuel z acc :
  0 <= z -> Forall graphic (bytes_of_string acc) ->
  Forall graphic (bytes_of_string (format_hex fuel z acc)) /\
  (fuel + String.length acc > 0 -> String.length (format_hex fuel z acc) > 0)%nat.
Proof.
  revert z acc. induction fuel as [|fuel IH]; intros z acc Hz Ha; [done|]. cbn [format_hex].
  assert (Hd : forall d, 0 <= d < 16 -> Forall graphic (bytes_of_string (String (hex_char d) acc))).
  { intros d Hd. change (bytes_of_string (String (hex_char d) acc))
      with (byte_of_ascii (hex_char d) :: bytes_of_string acc). constructor; [by apply hex_char_graphic|done]. }
  case_decide; [split; [apply Hd; lia|cbn; lia]|].
  destruct (IH (z / 16) (String (hex_char (z `mod` 16)) acc)) as [H1 H2];
    [apply Z.div_pos; lia|apply Hd, Z.mod_pos_bound; lia|].
  split; [done|]. intros _. apply H2. cbn. lia.
Qed.

Lemma pad_hex_graphic width z :
  0 <= z -> Forall graphic (bytes_of_string (pad_hex width z)) /\ pad_hex width z <> "".
Proof.
  intros Hz. unfold pad_hex, repeat_byte. cbv zeta. set (n := (width - _)%nat). clearbody n.
  destruct (format_hex_graphic (S (Z.to_nat (Z.log2 z))) z "" Hz (Forall_nil_2 _)) as [H1 H2].
  fold (FormatHex z) in H1, H2. rewrite bytes_of_string_app, bytes_of_string_of_bytes. split.
  - apply Forall_app. split; [|done]. apply Forall_replicate. split; by vm_compute.
  - intros E. apply (f_equal String.length) in E. rewrite length_app_str in E.
    specialize (H2 ltac:(cbn; lia)). change (String.length "") with 0%nat in E. lia.
Qed.

(** What %016x prints is read back. *)
Lemma ParseUint16_pad_hex width z : 0 <= z < 2 ^ 64 -> ParseUint16 (pad_hex width z) = inr z.
Proof.
  intros Hz. unfold ParseUint16. rewrite decide_False by (apply pad_hex_graphic; lia).
  unfold pad_hex. cbv zeta. set (n := (width - _)%nat). clearbody n.
  induction n as [|n IH]; [|exact IH].
  change (repeat_byte Byte.x30 0) with "". rewrite app_empty_str. apply parse_format_hex; [done|].
  apply FormatHex_fuel. lia.
Qed.

(** *** Fields *)

Lemma fields_from_graphic fuel a l cur :
  Forall graphic a -> (length a <= fuel)%nat ->
  fields_from fuel (a ++ l) cur = fields_from (fuel - length a) l (cur ++ a).
Proof.
  revert fuel cur. induction a as [|b a IH]; intros fuel cur Ha Hf; cbn [app length].
  - by rewrite Nat.sub_0_r, app_nil_r.
  - cbn in Hf. destruct fuel as [|fuel]; [lia|]. apply Forall_cons in Ha as [Hb Ha]. cbn [fields_from Nat.sub].
    rewrite strip_one_none by (apply Forall_forall; intros p Hp; by apply graphic_head).
    rewrite IH by (done || lia). by rewrite <- app_assoc.
Qed.

(** Two words with a tab between them. *)
Lemma Fields_two a b :
  Forall graphic (bytes_of_string a) -> a <> "" -> Forall graphic (bytes_of_string b) -> b <> "" ->
  Fields (a +:+ String "009" b) = [a; b].
Proof.
  intros Ha Hae Hb Hbe. unfold Fields.
  assert (Hne : forall s, s <> "" -> bytes_of_string s <> []).
  { intros s Hs E. apply Hs. rewrite <- (string_of_bytes_of_string s), E. done. }
  assert (Hlen : forall s, String.length s = length (bytes_of_string s)).
  { intros s. induction s as [|c s IH]; [done|]. cbn. by rewrite IH. }
  rewrite length_app_str, bytes_of_string_app. cbn [String.length]. rewrite !Hlen.
  rewrite fields_from_graphic by (done || lia).
  replace (_ - _)%nat with (S (length (bytes_of_string b))) by lia. cbn [app].
  change (bytes_of_string (String "009" b)) with (Byte.x09 :: bytes_of_string b). cbn [fields_from].
  change (strip_one spaces (Byte.x09 :: bytes_of_string b)) with (Some (bytes_of_string b)). cbv iota beta.
  rewrite decide_False by (by apply Hne).
  rewrite <- (app_nil_r (bytes_of_string b)) at 2. rewrite fields_from_graphic by (done || lia).
  rewrite Nat.sub_diag. cbn [fields_from app]. rewrite decide_False by (by apply Hne).
  by rewrite !string_of_bytes_of_string.
Qed.
