(* ===== verification/Retention.v ===== *)
(** pkg/control/retention.go: which images of the image root are removed. *)
From S2P Require Export Text Staging.
Local Open Scope Z_scope.

Record GCOptions := mkGCOptions {
  Root : string;
  MaxAge : Z;           (** a duration in nanoseconds *)
  PinFile : string;
  Now : option Z;       (** the zero time is [None] *)
}.

Record GCPlan := mkGCPlan { plan_Remove : list string; plan_Keep : list string }.

Definition comment (line : string) : bool := bool_decide (line = "") || HasPrefix line "#".

(** The pinned paths among the lines of the pin file. *)
Definition pinned_lines (lines : list string) : gset string :=
  foldl (fun out l => let line := TrimSpace l in
           if comment line then out else {[Clean line]} ∪ out) ∅ lines.

Definition LoadPinnedPaths (path : string) : M (gset string) :=
  if decide (path = "") then mret ∅
  else
    r ← attempt (Open path);
    match r with
    | inl e => if IsNotExist e then mret ∅ else throw e
    | inr f =>
        c ← fread f;
        match ScanLines c with
        | (lines, None) => mret (pinned_lines lines)
        | (_, Some e) => throw e
        end
    end.

(** time.Time.Sub: the difference saturates to the range of a Duration. *)
Definition time_sub (a b : Z) : Z := Z.max (- 2 ^ 63) (Z.min (2 ^ 63 - 1) (a - b)).

(** os.Stat, for the modification time. *)
Definition StatModTime (path : string) : M Z :=
  Stat path ;; gets (fun w => w_mtime w (at_path w path)).

(** What becomes of one entry of the image root: removed, kept, or neither
    (its Stat fails). *)
Inductive verdict := Remove_it | Keep_it | Skip_it.

Definition classify (opts : GCOptions) (now : Z) (pinned : gset string) (name : string) : M verdict :=
  let path := PathJoin [Root opts; name] in
  let clean := Clean path in
  if decide (clean ∈ pinned) then mret Keep_it
  else if HasSuffix name ".staging" then mret Remove_it
  else
    complete ← IsComplete path;
    if negb complete then mret Keep_it
    else
      st ← attempt (StatModTime path);
      match st with
      | inl _ => mret Skip_it
      | inr mtime =>
          if decide (MaxAge opts > 0 /\ time_sub now mtime >= MaxAge opts)
          then mret Remove_it else mret Keep_it
      end.

Fixpoint plan_entries (opts : GCOptions) (now : Z) (pinned : gset string)
    (ents : list dirent) (plan : GCPlan) : M GCPlan :=
  match ents with
  | [] => mret plan
  | e :: ents =>
      if negb (de_isdir e) then plan_entries opts now pinned ents plan
      else
        let path := PathJoin [Root opts; de_name e] in
        v ← classify opts now pinned (de_name e);
        plan_entries opts now pinned ents
          match v with
          | Remove_it => mkGCPlan (plan_Remove plan ++ [path]) (plan_Keep plan)
          | Keep_it => mkGCPlan (plan_Remove plan) (plan_Keep plan ++ [path])
          | Skip_it => plan
          end
  end.

Definition gc_defaults (opts : GCOptions) : GCOptions :=
  mkGCOptions (if decide (Root opts = "") then "/var/lib/cudackpt" else Root opts)
    (MaxAge opts) (PinFile opts) (Now opts).

Definition PlanImageGC (opts : GCOptions) : M GCPlan :=
  let opts := gc_defaults opts in
  now ← match Now opts with Some t => mret t | None => gets w_now end;
  pinned ← LoadPinnedPaths (PinFile opts);
  r ← attempt (ReadDir (Root opts));
  match r with
  | inl e => if IsNotExist e then mret (mkGCPlan [] []) else throw e
  | inr ents => plan_entries opts now pinned ents (mkGCPlan [] [])
  end.

(** The paths removed, and the error it stopped with. *)
Fixpoint apply_removals (paths : list string) (dryRun : bool) (removed : list string)
    : M (list string * option goerr) :=
  match paths with
  | [] => mret (removed, None)
  | path :: paths =>
      if dryRun then apply_removals paths dryRun (removed ++ [path])
      else
        r ← attempt (RemoveAll path);
        match r with
        | inl e => mret (removed, Some e)
        | inr _ => apply_removals paths dryRun (removed ++ [path])
        end
  end.

Definition ApplyGCPlan (plan : GCPlan) (dryRun : bool) : M (list string * option goerr) :=
  apply_removals (plan_Remove plan) dryRun [].

Definition RunImageGC (opts : GCOptions) (dryRun : bool) : M (GCPlan * (list string * option goerr)) :=
  plan ← PlanImageGC opts;
  removed ← ApplyGCPlan plan dryRun;
  mret (plan, removed).

(** ** What a fault-free run decides *)

(** The paths the pin file names. *)
Definition pins (w : world) (file : string) : gset string :=
  if decide (file = "") then ∅
  else match w_fs w !! at_path w file with
       | Some (NFile c) => pinned_lines (ScanLines c).1
       | _ => ∅
       end.

(** The pin file can be read: it is absent, or a file of lines of a bounded
    length. *)
Definition pins_ok (w : world) (file : string) : Prop :=
  file = "" \/
  (w_fs w !! at_path w file = None /\ missing_errno (w_fs w) (at_path w file) = ENOENT) \/
  exists c, w_fs w !! at_path w file = Some (NFile c) /\ (ScanLines c).2 = None.

Definition clock (opts : GCOptions) (w : world) : Z :=
  match Now opts with Some t => t | None => w_now w end.

(** An image that is removed: not pinned, and either a staging directory or
    complete and old enough. *)
Definition removable (opts : GCOptions) (w : world) (name : string) : Prop :=
  let path := PathJoin [Root opts; name] in
  Clean path ∉ pins w (PinFile opts) /\
  (HasSuffix name ".staging" = true \/
   (is_Some (w_fs w !! (at_path w (Root opts) ++ [name; completeName])) /\
    MaxAge opts > 0 /\
    time_sub (clock opts w) (w_mtime w (at_path w (Root opts) ++ [name])) >= MaxAge opts)).

#[global] Instance removable_dec opts w name : Decision (removable opts w name).
Proof. unfold removable; apply _. Defined.

Lemma LoadPinnedPaths_run w file :
  nofault w -> pins_ok w file -> LoadPinnedPaths file w = (Ret (pins w file), w).
Proof.
  intros Hnf Hok. unfold LoadPinnedPaths, pins. destruct (decide (file = "")) as [|Hne]; [done|].
  destruct Hok as [?|[[Hn Herr]|(c & Hc & He)]]; [done| |].
  - erewrite bind_run by (apply attempt_err; by apply Open_missing). by rewrite Hn, Herr.
  - erewrite bind_run by (apply attempt_run; by eapply Open_run). cbv beta iota.
    erewrite bind_run by (by apply fread_run). rewrite Hc.
    destruct (ScanLines c) as [lines e]. cbn in *. by subst.
Qed.

Section run.
Context (opts : GCOptions) (w : world).
Context (Hnf : nofault w) (Hroot : Root opts <> "").
Context (Hnames : forall x n, w_fs w !! (at_path w (Root opts) ++ [x]) = Some n -> proper x = true).

Lemma entry_path x :
  proper x = true -> PathJoin [Root opts; x] <> "" /\
  at_path w (PathJoin [Root opts; x]) = at_path w (Root opts) ++ [x].
Proof using Hroot. intros Hx. by apply Join_entry. Qed.

Lemma classify_run x n :
  w_fs w !! (at_path w (Root opts) ++ [x]) = Some n ->
  classify opts (clock opts w) (pins w (PinFile opts)) x w =
  (Ret (if decide (removable opts w x) then Remove_it else Keep_it), w).
Proof using Hnf Hroot Hnames.
  intros Hn. pose proof (Hnames x n Hn) as Hx. destruct (entry_path x Hx) as [Hne Hat].
  unfold classify. cbv zeta.
  destruct (decide (Clean (PathJoin [Root opts; x]) ∈ pins w (PinFile opts))) as [Hp|Hp].
  { by rewrite decide_False by (intros [? _]; done). }
  destruct (HasSuffix x ".staging") eqn:Hs; [by rewrite decide_True by (split; auto)|].
  unfold IsComplete.
  destruct (Join_entry w (PathJoin [Root opts; x]) completeName Hne eq_refl) as [Hcne Hcat].
  rewrite Hat, <- app_assoc in Hcat. cbn [app] in Hcat.
  destruct (w_fs w !! (at_path w (Root opts) ++ [x; completeName])) as [m|] eqn:Hc.
  - erewrite bind_run by (erewrite bind_run by (apply attempt_run; eapply Stat_run; [done|done|by rewrite Hcat]); done).
    cbn [negb]. erewrite bind_run.
    2:{ apply attempt_run. unfold StatModTime. erewrite bind_run by (eapply Stat_run; [done|done|by rewrite Hat]).
        done. }
    rewrite Hat. cbv beta iota. case_decide as Hage.
    + by rewrite decide_True by (split; [done|right; eauto]).
    + rewrite decide_False; [done|]. intros (_ & [Hs'|(_ & Hage')]); [congruence|by apply Hage].
  - erewrite bind_run.
    2:{ erewrite bind_run by (apply attempt_err; unfold Stat; rewrite syscall_run by done;
          rewrite find_node_none by (done || by rewrite Hcat); done). done. }
    cbn [negb]. rewrite decide_False; [done|].
    intros (_ & [Hs'|([k Hk] & _)]); congruence.
Qed.
End run.

(** The plan of a fault-free run. *)
Definition planned (opts : GCOptions) (w : world) (which : dirent -> Prop)
    `{forall e, Decision (which e)} : list string :=
  (fun e => PathJoin [Root opts; de_name e]) <$>
    filter which (children (at_path w (Root opts)) (w_fs w)).

Definition to_remove (opts : GCOptions) (w : world) (e : dirent) : Prop :=
  de_isdir e = true /\ removable opts w (de_name e).
Definition to_keep (opts : GCOptions) (w : world) (e : dirent) : Prop :=
  de_isdir e = true /\ ~ removable opts w (de_name e).
#[global] Instance to_remove_dec opts w e : Decision (to_remove opts w e).
Proof. unfold to_remove; apply _. Defined.
#[global] Instance to_keep_dec opts w e : Decision (to_keep opts w e).
Proof. unfold to_keep; apply _. Defined.

Section plan.
Context (opts : GCOptions) (w : world).
Context (Hnf : nofault w) (Hroot : Root opts <> "").
Context (Hnames : forall x n, w_fs w !! (at_path w (Root opts) ++ [x]) = Some n -> proper x = true).

Lemma plan_entries_run ents plan :
  (forall e, e ∈ ents -> exists n, w_fs w !! (at_path w (Root opts) ++ [de_name e]) = Some n) ->
  plan_entries opts (clock opts w) (pins w (PinFile opts)) ents plan w =
  (Ret (mkGCPlan
     (plan_Remove plan ++ ((fun e => PathJoin [Root opts; de_name e]) <$> filter (to_remove opts w) ents))
     (plan_Keep plan ++ ((fun e => PathJoin [Root opts; de_name e]) <$> filter (to_keep opts w) ents))), w).
Proof using Hnf Hroot Hnames.
  revert plan. induction ents as [|e ents IH]; intros plan Hents.
  { cbn. rewrite !app_nil_r. by destruct plan. }
  cbn [plan_entries]. rewrite !filter_cons.
  assert (Hrest : forall e', e' ∈ ents -> exists n, w_fs w !! (at_path w (Root opts) ++ [de_name e']) = Some n)
    by (intros e' He'; apply Hents; set_solver).
  destruct (de_isdir e) eqn:Hd; cbn [negb].
  2:{ rewrite IH by done. by rewrite !decide_False by (intros [E _]; congruence). }
  destruct (Hents e) as [n Hn]; [set_solver|].
  rewrite (bind_run _ _ _ _ _ (classify_run opts w Hnf Hroot Hnames _ n Hn)).
  destruct (decide (removable opts w (de_name e))) as [Hr|Hr].
  - rewrite IH by done. cbn [plan_Remove plan_Keep].
    rewrite (decide_True (P := to_remove opts w e)) by done.
    rewrite (decide_False (P := to_keep opts w e)) by (intros [_ ?]; done).
    by rewrite fmap_cons, <- app_assoc.
  - rewrite IH by done. cbn [plan_Remove plan_Keep].
    rewrite (decide_False (P := to_remove opts w e)) by (intros [_ ?]; done).
    rewrite (decide_True (P := to_keep opts w e)) by done.
    by rewrite fmap_cons, <- app_assoc.
Qed.

Lemma PlanImageGC_run :
  pins_ok w (PinFile opts) -> w_fs w !! at_path w (Root opts) = Some NDir ->
  PlanImageGC opts w = (Ret (mkGCPlan (planned opts w (to_remove opts w)) (planned opts w (to_keep opts w))), w).
Proof using Hnf Hroot Hnames.
  intros Hpins Hdir. unfold PlanImageGC.
  assert (Hd : gc_defaults opts = opts) by (unfold gc_defaults; rewrite decide_False by done; by destruct opts).
  rewrite Hd. cbv zeta.
  assert (Hnow : match Now opts with Some t => mret t | None => gets w_now end w = (Ret (clock opts w), w))
    by (unfold clock; by destruct (Now opts)).
  rewrite (bind_run _ _ _ _ _ Hnow).
  rewrite (bind_run _ _ _ _ _ (LoadPinnedPaths_run _ _ Hnf Hpins)).
  erewrite bind_run.
  2:{ apply attempt_run. unfold ReadDir. rewrite syscall_run by done.
      rewrite (find_node_some _ _ NDir) by done. done. }
  cbv beta iota. rewrite plan_entries_run; [done|].
  intros e He. apply elem_of_children in He as (n & Hn & _). by exists n.
Qed.
End plan.

(** ** Applying a plan *)

Lemma apply_removals_spec paths dry removed w r e w' :
  apply_removals paths dry removed w = (Ret (r, e), w') ->
  (exists k, r = removed ++ k /\ k `prefix_of` paths /\ (e = None -> k = paths)) /\
  (dry = true -> w' = w /\ e = None) /\
  w_cwd w' = w_cwd w /\
  (forall q, (forall path, path ∈ paths -> ~ at_path w path `prefix_of` q) -> w_fs w' !! q = w_fs w !! q).
Proof.
  revert removed w. induction paths as [|path paths IH]; intros removed w H; cbn [apply_removals] in H.
  { injection H as <- <- <-. split_and!; try done. exists []. by rewrite app_nil_r. }
  destruct dry.
  { apply IH in H as ((k & -> & Hk & He) & H2 & H3 & H4). split_and!; try done.
    - exists (path :: k). rewrite <- app_assoc. split; [done|]. split; [by apply prefix_cons|].
      intros E. by rewrite (He E).
    - intros q Hq. apply H4. set_solver. }
  apply bind_inv in H as (x & w1 & Hx & H).
  set (S := fun q => at_path w path `prefix_of` q).
  assert (Hf : framed (w_cwd w) S (attempt (RemoveAll path)))
    by (apply framed_attempt, framed_RemoveAll; done).
  pose proof (Hf w eq_refl) as F. rewrite Hx in F. cbn [snd] in F.
  destruct F as (Fc & _ & _ & F). destruct x as [e1|[]].
  - injection H as <- <- <-. split_and!; [|done|done|].
    + exists []. rewrite app_nil_r. split; [done|]. split; [apply prefix_nil|done].
    + intros q Hq. apply F. apply Hq. set_solver.
  - apply IH in H as ((k & -> & Hk & He) & _ & H3 & H4). split_and!; [|done|congruence|].
    + exists (path :: k). rewrite <- app_assoc. split; [done|]. split; [by apply prefix_cons|].
      intros E. by rewrite (He E).
    + intros q Hq. rewrite H4; [apply F, Hq; set_solver|].
      intros path' Hp'. unfold at_path. rewrite Fc. apply Hq. set_solver.
Qed.

(** One image removed. *)
Lemma RemoveAll_entry w root x :
  nofault w -> fs_wf (w_fs w) -> root <> "" -> proper x = true ->
  is_Some (w_fs w !! (at_path w root ++ [x])) ->
  RemoveAll (PathJoin [root; x]) w = (Ret tt, set_fs (remove_tree (at_path w root ++ [x]) (w_fs w)) w).
Proof.
  intros Hnf Hwf Hr Hx [n Hn]. destruct (Join_entry w root x Hr Hx) as [Hne Hat].
  destruct (PathJoin2_last root x Hr Hx) as [l Hl].
  erewrite RemoveAll_run; [by rewrite Hat|done|done| |by rewrite Hat|rewrite Hat; by destruct (at_path w root)].
  eapply (names_not_dot (w_cwd w) _ (at_path w root) x). split_and!; [done|by exists l|done|done].
Qed.

Definition remove_entries (root : path) (xs : list string) (fs : gmap path node) : gmap path node :=
  foldl (fun fs x => remove_tree (root ++ [x]) fs) fs xs.

Lemma lookup_remove_entries root xs fs q :
  remove_entries root xs fs !! q =
  if decide (Exists (fun x => root ++ [x] `prefix_of` q) xs) then None else fs !! q.
Proof.
  unfold remove_entries. revert fs. induction xs as [|x xs IH]; intros fs.
  - cbn. rewrite decide_False; [done|]. by intros H%Exists_nil.
  - cbn [foldl]. rewrite IH, lookup_remove_tree.
    destruct (decide (Exists _ xs)) as [Hy|Hy].
    + rewrite decide_True; [done|]. by right.
    + destruct (decide (root ++ [x] `prefix_of` q)) as [Hq|Hq].
      * rewrite decide_True; [done|]. by left.
      * rewrite decide_False; [done|]. intros [?|?]%Exists_cons; done.
Qed.

Lemma apply_removals_run root xs w removed :
  nofault w -> fs_wf (w_fs w) -> root <> "" -> NoDup xs ->
  Forall (fun x => proper x = true /\ is_Some (w_fs w !! (at_path w root ++ [x]))) xs ->
  apply_removals ((fun x => PathJoin [root; x]) <$> xs) false removed w =
  (Ret (removed ++ ((fun x => PathJoin [root; x]) <$> xs), None),
   set_fs (remove_entries (at_path w root) xs (w_fs w)) w).
Proof.
  intros Hnf Hwf Hr Hnd HF. revert w removed Hnf Hwf HF.
  induction Hnd as [|x xs Hx Hnd IH]; intros w removed Hnf Hwf HF.
  { cbn. by rewrite app_nil_r, set_fs_id. }
  apply Forall_cons in HF as [[Hp Hs] HF]. rewrite fmap_cons. cbn [apply_removals].
  rewrite (bind_run _ _ _ _ _ (attempt_run _ _ _ _ (RemoveAll_entry w root x Hnf Hwf Hr Hp Hs))).
  cbv beta iota. rewrite IH.
  - by rewrite <- app_assoc.
  - done.
  - apply fs_wf_remove_tree; [done|]. by destruct (at_path w root).
  - apply Forall_forall. intros y Hy. rewrite Forall_forall in HF. destruct (HF y Hy) as [H1 H2].
    split; [done|]. cbn [w_fs set_fs].
    change (at_path (set_fs _ w) root) with (at_path w root). rewrite lookup_remove_tree.
    rewrite decide_False; [done|]. intros E. apply (snoc_prefix _ x y []) in E. by subst.
Qed.

Lemma NoDup_fmap_filter {A B} (f : A -> B) (P : A -> Prop) `{forall a, Decision (P a)} (l : list A) :
  NoDup (f <$> l) -> NoDup (f <$> filter P l).
Proof.
  induction l as [|a l IH]; [done|]. rewrite fmap_cons. intros [Ha Hl]%NoDup_cons.
  rewrite filter_cons. case_decide; [|by apply IH]. rewrite fmap_cons. constructor; [|by apply IH].
  intros (b & E & [_ Hb]%list_elem_of_filter)%list_elem_of_fmap. apply Ha.
  apply list_elem_of_fmap. by exists b.
Qed.

Lemma gone_entries (root : path) (fs : gmap path node) (xs : list string) (P : string -> Prop) :
  (forall x n, fs !! (root ++ [x]) = Some n -> proper x = true) ->
  (forall x, x ∈ xs <-> fs !! (root ++ [x]) = Some NDir /\ P x) ->
  Forall (fun x => proper x = true /\ is_Some (fs !! (root ++ [x]))) xs.
Proof.
  intros Hn Hx. apply Forall_forall. intros x Hin. apply Hx in Hin as [Hd _].
  split; [by eapply Hn|by eexists].
Qed.

(** The names of the images that are removed. *)
Definition gone (opts : GCOptions) (w : world) : list string :=
  de_name <$> filter (to_remove opts w) (children (at_path w (Root opts)) (w_fs w)).

Lemma elem_of_gone opts w x :
  x ∈ gone opts w <-> w_fs w !! (at_path w (Root opts) ++ [x]) = Some NDir /\ removable opts w x.
Proof.
  unfold gone. rewrite list_elem_of_fmap. split.
  - intros (e & -> & [[Hd Hrm] (n & Hn & He)%elem_of_children]%list_elem_of_filter).
    rewrite Hd in He. symmetry in He. apply bool_decide_eq_true in He as ->. done.
  - intros [Hx Hrm]. exists (DirEnt x true). split; [done|]. apply list_elem_of_filter. split; [done|].
    apply elem_of_children. by exists NDir.
Qed.

(** A collection without faults, that removes. *)
Lemma RunImageGC_run opts w :
  nofault w -> fs_wf (w_fs w) -> Root opts <> "" ->
  (forall x n, w_fs w !! (at_path w (Root opts) ++ [x]) = Some n -> proper x = true) ->
  pins_ok w (PinFile opts) -> w_fs w !! at_path w (Root opts) = Some NDir ->
  let plan := mkGCPlan (planned opts w (to_remove opts w)) (planned opts w (to_keep opts w)) in
  RunImageGC opts false w =
    (Ret (plan, (plan_Remove plan, None)),
     set_fs (remove_entries (at_path w (Root opts)) (gone opts w) (w_fs w)) w).
Proof.
  intros Hnf Hwf Hr Hnames Hpins Hdir plan. unfold RunImageGC.
  pose proof (PlanImageGC_run opts w Hnf Hr Hnames Hpins Hdir) as Hplan. fold plan in Hplan.
  rewrite (bind_run _ _ _ _ _ Hplan).
  assert (Hxs : plan_Remove plan = (fun x => PathJoin [Root opts; x]) <$> gone opts w)
    by (unfold plan, planned, gone; cbn [plan_Remove]; by rewrite <- list_fmap_compose).
  assert (Hrun := apply_removals_run (Root opts) (gone opts w) w [] Hnf Hwf Hr).
  rewrite <- Hxs in Hrun. unfold ApplyGCPlan.
  by rewrite (bind_run _ _ _ _ _ (Hrun (NoDup_fmap_filter _ _ _ (children_NoDup _ (w_fs w)))
    (gone_entries _ _ _ _ Hnames (elem_of_gone opts w)))).
Qed.

(** A dry run. *)
Lemma RunImageGC_dry opts w :
  nofault w -> Root opts <> "" ->
  (forall x n, w_fs w !! (at_path w (Root opts) ++ [x]) = Some n -> proper x = true) ->
  pins_ok w (PinFile opts) -> w_fs w !! at_path w (Root opts) = Some NDir ->
  let plan := mkGCPlan (planned opts w (to_remove opts w)) (planned opts w (to_keep opts w)) in
  RunImageGC opts true w = (Ret (plan, (plan_Remove plan, None)), w).
Proof.
  intros Hnf Hr Hnames Hpins Hdir plan. unfold RunImageGC.
  pose proof (PlanImageGC_run opts w Hnf Hr Hnames Hpins Hdir) as Hplan. fold plan in Hplan.
  rewrite (bind_run _ _ _ _ _ Hplan). unfold ApplyGCPlan.
  assert (Hdry : forall ps rem, apply_removals ps true rem w = (Ret (rem ++ ps, None), w)).
  { intros ps. induction ps as [|q ps IH]; intros rem; cbn [apply_removals]; [by rewrite app_nil_r|].
    rewrite IH. by rewrite <- app_assoc. }
  by rewrite (bind_run _ _ _ _ _ (Hdry _ _)).
Qed.

(** ** Properties *)

(** C8: a garbage collection removes exactly the images it should. Of the
    directories of the image root, those that are not pinned and are either
    staging directories or complete and at least MaxAge old (with a positive
    MaxAge) disappear with all they contain; every other image, pinned,
    incomplete or young, keeps every entry, and nothing else changes. The plan
    and the report list exactly them, and a dry run reports the same and changes
    nothing. *)
Theorem RunImageGC_exact opts w :
  nofault w -> fs_wf (w_fs w) -> Root opts <> "" ->
  (forall x n, w_fs w !! (at_path w (Root opts) ++ [x]) = Some n -> proper x = true) ->
  pins_ok w (PinFile opts) -> w_fs w !! at_path w (Root opts) = Some NDir ->
  let plan := mkGCPlan (planned opts w (to_remove opts w)) (planned opts w (to_keep opts w)) in
  RunImageGC opts true w = (Ret (plan, (plan_Remove plan, None)), w) /\
  exists w', RunImageGC opts false w = (Ret (plan, (plan_Remove plan, None)), w') /\
    (forall x k, w_fs w !! (at_path w (Root opts) ++ [x]) = Some NDir ->
       w_fs w' !! (at_path w (Root opts) ++ x :: k) =
       if decide (removable opts w x) then None else w_fs w !! (at_path w (Root opts) ++ x :: k)) /\
    (forall q, (forall x, removable opts w x -> ~ at_path w (Root opts) ++ [x] `prefix_of` q) ->
       w_fs w' !! q = w_fs w !! q).
Proof.
  intros Hnf Hwf Hr Hnames Hpins Hdir plan. split; [by apply RunImageGC_dry|].
  pose proof (RunImageGC_run opts w Hnf Hwf Hr Hnames Hpins Hdir) as Hrun. fold plan in Hrun.
  set (root := at_path w (Root opts)) in *.
  eexists. split; [exact Hrun|]. cbn [w_fs set_fs]. split.
  - intros x k Hx. rewrite lookup_remove_entries.
    assert (HE : Exists (fun y => root ++ [y] `prefix_of` root ++ x :: k) (gone opts w) <-> removable opts w x).
    { rewrite Exists_exists. split.
      - intros (y & Hy & E). change (x :: k) with ([x] ++ k) in E. apply snoc_prefix in E as ->. by apply elem_of_gone.
      - intros Hrm. exists x. split; [by apply elem_of_gone|]. exists k. by rewrite <- app_assoc. }
    destruct (decide (removable opts w x)); [by rewrite decide_True by tauto|by rewrite decide_False by tauto].
  - intros q Hq. rewrite lookup_remove_entries, decide_False; [done|].
    intros (y & Hy & E)%Exists_exists. apply elem_of_gone in Hy as [_ Hy]. by apply (Hq y).
Qed.

(** Applying a plan, whatever fails: what is reported as removed is an
    initial part of the plan, all of it when there is no error; nothing outside
    the planned paths changes; a dry run changes nothing at all. *)
Theorem ApplyGCPlan_any plan dry w r e w' :
  ApplyGCPlan plan dry w = (Ret (r, e), w') ->
  r `prefix_of` plan_Remove plan /\ (e = None -> r = plan_Remove plan) /\
  (dry = true -> w' = w /\ e = None) /\
  (forall q, (forall path, path ∈ plan_Remove plan -> ~ at_path w path `prefix_of` q) ->
     w_fs w' !! q = w_fs w !! q).
Proof.
  intros H. apply apply_removals_spec in H as ((k & -> & Hk & He) & H2 & _ & H4). by split_and!.
Qed.

(** ** A concrete image root *)

(** An old complete image, a staging directory, an incomplete image and a
    pinned one. *)
Definition demo_pins : bytes :=
  bytes_of_string ("# pinned" +:+ String newline (" /r/d " +:+ String newline "")).

Definition demo_gc (faults : list (option fault)) : world :=
  World (list_to_map
    [([], NDir); (["pins"], NFile demo_pins);
     (["r"], NDir); (["r"; "a"], NDir); (["r"; "a"; "COMPLETE"], NFile []);
     (["r"; "b.staging"], NDir); (["r"; "c"], NDir);
     (["r"; "d"], NDir); (["r"; "d"; "COMPLETE"], NFile [])])
    (fun _ => 0) [] ∅ 1000 ∅ ∅ faults ∅ "".

Definition demo_gc_opts : GCOptions := mkGCOptions "/r" 100 "/pins" None.

Lemma demo_gc_names x n : w_fs (demo_gc []) !! (["r"] ++ [x]) = Some n -> proper x = true.
Proof.
  intros H.
  assert (HF : map_Forall (fun q _ => match q with [_; y] => proper y | _ => true end = true) (w_fs (demo_gc [])))
    by (apply (bool_decide_unpack _); by vm_compute).
  exact (HF _ _ H).
Qed.

Example demo_gc_plan :
  (PlanImageGC demo_gc_opts (demo_gc [])).1 =
  Ret (mkGCPlan ["/r/a"; "/r/b.staging"] ["/r/c"; "/r/d"]).
Proof. by vm_compute. Qed.

Lemma RunImageGC_exact_witness :
  let w := demo_gc [] in
  exists w' plan, RunImageGC demo_gc_opts false w = (Ret (plan, (plan_Remove plan, None)), w') /\
    w_fs w' !! ["r"; "a"; "COMPLETE"] = None /\ w_fs w' !! ["r"; "b.staging"] = None /\
    w_fs w' !! ["r"; "c"] = Some NDir /\ w_fs w' !! ["r"; "d"; "COMPLETE"] = Some (NFile []).
Proof.
  intros w. destruct (RunImageGC_exact demo_gc_opts w) as (_ & w' & H1 & H2 & _).
  - done.
  - apply (bool_decide_unpack _). by vm_compute.
  - done.
  - exact demo_gc_names.
  - right. right. exists demo_pins. split; by vm_compute.
  - by vm_compute.
  - exists w'. eexists. split; [exact H1|].
    pose proof (H2 "a" ["COMPLETE"] ltac:(by vm_compute)) as Ha.
    pose proof (H2 "b.staging" [] ltac:(by vm_compute)) as Hb.
    pose proof (H2 "c" [] ltac:(by vm_compute)) as Hc.
    pose proof (H2 "d" ["COMPLETE"] ltac:(by vm_compute)) as Hd.
    split_and!; [etrans; [exact Ha|]|etrans; [exact Hb|]|etrans; [exact Hc|]|etrans; [exact Hd|]];
      by vm_compute.
Defined.

Lemma ApplyGCPlan_any_witness :
  let plan := mkGCPlan ["/r/a"; "/r/b.staging"] [] in
  let w := demo_gc [None; Some (Fault EACCES 0)] in
  let p := ApplyGCPlan plan false w in
  exists w', p = (Ret (["/r/a"], Some (EPath "unlinkat" "/r/b.staging" EACCES)), w') /\
    ["/r/a"] `prefix_of` plan_Remove plan /\
    w_fs w' !! ["r"; "d"] = w_fs w !! ["r"; "d"].
Proof.
  intros plan w p.
  assert (E : exists w', p = (Ret (["/r/a"], Some (EPath "unlinkat" "/r/b.staging" EACCES)), w'))
    by (eexists; by vm_compute).
  destruct E as [w' E]. exists w'. split; [exact E|].
  destruct (ApplyGCPlan_any plan false w _ _ w' E) as (H1 & _ & _ & H4). split; [exact H1|].
  apply H4. intros path Hp. apply list_elem_of_In in Hp as [<-|[<-|[]]]; vm_compute; intros [k Hk]; discriminate Hk.
Defined.
