(* ===== verification/Restore.v ===== *)
(** pkg/control/restore.go and the shim list of orchestrator.go: the process a
    restored image belongs to, and how long to wait for it. *)
From S2P Require Export Text.
Local Open Scope Z_scope.

(** ** Waiting *)

Definition maxRestoreBackoff : Z := 5000000000.

(** The loop of [restorePollDelay], on int64 durations. *)
Fixpoint poll_loop (n : nat) (d : Z) : Z :=
  match n with
  | O => d
  | S n =>
      let d := int64_of_u64 (d * 2) in
      if decide (d >= maxRestoreBackoff) then maxRestoreBackoff else poll_loop n d
  end.

Definition restorePollDelay (attempt base : Z) : Z :=
  let base := if decide (base <= 0) then 200000000 else base in
  if decide (attempt <= 1) then base else poll_loop (Z.to_nat (attempt - 1)) base.

(** ** The pid files *)

Definition readRestoredPID (dir : string) : M Z :=
  r ← attempt (ReadFile (PathJoin [dir; "restored.pid"]));
  mret match r with
       | inl _ => 0
       | inr b =>
           match Atoi (TrimSpace (string_of_bytes b)) with
           | None => 0
           | Some pid => if decide (pid <= 0) then 0 else pid
           end
       end.

Definition writeRestoreHandoff (dir : string) (pid : Z) : M unit :=
  let body := bytes_of_string (Itoa pid +:+ String newline "") in
  WriteFile (PathJoin [dir; "restored.handoff"]) body ;;
  WriteFile (PathJoin [dir; "restored.pid"]) body.

(** ** Shims *)

Definition shimSocketPath (runDir : string) (pid : Z) : string :=
  PathJoin [if decide (runDir = "") then "/run/cudackpt" else runDir; Itoa pid +:+ ".sock"].

Definition shimSocketReady (runDir : string) (pid : Z) : M bool :=
  if decide (pid <= 0) then mret false
  else
    st ← attempt (Stat (shimSocketPath runDir pid));
    mret match st with inr NSock => true | _ => false end.

(** fmt.Sscanf(name, "%d.sock", &pid): blanks, an optional sign, decimal digits,
    and the literal text; what follows is not looked at. *)
Fixpoint span_digits (s : string) : string * string :=
  match s with
  | EmptyString => ("", "")
  | String c r =>
      match digit_val c with
      | Some _ => let '(d, rest) := span_digits r in (String c d, rest)
      | None => ("", s)
      end
  end.

Definition scan_blanks (s : string) : string :=
  let b := bytes_of_string s in
  string_of_bytes (trim (filter (fun p => p <> [Byte.x0a]) spaces) (length b) b).

Definition sscanf_sock (name : string) : option Z :=
  let s := scan_blanks name in
  let '(neg, s) := match s with
                   | String "-" r => (true, r)
                   | String "+" r => (false, r)
                   | _ => (false, s)
                   end in
  let '(digits, rest) := span_digits s in
  if decide (digits = "") then None
  else match parse_digits digits 0 with
       | Some n =>
           let v := if neg then - n else n in
           if decide (- 2 ^ 63 <= v < 2 ^ 63) then
             if HasPrefix rest ".sock" then Some v else None
           else None
       | None => None
       end.

Definition ListShims (runDir : string) : M (list Z) :=
  let runDir := if decide (runDir = "") then "/run/cudackpt" else runDir in
  r ← attempt (ReadDir runDir);
  match r with
  | inl e => if IsNotExist e then mret [] else throw e
  | inr ents => mret (omap (fun e => sscanf_sock (de_name e)) ents)
  end.

(** shimctl.go: sortedShims. *)
Definition sortedShims (runDir : string) : M (list Z) :=
  pids ← ListShims runDir; mret (merge_sort Z.le pids).

Definition ListImages (root : string) : M (list string) :=
  r ← attempt (ReadDir root);
  match r with
  | inl e => if IsNotExist e then mret [] else throw e
  | inr ents => mret ((fun e => PathJoin [root; de_name e]) <$> filter (fun e => de_isdir e = true) ents)
  end.

Definition resolveRestorePID (imagePath : string) (criuPID : Z) (shims : list Z) : M Z :=
  if decide (criuPID > 0) then mret criuPID
  else
    pid ← readRestoredPID imagePath;
    mret (if decide (pid > 0) then pid else match shims with p :: _ => p | [] => 0 end).

(** The loop of [restoreCandidates]: the pids seen, and the candidates so far. *)
Fixpoint add_candidates (shims : list Z) (seen : gset Z) (out : list Z) : list Z :=
  match shims with
  | [] => out
  | p :: shims =>
      if decide (p ∈ seen) then add_candidates shims seen out
      else add_candidates shims ({[p]} ∪ seen) (out ++ [p])
  end.

Definition restoreCandidates (primary : Z) (shims : list Z) : list Z :=
  if decide (primary > 0) then add_candidates shims {[primary]} [primary]
  else add_candidates shims ∅ [].

(** ** Facts *)

Lemma double_small d : 0 < d < 2 ^ 62 -> int64_of_u64 (d * 2) = d * 2.
Proof.
  intros Hd. unfold int64_of_u64. rewrite u64_small by (unfold is_u64; lia).
  destruct (decide _); lia.
Qed.

Lemma poll_loop_closed n d :
  0 < d < 2 ^ 62 -> poll_loop (S n) d = Z.min (d * 2 ^ Z.of_nat (S n)) maxRestoreBackoff.
Proof.
  revert d. induction n as [|n IH]; intros d Hd.
  - cbn [poll_loop]. rewrite double_small by done. cbv zeta. change (2 ^ Z.of_nat 1) with 2.
    case_decide; lia.
  - remember (S n) as k. cbn [poll_loop]. rewrite double_small by done. cbv zeta.
    rewrite (Nat2Z.inj_succ k), Z.pow_succ_r by lia.
    assert (Hk : 1 <= 2 ^ Z.of_nat k) by (pose proof (Z.pow_pos_nonneg 2 (Z.of_nat k)); lia).
    case_decide as Hge; [nia|].
    subst k. rewrite IH by (unfold maxRestoreBackoff in *; lia). f_equal. ring.
Qed.

Lemma digit_graphic d : 0 <= d < 10 -> graphic (byte_of_ascii (digit_char d)).
Proof.
  intros Hd.
  assert (E : d = 0 \/ d = 1 \/ d = 2 \/ d = 3 \/ d = 4 \/ d = 5 \/ d = 6 \/ d = 7 \/ d = 8 \/ d = 9) by lia.
  repeat (destruct E as [->|E]; [vm_compute; split; congruence|]). subst. vm_compute. split; congruence.
Qed.

Lemma digits_graphic z : 0 <= z -> exists l, bytes_of_string (FormatUint z) = l /\ l <> [] /\ Forall graphic l.
Proof.
  intros Hz. unfold FormatUint.
  assert (H : forall fuel z acc, 0 <= z -> Forall graphic (bytes_of_string acc) ->
    Forall graphic (bytes_of_string (format_digits fuel z acc))).
  { clear. intros fuel. induction fuel as [|fuel IH]; intros z acc Hz Ha; [done|]. cbn [format_digits].
    assert (Hd : forall d, 0 <= d < 10 -> Forall graphic (bytes_of_string (String (digit_char d) acc))).
    { intros d Hd. change (bytes_of_string (String (digit_char d) acc))
        with (byte_of_ascii (digit_char d) :: bytes_of_string acc).
      constructor; [by apply digit_graphic|done]. }
    case_decide; [apply Hd; lia|]. apply IH; [apply Z.div_pos; lia|].
    apply Hd, Z.mod_pos_bound. lia. }
  destruct (format_digits_head (S (Z.to_nat (Z.log2 z))) z "" Hz ltac:(lia)) as (d & s & _ & E).
  eexists. split; [done|]. split; [by rewrite E|]. by apply H.
Qed.

Lemma TrimSpace_Itoa z : 0 < z -> TrimSpace (Itoa z +:+ String newline "") = Itoa z.
Proof.
  intros Hz. unfold Itoa. rewrite decide_False by lia.
  destruct (digits_graphic z ltac:(lia)) as (l & Hl & Hne & HF).
  pose proof (TrimSpace_line l Hne HF) as E.
  rewrite <- Hl, string_of_bytes_of_string in E. rewrite <- E at 2. f_equal.
  rewrite <- (string_of_bytes_of_string (_ +:+ _)), bytes_of_string_app. by rewrite Hl.
Qed.

Lemma span_digits_app s t acc n :
  parse_digits s acc = Some n -> (forall c r, t = String c r -> digit_val c = None) ->
  span_digits (s +:+ t) = (s, t).
Proof.
  revert acc. induction s as [|c s IH]; intros acc H Ht.
  - rewrite app_empty_str. destruct t as [|c r]; [done|]. cbn. by rewrite (Ht c r).
  - rewrite app_cons_str. cbn in H |- *. destruct (digit_val c) as [d|]; [|done].
    by rewrite (IH _ H Ht).
Qed.

Lemma scan_blanks_graphic s :
  match bytes_of_string s with b :: _ => graphic b | [] => True end -> scan_blanks s = s.
Proof.
  unfold scan_blanks. destruct (bytes_of_string s) as [|b l] eqn:E; intros H.
  - by rewrite <- (string_of_bytes_of_string s), E.
  - rewrite trim_stop; [by rewrite <- E, string_of_bytes_of_string|].
    apply strip_one_none, Forall_forall. intros p [_ Hp]%list_elem_of_filter. by apply graphic_head.
Qed.

(** A number without a sign, in front of the rest of the name. *)
Lemma sscanf_sock_digits d s rest n :
  0 <= d < 10 -> parse_digits (String (digit_char d) s) 0 = Some n -> n < 2 ^ 63 -> 0 <= n ->
  sscanf_sock (String (digit_char d) s +:+ ".sock" +:+ rest) = Some n.
Proof.
  intros Hd Hp Hn H0. unfold sscanf_sock.
  rewrite scan_blanks_graphic by (rewrite app_cons_str; by apply digit_graphic).
  pose proof (digit_char_not_sign d Hd) as [N1 N2].
  assert (Hs : forall (c : ascii) r, c <> "-"%char -> c <> "+"%char ->
    match String c r with
    | String "-" r => (true, r) | String "+" r => (false, r) | _ => (false, String c r)
    end = (false, String c r)).
  { intros c r H1 H2. destruct c as [b0 b1 b2 b3 b4 b5 b6 b7].
    destruct b0, b1, b2, b3, b4, b5, b6, b7; done || (exfalso; by apply H1) || (exfalso; by apply H2). }
  rewrite app_cons_str, Hs by done. rewrite <- app_cons_str.
  rewrite (span_digits_app _ _ _ _ Hp); [|intros c r E; rewrite app_cons_str in E; by injection E as <- _].
  cbn [negb]. rewrite decide_False by done. rewrite Hp. cbv zeta. rewrite decide_True by lia.
  unfold HasPrefix. cbn. by destruct rest.
Qed.

Lemma sscanf_sock_Itoa pid rest :
  0 <= pid < 2 ^ 63 -> sscanf_sock (Itoa pid +:+ ".sock" +:+ rest) = Some pid.
Proof.
  intros Hp. unfold Itoa. rewrite decide_False by lia.
  destruct (FormatUint_head pid ltac:(lia)) as (d & s & Hd & E).
  rewrite E. apply sscanf_sock_digits; [done| |lia|lia]. rewrite <- E. apply FormatUint_parse. lia.
Qed.

(** Candidates are added at the end, each once. *)
Lemma add_candidates_spec shims seen out :
  NoDup out -> (forall p, p ∈ seen <-> p ∈ out) ->
  exists k, add_candidates shims seen out = out ++ k /\ NoDup (out ++ k) /\ k `sublist_of` shims /\
    forall p, p ∈ out ++ k <-> p ∈ out \/ p ∈ shims.
Proof.
  revert seen out. induction shims as [|p shims IH]; intros seen out Hnd Hs; cbn [add_candidates].
  { exists []. rewrite app_nil_r. split_and!; [done|done|done|set_solver]. }
  case_decide as Hp.
  - destruct (IH seen out Hnd Hs) as (k & -> & Hk & Hsub & Hin). exists k. split_and!; [done|done| |].
    + by constructor.
    + intros q. rewrite Hin, elem_of_cons. apply Hs in Hp. set_solver.
  - destruct (IH ({[p]} ∪ seen) (out ++ [p])) as (k & -> & Hk & Hsub & Hin).
    + apply NoDup_app. split_and!; [done| |apply NoDup_singleton]. intros q Hq E.
      apply list_elem_of_singleton in E as ->. by apply Hp, Hs.
    + set_solver.
    + exists (p :: k). rewrite <- app_assoc in *. cbn [app] in *. split_and!; [done|done| |].
      * by constructor.
      * intros q. rewrite Hin. set_solver.
Qed.

Lemma elem_of_candidates primary shims p : p ∈ shims -> p ∈ restoreCandidates primary shims.
Proof.
  intros Hp. unfold restoreCandidates. case_decide.
  - destruct (add_candidates_spec shims {[primary]} [primary]) as (k & -> & _ & _ & ->);
      [apply NoDup_singleton|set_solver|by right].
  - destruct (add_candidates_spec shims ∅ []) as (k & -> & _ & _ & ->); [constructor|set_solver|by right].
Qed.

(** Reading a pid file. *)
Lemma readRestoredPID_file w dir pid :
  nofault w -> dir <> "" -> 0 < pid < 2 ^ 63 ->
  w_fs w !! (at_path w dir ++ ["restored.pid"]) =
    Some (NFile (bytes_of_string (Itoa pid +:+ String newline ""))) ->
  readRestoredPID dir w = (Ret pid, w).
Proof.
  intros Hnf Hd Hp Hf. destruct (Join_entry w dir "restored.pid" Hd eq_refl) as [Hne Hat].
  unfold readRestoredPID. erewrite bind_run by (apply attempt_run, ReadFile_run; [done|done|by rewrite Hat]).
  cbv beta iota. rewrite string_of_bytes_of_string, TrimSpace_Itoa, Atoi_Itoa by lia.
  by rewrite decide_False by lia.
Qed.

Definition run_dir (runDir : string) : string :=
  if decide (runDir = "") then "/run/cudackpt" else runDir.

Lemma sock_name_proper pid : 0 <= pid -> proper (Itoa pid +:+ ".sock") = true.
Proof.
  intros Hp. unfold Itoa. rewrite decide_False by lia.
  pose proof (FormatUint_parse pid Hp) as Hd.
  destruct (FormatUint_head pid ltac:(lia)) as (d & s & Hd0 & E). rewrite E in Hd |- *.
  rewrite app_cons_str. apply proper_head.
  - intros Hdot. apply (f_equal digit_val) in Hdot. by rewrite digit_val_char in Hdot.
  - rewrite <- app_cons_str, contains_char_app. by rewrite (parse_digits_chars _ _ _ _ Hd).
Qed.

(** A shim is ready when its socket is in the run directory. *)
Lemma shimSocketReady_run w runDir pid :
  nofault w -> 0 < pid ->
  shimSocketReady runDir pid w =
  (Ret (bool_decide (w_fs w !! (at_path w (run_dir runDir) ++ [Itoa pid +:+ ".sock"]) = Some NSock)), w).
Proof.
  intros Hnf Hp. unfold shimSocketReady, shimSocketPath. rewrite decide_False by lia. fold (run_dir runDir).
  assert (Hd : run_dir runDir <> "") by (unfold run_dir; by case_decide).
  destruct (Join_entry w _ _ Hd (sock_name_proper pid ltac:(lia))) as [Hne Hat].
  rewrite <- Hat. destruct (w_fs w !! at_path w _) as [n|] eqn:E.
  - erewrite bind_run by (by eapply attempt_run, Stat_run).
    destruct n; [by rewrite bool_decide_eq_false_2..|by rewrite bool_decide_eq_true_2].
  - erewrite bind_run.
    2:{ apply attempt_err. unfold Stat. rewrite syscall_run by done. rewrite find_node_none by done. done. }
    by rewrite bool_decide_eq_false_2.
Qed.

Lemma ListShims_run w runDir :
  nofault w -> w_fs w !! at_path w (run_dir runDir) = Some NDir ->
  ListShims runDir w =
  (Ret (omap (fun e => sscanf_sock (de_name e)) (children (at_path w (run_dir runDir)) (w_fs w))), w).
Proof.
  intros Hnf Hd. unfold ListShims. fold (run_dir runDir).
  assert (Hne : run_dir runDir <> "") by (unfold run_dir; by case_decide).
  erewrite bind_run.
  2:{ apply attempt_run. unfold ReadDir. rewrite syscall_run by done.
      rewrite (find_node_some _ _ NDir) by done. done. }
  done.
Qed.

(** ** Properties *)

(** The wait before the next attempt. The first is the configured base (a
    fifth of a second when it is not positive); every later one doubles it, and
    is never more than five seconds; no duration overflows. *)
Theorem restorePollDelay_closed attempt base :
  base < 2 ^ 62 ->
  let d := if decide (base <= 0) then 200000000 else base in
  restorePollDelay attempt base =
  if decide (attempt <= 1) then d else Z.min (d * 2 ^ (attempt - 1)) maxRestoreBackoff.
Proof.
  intros Hb. unfold restorePollDelay. set (d := if decide (base <= 0) then _ else _).
  assert (Hd : 0 < d < 2 ^ 62) by (unfold d; case_decide; lia). cbv zeta.
  destruct (decide (attempt <= 1)); [done|].
  replace (Z.to_nat (attempt - 1)) with (S (Z.to_nat (attempt - 2))) by lia.
  rewrite poll_loop_closed by done. do 3 f_equal. lia.
Qed.

Lemma restorePollDelay_closed_witness :
  let d := if decide (500000000 <= 0) then 200000000 else 500000000 in
  restorePollDelay 3 500000000 = if decide (3 <= 1) then d else Z.min (d * 2 ^ (3 - 1)) maxRestoreBackoff.
Proof. apply (restorePollDelay_closed 3 500000000). lia. Defined.

(** The pid recorded for a restored image is the pid found there later,
    when CRIU itself reports none. *)
Theorem handoff_resolved w dir pid :
  nofault w -> dir <> "" -> 0 < pid < 2 ^ 63 ->
  can_create (w_fs w) (at_path w dir ++ ["restored.handoff"]) ->
  can_create (w_fs w) (at_path w dir ++ ["restored.pid"]) ->
  exists w', writeRestoreHandoff dir pid w = (Ret tt, w') /\
    (forall q, q <> at_path w dir ++ ["restored.handoff"] -> q <> at_path w dir ++ ["restored.pid"] ->
       w_fs w' !! q = w_fs w !! q) /\
    readRestoredPID dir w' = (Ret pid, w') /\
    forall criuPID shims,
      resolveRestorePID dir criuPID shims w' = (Ret (if decide (criuPID > 0) then criuPID else pid), w').
Proof.
  intros Hnf Hd Hp H1 H2. set (body := bytes_of_string (Itoa pid +:+ String newline "")).
  destruct (Join_entry w dir "restored.handoff" Hd eq_refl) as [Hne1 Hat1].
  destruct (Join_entry w dir "restored.pid" Hd eq_refl) as [Hne2 Hat2].
  set (fs1 := <[at_path w dir ++ ["restored.handoff"] := NFile body]> (w_fs w)).
  set (w' := set_fs (<[at_path w dir ++ ["restored.pid"] := NFile body]> fs1) w).
  assert (Hrun : writeRestoreHandoff dir pid w = (Ret tt, w')).
  { unfold writeRestoreHandoff. cbv zeta. fold body.
    erewrite bind_run by (by apply (WriteFile_run _ _ _ _ Hnf Hne1 Hat1)).
    apply (WriteFile_run (set_fs fs1 w) _ _ body Hnf Hne2 Hat2). by apply can_create_sibling. }
  assert (Hread : readRestoredPID dir w' = (Ret pid, w')).
  { apply readRestoredPID_file; [done..|]. cbn. by rewrite lookup_insert_eq. }
  exists w'. split_and!; [done| |done|].
  - intros q Hq1 Hq2. unfold w', fs1. cbn [w_fs set_fs]. by rewrite !lookup_insert_ne by (apply not_eq_sym; done).
  - intros criuPID shims. unfold resolveRestorePID. case_decide; [done|].
    rewrite (bind_run _ _ _ _ _ Hread). by rewrite decide_True by lia.
Qed.

Definition run_world : world :=
  World (list_to_map [([], NDir); (["img"], NDir); (["img"; "a"], NDir); (["run"], NDir);
                      (["run"; "cudackpt"], NDir);
                      (["run"; "cudackpt"; "4242.sock"], NSock);
                      (["run"; "cudackpt"; "17.sock"], NSock);
                      (["run"; "cudackpt"; "9.lock"], NFile [])])
    (fun _ => 0) [] ∅ 0 ∅ ∅ [] ∅ "".

Lemma handoff_resolved_witness :
  exists w', writeRestoreHandoff "/img/a" 4242 run_world = (Ret tt, w') /\
    (forall q, q <> ["img"; "a"; "restored.handoff"] -> q <> ["img"; "a"; "restored.pid"] ->
       w_fs w' !! q = w_fs run_world !! q) /\
    readRestoredPID "/img/a" w' = (Ret 4242, w') /\
    forall criuPID shims,
      resolveRestorePID "/img/a" criuPID shims w' =
        (Ret (if decide (criuPID > 0) then criuPID else 4242), w').
Proof.
  apply (handoff_resolved run_world "/img/a" 4242); [done|done|lia| |]; right; by vm_compute.
Defined.

(** The processes a restore is tried on, in order: the one the image
    belongs to first, then the shims found, in their order; each is tried once
    and none is left out. *)
Theorem restoreCandidates_spec primary shims :
  let l := restoreCandidates primary shims in
  NoDup l /\ (forall p, p ∈ l <-> (p = primary /\ primary > 0) \/ p ∈ shims) /\
  exists k, k `sublist_of` shims /\ l = if decide (primary > 0) then primary :: k else k.
Proof.
  unfold restoreCandidates. cbv zeta. case_decide as Hp.
  - destruct (add_candidates_spec shims {[primary]} [primary]) as (k & -> & Hk & Hsub & Hin).
    + apply NoDup_singleton.
    + set_solver.
    + split_and!; [done| |by exists k]. intros p. rewrite Hin, list_elem_of_singleton. tauto.
  - destruct (add_candidates_spec shims ∅ []) as (k & -> & Hk & Hsub & Hin).
    + constructor.
    + set_solver.
    + split_and!; [done| |by exists k]. intros p. rewrite Hin, elem_of_nil. tauto.
Qed.

(** Every shim whose socket is ready is in the list of shims, which is
    sorted; so it is among the candidates of a restore. *)
Theorem ready_shims_listed w runDir pid primary :
  nofault w -> fs_wf (w_fs w) -> 0 < pid < 2 ^ 63 ->
  shimSocketReady runDir pid w = (Ret true, w) ->
  exists l, sortedShims runDir w = (Ret l, w) /\ Sorted Z.le l /\ pid ∈ l /\
    pid ∈ restoreCandidates primary l.
Proof.
  intros Hnf Hwf Hp Hr. rewrite shimSocketReady_run in Hr by (done || lia).
  injection Hr as Hr%bool_decide_eq_true.
  unfold sortedShims.
  erewrite bind_run by (by apply ListShims_run; [|apply (wf_parent _ Hwf) in Hr]).
  eexists. split; [done|].
  assert (Hin : pid ∈ merge_sort Z.le (omap (fun e => sscanf_sock (de_name e))
    (children (at_path w (run_dir runDir)) (w_fs w)))).
  { rewrite merge_sort_Permutation, list_elem_of_omap.
    exists (DirEnt (Itoa pid +:+ ".sock") false). split.
    - apply elem_of_children. by exists NSock.
    - cbn. rewrite <- (app_nil_str ".sock"). apply sscanf_sock_Itoa. lia. }
  split_and!; [|done|].
  - apply Sorted_merge_sort. intros x y. lia.
  - by apply elem_of_candidates.
Qed.

Lemma ready_shims_listed_witness :
  exists l, sortedShims "" run_world = (Ret l, run_world) /\ Sorted Z.le l /\ 4242 ∈ l /\
    4242 ∈ restoreCandidates 17 l.
Proof.
  apply (ready_shims_listed run_world "" 4242 17); [done| |lia|].
  - apply (bool_decide_unpack _). by vm_compute.
  - by vm_compute.
Defined.
