(* ===== verification/Metrics.v ===== *)
(** pkg/metrics/registry.go: counters and gauges, and their text form. *)
From S2P Require Export Restore.
Local Open Scope Z_scope.

(** ** The registry *)

Section registry.
(** Go's float64, and its format under the verb %g: gauges are only stored and
    printed. *)
Context {float64 : Type} (format_g : float64 -> string).

(** Counters are uint64. The mutex makes every operation atomic: a concurrent
    run is a sequence of operations. *)
Record Registry := mkRegistry {
  counters : gmap string Z;
  gauges : gmap string float64;
}.

Definition NewRegistry : Registry := mkRegistry ∅ ∅.

Definition add_counter (name : string) (delta : Z) (c : gmap string Z) : gmap string Z :=
  <[name := u64 (default 0 (c !! name) + delta)]> c.

Definition Add (name : string) (delta : Z) (r : Registry) : Registry :=
  mkRegistry (add_counter name delta (counters r)) (gauges r).

Definition Inc (name : string) (r : Registry) : Registry := Add name 1 r.

Definition Set_ (name : string) (v : float64) (r : Registry) : Registry :=
  mkRegistry (counters r) (<[name := v]> (gauges r)).

(** The copies [Snapshot] returns, when its loops visit the maps in the order
    of the given lists: Go leaves the order of a map's iteration open. *)
Definition copy_map {V} (l : list (string * V)) : gmap string V :=
  foldl (fun m kv => <[kv.1 := kv.2]> m) ∅ l.

Definition Snapshot (corder : list (string * Z)) (gorder : list (string * float64))
    : gmap string Z * gmap string float64 :=
  (copy_map corder, copy_map gorder).

(** The names [WritePrometheus] collects. *)
Definition metric_names {V} (ckeys gkeys : list string) (c : gmap string V) : list string :=
  ckeys ++ filter (fun k => c !! k = None) gkeys.

Definition str_le (a b : string) : Prop := String.le a b.
#[global] Instance str_le_dec a b : Decision (str_le a b).
Proof. unfold str_le; apply _. Defined.

Definition nl : string := String newline "".

Definition write_metric (c : gmap string Z) (g : gmap string float64) (name : string) : string :=
  (match c !! name with
   | Some v => "# TYPE " +:+ name +:+ " counter" +:+ nl +:+ name +:+ " " +:+ FormatUint v +:+ nl
   | None => ""
   end) +:+
  match g !! name with
  | Some v => "# TYPE " +:+ name +:+ " gauge" +:+ nl +:+ name +:+ " " +:+ format_g v +:+ nl
  | None => ""
  end.

(** The text written, for some orders in which the loops over the copies see
    their keys. *)
Definition WritePrometheus (corder : list (string * Z)) (gorder : list (string * float64))
    (ckeys gkeys : list string) : string :=
  let '(c, g) := Snapshot corder gorder in
  foldl (fun out name => out +:+ write_metric c g name) ""
    (merge_sort str_le (metric_names ckeys gkeys c)).
End registry.
Arguments Registry float64 : clear implicits.

(** ** The registry of the process: metrics.Default, kept in the world *)

Definition Default_Add (name : string) (delta : Z) : M unit := fun w =>
  (Ret tt, set_counters (add_counter name delta (w_counters w)) w).
Definition Default_Inc (name : string) : M unit := Default_Add name 1.

Definition CheckpointsTotal : string := "cudackpt_checkpoints_total".
Definition CheckpointFailures : string := "cudackpt_checkpoint_failures_total".
Definition RestoresTotal : string := "cudackpt_restores_total".
Definition RestoreFailuresTotal : string := "cudackpt_restore_failures_total".
Definition RollbacksTotal : string := "cudackpt_rollbacks_total".
Definition GCRemovedTotal : string := "cudackpt_gc_removed_total".
Definition GCErrorsTotal : string := "cudackpt_gc_errors_total".

(** ** Facts *)

(** Additions in the order given. *)
Definition run_adds {F} (ops : list (string * Z)) (r : Registry F) : Registry F :=
  foldl (fun r op => Add op.1 op.2 r) r ops.

(** The total the operations add to a counter. *)
Definition total_of (name : string) (ops : list (string * Z)) : Z :=
  foldr (fun op n => if decide (op.1 = name) then op.2 + n else n) 0 ops.

Lemma u64_add_l a b : u64 (u64 a + b) = u64 (a + b).
Proof. unfold u64. by rewrite Zplus_mod_idemp_l. Qed.

Lemma run_adds_snoc {F} ops op (r : Registry F) :
  run_adds (ops ++ [op]) r = Add op.1 op.2 (run_adds ops r).
Proof. unfold run_adds. by rewrite foldl_app. Qed.

Lemma total_of_app name ops ops' : total_of name (ops ++ ops') = total_of name ops + total_of name ops'.
Proof.
  induction ops as [|op ops IH]; [done|]. unfold total_of in *. cbn. rewrite IH. case_decide; lia.
Qed.

Lemma total_of_none name ops : name ∉ ops.*1 -> total_of name ops = 0.
Proof.
  induction ops as [|op ops IH]; [done|]. rewrite fmap_cons, not_elem_of_cons. intros [Hne Hn].
  unfold total_of in *. cbn. rewrite decide_False by congruence. by apply IH.
Qed.

Lemma copy_map_spec {V} (l : list (string * V)) (m : gmap string V) :
  l ≡ₚ map_to_list m -> copy_map l = m.
Proof.
  intros Hl.
  assert (Hnd : NoDup l.*1) by (rewrite Hl; apply NoDup_fst_map_to_list).
  assert (H : forall acc : gmap string V, foldl (fun m kv => <[kv.1 := kv.2]> m) acc l = list_to_map l ∪ acc).
  { clear Hl. induction l as [|[k v] l IH]; intros acc; cbn; [by rewrite (left_id_L ∅ (∪) acc)|].
    apply NoDup_cons in Hnd as [Hk Hnd]. rewrite IH by done. cbn [fst snd].
    rewrite <- insert_union_l. symmetry. apply insert_union_r. by apply not_elem_of_list_to_map_1. }
  unfold copy_map. rewrite H, right_id_L by apply _.
  rewrite (list_to_map_proper l (map_to_list m) Hnd Hl).
  apply list_to_map_to_list.
Qed.

(** The names of the metrics, in any order. *)
Lemma metric_names_spec {V W} ckeys gkeys (c : gmap string V) (g : gmap string W) :
  ckeys ≡ₚ (map_to_list c).*1 -> gkeys ≡ₚ (map_to_list g).*1 ->
  metric_names ckeys gkeys c ≡ₚ elements (dom c ∪ dom g).
Proof.
  intros Hc Hg. unfold metric_names.
  assert (Hin : forall X (m : gmap string X) k, k ∈ (map_to_list m).*1 <-> is_Some (m !! k)).
  { intros X m k. rewrite list_elem_of_fmap. split.
    - intros ([k' x] & -> & H%elem_of_map_to_list). by eexists.
    - intros [x H%elem_of_map_to_list]. by exists (k, x). }
  apply NoDup_Permutation.
  - apply NoDup_app. split_and!.
    + rewrite Hc. apply NoDup_fst_map_to_list.
    + intros k Hk [Hn _]%list_elem_of_filter. rewrite Hc, Hin, Hn in Hk. by destruct Hk.
    + apply NoDup_filter. rewrite Hg. apply NoDup_fst_map_to_list.
  - apply NoDup_elements.
  - intros k. rewrite elem_of_app, list_elem_of_filter, Hc, Hg, !Hin, elem_of_elements, elem_of_union, !elem_of_dom.
    destruct (c !! k); [|naive_solver]. split; intros; left; by eexists.
Qed.

Lemma sort_canonical l l' : l ≡ₚ l' -> merge_sort str_le l = merge_sort str_le l'.
Proof.
  intros H. apply (Sorted_unique String.le).
  - apply (Sorted_merge_sort String.le).
  - apply (Sorted_merge_sort String.le).
  - by rewrite !merge_sort_Permutation.
Qed.

(** ** Properties *)

(** Counters count. After any number of additions a counter is what it was
    plus the total added to it, modulo 2^64; a counter nothing is added to, and
    every gauge, is unchanged. So the order in which concurrent additions take
    the lock does not matter. *)
Theorem run_adds_total {F} ops (r : Registry F) name :
  counters (run_adds ops r) !! name =
    (if decide (name ∈ ops.*1)
     then Some (u64 (default 0 (counters r !! name) + total_of name ops))
     else counters r !! name) /\
  gauges (run_adds ops r) = gauges r.
Proof.
  induction ops as [|op ops IH] using rev_ind.
  { cbn. rewrite decide_False by set_solver. done. }
  destruct IH as [IH IHg]. rewrite run_adds_snoc. split; [|done].
  unfold Add, add_counter. cbn [counters]. rewrite total_of_app, fmap_app. cbn [total_of foldr fmap list_fmap].
  destruct (decide (op.1 = name)) as [<-|Hne].
  - rewrite lookup_insert_eq, IH. rewrite (decide_True (P := op.1 ∈ _ ++ _)) by set_solver. f_equal.
    case_decide as Hin; cbn [from_option]; unfold id.
    + rewrite u64_add_l. f_equal. lia.
    + assert (Hz : total_of op.1 ops = 0)
        by (by apply total_of_none).
      rewrite Hz. f_equal. lia.
  - rewrite lookup_insert_ne, IH by done. rewrite Z.add_0_r.
    assert (Hiff : name ∈ ops.*1 ++ [op.1] <-> name ∈ ops.*1) by set_solver.
    by repeat case_decide; try tauto.
Qed.

(** The text of the metrics page depends on the registry only, not on the
    order in which Go's loops visit the maps: the metrics appear in the order of
    their names, each once. *)
Theorem WritePrometheus_canonical {F} (fmt : F -> string) (r : Registry F) corder gorder ckeys gkeys :
  corder ≡ₚ map_to_list (counters r) -> gorder ≡ₚ map_to_list (gauges r) ->
  ckeys ≡ₚ (map_to_list (counters r)).*1 -> gkeys ≡ₚ (map_to_list (gauges r)).*1 ->
  let names := merge_sort String.le (elements (dom (counters r) ∪ dom (gauges r))) in
  WritePrometheus fmt corder gorder ckeys gkeys =
    foldl (fun out name => out +:+ write_metric fmt (counters r) (gauges r) name) "" names /\
  Sorted String.le names /\ NoDup names /\
  forall k, k ∈ names <-> is_Some (counters r !! k) \/ is_Some (gauges r !! k).
Proof.
  intros Hc Hg Hck Hgk names. split_and!.
  - unfold WritePrometheus, Snapshot. rewrite (copy_map_spec _ _ Hc), (copy_map_spec _ _ Hg).
    rewrite (sort_canonical _ _ (metric_names_spec _ _ _ _ Hck Hgk)). done.
  - apply (Sorted_merge_sort String.le).
  - unfold names. rewrite merge_sort_Permutation. apply NoDup_elements.
  - intros k. unfold names. rewrite merge_sort_Permutation.
    by rewrite elem_of_elements, elem_of_union, !elem_of_dom.
Qed.

Lemma WritePrometheus_canonical_witness :
  let r := mkRegistry {["b" := 2; "a" := 1]} {["c" := 5]} in
  let names := merge_sort String.le (elements (dom (counters r) ∪ dom (gauges r))) in
  WritePrometheus Itoa [("b", 2); ("a", 1)] [("c", 5)] ["a"; "b"] ["c"] =
    foldl (fun out name => out +:+ write_metric Itoa (counters r) (gauges r) name) "" names /\
  Sorted String.le names /\ NoDup names /\
  forall k, k ∈ names <-> is_Some (counters r !! k) \/ is_Some (gauges r !! k).
Proof.
  intros r.
  assert (E : map_to_list (counters r) = [("a", 1); ("b", 2)]) by by vm_compute.
  apply (WritePrometheus_canonical Itoa r); [rewrite E; apply perm_swap|done|by rewrite E|done].
Defined.
