(* ===== verification/Http.v ===== *)
(** What the program uses of net/http and net/url, and the metrics page of
    pkg/metrics/registry.go.

    A request is what a handler looks at: the path, without percent-encoding,
    and the raw query. A handler runs in one piece: its answer is the page of
    one moment. *)
From S2P Require Export Metrics Fmt.
Local Open Scope Z_scope.

(** ** net/url: queries *)

(** QueryUnescape; [None] is an error. *)
Fixpoint QueryUnescape (s : string) : option string :=
  match s with
  | EmptyString => Some ""
  | String c s' =>
      if decide (c = "%"%char) then
        match s' with
        | String a (String b r) =>
            match hex_val a, hex_val b with
            | Some x, Some y => String (ascii_of_N (Z.to_N (16 * x + y))) <$> QueryUnescape r
            | _, _ => None
            end
        | _ => None
        end
      else String (if decide (c = "+"%char) then " "%char else c) <$> QueryUnescape s'
  end.

(** strings.Cut at a character. *)
Fixpoint cut (c : ascii) (s : string) : string * string :=
  match s with
  | EmptyString => ("", "")
  | String a s => if decide (a = c) then ("", s) else let '(l, r) := cut c s in (String a l, r)
  end.

(** A pair of the query: those with a semicolon, without a key or with a wrong
    escape are left out. *)
Definition query_pair (s : string) : option (string * string) :=
  if contains_char ";"%char s then None
  else if decide (s = "") then None
  else let '(k, v) := cut "="%char s in
       match QueryUnescape k, QueryUnescape v with Some k, Some v => Some (k, v) | _, _ => None end.

(** u.Query(). *)
Definition Query (raw : string) : list (string * string) := omap query_pair (split_char "&"%char raw).

(** Values.Get: the first value of the key. *)
Fixpoint Get_ (k : string) (q : list (string * string)) : string :=
  match q with
  | [] => ""
  | (k', v) :: q => if decide (k' = k) then v else Get_ k q
  end.

Example Query_ex : Get_ "deep" (Query "a=1;deep=0&de%65p=%31&deep=0") = "1". Proof. reflexivity. Qed.

(** ** net/http: requests and responses *)

Record Request := mkRequest { rq_path : string; rq_query : string }.

(** What a ResponseWriter has got: the header fields set by the program, the
    status once it is written, the body. *)
Record Response := mkResponse { rs_header : gmap string string; rs_code : option Z; rs_body : string }.

Definition new_response : Response := mkResponse ∅ None "".

Definition SetHeader (k v : string) (r : Response) : Response :=
  match rs_code r with
  | None => mkResponse (<[k := v]> (rs_header r)) (rs_code r) (rs_body r)
  | Some _ => r
  end.

(** The first status counts. *)
Definition WriteHeader (code : Z) (r : Response) : Response :=
  match rs_code r with
  | None => mkResponse (rs_header r) (Some code) (rs_body r)
  | Some _ => r
  end.

Definition Write (s : string) (r : Response) : Response :=
  let r := WriteHeader 200 r in mkResponse (rs_header r) (rs_code r) (rs_body r +:+ s).

(** The status that is sent. *)
Definition status (r : Response) : Z := default 200 (rs_code r).

Definition NotFound : Response :=
  Write (line "404 page not found")
    (WriteHeader 404
      (SetHeader "X-Content-Type-Options" "nosniff"
        (SetHeader "Content-Type" "text/plain; charset=utf-8" new_response))).

Definition Handler : Type := Request -> M Response.

(** ** http.ServeMux *)

Definition cleanPath (p : string) : string :=
  if decide (p = "") then "/"
  else
    let p := if is_rooted p then p else "/" +:+ p in
    let np := Clean p in
    if HasSuffix p "/" && bool_decide (np <> "/") then np +:+ "/" else np.

(** A redirection to another path; its body is a link. *)
Definition moved (rq : Request) : Response :=
  let target := cleanPath (rq_path rq) +:+ if decide (rq_query rq = "") then "" else "?" +:+ rq_query rq in
  WriteHeader 301 (SetHeader "Location" target new_response).

(** Patterns that are paths without a slash at their end match themselves. *)
Fixpoint route (routes : list (string * Handler)) (p : string) : option Handler :=
  match routes with
  | [] => None
  | (pattern, h) :: routes => if decide (pattern = p) then Some h else route routes p
  end.

Definition ServeMux (routes : list (string * Handler)) : Handler := fun rq =>
  if decide (cleanPath (rq_path rq) <> rq_path rq) then mret (moved rq)
  else match route routes (rq_path rq) with
       | Some h => h rq
       | None => mret NotFound
       end.

(** ** A server *)

(** What listening at an address says. *)
Class Net := { listen_tcp : string -> world -> option goerr }.

(** What happens to a server, one after the other: a request, a step of what
    runs beside it, the end of its context, a failure of its listener. *)
Inductive event (E : Type) : Type :=
  | EvRequest (rq : Request)
  | EvBeside (e : E)
  | EvDone
  | EvFail (e : goerr).
Arguments EvRequest {E} rq.
Arguments EvBeside {E} e.
Arguments EvDone {E}.
Arguments EvFail {E} e.

(** Whether the call that serves has returned, with which error. *)
Inductive service := Serving | Served (err : option goerr).

Section server.
Context {E : Type} (handler : Handler) (beside : E -> M unit).

(** The answers so far, and what came of the server. Shutting it down makes
    it return ErrServerClosed, which its callers take for no error. *)
Fixpoint serve_events (evs : list (event E)) : M (list Response * service) :=
  match evs with
  | [] => mret ([], Serving)
  | EvRequest rq :: evs => r ← handler rq; '(rs, e) ← serve_events evs; mret (r :: rs, e)
  | EvBeside e :: evs => beside e ;; serve_events evs
  | EvDone :: _ => mret ([], Served None)
  | EvFail e :: _ => mret ([], Served (Some e))
  end.

Definition ListenAndServe `{Net} (addr : string) (evs : list (event E)) : M (list Response * service) :=
  err ← gets (listen_tcp addr);
  match err with
  | Some e => mret ([], Served (Some e))
  | None => serve_events evs
  end.
End server.

(** ** registry.go: the page *)

(** The orders in which Go's loops over maps visit the copies of a registry. *)
Record orders := mkOrders {
  corder : list (string * Z); gorder : list (string * Z); ckeys : list string; gkeys : list string;
}.

Record visits (c g : gmap string Z) (o : orders) : Prop := {
  vi_c : corder o ≡ₚ map_to_list c;
  vi_g : gorder o ≡ₚ map_to_list g;
  vi_ck : ckeys o ≡ₚ (map_to_list c).*1;
  vi_gk : gkeys o ≡ₚ (map_to_list g).*1;
}.

Section page.
(** The format %g of the gauges, and the orders. *)
Context (format_g : Z -> string) (pick : gmap string Z -> gmap string Z -> orders).

(** A registry that is shared: how it is read. *)
Definition Default_ : M (Registry Z) := gets (fun w => mkRegistry (w_counters w) (w_gauges w)).

Definition page_type : string := "text/plain; version=0.0.4; charset=utf-8".

Definition registry_Handler (reg : M (Registry Z)) : Handler := fun rq =>
  if decide (rq_path rq <> "/metrics") then mret NotFound
  else
    r ← reg;
    let o := pick (counters r) (gauges r) in
    mret (Write (WritePrometheus format_g (corder o) (gorder o) (ckeys o) (gkeys o))
            (SetHeader "Content-Type" page_type new_response)).

Context `{Net}.

Definition ServeContext (addr : string) (reg : option (M (Registry Z))) (evs : list (event Empty_set))
    : M (list Response * service) :=
  ListenAndServe (registry_Handler (default Default_ reg)) (fun e : Empty_set => match e with end) addr evs.

(** A background context is never done. *)
Definition background {E} (e : event E) : bool := match e with EvDone => false | _ => true end.

Definition Serve (addr : string) (reg : option (M (Registry Z))) (evs : list (event Empty_set))
    : M (list Response * service) :=
  ServeContext addr reg (filter (fun e => background e = true) evs).
End page.
