(* ===== verification/Config.v ===== *)
(** pkg/config/config.go: the configuration and where its values come from. *)
From S2P Require Export Text.
Local Open Scope Z_scope.

Record Config := mkConfig {
  ImageRoot : string;
  RunDir : string;
  RpcSecret : string;
  RestoreTimeout : Z;   (** durations in nanoseconds *)
  ShimPoll : Z;
  MaxRetries : Z;
  RetryBackoff : Z;
}.

Definition set_ImageRoot v c := mkConfig v (RunDir c) (RpcSecret c) (RestoreTimeout c) (ShimPoll c) (MaxRetries c) (RetryBackoff c).
Definition set_RunDir v c := mkConfig (ImageRoot c) v (RpcSecret c) (RestoreTimeout c) (ShimPoll c) (MaxRetries c) (RetryBackoff c).
Definition set_RpcSecret v c := mkConfig (ImageRoot c) (RunDir c) v (RestoreTimeout c) (ShimPoll c) (MaxRetries c) (RetryBackoff c).
Definition set_RestoreTimeout v c := mkConfig (ImageRoot c) (RunDir c) (RpcSecret c) v (ShimPoll c) (MaxRetries c) (RetryBackoff c).
Definition set_ShimPoll v c := mkConfig (ImageRoot c) (RunDir c) (RpcSecret c) (RestoreTimeout c) v (MaxRetries c) (RetryBackoff c).
Definition set_MaxRetries v c := mkConfig (ImageRoot c) (RunDir c) (RpcSecret c) (RestoreTimeout c) (ShimPoll c) v (RetryBackoff c).
Definition set_RetryBackoff v c := mkConfig (ImageRoot c) (RunDir c) (RpcSecret c) (RestoreTimeout c) (ShimPoll c) (MaxRetries c) v.

(** time.ParseDuration; [None] stands for an error. *)
Class ParseDur := ParseDuration : string -> option Z.

Section load.
Context `{ParseDur}.

(** [if v := os.Getenv(key); v != "" { ... }]. *)
Definition if_env (key : string) (f : string -> Config -> Config) (cfg : Config) : M Config :=
  v ← Getenv key; mret (if decide (v <> "") then f v cfg else cfg).

Definition dur_or (set : Z -> Config -> Config) (v : string) (cfg : Config) : Config :=
  match ParseDuration v with Some d => set d cfg | None => cfg end.

Definition int_or (set : Z -> Config -> Config) (v : string) (cfg : Config) : Config :=
  match Atoi v with Some n => set n cfg | None => cfg end.

Definition mergeEnv (cfg : Config) : M Config :=
  cfg ← if_env "CUDACKPT_IMAGE_ROOT" set_ImageRoot cfg;
  cfg ← if_env "CUDACKPT_RUN_DIR" set_RunDir cfg;
  cfg ← if_env "CUDACKPT_RESTORE_TIMEOUT" (dur_or set_RestoreTimeout) cfg;
  cfg ← if_env "CUDACKPT_SHIM_POLL" (dur_or set_ShimPoll) cfg;
  cfg ← if_env "CUDACKPT_MAX_RETRIES" (int_or set_MaxRetries) cfg;
  cfg ← if_env "CUDACKPT_RETRY_BACKOFF" (dur_or set_RetryBackoff) cfg;
  if_env "CUDACKPT_RPC_SECRET" set_RpcSecret cfg.

Definition Default : M Config :=
  mergeEnv (mkConfig "/var/lib/cudackpt" "/run/cudackpt" "" 60000000000 200000000 3 500000000).

(** strings.Cut with a one-character separator. *)
Fixpoint Cut (sep : ascii) (s : string) : option (string * string) :=
  match s with
  | EmptyString => None
  | String c r =>
      if decide (c = sep) then Some ("", r)
      else match Cut sep r with Some (a, b) => Some (String c a, b) | None => None end
  end.

(** The switch on the key: the new configuration, or the warning. *)
Definition dur_key (set : Z -> Config -> Config) (name v : string) (cfg : Config) : Config * list string :=
  match ParseDuration v with
  | Some d => (set d cfg, [])
  | None => (cfg, ["invalid " +:+ name +:+ ": " +:+ v])
  end.

Definition set_key (k v : string) (cfg : Config) : Config * list string :=
  if decide (k = "image_root") then (set_ImageRoot v cfg, [])
  else if decide (k = "run_dir") then (set_RunDir v cfg, [])
  else if decide (k = "restore_timeout") then dur_key set_RestoreTimeout k v cfg
  else if decide (k = "shim_poll") then dur_key set_ShimPoll k v cfg
  else if decide (k = "max_retries") then
    match Atoi v with
    | Some n => (set_MaxRetries n cfg, [])
    | None => (cfg, ["invalid max_retries: " +:+ v])
    end
  else if decide (k = "retry_backoff") then dur_key set_RetryBackoff k v cfg
  else if decide (k = "rpc_secret") then (set_RpcSecret v cfg, [])
  else (cfg, ["unknown config key: " +:+ k]).

(** One line of the configuration file. *)
Definition config_line (line : string) (cfg : Config) : Config * list string :=
  let line := TrimSpace line in
  if bool_decide (line = "") || HasPrefix line "#" then (cfg, [])
  else match Cut "=" line with
       | None => (cfg, ["invalid line (expected key=value): " +:+ line])
       | Some (k, v) => set_key (TrimSpace k) (TrimSpace v) cfg
       end.

Fixpoint config_lines (lines : list string) (cfg : Config) (warnings : list string)
    : Config * list string :=
  match lines with
  | [] => (cfg, warnings)
  | l :: lines => let '(cfg, ws) := config_line l cfg in config_lines lines cfg (warnings ++ ws)
  end.

Record LoadResult := mkLoadResult { res_Config : Config; res_Warnings : list string }.

(** The lines the scanner gives until it stops. When a read fails it stops as at
    the end of the file, after the bytes it has: the last line it gives need not
    be whole. *)
Definition scan_file (f : file) : M (list string) :=
  let lines n w := match file_bytes w f with inr c => (ScanLines (n c)).1 | inl _ => [] end in
  syscall (fun flt => gets (lines (take (f_progress flt)))) (gets (lines id)).

(** The error of the scanner is not looked at. *)
Definition LoadWithWarnings : M LoadResult :=
  cfg ← Default;
  path ← Getenv "CUDACKPT_CONFIG";
  let path := if decide (path = "") then "/etc/cudackpt.conf" else path in
  r ← attempt (Open path);
  match r with
  | inl _ => mret (mkLoadResult cfg [])
  | inr f =>
      lines ← scan_file f;
      let '(cfg, warnings) := config_lines lines cfg [] in
      cfg ← mergeEnv cfg;
      mret (mkLoadResult cfg warnings)
  end.

(** The warnings [Load] prints are on the standard error stream. *)
Definition Load : M Config := r ← LoadWithWarnings; mret (res_Config r).
End load.

(** ** Specification: where each field comes from *)

Section spec.
Context `{ParseDur}.

(** The key and the value of a line, when it has them. *)
Definition line_pair (line : string) : option (string * string) :=
  let line := TrimSpace line in
  if bool_decide (line = "") || HasPrefix line "#" then None
  else '(k, v) ← Cut "=" line; Some (TrimSpace k, TrimSpace v).

(** The value a line gives to a key: none when it does not parse. *)
Definition line_value {A} (parse : string -> option A) (key line : string) : option A :=
  '(k, v) ← line_pair line; if decide (k = key) then parse v else None.

Definition last_value {A} (parse : string -> option A) (key : string) (lines : list string) : option A :=
  last (omap (line_value parse key) lines).

Definition env_value {A} (parse : string -> option A) (env : gmap string string) (key : string) : option A :=
  let v := default "" (env !! key) in if decide (v = "") then None else parse v.

(** A field: the value of the environment, or else of the last line that gives
    one, or else the built-in default. *)
Definition field {A} (parse : string -> option A) (env : gmap string string) (ekey : string)
    (lines : list string) (key : string) (dflt : A) : A :=
  match env_value parse env ekey with
  | Some v => v
  | None => default dflt (last_value parse key lines)
  end.

(** The configuration file. *)
Definition config_path (env : gmap string string) : string :=
  let path := default "" (env !! "CUDACKPT_CONFIG") in
  if decide (path = "") then "/etc/cudackpt.conf" else path.

Definition config_spec (env : gmap string string) (lines : list string) : Config :=
  mkConfig
    (field Some env "CUDACKPT_IMAGE_ROOT" lines "image_root" "/var/lib/cudackpt")
    (field Some env "CUDACKPT_RUN_DIR" lines "run_dir" "/run/cudackpt")
    (field Some env "CUDACKPT_RPC_SECRET" lines "rpc_secret" "")
    (field ParseDuration env "CUDACKPT_RESTORE_TIMEOUT" lines "restore_timeout" 60000000000)
    (field ParseDuration env "CUDACKPT_SHIM_POLL" lines "shim_poll" 200000000)
    (field Atoi env "CUDACKPT_MAX_RETRIES" lines "max_retries" 3)
    (field ParseDuration env "CUDACKPT_RETRY_BACKOFF" lines "retry_backoff" 500000000).

(** ** Facts *)

(** [mergeEnv] overrides the fields the environment sets. *)
Definition merged (env : gmap string string) (c : Config) : Config :=
  mkConfig
    (default (ImageRoot c) (env_value Some env "CUDACKPT_IMAGE_ROOT"))
    (default (RunDir c) (env_value Some env "CUDACKPT_RUN_DIR"))
    (default (RpcSecret c) (env_value Some env "CUDACKPT_RPC_SECRET"))
    (default (RestoreTimeout c) (env_value ParseDuration env "CUDACKPT_RESTORE_TIMEOUT"))
    (default (ShimPoll c) (env_value ParseDuration env "CUDACKPT_SHIM_POLL"))
    (default (MaxRetries c) (env_value Atoi env "CUDACKPT_MAX_RETRIES"))
    (default (RetryBackoff c) (env_value ParseDuration env "CUDACKPT_RETRY_BACKOFF")).

Lemma if_env_run key f c w :
  if_env key f c w =
  (Ret (let v := default "" (w_env w !! key) in if decide (v = "") then c else f v c), w).
Proof.
  unfold if_env, Getenv, gets, mbind, M_bind, mret, M_ret. cbv zeta.
  by repeat case_decide.
Qed.

Lemma mergeEnv_run c w : mergeEnv c w = (Ret (merged (w_env w) c), w).
Proof.
  unfold mergeEnv. do 6 (rewrite (bind_run _ _ _ _ _ (if_env_run _ _ _ _))). rewrite if_env_run.
  do 2 f_equal. unfold merged, env_value, dur_or, int_or. cbv zeta.
  set (e1 := default "" (w_env w !! "CUDACKPT_IMAGE_ROOT")). set (e2 := default "" (w_env w !! "CUDACKPT_RUN_DIR")).
  set (e3 := default "" (w_env w !! "CUDACKPT_RESTORE_TIMEOUT")). set (e4 := default "" (w_env w !! "CUDACKPT_SHIM_POLL")).
  set (e5 := default "" (w_env w !! "CUDACKPT_MAX_RETRIES")). set (e6 := default "" (w_env w !! "CUDACKPT_RETRY_BACKOFF")).
  set (e7 := default "" (w_env w !! "CUDACKPT_RPC_SECRET")). clearbody e1 e2 e3 e4 e5 e6 e7.
  destruct c, (decide (e1 = "")), (decide (e2 = "")), (decide (e3 = "")), (decide (e4 = "")),
    (decide (e5 = "")), (decide (e6 = "")), (decide (e7 = "")),
    (ParseDuration e3), (ParseDuration e4), (Atoi e5), (ParseDuration e6); reflexivity.
Qed.

(** What a line does to the fields. *)
Definition lined (line : string) (c : Config) : Config :=
  mkConfig
    (default (ImageRoot c) (line_value Some "image_root" line))
    (default (RunDir c) (line_value Some "run_dir" line))
    (default (RpcSecret c) (line_value Some "rpc_secret" line))
    (default (RestoreTimeout c) (line_value ParseDuration "restore_timeout" line))
    (default (ShimPoll c) (line_value ParseDuration "shim_poll" line))
    (default (MaxRetries c) (line_value Atoi "max_retries" line))
    (default (RetryBackoff c) (line_value ParseDuration "retry_backoff" line)).

Lemma config_line_fst line c : (config_line line c).1 = lined line c.
Proof.
  unfold config_line, lined, line_value, line_pair. cbv zeta.
  destruct (bool_decide _ || _); [by destruct c|].
  destruct (Cut "=" _) as [[k v]|]; [|by destruct c]. cbn [mbind option_bind].
  generalize (TrimSpace k) as key, (TrimSpace v) as val. clear. intros key val.
  unfold set_key, dur_key. destruct c.
  repeat (match goal with |- context [decide (key = ?x)] => destruct (decide (key = x)) as [->|] end;
          [repeat (rewrite decide_False by done); cbn;
           try destruct (ParseDuration val); try destruct (Atoi val); reflexivity|]).
  done.
Qed.

Lemma last_app_default {A} (l l' : list A) d :
  default d (last (l ++ l')) = default (default d (last l)) (last l').
Proof. rewrite last_app. by destruct (last l'). Qed.

Lemma config_lines_fst lines c ws :
  (config_lines lines c ws).1 = foldl (fun c l => lined l c) c lines.
Proof.
  revert c ws. induction lines as [|l lines IH]; intros c ws; [done|]. cbn [config_lines foldl].
  rewrite <- (config_line_fst l c). destruct (config_line l c) as [c' ws']. apply IH.
Qed.

(** The fields after the lines: each has the last value given to it. *)
Lemma lined_all lines c :
  foldl (fun c l => lined l c) c lines =
  mkConfig
    (default (ImageRoot c) (last_value Some "image_root" lines))
    (default (RunDir c) (last_value Some "run_dir" lines))
    (default (RpcSecret c) (last_value Some "rpc_secret" lines))
    (default (RestoreTimeout c) (last_value ParseDuration "restore_timeout" lines))
    (default (ShimPoll c) (last_value ParseDuration "shim_poll" lines))
    (default (MaxRetries c) (last_value Atoi "max_retries" lines))
    (default (RetryBackoff c) (last_value ParseDuration "retry_backoff" lines)).
Proof.
  unfold last_value. induction lines as [|l lines IH] using rev_ind; [by destruct c|].
  rewrite foldl_app. cbn [foldl]. rewrite IH. unfold lined. cbn [ImageRoot RunDir RpcSecret RestoreTimeout ShimPoll MaxRetries RetryBackoff].
  rewrite !omap_app, !last_app_default. cbn [omap list_omap].
  f_equal; by destruct (line_value _ _ l).
Qed.

Lemma merged_twice env lines c :
  merged env (foldl (fun c l => lined l c) (merged env c) lines) =
  merged env (foldl (fun c l => lined l c) c lines).
Proof.
  rewrite !lined_all. unfold merged.
  cbn [ImageRoot RunDir RpcSecret RestoreTimeout ShimPoll MaxRetries RetryBackoff].
  f_equal; by destruct (env_value _ _ _), (last_value _ _ _).
Qed.
End spec.

(** ** Properties *)

(** Scanning a file: the lines of a part of it, which without failing calls is
    all of it. *)
Definition scanned (w : world) (p : path) (lines : list string) : Prop :=
  match w_fs w !! p with
  | Some (NFile c) => exists n, lines = (ScanLines (take n c)).1 /\ (nofault w -> (length c <= n)%nat)
  | _ => lines = []
  end.

Lemma scan_file_any f w :
  exists l lines, scan_file f w = (Ret lines, set_faults l w) /\ scanned w (f_path f) lines.
Proof.
  assert (H0 : w_faults w = [] -> set_faults [] w = w) by (intros <-; by destruct w).
  unfold scan_file, scanned, syscall, file_bytes, gets, nofault.
  destruct (w_faults w) as [|[flt|] l];
    [exists []; rewrite (H0 eq_refl)|exists l|exists l]; eexists; (split; [reflexivity|]); cbn [w_fs set_faults];
    destruct (w_fs w !! f_path f) as [[c| |]|]; try done.
  - exists (length c). by rewrite take_ge.
  - by exists (f_progress flt).
  - exists (length c). by rewrite take_ge.
Qed.

Lemma Open_scan_any s w :
  s <> "" ->
  exists l, (exists e, Open s w = (Err e, set_faults l w) /\ scanned w (at_path w s) []) \/
    exists l' f lines, Open s w = (Ret f, set_faults l w) /\
      scan_file f (set_faults l w) = (Ret lines, set_faults l' w) /\ scanned w (at_path w s) lines.
Proof.
  intros Hs. destruct (Open_any s w) as (l & [(f & Ho & Hf)|(e & Ho)]); exists l; [right|left].
  - destruct (scan_file_any f (set_faults l w)) as (l' & lines & Hl & Hsc).
    exists l', f, lines. split_and!; [done|exact Hl|].
    unfold scanned in *. rewrite Hf in Hsc. cbn [w_fs set_faults] in Hsc.
    destruct (w_fs w !! at_path w s) as [[c| |]|]; [|done..]. destruct Hsc as (n & -> & Hn). exists n. split; [done|].
    intros Hnf. apply Hn. unfold Open in Ho. rewrite syscall_run in Ho by done.
    destruct (find_node w s) as [|[]]; injection Ho as _ Ho; rewrite <- Ho; exact Hnf.
  - exists e. split; [done|]. unfold scanned. destruct (w_fs w !! at_path w s) as [[c| |]|] eqn:E; [|done..].
    exists 0%nat. split; [done|]. intros Hnf. exfalso. unfold Open in Ho. rewrite syscall_run in Ho by done.
    unfold find_node in Ho. by rewrite decide_False, E in Ho.
Qed.

(** C35: the configuration. Whatever fails, loading returns a configuration and
    changes no file; each field has the value of its environment variable when
    that is set and can be read, or else that of the last line of the
    configuration file that gives the key a readable value, or else the built-in
    default. The lines are those of the part of the file that was read, as if it
    ended there; without failing calls they are those of the whole file, and none
    for want of a file. *)
Theorem LoadWithWarnings_spec `{ParseDur} w :
  exists lines r w',
    LoadWithWarnings w = (Ret r, w') /\ w_fs w' = w_fs w /\
    res_Config r = config_spec (w_env w) lines /\
    match w_fs w !! at_path w (config_path (w_env w)) with
    | Some (NFile c) => exists n, lines = (ScanLines (take n c)).1 /\ (nofault w -> (length c <= n)%nat)
    | _ => lines = []
    end.
Proof.
  assert (Hspec : forall lines, config_spec (w_env w) lines =
    merged (w_env w) (foldl (fun c l => lined l c) (merged (w_env w)
      (mkConfig "/var/lib/cudackpt" "/run/cudackpt" "" 60000000000 200000000 3 500000000)) lines)).
  { intros lines. rewrite merged_twice, lined_all. unfold config_spec, merged, field.
    cbn [ImageRoot RunDir RpcSecret RestoreTimeout ShimPoll MaxRetries RetryBackoff].
    f_equal; by destruct (env_value _ _ _). }
  unfold LoadWithWarnings, Default. rewrite (bind_run _ _ _ _ _ (mergeEnv_run _ _)).
  set (dflt := merged _ _) in *. unfold Getenv. rewrite (bind_run (gets _) _ w _ w eq_refl).
  cbv zeta. fold (config_path (w_env w)).
  assert (Hne : config_path (w_env w) <> "") by (unfold config_path; by case_decide).
  destruct (Open_scan_any _ w Hne) as (l & [(e & Ho & Hsc)|(l' & f & lines & Ho & Hr & Hsc)]).
  - rewrite (bind_run _ _ _ _ _ (attempt_err _ _ _ _ Ho)). cbv beta iota.
    exists []; eexists _, _; split_and!; [done|done|by rewrite Hspec; symmetry; apply merged_twice with (lines := [])|done].
  - rewrite (bind_run _ _ _ _ _ (attempt_run _ _ _ _ Ho)). cbv beta iota.
    rewrite (bind_run _ _ _ _ _ Hr).
    pose proof (config_lines_fst lines dflt []) as Hl.
    destruct (config_lines _ dflt []) as [cfg ws]. cbn [fst] in Hl. subst cfg.
    rewrite (bind_run _ _ _ _ _ (mergeEnv_run _ _)).
    exists lines; eexists _, _; split_and!; [done|done|by rewrite Hspec|exact Hsc].
Qed.

(** A read that fails in the middle of a value: the part of the line that was
    read is taken for the line. *)
Example half_a_value :
  let c := bytes_of_string ("run_dir=/run/gpu" +:+ String newline ("image_root=/data/images" +:+ String newline "")) in
  let w := World (list_to_map [([], NDir); (["etc"], NDir); (["etc"; "cudackpt.conf"], NFile c)]) (fun _ => 0) [] ∅ 0 ∅ ∅
    [None; Some (Fault EIO 31)] ∅ "" in
  match (LoadWithWarnings (H:=fun _ => None) w).1 with
  | Ret r => RunDir (res_Config r) = "/run/gpu" /\ ImageRoot (res_Config r) = "/da"
  | _ => False
  end.
Proof. by vm_compute. Qed.
