(* ===== verification/Retry.v ===== *)
(** pkg/control/queue.go: running an operation again when it fails. *)
From S2P Require Export Config Metrics.
Local Open Scope Z_scope.

Record RetryPolicy := mkRetryPolicy { MaxAttempts : Z; Backoff : Z }.

(** time.Sleep: the clock advances. *)
Definition Sleep (d : Z) : M unit := fun w => (Ret tt, set_now (w_now w + Z.max 0 d) w).

Definition default_policy (p : RetryPolicy) : RetryPolicy :=
  mkRetryPolicy (if decide (MaxAttempts p <= 0) then 1 else MaxAttempts p)
                (if decide (Backoff p <= 0) then 500000000 else Backoff p).

Definition retryPolicy (cfg : Config) : RetryPolicy :=
  default_policy (mkRetryPolicy (MaxRetries cfg) (RetryBackoff cfg)).

(** The loop of [applyRetry] from an attempt on, with the attempts still
    allowed. *)
Fixpoint retry_loop (policy : RetryPolicy) (attemptFn : Z -> M unit) (stopRetry : goerr -> bool)
    (todo : nat) (attempt_ : Z) (last : option goerr) : M unit :=
  match todo with
  | O => match last with Some e => throw e | None => mret tt end
  | S todo =>
      r ← attempt (attemptFn attempt_);
      match r with
      | inr _ => mret tt
      | inl err =>
          if bool_decide (attempt_ = MaxAttempts policy) || stopRetry err then throw err
          else Sleep (Backoff policy) ;;
               retry_loop policy attemptFn stopRetry todo (attempt_ + 1) (Some err)
      end
  end.

Definition applyRetry (policy : RetryPolicy) (attemptFn : Z -> M unit) (stopRetry : goerr -> bool) : M unit :=
  let policy := default_policy policy in
  retry_loop policy attemptFn stopRetry (Z.to_nat (MaxAttempts policy)) 1 None.

(** ** Facts *)

Lemma default_policy_idem p : default_policy (default_policy p) = default_policy p.
Proof. unfold default_policy. cbn. f_equal; repeat case_decide; (done || lia). Qed.

Lemma default_policy_pos p : 1 <= MaxAttempts (default_policy p).
Proof. unfold default_policy. cbn. case_decide; lia. Qed.

Section retry.
Context (policy : RetryPolicy) (attemptFn : Z -> M unit) (stopRetry : goerr -> bool).

(** The world the attempt number [k] starts in: every attempt before it failed
    with an error that does not stop the retries, and was followed by the
    pause. *)
Inductive tried (w : world) : Z -> world -> Prop :=
  | tried_first : tried w 1 w
  | tried_next k wk e w' :
      tried w k wk -> attemptFn k wk = (Err e, w') -> stopRetry e = false ->
      tried w (k + 1) (set_now (w_now w' + Backoff (default_policy policy)) w').

Lemma retry_loop_S p n a last :
  retry_loop p attemptFn stopRetry (S n) a last =
  (r ← attempt (attemptFn a);
   match r with
   | inr _ => mret tt
   | inl err =>
       if bool_decide (a = MaxAttempts p) || stopRetry err then throw err
       else Sleep (Backoff p) ;; retry_loop p attemptFn stopRetry n (a + 1) (Some err)
   end).
Proof. done. Qed.

Lemma retry_loop_spec n a last w wa :
  tried w a wa -> a + Z.of_nat n = MaxAttempts (default_policy policy) ->
  exists k wk, a <= k <= MaxAttempts (default_policy policy) /\ tried w k wk /\
    retry_loop (default_policy policy) attemptFn stopRetry (S n) a last wa = attemptFn k wk /\
    match attemptFn k wk with
    | (Err e, _) => stopRetry e = true \/ k = MaxAttempts (default_policy policy)
    | _ => True
    end.
Proof.
  revert a last wa. induction n as [|n IH]; intros a last wa Ht Ha; rewrite retry_loop_S;
    unfold mbind, M_bind, attempt; destruct (attemptFn a wa) as [[[]|e| |] w'] eqn:E.
  all: try (exists a, wa; rewrite E; split_and!; (done || lia)).
  - rewrite bool_decide_eq_true_2 by lia. exists a, wa. rewrite E. split_and!; (done || lia || right; lia).
  - rewrite bool_decide_eq_false_2 by lia. cbn [orb]. destruct (stopRetry e) eqn:Es.
    { exists a, wa. rewrite E. split_and!; (done || lia || by left). }
    assert (Hb : 0 < Backoff (default_policy policy)) by (unfold default_policy; cbn; case_decide; lia).
    cbn [Sleep]. unfold Sleep. rewrite Z.max_r by lia.
    destruct (IH (a + 1) (Some e) _ (tried_next _ _ _ _ _ Ht E Es) ltac:(lia)) as (k & wk & Hk & Htk & Hr & Hm).
    exists k, wk. split; [lia|]. split; [done|]. split; [exact Hr|exact Hm].
Qed.

Lemma applyRetry_run w :
  exists k wk, 1 <= k <= MaxAttempts (default_policy policy) /\ tried w k wk /\
    applyRetry policy attemptFn stopRetry w = attemptFn k wk /\
    match attemptFn k wk with
    | (Err e, _) => stopRetry e = true \/ k = MaxAttempts (default_policy policy)
    | _ => True
    end.
Proof.
  pose proof (default_policy_pos policy). unfold applyRetry. cbv zeta.
  destruct (Z.to_nat (MaxAttempts (default_policy policy))) as [|n] eqn:E; [lia|].
  apply (retry_loop_spec n 1 None w w); [constructor|lia].
Qed.
End retry.

(** ** Properties *)

(** What retrying does. The operation is tried, with the pause of the policy
    after each failure, until an attempt that does not fail, that fails with an
    error that stops the retries, or that is the last allowed: its outcome is
    the outcome of the whole, and there are at least one attempt and at most
    MaxAttempts (one and half a second where the policy gives no positive
    number). *)
Theorem applyRetry_spec policy attemptFn stopRetry w :
  exists k wk, 1 <= k <= Z.max 1 (MaxAttempts policy) /\
    tried policy attemptFn stopRetry w k wk /\
    applyRetry policy attemptFn stopRetry w = attemptFn k wk /\
    match attemptFn k wk with
    | (Err e, _) => stopRetry e = true \/ k = Z.max 1 (MaxAttempts policy)
    | _ => True
    end.
Proof.
  assert (Hm : MaxAttempts (default_policy policy) = Z.max 1 (MaxAttempts policy))
    by (unfold default_policy; cbn; case_decide; lia).
  rewrite <- Hm. apply applyRetry_run.
Qed.
