(* ===== verification/Log.v ===== *)
(** pkg/log/jsonlog.go: the log. A line goes to the file CUDACKPT_LOG names, or
    to the standard error stream, which is not part of the world. *)
From S2P Require Export OSFacts.
Local Open Scope Z_scope.

(** The values of the fields. *)
Inductive any := AnyInt (n : Z) | AnyStr (s : string).

Record Event := mkLogEvent {
  ev_Time : string; ev_Event : string; ev_Level : string; ev_Error : string; ev_Fields : gmap string any;
}.

(** What restore_events.go writes of a phase. *)
Record restorePhaseEvent := mkEvent {
  pe_Time : string; pe_Phase : string; pe_Dir : string; pe_PID : Z; pe_Extra : gmap string any;
}.

(** time.Time.Format with time.RFC3339Nano and with time.RFC3339, and
    json.Marshal, of both records; [None] stands for an error. *)
Class EventFormat := {
  format_time : Z -> string;
  format_seconds : Z -> string;
  log_Marshal : Event -> option bytes;
  json_Marshal : restorePhaseEvent -> option bytes;
}.

Section log.
Context `{EventFormat}.

Definition emit (level name : string) (err : option goerr) (fields : gmap string any) : M unit :=
  now ← gets w_now;
  let e := mkLogEvent (format_time now) name level (match err with Some e => Error e | None => "" end) fields in
  let b := default [] (log_Marshal e) in
  p ← Getenv "CUDACKPT_LOG";
  if decide (p <> "") then
    f ← attempt (open_create false p);
    match f with
    | inr f => ignore (fwrite f (b ++ [Byte.x0a]))
    | inl _ => mret tt
    end
  else mret tt.

Definition log_Info (name : string) (fields : gmap string any) : M unit := emit "info" name None fields.
Definition log_Error (name : string) (err : goerr) (fields : gmap string any) : M unit :=
  emit "error" name (Some err) fields.

(** ** Facts *)

(** The log changes at most the log file. *)
Definition getenv (w : world) (k : string) : string := default "" (w_env w !! k).

Definition log_elsewhere (w : world) (q : path) : Prop :=
  getenv w "CUDACKPT_LOG" = "" \/ ~ q `prefix_of` resolve (w_cwd w) (getenv w "CUDACKPT_LOG").

Lemma emit_frame level name err fields w :
  frame (fun q => getenv w "CUDACKPT_LOG" <> "" /\ q = resolve (w_cwd w) (getenv w "CUDACKPT_LOG")) w
    (emit level name err fields w).2.
Proof.
  unfold emit, gets, Getenv. unfold mbind at 1 2, M_bind at 1 2. unfold gets.
  fold (getenv w "CUDACKPT_LOG"). set (p := getenv w "CUDACKPT_LOG"). case_decide as Hp; [|done].
  set (S := fun q => _).
  assert (Hc : framed (w_cwd w) S (open_create false p)).
  { apply framed_syscall; [intros; apply framed_throw|]. intros v Hv. unfold at_path. rewrite Hv.
    case_decide; [done|]. destruct (w_fs v !! resolve (w_cwd w) p) as [[]|]; try done.
    destruct (parent_errno _ _); [done|]. apply frame_set_fs. intros q Hq. apply lookup_insert_ne.
    intros <-. by apply Hq. }
  eapply (framed_bind_post (w_cwd w) S _ (fun r => match r with inr f => S (f_path f) | inl _ => True end));
    [by apply framed_attempt| |intros [e|f] Hf; [apply framed_ret|by apply framed_ignore, framed_fwrite]|done].
  intros v r v' Hv E. apply attempt_inv in E as [(f & -> & E)|(e & -> & _)]; [|done]. revert E. unfold open_create.
  match goal with |- context [syscall ?a ?b] => destruct (syscall_any a b v) as (l & [->|[g ->]]) end; [|done].
  change (at_path (set_faults l v) p) with (at_path v p). unfold at_path. rewrite Hv. case_decide; [done|].
  cbn [w_fs set_faults].
  destruct (w_fs v !! resolve (w_cwd w) p) as [[]|]; try done; [by intros [= <- _]|].
  destruct (parent_errno _ _); [done|by intros [= <- _]].
Qed.

Lemma emit_returns level name err fields w : (emit level name err fields w).1 = Ret tt.
Proof.
  assert (Ho : forall p v, exists r v', attempt (open_create false p) v = (Ret r, v')).
  { intros p v. unfold attempt, open_create.
    match goal with |- context [syscall ?a ?b v] => destruct (syscall_any a b v) as (l & [->|[g ->]]) end;
      [|by do 2 eexists].
    cbv zeta. case_decide; [by do 2 eexists|].
    destruct (w_fs _ !! _) as [[]|]; try (by do 2 eexists). destruct (parent_errno _ _); by do 2 eexists. }
  assert (Hf : forall f d v, (ignore (fwrite f d) v).1 = Ret tt).
  { intros f d v. unfold ignore, attempt, fwrite, mbind, M_bind.
    by match goal with |- context [syscall ?a ?b v] => destruct (syscall_any a b v) as (l & [->|[g ->]]) end. }
  unfold emit, gets, Getenv. unfold mbind at 1 2, M_bind at 1 2. unfold gets. case_decide; [|done].
  destruct (Ho (default "" (w_env w !! "CUDACKPT_LOG")) w) as (r & v & E). rewrite (bind_run _ _ _ _ _ E).
  destruct r as [e|f]; [done|apply Hf].
Qed.

(** A line of the log is no obstacle to what follows it. *)
Lemma emit_bind level name err fields {B} (f : unit -> M B) w :
  (emit level name err fields ≫= f) w = f tt (emit level name err fields w).2.
Proof.
  pose proof (emit_returns level name err fields w) as E. unfold mbind, M_bind.
  destruct (emit level name err fields w) as [r v]. cbn in E. by subst r.
Qed.

(** Away from the log file, a line of the log changes nothing. *)
Lemma emit_elsewhere level name err fields w q k :
  log_elsewhere w q -> w_fs (emit level name err fields w).2 !! (q ++ k) = w_fs w !! (q ++ k).
Proof.
  intros Hq. destruct (emit_frame level name err fields w) as (_ & _ & _ & Hf). apply Hf.
  intros [Hp E]. destruct Hq as [Hq|Hq]; [done|]. apply Hq. rewrite <- E. by eexists.
Qed.
End log.
