(* ===== verification/Rpc.v ===== *)
(** pkg/rpc: the protocol between the program and the shims. The client
    (proto.go), the test server (mockserver.go), and the C server of a shim
    (shim/ipc.c) as far as the protocol goes.

    A connection holds the bytes on their way to the server and back. The client
    blocks in a read until the bytes are there; the server runs then, on the
    requests that are complete by that time. *)
From S2P Require Export ManifestFacts Meta.
Local Open Scope Z_scope.

(** ** Connections *)

(** What a server does with the next bytes of a connection: expect the secret,
    take requests, or nothing more. *)
Inductive phase := PhAuth | PhLoop | PhClosed.

#[global] Instance phase_eq_dec : EqDecision phase.
Proof. solve_decision. Defined.

Record conn := Conn {
  c_addr : string;    (** the path dialed *)
  c_sock : path;      (** the socket it names *)
  c_in : bytes;       (** sent by the client, not yet taken by the server *)
  c_out : bytes;      (** sent by the server, not yet read by the client *)
  c_phase : phase;
}.

Definition with_in (b : bytes) (c : conn) : conn := Conn (c_addr c) (c_sock c) b (c_out c) (c_phase c).
Definition with_out (b : bytes) (c : conn) : conn := Conn (c_addr c) (c_sock c) (c_in c) b (c_phase c).
Definition with_phase (p : phase) (c : conn) : conn := Conn (c_addr c) (c_sock c) (c_in c) (c_out c) p.

(** A 32-bit word, and a string after its length, at the start of the input;
    [None] while they are not complete. *)
Definition take_u32 (l : bytes) : option (Z * bytes) :=
  if decide (4 <= length l)%nat then Some (be_dec (take 4 l), drop 4 l) else None.

Definition take_n (n : Z) (l : bytes) : option (bytes * bytes) :=
  if decide (n <= Z.of_nat (length l)) then Some (take (Z.to_nat n) l, drop (Z.to_nat n) l) else None.

(** The operations of the protocol. *)
Definition OpPing : Z := 1.
Definition OpStatus : Z := 2.
Definition OpFreeze : Z := 3.
Definition OpSnapshot : Z := 4.
Definition OpRestore : Z := 5.
Definition OpResume : Z := 6.
Definition OpQuit : Z := 7.
Definition OpStats : Z := 8.
Definition OpAuth : Z := 9.

(** replyU32: the answer is on its way. *)
Definition replyU32 (v : Z) (c : conn) : conn := with_out (c_out c ++ be_enc 4 v) c.
Definition close_with (v : Z) (c : conn) : conn := with_phase PhClosed (replyU32 v c).

Definition set_peer (sock : path) (p : peer) : M unit := fun w =>
  (Ret tt, set_peers (<[sock := p]> (w_peers w)) w).

(** ** mockserver.go *)

Definition int32 (z : Z) : Z := let z := z `mod` 2 ^ 32 in if decide (z < 2 ^ 31) then z else z - 2 ^ 32.

(** [mockStatus]: the answer, and the index afterwards. *)
Definition mockStatus (seq : list Z) (idx : Z) : option (Z * Z) :=
  match seq with
  | [] => Some (4, idx)
  | _ =>
      let next := int32 (idx + 1) in
      let i := int32 (next - 1) in
      if decide (i >= Z.of_nat (length seq)) then (fun v => (v, next)) <$> last seq
      else if decide (i < 0) then None
      else (fun v => (v, next)) <$> (seq !! Z.to_nat i)
  end.

(** The files the server writes for a snapshot; [false] when it cannot. *)
Definition mock_snapshot (dir : string) : M bool :=
  r ← attempt (
    MkdirAll dir ;;
    WriteFile (PathJoin [dir; "device.bin"]) [Byte.x01; Byte.x02; Byte.x03; Byte.x04]);
  match r with
  | inl _ => mret false
  | inr _ =>
      ignore (WriteFile (PathJoin [dir; "dev.bin"]) (replicate 4 Byte.x00)) ;;
      let payload := [Byte.x01; Byte.x02; Byte.x03; Byte.x04] in
      let e := mkEntry 0x1000 (Z.of_nat (length payload)) 0 (CRC32C payload) 1 (replicate 32 Byte.x00) in
      r ← attempt (WriteManifest (PathJoin [dir; "manifest.bin"]) [e]);
      mret (match r with inr _ => true | inl _ => false end)
  end.

(** One round of the loop of [serveMockConn], after the operation has been
    read; [None] when it waits for more input. *)
Definition mock_op (secret : string) (ff : Z) (seq : list Z) (idx op : Z) (c : conn) : M (option conn) :=
  if decide (op = OpPing \/ op = OpResume) then mret (Some (replyU32 0 c))
  else if decide (op = OpFreeze) then
    if decide (ff > 0) then
      let ff' := int32 (ff - 1) in
      set_peer (c_sock c) (PMock secret ff' seq idx) ;;
      mret (Some (replyU32 (if decide (ff' >= 0) then 1 else 0) c))
    else mret (Some (replyU32 0 c))
  else if decide (op = OpSnapshot) then
    match take_u32 (c_in c) with
    | None => mret None
    | Some (n, r) =>
        match take_n n r with
        | None => mret None
        | Some (buf, r) =>
            let c := with_in r c in
            if decide (n > 0) then
              ok ← mock_snapshot (string_of_bytes buf);
              mret (Some (if (ok : bool) then replyU32 0 c else close_with 1 c))
            else mret (Some (replyU32 0 c))
        end
    end
  else if decide (op = OpRestore) then
    match take_u32 (c_in c) with
    | None => mret None
    | Some (n, r) =>
        match take_n n r with
        | None => mret None
        | Some (_, r) => mret (Some (replyU32 0 (with_in r c)))
        end
    end
  else if decide (op = OpStatus) then
    match mockStatus seq idx with
    | Some (v, idx') =>
        set_peer (c_sock c) (PMock secret ff seq idx') ;; mret (Some (replyU32 v c))
    | None => panic
    end
  else if decide (op = OpStats) then
    mret (Some (foldl (fun c n => replyU32 n c) c [0; 1; 0; 0; 0; 0; 0; 0; 0; 0; 0; 4]))
  else if decide (op = OpQuit) then mret (Some (close_with 0 c))
  else mret (Some (replyU32 1 c)).

(** The check of the secret, which is the first thing on a connection. *)
Definition mock_auth (secret : string) (c : conn) : option conn :=
  match take_u32 (c_in c) with
  | None => None
  | Some (op, r) =>
      if decide (op <> OpAuth) then Some (close_with 2 (with_in r c))
      else match take_u32 r with
      | None => None
      | Some (n, r) =>
          match take_n n r with
          | None => None
          | Some (buf, r) =>
              if decide (string_of_bytes buf <> secret) then Some (close_with 1 (with_in r c))
              else Some (with_phase PhLoop (replyU32 0 (with_in r c)))
          end
      end
  end.

Definition mock_step (secret : string) (ff : Z) (seq : list Z) (idx : Z) (c : conn) : M (option conn) :=
  match c_phase c with
  | PhClosed => mret None
  | PhAuth => mret (mock_auth secret c)
  | PhLoop =>
      match take_u32 (c_in c) with
      | None => mret None
      | Some (op, r) => mock_op secret ff seq idx op (with_in r c)
      end
  end.

(** ** shim/ipc.c *)

(** The counters of the tracker of a shim. *)
Record TrackerStats := mkTrackerStats {
  st_alloc_count : Z; st_total_bytes : Z; st_stream_count : Z; st_module_count : Z;
  st_symbol_count : Z; st_event_count : Z; st_ctx_count : Z; st_unsupported_code : Z; st_state : Z;
}.

(** What the shim asks of the CUDA driver: the C functions of the same names in
    quiesce.cpp, snapshot.cu, restore.cu and tracker.cpp. They return a status
    and act on the world (a snapshot writes the files of the image). *)
Class Gpu := {
  ckpt_quiesce_gpu : world -> Z * world;
  ckpt_snapshot_write : string -> world -> Z * world;
  ckpt_restore_load : string -> world -> Z * world;
  ckpt_resume_signal : world -> world;
  stats_snapshot : world -> TrackerStats;
}.

Definition ST_IDLE : Z := 0.
Definition ST_FROZEN : Z := 1.
Definition ST_SNAPPED : Z := 2.
Definition ST_RESTORED : Z := 3.
Definition ST_RUNNING : Z := 4.

(** [read_str(fd, buf, 512)]: [inl] when the length does not fit (-1), the text
    up to its first NUL byte otherwise. *)
Fixpoint c_string (l : bytes) : bytes :=
  match l with
  | [] => []
  | b :: l => if decide (b = Byte.x00) then [] else b :: c_string l
  end.

Definition read_str (l : bytes) : option (unit + string * bytes) :=
  match take_u32 l with
  | None => None
  | Some (n, r) =>
      if decide (n >= 512) then Some (inl tt)
      else match take_n n r with
           | None => None
           | Some (buf, r) => Some (inr (string_of_bytes (c_string buf), r))
           end
  end.

(** [secrets_match]: the comparison that takes as long for any text. [diff] is
    an unsigned char. *)
Definition secret_byte (i : nat) (s : bytes) : Z := match s !! i with Some b => Z_of_byte b | None => 0 end.

Definition secret_diff (secret got : bytes) : Z :=
  foldl (fun diff i => Z.lor diff (Z.lxor (secret_byte i secret) (secret_byte i got)))
    (Z.lxor (Z.of_nat (length got)) (Z.of_nat (length secret)) `mod` 256)
    (seq 0 (Nat.max (length got) (length secret))).

Definition secrets_match (secret got : string) : bool :=
  if decide (secret = "") then true
  else bool_decide (secret_diff (bytes_of_string secret) (bytes_of_string got) = 0).

(** The words [write_stats] sends. *)
Definition write_stats (st : TrackerStats) : list Z :=
  [0; u32 (st_alloc_count st); Z.land (st_total_bytes st) 0xffffffff;
   Z.land (Z.shiftr (st_total_bytes st) 32) 0xffffffff;
   u32 (st_stream_count st); u32 (st_module_count st); u32 (st_symbol_count st);
   u32 (st_event_count st); u32 (st_ctx_count st); st_unsupported_code st; u32 (st_state st)].

Section shim.
Context `{Gpu}.

Definition gpu {A} (op : world -> A * world) : M A := fun w => let '(a, w) := op w in (Ret a, w).

(** [set_state]; the tracker keeps a copy for the statistics. *)
Definition set_state (sock : path) (secret : string) (s : Z) : M unit := set_peer sock (PShim secret s).

(** [require_auth]. *)
Definition shim_auth (secret : string) (c : conn) : option conn :=
  match take_u32 (c_in c) with
  | None => None
  | Some (op, r) =>
      if decide (op <> OpAuth) then Some (close_with 2 (with_in r c))
      else match read_str r with
      | None => None
      | Some (inl _) => Some (close_with 1 (with_in (drop 4 r) c))
      | Some (inr (tok, r)) =>
          if secrets_match secret tok then Some (with_phase PhLoop (replyU32 0 (with_in r c)))
          else Some (close_with 1 (with_in r c))
      end
  end.

(** [handle_client] after the check of the secret: one request, then the
    connection is closed. *)
Definition shim_op (secret : string) (state op : Z) (c : conn) : M (option conn) :=
  let sock := c_sock c in
  if decide (op = OpPing) then mret (Some (close_with 0 c))
  else if decide (op = OpStatus) then mret (Some (close_with (u32 state) c))
  else if decide (op = OpStats) then
    st ← gets stats_snapshot;
    mret (Some (with_phase PhClosed (foldl (fun c n => replyU32 n c) c (write_stats st))))
  else if decide (op = OpFreeze) then
    rc ← gpu ckpt_quiesce_gpu;
    if decide (rc <> 0) then mret (Some (close_with 1 c))
    else set_state sock secret ST_FROZEN ;; mret (Some (close_with 0 c))
  else if decide (op = OpSnapshot) then
    match read_str (c_in c) with
    | None => mret None
    | Some (inl _) => mret (Some (close_with 1 c))
    | Some (inr (dir, r)) =>
        rc ← gpu (ckpt_snapshot_write dir);
        (if decide (rc = 0) then set_state sock secret ST_SNAPPED else mret tt) ;;
        mret (Some (close_with (if decide (rc = 0) then 0 else 1) (with_in r c)))
    end
  else if decide (op = OpRestore) then
    match read_str (c_in c) with
    | None => mret None
    | Some (inl _) => mret (Some (close_with 1 c))
    | Some (inr (dir, r)) =>
        rc ← gpu (ckpt_restore_load dir);
        (if decide (rc = 0) then set_state sock secret ST_RESTORED else mret tt) ;;
        mret (Some (close_with (if decide (rc = 0) then 0 else 1) (with_in r c)))
    end
  else if decide (op = OpResume) then
    gpu (fun w => (tt, ckpt_resume_signal w)) ;;
    set_state sock secret ST_RUNNING ;;
    mret (Some (close_with 0 c))
  else if decide (op = OpQuit) then mret (Some (close_with 0 c))
  else mret (Some (close_with 1 c)).

Definition shim_step (secret : string) (state : Z) (c : conn) : M (option conn) :=
  match c_phase c with
  | PhClosed => mret None
  | PhAuth => mret (shim_auth secret c)
  | PhLoop =>
      match take_u32 (c_in c) with
      | None => mret None
      | Some (op, r) => shim_op secret state op (with_in r c)
      end
  end.

(** ** A server runs *)

(** Connections start with the check of the secret where there is one. *)
Definition first_phase (p : peer) : phase :=
  match p with
  | PMock secret _ _ _ | PShim secret _ => if decide (secret = "") then PhLoop else PhAuth
  end.

Definition serve_step (c : conn) : M (option conn) := fun w =>
  match w_peers w !! c_sock c with
  | None => (Ret None, w)
  | Some (PMock secret ff seq idx) => mock_step secret ff seq idx c w
  | Some (PShim secret state) => shim_step secret state c w
  end.

Fixpoint serve_loop (fuel : nat) (c : conn) : M conn :=
  match fuel with
  | O => mret c
  | S fuel =>
      r ← serve_step c;
      match r with Some c => serve_loop fuel c | None => mret c end
  end.

(** Every request has at least four bytes. *)
Definition serve (c : conn) : M conn := serve_loop (length (c_in c)) c.

(** ** The client's end: package net *)

(** net.Dial("unix", path). *)
Definition net_Dial (path : string) : M conn :=
  let fail e := throw (ENet "dial" path "connect" e) in
  syscall (fun flt => fail (f_errno flt)) (fun w =>
    if decide (108 <= length (bytes_of_string path))%nat then fail EINVAL w
    else match find_node w path with
    | inl e => fail e w
    | inr NSock =>
        match w_peers w !! at_path w path with
        | Some p => (Ret (Conn path (at_path w path) [] [] (first_phase p)), w)
        | None => fail ECONNREFUSED w
        end
    | inr _ => fail ECONNREFUSED w
    end).

Definition conn_Write (c : conn) (data : bytes) : M conn :=
  let fail e := throw (ENet "write" ("@->" +:+ c_addr c) "write" e) in
  syscall (fun flt => fail (f_errno flt))
    match c_phase c with
    | PhClosed => fail EPIPE
    | _ => mret (with_in (c_in c ++ data) c)
    end.

(** io.ReadFull on a connection. It ends when the server has closed the
    connection or is gone; a read that is never answered waits forever. When the read itself fails, the server may have run or not. *)
Definition conn_ReadFull (c : conn) (n : nat) : M (bytes * conn) :=
  syscall (fun flt =>
      (if decide (f_progress flt = 0%nat) then mret c else serve c) ;;
      throw (ENet "read" ("@->" +:+ c_addr c) "read" (f_errno flt)))
    (c ← (if decide (n <= length (c_out c))%nat then mret c else serve c);
     if decide (n <= length (c_out c))%nat
     then mret (take n (c_out c), with_out (drop n (c_out c)) c)
     else
       gone ← gets (fun w => bool_decide (c_phase c = PhClosed \/ w_peers w !! c_sock c = None));
       if (gone : bool) then throw (if decide (c_out c = []) then EOF else ErrUnexpectedEOF)
       else diverge).

(** ** proto.go *)

Record Stats := mkStats {
  AllocCount : Z; TotalBytes : Z; StreamCount : Z; ModuleCount : Z; SymbolCount : Z;
  EventCount : Z; CtxCount : Z; UnsupportedCode : Z; State : Z;
}.

Definition writeU32 (c : conn) (v : Z) : M conn := conn_Write c (be_enc 4 v).

Definition readU32 (c : conn) : M (Z * conn) :=
  '(b, c) ← conn_ReadFull c 4; mret (be_dec b, c).

Definition writeStr (c : conn) (s : string) : M conn :=
  let b := bytes_of_string s in
  c ← writeU32 c (u32 (Z.of_nat (length b)));
  if decide (length b = 0%nat) then mret c else conn_Write c b.

(** fmt.Errorf("%s rc=%d", what, rc). *)
Definition rc_error (what : string) (rc : Z) : goerr := EText (what +:+ " rc=" +:+ FormatUint rc).

Definition authenticate (c : conn) (secret : string) : M conn :=
  if decide (secret = "") then mret c
  else
    c ← writeU32 c OpAuth;
    c ← writeStr c secret;
    '(rc, c) ← readU32 c;
    if decide (rc <> 0) then throw (rc_error "auth" rc) else mret c.

Definition ShimSocketPath (runDir : string) (pid : Z) : string :=
  PathJoin [if decide (runDir = "") then "/run/cudackpt" else runDir; Itoa pid +:+ ".sock"].

(** A client is its connection; closing it has no effect that is seen here. *)
Definition DialPathWithSecret (path secret : string) : M conn :=
  c ← net_Dial path; authenticate c secret.

Definition DialPath (path : string) : M conn :=
  secret ← Getenv "CUDACKPT_RPC_SECRET"; DialPathWithSecret path secret.

Definition DialRunDir (runDir : string) (pid : Z) : M conn := DialPath (ShimSocketPath runDir pid).
Definition Dial (pid : Z) : M conn := DialRunDir "" pid.

End shim.

Module Client.
Section client.
Context `{Gpu}.

Definition call (c : conn) (op : Z) (path : string) : M (Z * conn) :=
  c ← writeU32 c op;
  c ← (if decide (op = OpSnapshot \/ op = OpRestore) then writeStr c path else mret c);
  readU32 c.

(** A call that must return zero. *)
Definition checked (what : string) (c : conn) (op : Z) (path : string) : M conn :=
  '(rc, c) ← call c op path;
  if decide (rc <> 0) then throw (rc_error what rc) else mret c.

Definition Ping (c : conn) : M conn := checked "ping" c OpPing "".
Definition Status (c : conn) : M (Z * conn) := call c OpStatus "".
Definition Freeze (c : conn) : M conn := checked "freeze" c OpFreeze "".
Definition Snapshot (c : conn) (dir : string) : M conn := checked "snapshot" c OpSnapshot dir.
Definition Restore (c : conn) (dir : string) : M conn := checked "restore" c OpRestore dir.
Definition Resume (c : conn) : M conn := checked "resume" c OpResume "".

Definition Stats (c : conn) : M (Stats * conn) :=
  c ← writeU32 c OpStats;
  '(rc, c) ← readU32 c;
  if decide (rc <> 0) then throw (rc_error "stats" rc)
  else
    '(alloc, c) ← readU32 c;
    '(lo, c) ← readU32 c;
    '(hi, c) ← readU32 c;
    '(stream, c) ← readU32 c;
    '(module_, c) ← readU32 c;
    '(symbol, c) ← readU32 c;
    '(event, c) ← readU32 c;
    '(ctx, c) ← readU32 c;
    '(unsupported, c) ← readU32 c;
    '(state, c) ← readU32 c;
    mret (mkStats alloc (Z.lor (Z.shiftl hi 32) lo) stream module_ symbol event ctx unsupported state, c).
End client.
End Client.

(** ** mockserver.go: starting and stopping *)

Record MockOptions := mkMockOptions { mo_Secret : string; mo_FailFreezeUntil : Z; mo_StatusSeq : list Z }.

(** net.Listen("unix", path). *)
Definition net_Listen (path : string) (p : peer) : M unit :=
  let fail e := throw (ENet "listen" path "bind" e) in
  syscall (fun flt => fail (f_errno flt)) (fun w =>
    let q := at_path w path in
    if decide (108 <= length (bytes_of_string path))%nat then fail EINVAL w
    else if decide (path = "") then fail EINVAL w
    else match w_fs w !! q with
    | Some _ => fail EADDRINUSE w
    | None =>
        match parent_errno (w_fs w) q with
        | Some e => fail e w
        | None => (Ret tt, set_peers (<[q := p]> (w_peers w)) (set_fs (<[q := NSock]> (w_fs w)) w))
        end
    end).

Definition stop_listening (path : string) : M unit := fun w =>
  (Ret tt, set_peers (delete (at_path w path) (w_peers w)) w).

(** The server is returned as what stops it: closing the listener removes the
    socket. *)
Definition ServeMockWithOptions (path : string) (opts : MockOptions) : M (M unit) :=
  ignore (Remove path) ;;
  net_Listen path (PMock (mo_Secret opts) (mo_FailFreezeUntil opts) (mo_StatusSeq opts) 0) ;;
  mret (ignore (Remove path) ;; stop_listening path).

Definition ServeMockAt (path : string) : M (M unit) :=
  ServeMockWithOptions path (mkMockOptions "" 0 []).
