(* ===== verification/RpcFacts.v ===== *)
(** The protocol between the program and the shims: requests are read as they
    were written, a server answers every complete request, and what the check
    of the secret lets through. *)
From S2P Require Export Rpc.
Local Open Scope Z_scope.

(** ** Framing *)

Lemma length_be4 v : length (be_enc 4 v) = 4%nat.
Proof. apply length_be_enc. Qed.

Lemma take_u32_enc v r : is_u32 v -> take_u32 (be_enc 4 v ++ r) = Some (v, r).
Proof.
  intros Hv. unfold take_u32. pose proof (length_be4 v) as Hl.
  rewrite decide_True by (rewrite length_app; lia).
  rewrite take_app_exact, drop_app_exact by lia. by rewrite be_dec_enc_small.
Qed.

Lemma take_n_app b r : take_n (Z.of_nat (length b)) (b ++ r) = Some (b, r).
Proof.
  unfold take_n. rewrite decide_True by (rewrite length_app; lia).
  by rewrite Nat2Z.id, take_app_exact, drop_app_exact.
Qed.

Lemma take_u32_length l v r : take_u32 l = Some (v, r) -> length l = (4 + length r)%nat.
Proof. unfold take_u32. case_decide; [|done]. intros [= _ <-]. rewrite length_drop. lia. Qed.

Lemma take_n_length n l b r : take_n n l = Some (b, r) -> (length r <= length l)%nat.
Proof. unfold take_n. case_decide; [|done]. intros [= _ <-]. rewrite length_drop. lia. Qed.

Lemma read_str_length l tok r : read_str l = Some (inr (tok, r)) -> (length r <= length l)%nat.
Proof.
  unfold read_str. destruct (take_u32 l) as [[n r1]|] eqn:E1; [|done]. case_decide; [done|].
  destruct (take_n n r1) as [[buf r2]|] eqn:E2; [|done]. intros [= _ <-].
  apply take_u32_length in E1. apply take_n_length in E2. lia.
Qed.

(** The bytes of a request. *)
Definition str_bytes (s : string) : bytes :=
  be_enc 4 (u32 (Z.of_nat (length (bytes_of_string s)))) ++ bytes_of_string s.

Definition request_bytes (op : Z) (path : string) : bytes :=
  be_enc 4 op ++ if decide (op = OpSnapshot \/ op = OpRestore) then str_bytes path else [].

Lemma take_str_bytes s r :
  is_u32 (Z.of_nat (length (bytes_of_string s))) ->
  take_u32 (str_bytes s ++ r) = Some (Z.of_nat (length (bytes_of_string s)), bytes_of_string s ++ r).
Proof. intros Hs. unfold str_bytes. rewrite u32_small, <- app_assoc by done. by apply take_u32_enc. Qed.

(** ** The server takes every complete request *)

Lemma c_in_replies l c : c_in (foldl (fun c n => replyU32 n c) c l) = c_in c.
Proof. revert c. induction l as [|n l IH]; intros c; [done|]. cbn. by rewrite IH. Qed.

Definition consumes (c : conn) (r : option conn) : Prop :=
  match r with Some c' => (length (c_in c') <= length (c_in c))%nat | None => True end.

Lemma mock_op_consumes secret ff seq idx op c w r w' :
  mock_op secret ff seq idx op c w = (Ret r, w') -> consumes c r.
Proof.
  unfold mock_op. repeat case_decide; try (intros [= <- _]; cbn; rewrite ?c_in_replies; lia).
  - destruct (take_u32 (c_in c)) as [[n r1]|] eqn:E1; [|by intros [= <- _]].
    destruct (take_n n r1) as [[buf r2]|] eqn:E2; [|by intros [= <- _]].
    apply take_u32_length in E1. apply take_n_length in E2. case_decide.
    + intros (ok & w1 & _ & E)%bind_inv. injection E as <- _. destruct ok; cbn; lia.
    + intros [= <- _]. cbn. lia.
  - destruct (take_u32 (c_in c)) as [[n r1]|] eqn:E1; [|by intros [= <- _]].
    destruct (take_n n r1) as [[buf r2]|] eqn:E2; [|by intros [= <- _]].
    apply take_u32_length in E1. apply take_n_length in E2. intros [= <- _]. cbn. lia.
  - destruct (mockStatus seq idx) as [[v i]|]; [|done]. unfold set_peer. intros [= <- _]. cbn. lia.
Qed.

Section shim.
Context `{Gpu}.

Lemma shim_op_consumes secret state op c w r w' :
  shim_op secret state op c w = (Ret r, w') -> consumes c r.
Proof.
  assert (Hrs : forall (f : string -> M Z) (g : M unit) (k : Z -> Z) w r w',
    match read_str (c_in c) with
    | None => mret None
    | Some (inl _) => mret (Some (close_with 1 c))
    | Some (inr (dir, r)) =>
        rc ← f dir; (if decide (rc = 0) then g else mret tt) ;;
        mret (Some (close_with (k rc) (with_in r c)))
    end w = (Ret r, w') -> consumes c r).
  { intros f g k w1 r1 w1'. destruct (read_str (c_in c)) as [[[]|[dir r2]]|] eqn:E; [intros [= <- _]; cbn; lia| |by intros [= <- _]].
    apply read_str_length in E. intros (rc & w2 & _ & E2)%bind_inv.
    apply bind_inv in E2 as (u & w3 & _ & E3). injection E3 as <- _. cbn. lia. }
  unfold shim_op. repeat case_decide; try (intros [= <- _]; cbn; lia).
  - intros (rc & w1 & _ & E)%bind_inv. case_decide; [injection E as <- _; cbn; lia|].
    apply bind_inv in E as (u & w2 & _ & E). injection E as <- _. cbn. lia.
  - apply (Hrs (fun dir => gpu (ckpt_snapshot_write dir))).
  - apply (Hrs (fun dir => gpu (ckpt_restore_load dir))).
Qed.

Lemma serve_step_consumes c w r w' :
  serve_step c w = (Ret r, w') ->
  match r with Some c' => (length (c_in c') < length (c_in c))%nat | None => True end.
Proof.
  assert (Hauth : forall l n r, take_u32 l = Some (n, r) -> (length r < length l)%nat)
    by (intros l n r1 E; apply take_u32_length in E; lia).
  unfold serve_step. destruct (w_peers w !! c_sock c) as [[secret ff seq idx|secret state]|]; [| |by intros [= <- _]].
  - unfold mock_step. destruct (c_phase c); [|destruct (take_u32 (c_in c)) as [[op r1]|] eqn:E|by intros [= <- _]].
    + intros [= <- _]. unfold mock_auth. destruct (take_u32 (c_in c)) as [[op r1]|] eqn:E1; [|done].
      apply take_u32_length in E1. case_decide; [cbn; lia|].
      destruct (take_u32 r1) as [[n r2]|] eqn:E2; [|done]. apply take_u32_length in E2.
      destruct (take_n n r2) as [[buf r3]|] eqn:E3; [|done]. apply take_n_length in E3.
      case_decide; cbn; lia.
    + intros Hs%mock_op_consumes. apply take_u32_length in E. destruct r; [|done]. cbn in Hs. lia.
    + by intros [= <- _].
  - unfold shim_step. destruct (c_phase c); [|destruct (take_u32 (c_in c)) as [[op r1]|] eqn:E|by intros [= <- _]].
    + intros [= <- _]. unfold shim_auth. destruct (take_u32 (c_in c)) as [[op r1]|] eqn:E1; [|done].
      apply take_u32_length in E1. case_decide; [cbn; lia|].
      destruct (read_str r1) as [[[]|[tok r2]]|] eqn:E2; [| |done].
      { change (length (drop 4 r1) < length (c_in c))%nat. rewrite length_drop. lia. }
      apply read_str_length in E2. destruct (secrets_match _ _); cbn; lia.
    + intros Hs%shim_op_consumes. apply take_u32_length in E. destruct r; [|done]. cbn in Hs. lia.
    + by intros [= <- _].
Qed.

Lemma serve_step_empty c w : c_in c = [] -> serve_step c w = (Ret None, w).
Proof.
  intros Hc. unfold serve_step.
  destruct (w_peers w !! c_sock c) as [[secret ff seq idx|secret state]|]; [| |done].
  - unfold mock_step, mock_auth. rewrite Hc. by destruct (c_phase c).
  - unfold shim_step, shim_auth. rewrite Hc. by destruct (c_phase c).
Qed.

(** A server that waits has done nothing. *)
Lemma mock_op_waits secret ff seq idx op c w w' :
  mock_op secret ff seq idx op c w = (Ret None, w') -> w' = w.
Proof.
  unfold mock_op. repeat case_decide; try (unfold set_peer; by intros [=]).
  - destruct (take_u32 (c_in c)) as [[n r1]|]; [|by intros [= <-]].
    destruct (take_n n r1) as [[buf r2]|]; [|by intros [= <-]]. case_decide; [|by intros [=]].
    intros (ok & w1 & _ & E)%bind_inv. by injection E.
  - destruct (take_u32 (c_in c)) as [[n r1]|]; [|by intros [= <-]].
    by destruct (take_n n r1) as [[buf r2]|]; intros [=].
  - by destruct (mockStatus seq idx) as [[v i]|]; [unfold set_peer; intros [=]|].
Qed.

Lemma shim_op_waits secret state op c w w' :
  shim_op secret state op c w = (Ret None, w') -> w' = w.
Proof.
  assert (Hrs : forall (f : string -> M Z) (g : Z -> M unit) (k : Z -> Z) w w',
    match read_str (c_in c) with
    | None => mret None
    | Some (inl _) => mret (Some (close_with 1 c))
    | Some (inr (dir, r)) =>
        rc ← f dir; g rc ;; mret (Some (close_with (k rc) (with_in r c)))
    end w = (Ret None, w') -> w' = w).
  { intros f g k w1 w1'. destruct (read_str (c_in c)) as [[[]|[dir r2]]|]; [by intros [=]| |by intros [= <-]].
    intros (rc & w2 & _ & E2)%bind_inv. apply bind_inv in E2 as (u & w3 & _ & E3). by injection E3. }
  unfold shim_op. repeat case_decide; try (by intros [=]).
  - intros (rc & w1 & _ & E)%bind_inv. case_decide; [by injection E|].
    apply bind_inv in E as (u & w2 & _ & E). by injection E.
  - apply (Hrs (fun dir => gpu (ckpt_snapshot_write dir)) (fun rc => if decide (rc = 0) then _ else _)).
  - apply (Hrs (fun dir => gpu (ckpt_restore_load dir)) (fun rc => if decide (rc = 0) then _ else _)).
Qed.

Lemma serve_step_waits c w w' : serve_step c w = (Ret None, w') -> w' = w.
Proof.
  unfold serve_step. destruct (w_peers w !! c_sock c) as [[secret ff seq idx|secret state]|]; [| |by intros [= <-]].
  - unfold mock_step. destruct (c_phase c); [by intros [=]| |by intros [=]].
    destruct (take_u32 (c_in c)) as [[op r]|]; [apply mock_op_waits|by intros [=]].
  - unfold shim_step. destruct (c_phase c); [by intros [=]| |by intros [=]].
    destruct (take_u32 (c_in c)) as [[op r]|]; [apply shim_op_waits|by intros [=]].
Qed.

(** The server runs until it waits for more. *)
Lemma serve_loop_waits n c w c' w' :
  (length (c_in c) <= n)%nat -> serve_loop n c w = (Ret c', w') -> serve_step c' w' = (Ret None, w').
Proof.
  revert c w. induction n as [|n IH]; intros c w Hn.
  - cbn. intros [= <- <-]. apply serve_step_empty. by apply nil_length_inv; lia.
  - cbn [serve_loop]. intros (r & w1 & Hs & E)%bind_inv. destruct r as [c1|].
    + apply serve_step_consumes in Hs. apply IH in E; [done|lia].
    + injection E as <- <-. pose proof (serve_step_waits _ _ _ Hs) as ->. done.
Qed.

(** One request, after which the server waits. *)
Lemma serve_one c w c' w' :
  c_in c <> [] -> serve_step c w = (Ret (Some c'), w') -> serve_step c' w' = (Ret None, w') ->
  serve c w = (Ret c', w').
Proof.
  intros Hc H1 H2. unfold serve. destruct (c_in c) as [|b l]; [done|]. cbn [length serve_loop].
  rewrite (bind_run _ _ _ _ _ H1). destruct (length l) as [|k]; [done|]. cbn [serve_loop].
  by rewrite (bind_run _ _ _ _ _ H2).
Qed.

Lemma serve_step_closed c w : c_phase c = PhClosed -> serve_step c w = (Ret None, w).
Proof.
  intros Hc. unfold serve_step, mock_step, shim_step. rewrite Hc.
  by destruct (w_peers w !! c_sock c) as [[]|].
Qed.

(** ** The client's side *)

Lemma conn_Write_run w c d :
  nofault w -> c_phase c <> PhClosed -> conn_Write c d w = (Ret (with_in (c_in c ++ d) c), w).
Proof. intros Hnf Hc. unfold conn_Write. rewrite syscall_run by done. by destruct (c_phase c). Qed.

Lemma writeStr_run w c s :
  nofault w -> c_phase c <> PhClosed -> writeStr c s w = (Ret (with_in (c_in c ++ str_bytes s) c), w).
Proof.
  intros Hnf Hc. unfold writeStr, writeU32, str_bytes. cbv zeta.
  rewrite (bind_run _ _ _ _ _ (conn_Write_run w c _ Hnf Hc)). case_decide as Hs.
  - apply nil_length_inv in Hs. rewrite Hs, app_nil_r. done.
  - rewrite conn_Write_run by done. cbn [with_in c_in]. by rewrite app_assoc.
Qed.

Lemma readU32_ready w c v r :
  nofault w -> is_u32 v -> c_out c = be_enc 4 v ++ r -> readU32 c w = (Ret (v, with_out r c), w).
Proof.
  intros Hnf Hv Ho. pose proof (length_be4 v) as Hl. unfold readU32, conn_ReadFull.
  erewrite bind_run.
  2:{ rewrite syscall_run by done. rewrite decide_True by (rewrite Ho, length_app; lia).
      erewrite bind_run by done. rewrite decide_True by (rewrite Ho, length_app; lia).
      rewrite Ho, take_app_exact, drop_app_exact by lia. done. }
  cbv beta iota. by rewrite be_dec_enc_small.
Qed.

(** The answer the server gives when it is waited for. *)
Lemma readU32_served w c v c' r w' :
  nofault w -> is_u32 v -> c_out c = [] -> serve c w = (Ret c', w') -> c_out c' = be_enc 4 v ++ r ->
  readU32 c w = (Ret (v, with_out r c'), w').
Proof.
  intros Hnf Hv Ho Hs Ho'. pose proof (length_be4 v) as Hl. unfold readU32, conn_ReadFull.
  erewrite bind_run.
  2:{ rewrite syscall_run by done. rewrite decide_False by (rewrite Ho; cbn; lia).
      erewrite bind_run by exact Hs. rewrite decide_True by (rewrite Ho', length_app; lia).
      rewrite Ho', take_app_exact, drop_app_exact by lia. done. }
  cbv beta iota. by rewrite be_dec_enc_small.
Qed.

(** The request a call sends. *)
Lemma call_run w c op path c' rc r w' :
  nofault w -> c_phase c <> PhClosed -> c_in c = [] -> c_out c = [] ->
  serve (with_in (request_bytes op path) c) w = (Ret c', w') -> c_out c' = be_enc 4 rc ++ r -> is_u32 rc ->
  Client.call c op path w = (Ret (rc, with_out r c'), w').
Proof.
  intros Hnf Hc Hi Ho Hs Ho' Hrc. unfold Client.call, writeU32.
  rewrite (bind_run _ _ _ _ _ (conn_Write_run w c _ Hnf Hc)), Hi. cbn [app].
  unfold request_bytes in Hs. case_decide.
  - erewrite bind_run by (by apply writeStr_run). cbn [with_in c_in]. by eapply readU32_served.
  - rewrite app_nil_r in Hs. erewrite bind_run by done. by eapply readU32_served.
Qed.
End shim.

(** ** The comparison of secrets *)

Definition no_nul (l : bytes) : Prop := Byte.x00 ∉ l.

Lemma foldl_lor_zero (f : nat -> Z) l a :
  foldl (fun d i => Z.lor d (f i)) a l = 0 <-> a = 0 /\ Forall (fun i => f i = 0) l.
Proof.
  revert a. induction l as [|i l IH]; intros a; cbn [foldl].
  - split; [intros ->; by split|tauto].
  - rewrite IH, Z.lor_eq_0_iff, Forall_cons. tauto.
Qed.

Lemma secret_byte_nul i l : no_nul l -> secret_byte i l = 0 -> l !! i = None.
Proof.
  unfold secret_byte. intros Hl. destruct (l !! i) as [b|] eqn:E; [|done]. intros Hb.
  assert (b = Byte.x00) as -> by (by apply Z_of_byte_inj). by apply list_elem_of_lookup_2 in E.
Qed.

Lemma secret_diff_zero s g : no_nul s -> no_nul g -> secret_diff s g = 0 <-> s = g.
Proof.
  intros Hs Hg. unfold secret_diff. rewrite (foldl_lor_zero (fun i => Z.lxor _ _)). split.
  - intros [_ HF]. apply list_eq. intros i.
    assert (E : secret_byte i s = secret_byte i g).
    { destruct (decide (i < Nat.max (length g) (length s))%nat) as [Hi|Hi].
      - rewrite Forall_forall in HF. apply Z.lxor_eq, (HF i). apply elem_of_seq. lia.
      - unfold secret_byte. rewrite !lookup_ge_None_2 by lia. done. }
    destruct (s !! i) as [a|] eqn:Ea, (g !! i) as [b|] eqn:Eb; [|exfalso|exfalso|done].
    + unfold secret_byte in E. rewrite Ea, Eb in E. f_equal. by apply Z_of_byte_inj.
    + assert (E0 : secret_byte i g = 0) by (unfold secret_byte; by rewrite Eb). rewrite E0 in E.
      apply secret_byte_nul in E; [congruence|done].
    + assert (E0 : secret_byte i s = 0) by (unfold secret_byte; by rewrite Ea). rewrite E0 in E.
      apply eq_sym, secret_byte_nul in E; [congruence|done].
  - intros ->. split; [by rewrite Z.lxor_nilpotent|]. apply Forall_forall. intros i _. apply Z.lxor_nilpotent.
Qed.

Lemma secrets_match_eq secret got :
  secret <> "" -> no_nul (bytes_of_string secret) -> no_nul (bytes_of_string got) ->
  secrets_match secret got = bool_decide (secret = got).
Proof.
  intros Hne Hs Hg. unfold secrets_match. rewrite decide_False by done.
  apply bool_decide_ext. rewrite secret_diff_zero by done. split; [|by intros ->].
  intros E. by rewrite <- (string_of_bytes_of_string secret), E, string_of_bytes_of_string.
Qed.

Lemma c_string_no_nul l : no_nul (c_string l).
Proof.
  unfold no_nul. induction l as [|b l IH]; cbn [c_string]; [set_solver|]. case_decide; set_solver.
Qed.

Lemma c_string_id l : no_nul l -> c_string l = l.
Proof.
  unfold no_nul. induction l as [|b l IH]; intros Hl; [done|]. cbn [c_string].
  rewrite decide_False by set_solver. rewrite IH by set_solver. done.
Qed.

(** ** Answers *)

Lemma small_u32 n : 0 <= n < 256 -> is_u32 n.
Proof. unfold is_u32. lia. Qed.

(** What a server with a secret does with a secret: the mock compares it as a
    Go string, the shim as a C string in a buffer of 512 bytes. *)
Definition lets_in (p : peer) (s : string) : bool :=
  match p with
  | PMock secret _ _ _ => bool_decide (s = secret)
  | PShim secret _ =>
      bool_decide (length (bytes_of_string s) < 512)%nat &&
      bool_decide (secret = string_of_bytes (c_string (bytes_of_string s)))
  end.

Definition peer_secret (p : peer) : string :=
  match p with PMock secret _ _ _ | PShim secret _ => secret end.

Definition wf_peer (p : peer) : Prop :=
  match p with PMock _ _ _ _ => True | PShim secret _ => no_nul (bytes_of_string secret) end.

Section auth.
Context `{Gpu}.

Lemma read_str_bytes s r :
  (length (bytes_of_string s) < 512)%nat ->
  read_str (str_bytes s ++ r) = Some (inr (string_of_bytes (c_string (bytes_of_string s)), r)).
Proof.
  intros Hs. unfold read_str. rewrite take_str_bytes by (unfold is_u32; lia).
  rewrite decide_False by lia. by rewrite take_n_app.
Qed.

Lemma read_str_long s r :
  is_u32 (Z.of_nat (length (bytes_of_string s))) -> (512 <= length (bytes_of_string s))%nat ->
  read_str (str_bytes s ++ r) = Some (inl tt).
Proof. intros Hu Hs. unfold read_str. rewrite take_str_bytes by done. by rewrite decide_True by lia. Qed.

(** The server's answer to the secret: the connection goes on, or is closed. *)
Lemma serve_auth w a sock p s :
  w_peers w !! sock = Some p -> peer_secret p <> "" -> wf_peer p ->
  is_u32 (Z.of_nat (length (bytes_of_string s))) ->
  exists rest rc,
    serve (Conn a sock (be_enc 4 OpAuth ++ str_bytes s) [] PhAuth) w =
      (Ret (Conn a sock rest (be_enc 4 rc) (if lets_in p s then PhLoop else PhClosed)), w) /\
    rc = (if lets_in p s then 0 else 1) /\ (lets_in p s = true -> rest = []).
Proof.
  intros Hp Hsec Hwf Hu.
  set (c := Conn a sock (be_enc 4 OpAuth ++ str_bytes s) [] PhAuth).
  assert (Hne : c_in c <> []) by (intros E; apply (f_equal length) in E; cbn [c c_in] in E;
    rewrite length_app, length_be4 in E; cbn in E; lia).
  assert (Hop : take_u32 (c_in c) = Some (OpAuth, str_bytes s))
    by (apply take_u32_enc; unfold is_u32, OpAuth; lia).
  assert (Hstep : exists rest,
    serve_step c w = (Ret (Some (Conn a sock rest (be_enc 4 (if lets_in p s then 0 else 1))
      (if lets_in p s then PhLoop else PhClosed))), w) /\ (lets_in p s = true -> rest = [])).
  { unfold serve_step. cbn [c c_sock]. rewrite Hp. destruct p as [secret ff sq idx|secret st]; cbn [lets_in peer_secret] in *.
    - unfold mock_step. cbn [c_phase]. unfold mock_auth. fold c. rewrite Hop, decide_False by tauto.
      pose proof (take_str_bytes s [] Hu) as E. rewrite app_nil_r in E. rewrite E, take_n_app.
      rewrite string_of_bytes_of_string. case_decide as Hs.
      + rewrite bool_decide_eq_false_2 by done. by exists [].
      + rewrite bool_decide_eq_true_2 by (destruct (decide (s = secret)); tauto). by exists [].
    - unfold shim_step. cbn [c_phase]. unfold shim_auth. fold c. rewrite Hop, decide_False by tauto.
      destruct (decide (length (bytes_of_string s) < 512)%nat) as [Hl|Hl].
      + pose proof (read_str_bytes s [] Hl) as E. rewrite app_nil_r in E. rewrite E.
        rewrite bool_decide_eq_true_2 by done. cbn [andb].
        rewrite secrets_match_eq; [|done|done|].
        * destruct (bool_decide _); exists []; done.
        * rewrite bytes_of_string_of_bytes. apply c_string_no_nul.
      + pose proof (read_str_long s [] Hu ltac:(lia)) as E. rewrite app_nil_r in E. rewrite E.
        rewrite bool_decide_eq_false_2 by done. cbn [andb]. by eexists. }
  destruct Hstep as (rest & Hs & Hr). exists rest, (if lets_in p s then 0 else 1).
  split; [|done]. apply serve_one; [done|exact Hs|].
  destruct (lets_in p s) eqn:E; [|by apply serve_step_closed].
  rewrite (Hr eq_refl). by apply serve_step_empty.
Qed.

(** A socket a server listens on. *)
Record listening (w : world) (path : string) (p : peer) : Prop := {
  ls_name : path <> "" /\ (length (bytes_of_string path) < 108)%nat;
  ls_node : w_fs w !! at_path w path = Some NSock;
  ls_peer : w_peers w !! at_path w path = Some p;
}.

Lemma net_Dial_run w path p :
  nofault w -> listening w path p ->
  net_Dial path w = (Ret (Conn path (at_path w path) [] [] (first_phase p)), w).
Proof.
  intros Hnf [[Hne Hl] Hn Hp]. unfold net_Dial. rewrite syscall_run by done.
  rewrite decide_False by lia. by rewrite (find_node_some _ _ NSock), Hp.
Qed.

Lemma authenticate_run w path p s :
  nofault w -> w_peers w !! at_path w path = Some p -> peer_secret p <> "" -> wf_peer p -> s <> "" ->
  is_u32 (Z.of_nat (length (bytes_of_string s))) ->
  authenticate (Conn path (at_path w path) [] [] PhAuth) s w =
  (if lets_in p s then Ret (Conn path (at_path w path) [] [] PhLoop) else Err (rc_error "auth" 1), w).
Proof.
  intros Hnf Hp Hsec Hwf Hs Hu.
  destruct (serve_auth w path (at_path w path) p s Hp Hsec Hwf Hu) as (rest & rc & Hserve & Hrc & Hrest).
  assert (Hr : is_u32 rc) by (subst rc; apply small_u32; destruct (lets_in p s); lia).
  unfold authenticate. rewrite decide_False by done. unfold writeU32.
  erewrite bind_run by (by apply conn_Write_run). cbn [c_in app with_in c_addr c_sock c_out c_phase].
  erewrite bind_run by (by apply writeStr_run). cbn [c_in app with_in c_addr c_sock c_out c_phase].
  erewrite bind_run.
  2:{ eapply readU32_served; [done|exact Hr|done|exact Hserve|]. cbn [c_out]. by rewrite app_nil_r. }
  cbv beta iota. subst rc. destruct (lets_in p s) eqn:E; [|done]. by rewrite Hrest.
Qed.
End auth.

(** ** A request to a shim, as a procedure *)

(** The status the shim returns and what it does: the specification of one
    request. *)
Section spec.
Context `{Gpu}.

Definition became (sock : path) (secret : string) (s : Z) (w : world) : world :=
  set_peers (<[sock := PShim secret s]> (w_peers w)) w.

Definition shim_rpc (sock : path) (secret : string) (state op : Z) (path : string) (w : world) : Z * world :=
  let image (f : string -> world -> Z * world) (s : Z) :=
    if decide (512 <= length (bytes_of_string path))%nat then (1, w)
    else let '(rc, w1) := f (string_of_bytes (c_string (bytes_of_string path))) w in
         if decide (rc = 0) then (0, became sock secret s w1) else (1, w1) in
  if decide (op = OpPing) then (0, w)
  else if decide (op = OpStatus) then (u32 state, w)
  else if decide (op = OpFreeze) then
    let '(rc, w1) := ckpt_quiesce_gpu w in
    if decide (rc = 0) then (0, became sock secret ST_FROZEN w1) else (1, w1)
  else if decide (op = OpSnapshot) then image ckpt_snapshot_write ST_SNAPPED
  else if decide (op = OpRestore) then image ckpt_restore_load ST_RESTORED
  else if decide (op = OpResume) then (0, became sock secret ST_RUNNING (ckpt_resume_signal w))
  else if decide (op = OpQuit) then (0, w)
  else (1, w).

Lemma shim_op_run sock secret state op path a w :
  is_u32 (Z.of_nat (length (bytes_of_string path))) -> op <> OpStats ->
  let '(rc, w') := shim_rpc sock secret state op path w in
  exists rest, shim_op secret state op
    (Conn a sock (if decide (op = OpSnapshot \/ op = OpRestore) then str_bytes path else []) [] PhLoop) w =
    (Ret (Some (Conn a sock rest (be_enc 4 rc) PhClosed)), w') /\ is_u32 rc.
Proof.
  intros Hu Hst. assert (Hsmall : is_u32 0 /\ is_u32 1) by (unfold is_u32; lia).
  assert (Himg : forall (f : string -> world -> Z * world) s, exists rest,
    match read_str (str_bytes path) with
    | None => mret None
    | Some (inl _) => mret (Some (close_with 1 (Conn a sock (str_bytes path) [] PhLoop)))
    | Some (inr (dir, r)) =>
        rc ← gpu (f dir); (if decide (rc = 0) then set_state sock secret s else mret tt) ;;
        mret (Some (close_with (if decide (rc = 0) then 0 else 1) (with_in r (Conn a sock (str_bytes path) [] PhLoop))))
    end w =
    let '(rc, w') := if decide (512 <= length (bytes_of_string path))%nat then (1, w)
      else let '(rc, w1) := f (string_of_bytes (c_string (bytes_of_string path))) w in
           if decide (rc = 0) then (0, became sock secret s w1) else (1, w1) in
    (Ret (Some (Conn a sock rest (be_enc 4 rc) PhClosed)), w')).
  { intros f s. case_decide as Hl.
    - pose proof (read_str_long path [] Hu Hl) as E. rewrite app_nil_r in E. rewrite E. by eexists.
    - pose proof (read_str_bytes path [] ltac:(lia)) as E. rewrite app_nil_r in E. rewrite E.
      exists []. unfold gpu, mbind, M_bind. destruct (f _ w) as [rc w1]. by destruct (decide (rc = 0)). }
  unfold shim_rpc, shim_op. cbv zeta. cbn [c_sock].
  destruct (decide (op = OpPing)) as [->|]; [by eexists|].
  destruct (decide (op = OpStatus)) as [->|];
    [eexists; split; [done|unfold is_u32, u32; apply Z.mod_pos_bound; lia]|].
  rewrite (decide_False (P := op = OpStats)) by done.
  destruct (decide (op = OpFreeze)) as [->|].
  { unfold gpu, mbind, M_bind. destruct (ckpt_quiesce_gpu w) as [rc w1].
    destruct (decide (rc = 0)) as [->|Hrc]; [by eexists|]. rewrite decide_True by done. by eexists. }
  destruct (decide (op = OpSnapshot)) as [->|].
  { rewrite (decide_True (P := OpSnapshot = OpSnapshot \/ OpSnapshot = OpRestore)) by auto. cbn [c_in].
    destruct (Himg ckpt_snapshot_write ST_SNAPPED) as [rest E].
    case_decide; [by exists rest|]. destruct (ckpt_snapshot_write _ w) as [rc w1]. case_decide; by exists rest. }
  destruct (decide (op = OpRestore)) as [->|].
  { rewrite (decide_True (P := OpRestore = OpSnapshot \/ OpRestore = OpRestore)) by auto. cbn [c_in].
    destruct (Himg ckpt_restore_load ST_RESTORED) as [rest E].
    case_decide; [by exists rest|]. destruct (ckpt_restore_load _ w) as [rc w1]. case_decide; by exists rest. }
  rewrite (decide_False (P := op = OpSnapshot \/ op = OpRestore)) by tauto.
  destruct (decide (op = OpResume)) as [->|]; [by eexists|].
  destruct (decide (op = OpQuit)) as [->|]; by eexists.
Qed.

Lemma shim_call_run w a sock secret state op path :
  nofault w -> w_peers w !! sock = Some (PShim secret state) ->
  is_u32 op -> is_u32 (Z.of_nat (length (bytes_of_string path))) -> op <> OpStats ->
  exists rest,
    Client.call (Conn a sock [] [] PhLoop) op path w =
    (Ret ((shim_rpc sock secret state op path w).1, Conn a sock rest [] PhClosed),
     (shim_rpc sock secret state op path w).2).
Proof.
  intros Hnf Hp Hop Hu Hst. pose proof (shim_op_run sock secret state op path a w Hu Hst) as Hrun.
  destruct (shim_rpc sock secret state op path w) as [rc w'] eqn:E. destruct Hrun as (rest & Hrun & Hrc).
  exists rest. cbn [fst snd].
  erewrite (call_run _ _ _ _ (Conn a sock rest (be_enc 4 rc) PhClosed)); [reflexivity|done..| |by rewrite app_nil_r|done].
  apply serve_one; [|unfold serve_step; cbn [c_sock with_in]; rewrite Hp; unfold shim_step; cbn [c_phase c_in with_in]|].
  - unfold request_bytes. cbn. intros E0. apply (f_equal length) in E0. rewrite length_app, length_be4 in E0. cbn in E0. lia.
  - unfold request_bytes. rewrite take_u32_enc by done. exact Hrun.
  - by apply serve_step_closed.
Qed.
End spec.

(** ** Statistics *)

Lemma join_words t : is_u64 t ->
  Z.lor (Z.shiftl (Z.land (Z.shiftr t 32) 0xffffffff) 32) (Z.land t 0xffffffff) = t.
Proof.
  intros Ht. change 0xffffffff with (Z.ones 32). apply Z.bits_inj'. intros n Hn.
  rewrite Z.lor_spec, Z.shiftl_spec, !Z.land_spec by done.
  destruct (decide (n < 32)) as [Hlt|Hge].
  - rewrite (Z.testbit_neg_r _ (n - 32)) by lia. cbn [andb orb].
    rewrite Z.ones_spec_low by lia. by rewrite andb_true_r.
  - rewrite Z.shiftr_spec by lia. replace (n - 32 + 32) with n by lia.
    rewrite (Z.ones_spec_high 32 n), andb_false_r, orb_false_r by lia.
    destruct (decide (n < 64)) as [H64|H64].
    + rewrite Z.ones_spec_low by lia. by rewrite andb_true_r.
    + rewrite (Z.bits_above_log2 t n); [done|apply Ht|].
      destruct (decide (t = 0)) as [->|]; [cbn; lia|]. unfold is_u64 in Ht.
      apply Z.lt_le_trans with 64; [|lia]. apply Z.log2_lt_pow2; lia.
Qed.

Lemma replies_spec l c :
  foldl (fun c n => replyU32 n c) c l = with_out (c_out c ++ flat_map (be_enc 4) l) c.
Proof.
  revert c. induction l as [|n l IH]; intros c; cbn [foldl flat_map].
  - rewrite app_nil_r. by destruct c.
  - rewrite IH. cbn. by rewrite <- app_assoc.
Qed.

(** The values the counters of a shim can have. *)
Record wf_stats (st : TrackerStats) : Prop := {
  wfs_total : is_u64 (st_total_bytes st);
  wfs_unsupported : is_u32 (st_unsupported_code st);
}.

Lemma u32_range z : is_u32 (u32 z).
Proof. unfold is_u32, u32. apply Z.mod_pos_bound. lia. Qed.

Lemma land_u32 z : is_u32 (Z.land z 0xffffffff).
Proof. change 0xffffffff with (Z.ones 32). rewrite Z.land_ones by lia. apply u32_range. Qed.

(** One more word read of an answer. *)
Ltac read_word :=
  erewrite bind_run by (eapply readU32_ready; [done| |reflexivity]; first [apply u32_range|apply land_u32|assumption]).

Section stats.
Context `{Gpu}.

Lemma Stats_run w a sock secret state :
  nofault w -> w_peers w !! sock = Some (PShim secret state) -> wf_stats (stats_snapshot w) ->
  let st := stats_snapshot w in
  Client.Stats (Conn a sock [] [] PhLoop) w =
  (Ret (mkStats (u32 (st_alloc_count st)) (st_total_bytes st) (u32 (st_stream_count st))
          (u32 (st_module_count st)) (u32 (st_symbol_count st)) (u32 (st_event_count st))
          (u32 (st_ctx_count st)) (st_unsupported_code st) (u32 (st_state st)),
        Conn a sock [] [] PhClosed), w).
Proof.
  intros Hnf Hp [Ht Hu] st. unfold Client.Stats, writeU32.
  erewrite bind_run by (by apply conn_Write_run). cbn [with_in c_in app c_addr c_sock c_out c_phase].
  assert (Hserve : serve (Conn a sock (be_enc 4 OpStats) [] PhLoop) w =
    (Ret (Conn a sock [] (flat_map (be_enc 4) (write_stats st)) PhClosed), w)).
  { apply serve_one; [by vm_compute| |by apply serve_step_closed].
    unfold serve_step. cbn [c_sock]. rewrite Hp. unfold shim_step. cbn [c_phase c_in].
    rewrite <- (app_nil_r (be_enc 4 OpStats)), take_u32_enc by (unfold is_u32, OpStats; lia).
    unfold shim_op. repeat (rewrite decide_False by done). rewrite decide_True by done.
    rewrite (bind_run _ _ _ st w) by done. by rewrite replies_spec. }
  assert (H0 : is_u32 0) by (unfold is_u32; lia).
  erewrite bind_run by (eapply readU32_served; [done|exact H0|done|exact Hserve|reflexivity]).
  cbv beta iota. rewrite decide_False by tauto. cbn [with_out c_addr c_sock c_in c_phase].
  do 10 (read_word; cbv beta iota; cbn [with_out c_addr c_sock c_in c_phase]).
  unfold st. by rewrite join_words.
Qed.
End stats.

(** A request on a connection whose secret is still awaited is refused. *)
Lemma call_unauthenticated `{Gpu} w a sock p op path :
  nofault w -> w_peers w !! sock = Some p -> is_u32 op -> op <> OpAuth ->
  exists rest,
    Client.call (Conn a sock [] [] PhAuth) op path w = (Ret (2, Conn a sock rest [] PhClosed), w).
Proof.
  intros Hnf Hp Hop Hne. eexists.
  assert (H2 : is_u32 2) by (unfold is_u32; lia).
  erewrite (call_run _ _ _ _ (Conn a sock _ (be_enc 4 2) PhClosed)); [reflexivity|done..| |by rewrite app_nil_r|done].
  apply serve_one; [unfold request_bytes; intros E0; apply (f_equal length) in E0; cbn [c_in with_in length] in E0;
    rewrite length_app, length_be4 in E0; lia| |by apply serve_step_closed].
  unfold serve_step. cbn [c_sock with_in]. rewrite Hp.
  assert (Ht : take_u32 (c_in (with_in (request_bytes op path) (Conn a sock [] [] PhAuth))) =
    Some (op, if decide (op = OpSnapshot \/ op = OpRestore) then str_bytes path else []))
    by (by apply take_u32_enc).
  destruct p as [secret ff sq idx|secret st].
  - unfold mock_step. cbn [c_phase with_in]. unfold mock_auth.
    fold (with_in (request_bytes op path) (Conn a sock [] [] PhAuth)). rewrite Ht, decide_True by done. done.
  - unfold shim_step. cbn [c_phase with_in]. unfold shim_auth.
    fold (with_in (request_bytes op path) (Conn a sock [] [] PhAuth)). rewrite Ht, decide_True by done. done.
Qed.

(** ** Properties *)

(** C11: a call to a shim is a remote procedure call. On a new connection every
    request but the one for statistics returns the status of [shim_rpc] and has
    its effect: nothing for a ping or for the status; the GPU work and, when
    that succeeds, the new state for freeze, snapshot, restore and resume. The
    path arrives unchanged up to its first NUL byte if it is shorter than 512
    bytes; a longer one is refused and nothing is done. The connection is closed
    afterwards. *)
Theorem shim_call_refines `{Gpu} w a sock secret state op path :
  nofault w -> w_peers w !! sock = Some (PShim secret state) ->
  is_u32 op -> is_u32 (Z.of_nat (length (bytes_of_string path))) -> op <> OpStats ->
  exists rest,
    Client.call (Conn a sock [] [] PhLoop) op path w =
    (Ret ((shim_rpc sock secret state op path w).1, Conn a sock rest [] PhClosed),
     (shim_rpc sock secret state op path w).2).
Proof. apply shim_call_run. Qed.

(** C36: without the secret a server does nothing. Against a server that has a
    secret, dialing with a secret gives a connection that takes requests
    exactly when the server accepts it (for the mock, when it is equal; for the
    shim, when it is equal up to its first NUL byte and shorter than 512 bytes),
    and an error otherwise; dialing without a secret gives a connection on which
    every request is answered with status 2. In all cases the world is as it
    was. *)
Theorem Dial_authenticates `{Gpu} w path p s :
  nofault w -> listening w path p -> peer_secret p <> "" -> wf_peer p ->
  is_u32 (Z.of_nat (length (bytes_of_string s))) ->
  DialPathWithSecret path s w =
    (if decide (s = "") then Ret (Conn path (at_path w path) [] [] PhAuth)
     else if lets_in p s then Ret (Conn path (at_path w path) [] [] PhLoop)
     else Err (rc_error "auth" 1), w) /\
  forall op arg, is_u32 op -> op <> OpAuth ->
    exists c, Client.call (Conn path (at_path w path) [] [] PhAuth) op arg w = (Ret (2, c), w).
Proof.
  intros Hnf Hl Hsec Hwf Hu. split.
  - unfold DialPathWithSecret. rewrite (bind_run _ _ _ _ _ (net_Dial_run _ _ _ Hnf Hl)).
    assert (Hph : first_phase p = PhAuth) by (destruct p; cbn in *; by rewrite decide_False).
    rewrite Hph. destruct (decide (s = "")) as [->|Hs]; [done|].
    rewrite (authenticate_run _ _ p) by (done || apply Hl). by destruct (lets_in p s).
  - intros op arg Hop Hne.
    destruct (call_unauthenticated w path (at_path w path) p op arg Hnf (ls_peer _ _ _ Hl) Hop Hne) as [rest E].
    by eexists.
Qed.

(** C37: the statistics the client gets are those of the shim: the words are in
    the order they are read in, the 64-bit total comes back whole from its two
    halves, and the counters are taken modulo 2^32. *)
Theorem shim_Stats_exact `{Gpu} w a sock secret state :
  nofault w -> w_peers w !! sock = Some (PShim secret state) -> wf_stats (stats_snapshot w) ->
  let st := stats_snapshot w in
  Client.Stats (Conn a sock [] [] PhLoop) w =
  (Ret (mkStats (u32 (st_alloc_count st)) (st_total_bytes st) (u32 (st_stream_count st))
          (u32 (st_module_count st)) (u32 (st_symbol_count st)) (u32 (st_event_count st))
          (u32 (st_ctx_count st)) (st_unsupported_code st) (u32 (st_state st)),
        Conn a sock [] [] PhClosed), w).
Proof. apply Stats_run. Qed.

(** Servers keep up. When a read of the client lets a server run, it takes
    every request that is complete and stops only to wait for more bytes: it
    never stops early, so the bound on its loop is enough. *)
Theorem serve_keeps_up `{Gpu} c w c' w' :
  serve c w = (Ret c', w') -> serve_step c' w' = (Ret None, w').
Proof. by apply serve_loop_waits. Qed.

(** ** A shim on a socket *)

(** A GPU whose operations succeed and do nothing. *)
Definition idle_gpu : Gpu := {|
  ckpt_quiesce_gpu := fun w => (0, w);
  ckpt_snapshot_write := fun _ w => (0, w);
  ckpt_restore_load := fun _ w => (0, w);
  ckpt_resume_signal := fun w => w;
  stats_snapshot := fun _ => mkTrackerStats 3 0x100000005 1 0 2 0 1 0 4;
|}.

Definition shim_world (p : peer) : world :=
  World (list_to_map [([], NDir); (["run"], NDir); (["run"; "7.sock"], NSock)])
    (fun _ => 0) [] ∅ 0 ∅ {[ ["run"; "7.sock"] := p ]} [] ∅ "".

Lemma shim_listening p : listening (shim_world p) "/run/7.sock" p.
Proof. split; [|done..]. split; [done|]. vm_compute. lia. Qed.

Lemma shim_call_refines_witness :
  let w := shim_world (PShim "" ST_RUNNING) in
  exists rest,
    Client.call (H:=idle_gpu) (Conn "/run/7.sock" ["run"; "7.sock"] [] [] PhLoop) OpSnapshot "/img/a.staging" w =
    (Ret (0, Conn "/run/7.sock" ["run"; "7.sock"] rest [] PhClosed), became ["run"; "7.sock"] "" ST_SNAPPED w).
Proof.
  apply (shim_call_refines (H:=idle_gpu) _ "/run/7.sock" ["run"; "7.sock"] "" ST_RUNNING OpSnapshot "/img/a.staging");
    [done|done|by vm_compute|by vm_compute|done].
Defined.

Lemma Dial_authenticates_witness :
  let w := shim_world (PShim "s3cret" ST_RUNNING) in
  DialPathWithSecret (H:=idle_gpu) "/run/7.sock" "guess" w =
    (if decide ("guess" = "") then Ret (Conn "/run/7.sock" (at_path w "/run/7.sock") [] [] PhAuth)
     else if lets_in (PShim "s3cret" ST_RUNNING) "guess"
     then Ret (Conn "/run/7.sock" (at_path w "/run/7.sock") [] [] PhLoop)
     else Err (rc_error "auth" 1), w) /\
  forall op arg, is_u32 op -> op <> OpAuth ->
    exists c, Client.call (H:=idle_gpu) (Conn "/run/7.sock" (at_path w "/run/7.sock") [] [] PhAuth) op arg w =
      (Ret (2, c), w).
Proof.
  apply (Dial_authenticates (H:=idle_gpu) _ "/run/7.sock" (PShim "s3cret" ST_RUNNING) "guess").
  - done.
  - apply shim_listening.
  - done.
  - apply (bool_decide_unpack _). by vm_compute.
  - by vm_compute.
Defined.

Lemma shim_Stats_exact_witness :
  Client.Stats (H:=idle_gpu) (Conn "/run/7.sock" ["run"; "7.sock"] [] [] PhLoop) (shim_world (PShim "" ST_RUNNING)) =
  (Ret (mkStats 3 0x100000005 1 0 2 0 1 0 4, Conn "/run/7.sock" ["run"; "7.sock"] [] [] PhClosed),
   shim_world (PShim "" ST_RUNNING)).
Proof.
  apply (shim_Stats_exact (H:=idle_gpu) _ "/run/7.sock" ["run"; "7.sock"] "" ST_RUNNING);
    [done|done|by split; vm_compute].
Defined.

Lemma serve_keeps_up_witness :
  let w := shim_world (PMock "" 0 [] 0) in
  serve_step (H:=idle_gpu) (Conn "/run/7.sock" ["run"; "7.sock"] [] (be_enc 4 0) PhLoop) w = (Ret None, w).
Proof.
  apply (serve_keeps_up (H:=idle_gpu) (Conn "/run/7.sock" ["run"; "7.sock"] (be_enc 4 OpPing) [] PhLoop)
    (shim_world (PMock "" 0 [] 0))). by vm_compute.
Defined.

(** The mock's answer to a request for statistics has a word too many: the
    client reads the state from the word before the last, and the last is taken
    for the status of the next call. *)
Lemma mock_Stats_desync :
  let w := shim_world (PMock "" 0 [] 0) in
  let c := Conn "/run/7.sock" ["run"; "7.sock"] [] [] PhLoop in
  ('(st, c) ← Client.Stats (H:=idle_gpu) c; c ← Client.Ping (H:=idle_gpu) c; mret (State st)) w =
    (Err (rc_error "ping" 4), w) /\
  ('(st, c) ← Client.Stats (H:=idle_gpu) c; mret (State st)) w = (Ret 0, w).
Proof. split; by vm_compute. Qed.
