(* ===== verification/ShimStart.v ===== *)
(** shim/ipc.c: how a shim starts and ends. What the constructor of the library
    does with the run directory, the socket and the secret before the shim
    answers requests (Rpc.v), and whom it lets in then. *)
From S2P Require Export Restore RpcFacts.
Local Open Scope Z_scope.

(** ** The C library *)

(** A string copied to a buffer of [n] bytes whose last is a NUL. *)
Definition in_buffer (n : nat) (s : string) : string :=
  string_of_bytes (take (n - 1) (c_string (bytes_of_string s))).

(** [mkdir] and [unlink]; the program looks at no result of theirs. *)
Definition mkdir (s : string) : M unit :=
  syscall (fun _ => mret tt) (fun w =>
    let q := at_path w s in
    match w_fs w !! q, parent_errno (w_fs w) q with
    | None, None => (Ret tt, set_fs (<[q := NDir]> (w_fs w)) w)
    | _, _ => (Ret tt, w)
    end).

Definition unlink (s : string) : M unit :=
  syscall (fun _ => mret tt) (fun w =>
    match find_node w s with
    | inl _ | inr NDir => (Ret tt, w)
    | inr _ => (Ret tt, set_fs (delete (at_path w s) (w_fs w)) w)
    end).

(** [socket] and [bind]; [false] is -1. Nothing listens on a new socket. *)
Definition socket : M bool := syscall (fun _ => mret false) (mret true).

Definition bind (s : string) : M bool :=
  syscall (fun _ => mret false) (fun w =>
    let q := at_path w s in
    match w_fs w !! q, parent_errno (w_fs w) q with
    | None, None => (Ret true, set_peers (delete q (w_peers w)) (set_fs (<[q := NSock]> (w_fs w)) w))
    | _, _ => (Ret false, w)
    end).

(** [listen]: without it the socket refuses connections. *)
Definition listen (sock : path) (p : peer) : M unit :=
  syscall (fun _ => mret tt) (set_peer sock p).

(** ** The constructor *)

(** [g_run_dir] and [g_sock_path] are buffers of 256 bytes. *)
Definition ensure_run_dir : M string :=
  env ← Getenv "CUDACKPT_RUN_DIR";
  let g_run_dir := if decide (env = "") then "/run/cudackpt" else in_buffer 256 env in
  mkdir g_run_dir ;;
  mret g_run_dir.

Definition sock_path (run_dir : string) (pid : Z) : string :=
  in_buffer 256 (run_dir +:+ "/" +:+ Itoa pid +:+ ".sock").

(** [ckpt_ipc_init] as far as the thread that accepts connections: the socket
    it listens on, if any. There is no secret yet. *)
Definition ipc_open (pid : Z) : M (option path) :=
  g_run_dir ← ensure_run_dir;
  let path := sock_path g_run_dir pid in
  unlink path ;;
  ok ← socket;
  if negb ok then mret None else
  let sun_path := in_buffer 108 path in
  ok ← bind sun_path;
  if negb ok then mret None else
  sock ← gets (fun w => at_path w sun_path);
  listen sock (PShim "" ST_IDLE) ;;
  mret (Some sock).

(** A change of what the threads of the shim share, which is seen where one of
    them runs. *)
Definition update_shim (sock : path) (f : string -> Z -> peer) : M unit := fun w =>
  match w_peers w !! sock with
  | Some (PShim secret st) => (Ret tt, set_peers (<[sock := f secret st]> (w_peers w)) w)
  | _ => (Ret tt, w)
  end.

(** The rest of [ckpt_ipc_init]: the state, and then the secret. *)
Definition ipc_ready (sock : path) : M unit :=
  need ← gets (fun w => w_env w !! "CUDACKPT_NEED_GPU");
  update_shim sock (fun secret _ => PShim secret (match need with Some _ => ST_FROZEN | None => ST_RUNNING end)) ;;
  sec ← Getenv "CUDACKPT_RPC_SECRET";
  if decide (sec = "") then mret tt
  else update_shim sock (fun _ st => PShim (in_buffer 256 sec) st).

Definition ckpt_ipc_init (pid : Z) : M unit :=
  s ← ipc_open pid;
  match s with
  | None => mret tt
  | Some sock => ipc_ready sock
  end.

(** The handler of SIGUSR2. *)
Definition sig_handler `{Gpu} (sock : path) : M unit :=
  gpu ckpt_quiesce_gpu ;;
  update_shim sock (fun secret _ => PShim secret ST_FROZEN).

(** The destructor: [open] says whether the socket was made, [path] is
    [g_sock_path]. *)
Definition ckpt_ipc_fini (open : option path) (path : string) : M unit :=
  match open with
  | Some sock => fun w => (Ret tt, set_peers (delete sock (w_peers w)) w)
  | None => mret tt
  end ;;
  if decide (path = "") then mret tt else unlink path.

(** ** Facts *)

Lemma in_buffer_short n s :
  no_nul (bytes_of_string s) -> (length (bytes_of_string s) <= n - 1)%nat -> in_buffer n s = s.
Proof.
  intros Hn Hl. unfold in_buffer. rewrite c_string_id by done.
  rewrite take_ge by done. apply string_of_bytes_of_string.
Qed.

Lemma in_buffer_no_nul n s : no_nul (bytes_of_string (in_buffer n s)).
Proof.
  unfold in_buffer, no_nul. rewrite bytes_of_string_of_bytes. intros Hin.
  apply (c_string_no_nul (bytes_of_string s)). rewrite <- (take_drop (n - 1) (c_string _)).
  apply elem_of_app. by left.
Qed.

Lemma in_buffer_long n s :
  no_nul (bytes_of_string s) -> (n - 1 < length (bytes_of_string s))%nat -> in_buffer n s <> s.
Proof.
  intros Hn Hl E. apply (f_equal (fun s => length (bytes_of_string s))) in E.
  unfold in_buffer in E. rewrite bytes_of_string_of_bytes, c_string_id, length_take in E by done. lia.
Qed.

Lemma no_nul_contains s : no_nul (bytes_of_string s) <-> contains_char "000" s = false.
Proof.
  unfold no_nul. induction s as [|c s IH]; [split; [done|cbn; set_solver]|].
  cbn [contains_char]. rewrite orb_false_iff, bool_decide_eq_false, <- IH.
  change (bytes_of_string (String c s)) with (Ascii.byte_of_ascii c :: bytes_of_string s).
  rewrite not_elem_of_cons. apply and_iff_compat_r. split; intros Hne E; apply Hne.
  - subst c. done.
  - rewrite <- (Ascii.ascii_of_byte_of_ascii c), <- E. done.
Qed.

(** The name of the socket of a process in a run directory. *)
Definition sock_name (pid : Z) : string := Itoa pid +:+ ".sock".

Lemma sock_name_no_nul pid : 0 <= pid -> contains_char "000" (sock_name pid) = false.
Proof.
  intros Hp. unfold sock_name, Itoa. rewrite decide_False by lia. rewrite contains_char_app.
  by rewrite (parse_digits_chars _ _ _ _ (FormatUint_parse pid Hp)).
Qed.

Lemma sock_path_short dir pid :
  no_nul (bytes_of_string dir) -> 0 <= pid ->
  (length (bytes_of_string (dir +:+ "/" +:+ sock_name pid)) < 108)%nat ->
  sock_path dir pid = dir +:+ "/" +:+ sock_name pid /\
  in_buffer 108 (sock_path dir pid) = dir +:+ "/" +:+ sock_name pid.
Proof.
  intros Hd Hp Hl.
  assert (Hn : no_nul (bytes_of_string (dir +:+ "/" +:+ sock_name pid))).
  { apply no_nul_contains. apply no_nul_contains in Hd.
    rewrite contains_char_app, Hd. cbn. by apply sock_name_no_nul. }
  assert (E : sock_path dir pid = dir +:+ "/" +:+ sock_name pid) by (apply in_buffer_short; [done|lia]).
  rewrite E. split; [done|]. apply in_buffer_short; [done|lia].
Qed.

Lemma at_sock_path w dir pid :
  dir <> "" -> 0 <= pid -> at_path w (dir +:+ "/" +:+ sock_name pid) = at_path w dir ++ [sock_name pid].
Proof.
  intros Hd Hp. pose proof (sock_name_proper pid Hp) as Hpr. unfold at_path.
  change (dir +:+ "/" +:+ sock_name pid) with (dir +:+ String slash (sock_name pid)).
  rewrite resolve_app_slash by done. fold (sock_name pid) in Hpr.
  apply proper_spec in Hpr as Hn. destruct Hn as (_ & _ & _ & Hs).
  rewrite split_char_plain by done. by apply resolve_step_proper.
Qed.

(** The run directory is there, or can be made. *)
Definition dir_ready (fs : gmap path node) (p : path) : Prop :=
  fs !! p = Some NDir \/ (fs !! p = None /\ parent_errno fs p = None).

Lemma mkdir_ready w s :
  nofault w -> dir_ready (w_fs w) (at_path w s) ->
  exists fs, mkdir s w = (Ret tt, set_fs fs w) /\ fs !! at_path w s = Some NDir /\
    forall q, q <> at_path w s -> fs !! q = w_fs w !! q.
Proof.
  intros Hnf Hr. unfold mkdir. rewrite syscall_run by done. cbv zeta.
  destruct Hr as [E|[E Ep]]; rewrite E.
  - exists (w_fs w). by destruct w.
  - rewrite Ep. eexists. split; [done|]. split; [by rewrite lookup_insert_eq|]. intros q Hq.
    by rewrite lookup_insert_ne.
Qed.

Lemma unlink_clears w s :
  nofault w -> s <> "" -> w_fs w !! at_path w s <> Some NDir ->
  unlink s w = (Ret tt, set_fs (delete (at_path w s) (w_fs w)) w).
Proof.
  intros Hnf Hs Hd. unfold unlink, find_node. rewrite syscall_run by done. rewrite decide_False by done.
  destruct (w_fs w !! at_path w s) as [[]|] eqn:E; try done. rewrite delete_id by done. by destruct w.
Qed.

(** Where the shim of a process listens when it starts: the run directory of its
    environment, as the commands look for it. *)
Definition env_dir (w : world) : string := run_dir (default "" (w_env w !! "CUDACKPT_RUN_DIR")).

Record can_start (w : world) (pid : Z) : Prop := {
  cs_pid : 0 <= pid;
  cs_text : no_nul (bytes_of_string (env_dir w));
  cs_length : (length (bytes_of_string (env_dir w +:+ "/" +:+ sock_name pid)) < 108)%nat;
  cs_dir : dir_ready (w_fs w) (at_path w (env_dir w));
  cs_name : w_fs w !! (at_path w (env_dir w) ++ [sock_name pid]) <> Some NDir;
}.

Lemma env_dir_nonempty w : env_dir w <> "".
Proof. unfold env_dir, run_dir. by case_decide. Qed.

Lemma ensure_run_dir_run w pid :
  nofault w -> can_start w pid ->
  exists fs, ensure_run_dir w = (Ret (env_dir w), set_fs fs w) /\ fs !! at_path w (env_dir w) = Some NDir /\
    forall q, q <> at_path w (env_dir w) -> fs !! q = w_fs w !! q.
Proof.
  intros Hnf [_ Hn Hl Hd _]. destruct (mkdir_ready w (env_dir w) Hnf Hd) as (fs & E & Hfs & Hq).
  exists fs. split; [|done]. unfold ensure_run_dir. erewrite bind_run by done.
  assert (Hdir : (if decide (default "" (w_env w !! "CUDACKPT_RUN_DIR") = "") then "/run/cudackpt"
    else in_buffer 256 (default "" (w_env w !! "CUDACKPT_RUN_DIR"))) = env_dir w).
  { unfold env_dir, run_dir in *. case_decide; [done|]. apply in_buffer_short; [done|].
    rewrite bytes_of_string_app, length_app in Hl. lia. }
  cbv zeta. rewrite Hdir. by rewrite (bind_run _ _ _ _ _ E).
Qed.

Lemma ipc_open_run w pid :
  nofault w -> can_start w pid ->
  let sock := at_path w (env_dir w) ++ [sock_name pid] in
  exists fs, ipc_open pid w =
      (Ret (Some sock), set_peers (<[sock := PShim "" ST_IDLE]> (w_peers w)) (set_fs fs w)) /\
    fs !! sock = Some NSock.
Proof.
  intros Hnf Hcs sock. destruct (ensure_run_dir_run w pid Hnf Hcs) as (fs & E & Hfs & Hq).
  destruct Hcs as [Hp Hn Hl _ Hs]. destruct (sock_path_short _ pid Hn Hp Hl) as [E1 E2].
  pose proof (at_sock_path w (env_dir w) pid (env_dir_nonempty w) Hp) as Hat.
  assert (Hsd : sock <> at_path w (env_dir w)).
  { intros Es. apply (f_equal length) in Es. unfold sock in Es. rewrite length_app in Es. cbn in Es. lia. }
  eexists. split.
  - unfold ipc_open. rewrite (bind_run _ _ _ _ _ E). cbv zeta. rewrite E2, E1.
    erewrite bind_run.
    2:{ apply unlink_clears; [done|by destruct (env_dir w)|].
        cbn [w_fs set_fs]. by rewrite at_path_set_fs, Hat, Hq. }
    erewrite bind_run by (by apply syscall_run). cbn [negb].
    erewrite bind_run.
    2:{ unfold bind. rewrite syscall_run by done. cbn [w_fs set_fs w_peers].
        rewrite !at_path_set_fs, Hat, lookup_delete_eq.
        rewrite (parent_errno_child _ (at_path w (env_dir w))) by (by rewrite lookup_delete_ne). done. }
    cbn [negb]. erewrite bind_run by done.
    erewrite bind_run by (unfold listen; by rewrite syscall_run by done).
    change (at_path _ (env_dir w +:+ "/" +:+ sock_name pid)) with (at_path w (env_dir w +:+ "/" +:+ sock_name pid)).
    rewrite Hat. cbn [w_peers set_peers set_fs]. fold sock. by rewrite insert_delete_eq.
  - apply lookup_insert_eq.
Qed.

(** What a shim takes for the secret. *)
Definition env_secret (w : world) : string := default "" (w_env w !! "CUDACKPT_RPC_SECRET").

Lemma ipc_ready_run w sock :
  w_peers w !! sock = Some (PShim "" ST_IDLE) ->
  let st := match w_env w !! "CUDACKPT_NEED_GPU" with Some _ => ST_FROZEN | None => ST_RUNNING end in
  ipc_ready sock w = (Ret tt, set_peers (<[sock := PShim (in_buffer 256 (env_secret w)) st]> (w_peers w)) w).
Proof.
  intros Hp st. unfold ipc_ready. erewrite bind_run by done.
  erewrite bind_run by (unfold update_shim; by rewrite Hp). erewrite bind_run by done. fold st.
  change (default "" _) with (env_secret w). case_decide as Hs; [by rewrite Hs|].
  unfold update_shim. cbn [w_peers set_peers]. rewrite lookup_insert_eq. by rewrite insert_insert_eq.
Qed.

Section started.
Context `{Gpu}.

(** Dialing a socket the model knows. *)
Lemma Dial_open w path st :
  nofault w -> listening w path (PShim "" st) ->
  DialPathWithSecret path "" w = (Ret (Conn path (at_path w path) [] [] PhLoop), w).
Proof using Type.
  intros Hnf Hl. unfold DialPathWithSecret. by rewrite (bind_run _ _ _ _ _ (net_Dial_run _ _ _ Hnf Hl)).
Qed.

Lemma Dial_guarded w path secret st s :
  nofault w -> listening w path (PShim secret st) -> secret <> "" -> no_nul (bytes_of_string secret) ->
  s <> "" -> is_u32 (Z.of_nat (length (bytes_of_string s))) ->
  DialPathWithSecret path s w =
  (if lets_in (PShim secret st) s then Ret (Conn path (at_path w path) [] [] PhLoop)
   else Err (rc_error "auth" 1), w).
Proof using Type.
  intros Hnf Hl Hs Hn Hne Hu. unfold DialPathWithSecret.
  rewrite (bind_run _ _ _ _ _ (net_Dial_run _ _ _ Hnf Hl)).
  assert (Hph : first_phase (PShim secret st) = PhAuth) by (cbn; by rewrite decide_False).
  rewrite Hph. apply (authenticate_run _ _ (PShim secret st)); [done|apply Hl|done..].
Qed.

(** A shim that knows no secret takes the secret of a client for a request it
    does not have. *)
Lemma serve_unasked w a sock st s :
  w_peers w !! sock = Some (PShim "" st) ->
  serve (Conn a sock (be_enc 4 OpAuth ++ str_bytes s) [] PhLoop) w =
  (Ret (Conn a sock (str_bytes s) (be_enc 4 1) PhClosed), w).
Proof using Type.
  intros Hp. apply serve_one.
  - intros E. apply (f_equal length) in E. cbn [c_in] in E. rewrite length_app, length_be4 in E. cbn in E. lia.
  - unfold serve_step. cbn [c_sock]. rewrite Hp. unfold shim_step. cbn [c_phase c_in].
    rewrite take_u32_enc by (unfold is_u32, OpAuth; lia). done.
  - by apply serve_step_closed.
Qed.

Lemma Dial_unasked w path st s :
  nofault w -> listening w path (PShim "" st) -> s <> "" ->
  DialPathWithSecret path s w = (Err (rc_error "auth" 1), w).
Proof using Type.
  intros Hnf Hl Hs. unfold DialPathWithSecret. rewrite (bind_run _ _ _ _ _ (net_Dial_run _ _ _ Hnf Hl)).
  change (first_phase (PShim "" st)) with PhLoop. unfold authenticate. rewrite decide_False by done. unfold writeU32.
  erewrite bind_run by (by apply conn_Write_run). cbn [c_in app with_in c_addr c_sock c_out c_phase].
  erewrite bind_run by (by apply writeStr_run). cbn [c_in app with_in c_addr c_sock c_out c_phase].
  erewrite bind_run; [|eapply (readU32_served _ _ 1); [done|by apply small_u32|done|by eapply serve_unasked, Hl|]];
    [|cbn [c_out]; by rewrite app_nil_r].
  cbv beta iota. by rewrite decide_True by done.
Qed.

(** The secret of its environment gets in when it fits the buffer of the shim. *)
Lemma lets_in_buffer secret st :
  no_nul (bytes_of_string secret) ->
  lets_in (PShim (in_buffer 256 secret) st) secret = bool_decide (length (bytes_of_string secret) <= 255)%nat.
Proof using Type.
  intros Hn. unfold lets_in. rewrite c_string_id, string_of_bytes_of_string by done.
  destruct (decide (length (bytes_of_string secret) <= 255)%nat) as [Hl|Hl].
  - rewrite (in_buffer_short 256) by (done || lia). by rewrite !bool_decide_eq_true_2 by (done || lia).
  - rewrite (bool_decide_eq_false_2 (in_buffer 256 secret = secret)) by (apply in_buffer_long; [done|lia]).
    by rewrite andb_false_r, bool_decide_eq_false_2.
Qed.

Lemma in_buffer_nonempty s : s <> "" -> no_nul (bytes_of_string s) -> in_buffer 256 s <> "".
Proof using Type.
  intros Hs Hn E. destruct s as [|c s]; [done|]. apply (f_equal bytes_of_string) in E.
  unfold in_buffer in E. by rewrite bytes_of_string_of_bytes, c_string_id in E.
Qed.
End started.

(** ** Properties *)

(** C12: whom a shim lets in. A shim that starts listens where the commands look
    for it, in the run directory of its environment. A command with the secret of
    the same environment gets a connection that takes requests when the secret
    has at most 255 bytes, and is refused for ever when it is longer, since the
    shim keeps 255 bytes of it. While the shim is starting, between the start of
    the thread that accepts connections and the reading of the secret, it is the
    other way round: a client without a secret gets a connection that takes
    requests, and one that sends a secret, the right one too, is refused. *)
Theorem started_shim_admits `{Gpu} w pid :
  let runDir := default "" (w_env w !! "CUDACKPT_RUN_DIR") in
  let secret := env_secret w in
  nofault w -> can_start w pid ->
  (length (bytes_of_string (ShimSocketPath runDir pid)) < 108)%nat ->
  no_nul (bytes_of_string secret) -> is_u32 (Z.of_nat (length (bytes_of_string secret))) ->
  let admitted sock := Ret (Conn (ShimSocketPath runDir pid) sock [] [] PhLoop) in
  exists sock w1 w2, ipc_open pid w = (Ret (Some sock), w1) /\ ckpt_ipc_init pid w = (Ret tt, w2) /\
    DialPathWithSecret (ShimSocketPath runDir pid) "" w1 = (admitted sock, w1) /\
    (secret <> "" -> DialRunDir runDir pid w1 = (Err (rc_error "auth" 1), w1)) /\
    DialRunDir runDir pid w2 =
      (if decide (length (bytes_of_string secret) <= 255)%nat then admitted sock else Err (rc_error "auth" 1), w2).
Proof.
  intros runDir secret Hnf Hcs Hl Hn Hu admitted.
  destruct (ipc_open_run w pid Hnf Hcs) as (fs & E & Hfs). set (sock := _ ++ [_]) in *. set (w1 := set_peers _ _) in E.
  assert (Hp1 : w_peers w1 !! sock = Some (PShim "" ST_IDLE)) by apply lookup_insert_eq.
  pose proof (ipc_ready_run w1 sock Hp1) as E2. cbv zeta in E2.
  set (st := match _ with Some _ => _ | None => _ end) in E2. set (w2 := set_peers _ w1) in E2.
  destruct (Join_entry w (env_dir w) (sock_name pid) (env_dir_nonempty w)) as [Hne Hat];
    [apply sock_name_proper, Hcs|].
  change (PathJoin _) with (ShimSocketPath runDir pid) in Hne, Hat. change (at_path w (env_dir w) ++ [_]) with sock in Hat.
  assert (L1 : listening w1 (ShimSocketPath runDir pid) (PShim "" ST_IDLE)).
  { split; [done|..]; change (at_path w1 ?s) with (at_path w s); by rewrite Hat. }
  assert (L2 : listening w2 (ShimSocketPath runDir pid) (PShim (in_buffer 256 secret) st)).
  { split; [done|..]; change (at_path w2 ?s) with (at_path w s); rewrite Hat; [done|apply lookup_insert_eq]. }
  exists sock, w1, w2. split; [done|]. split; [|split; [|split]].
  - unfold ckpt_ipc_init. by rewrite (bind_run _ _ _ _ _ E).
  - rewrite (Dial_open w1 _ ST_IDLE) by done. change (at_path w1 ?s) with (at_path w s). by rewrite Hat.
  - intros Hs. unfold DialRunDir, DialPath. erewrite bind_run by done. change (default "" _) with secret.
    by apply (Dial_unasked w1 _ ST_IDLE).
  - unfold DialRunDir, DialPath. erewrite bind_run by done. change (default "" _) with secret.
    destruct (decide (secret = "")) as [Hs|Hs].
    + rewrite Hs in L2 |- *. rewrite (Dial_open w2 _ st) by done. change (at_path w2 ?s) with (at_path w s). by rewrite Hat.
    + rewrite (Dial_guarded w2 _ (in_buffer 256 secret) st); [|done|done|by apply in_buffer_nonempty|apply in_buffer_no_nul|done..].
      rewrite lets_in_buffer by done. change (at_path w2 ?s) with (at_path w s). by rewrite Hat, bool_decide_decide; case_decide.
Qed.

(** A process with the number 7 and a secret, before its shim starts. *)
Definition starting (secret : string) : world :=
  World (list_to_map [([], NDir); (["run"], NDir); (["run"; "7.sock"], NFile [])])
    (fun _ => 0) [] {["CUDACKPT_RUN_DIR" := "/run"; "CUDACKPT_RPC_SECRET" := secret]} 0 ∅ ∅ [] ∅ "".

Lemma started_shim_admits_witness :
  let w := starting "s3cret" in
  exists sock w1 w2, ipc_open 7 w = (Ret (Some sock), w1) /\ ckpt_ipc_init 7 w = (Ret tt, w2) /\
    DialPathWithSecret (H:=idle_gpu) "/run/7.sock" "" w1 = (Ret (Conn "/run/7.sock" sock [] [] PhLoop), w1) /\
    DialRunDir (H:=idle_gpu) "/run" 7 w1 = (Err (rc_error "auth" 1), w1) /\
    DialRunDir (H:=idle_gpu) "/run" 7 w2 = (Ret (Conn "/run/7.sock" sock [] [] PhLoop), w2).
Proof.
  destruct (started_shim_admits (H:=idle_gpu) (starting "s3cret") 7) as (sock & w1 & w2 & E1 & E2 & E3 & E4 & E5);
    [done|split; [done|..]|..|by exists sock, w1, w2; split_and!; [..|apply E4|]].
  - apply no_nul_contains. by vm_compute.
  - apply (bool_decide_unpack _). by vm_compute.
  - by left.
  - apply (bool_decide_unpack _). by vm_compute.
  - apply (bool_decide_unpack _). by vm_compute.
  - apply no_nul_contains. by vm_compute.
  - by vm_compute.
Defined.

(** A secret of 256 bytes is refused. *)
Example long_secret_refused :
  let w := (ckpt_ipc_init 7 (starting (string_of_bytes (replicate 256 Byte.x61)))).2 in
  (DialRunDir (H:=idle_gpu) "/run" 7 w).1 = Err (rc_error "auth" 1).
Proof. by vm_compute. Qed.

(** A run directory whose name is long: the socket is made under a part of its
    name, and the commands do not find it. *)
Example long_name_lost :
  let dir := "/run/" +:+ string_of_bytes (replicate 100 Byte.x61) in
  let w := World (list_to_map [([], NDir); (["run"], NDir)]) (fun _ => 0) []
    {["CUDACKPT_RUN_DIR" := dir]} 0 ∅ ∅ [] ∅ "" in
  let w' := (ckpt_ipc_init 1234 w).2 in
  w_fs w' !! ["run"; string_of_bytes (replicate 100 Byte.x61); "1"] = Some NSock /\
  (DialRunDir (H:=idle_gpu) dir 1234 w').1 = Err (ENet "dial" (ShimSocketPath dir 1234) "connect" EINVAL).
Proof. by vm_compute. Qed.

(** The destructor leaves nothing behind. *)
Example started_and_ended :
  let w := starting "" in
  let '(s, w1) := ipc_open 7 w in
  match s with
  | Ret s => (ckpt_ipc_fini s (sock_path "/run" 7) w1).2 = set_fs (delete ["run"; "7.sock"] (w_fs w)) w
  | _ => False
  end.
Proof. by vm_compute. Qed.
