(* ===== verification/Bench.v ===== *)
(** pkg/bench: how fast a shim answers, and the part of pkg/rpc it shows that
    the rest of the program does not: a client that goes on using its
    connection after a call has failed. *)
From S2P Require Export RpcFacts Fmt.
Local Open Scope Z_scope.

(** ** A connection after an error *)

(** The operations of a connection (Rpc.v) that fail leave it in some state; the
    callers in pkg/control drop it then. Here it is returned with the error. *)
Notation kept A := (M ((goerr + A) * conn)%type).

Definition ret_kept {A} (a : A) (c : conn) : kept A := mret (inr a, c).
Definition fail_kept {A} (e : goerr) (c : conn) : kept A := mret (inl e, c).

Definition bind_kept {A B} (m : kept A) (f : A -> conn -> kept B) : kept B :=
  '(r, c) ← m; match r with inl e => fail_kept e c | inr a => f a c end.

(** What the rest of the program sees of it. *)
Definition forget {A} (m : kept A) : M (A * conn) :=
  '(r, c) ← m; match r with inl e => throw e | inr a => mret (a, c) end.

Definition write_kept (c : conn) (data : bytes) : kept unit :=
  let fail e := fail_kept (ENet "write" ("@->" +:+ c_addr c) "write" e) c in
  syscall (fun flt => fail (f_errno flt))
    match c_phase c with
    | PhClosed => fail EPIPE
    | _ => ret_kept tt (with_in (c_in c ++ data) c)
    end.

Section client.
Context `{Gpu}.

Definition read_kept (c : conn) (n : nat) : kept bytes :=
  syscall (fun flt =>
      c' ← (if decide (f_progress flt = 0%nat) then mret c else serve c);
      fail_kept (ENet "read" ("@->" +:+ c_addr c) "read" (f_errno flt)) c')
    (c ← (if decide (n <= length (c_out c))%nat then mret c else serve c);
     if decide (n <= length (c_out c))%nat
     then ret_kept (take n (c_out c)) (with_out (drop n (c_out c)) c)
     else
       gone ← gets (fun w => bool_decide (c_phase c = PhClosed \/ w_peers w !! c_sock c = None));
       if (gone : bool)
       then fail_kept (if decide (c_out c = []) then EOF else ErrUnexpectedEOF) (with_out [] c)
       else diverge).

Definition writeStr_kept (c : conn) (s : string) : kept unit :=
  let b := bytes_of_string s in
  bind_kept (write_kept c (be_enc 4 (u32 (Z.of_nat (length b))))) (fun _ c =>
  if decide (length b = 0%nat) then ret_kept tt c else write_kept c b).

Definition call_kept (c : conn) (op : Z) (path : string) : kept Z :=
  bind_kept (write_kept c (be_enc 4 op)) (fun _ c =>
  bind_kept (if decide (op = OpSnapshot \/ op = OpRestore) then writeStr_kept c path else ret_kept tt c) (fun _ c =>
  bind_kept (read_kept c 4) (fun b c => ret_kept (be_dec b) c))).

Definition Status_kept (c : conn) : kept Z := call_kept c OpStatus "".
End client.

(** ** time.Duration *)

(** Rounding to a multiple of [m]. *)
Definition lessThanHalf (x y : Z) : bool := bool_decide (u64 (u64 x + u64 x) < u64 y).

Definition Round (d m : Z) : Z :=
  if decide (m <= 0) then d
  else
    let r := Z.rem d m in
    if decide (d < 0) then
      if lessThanHalf (- r) m then int64_of_u64 (u64 (d - r))
      else let d1 := int64_of_u64 (u64 (d - m - r)) in if decide (d1 < d) then d1 else - 2 ^ 63
    else if lessThanHalf r m then int64_of_u64 (u64 (d - r))
    else let d1 := int64_of_u64 (u64 (d + m - r)) in if decide (d1 > d) then d1 else 2 ^ 63 - 1.

(** [fmtFrac]: the last [prec] digits of [v] without the zeros at their end. *)
Fixpoint fmtFrac (prec : nat) (v : Z) (printing : bool) (acc : string) : string * Z :=
  match prec with
  | O => (if printing then String "." acc else acc, v)
  | S prec =>
      let digit := v `mod` 10 in
      let printing := printing || bool_decide (digit <> 0) in
      fmtFrac prec (v / 10) printing (if printing then String (digit_char digit) acc else acc)
  end.

Definition micro_sign : string := string_of_bytes [Byte.xc2; Byte.xb5].

Definition Duration_String (d : Z) : string :=
  let u := Z.abs d in
  let text :=
    if decide (u < 1000000000) then
      if decide (u = 0) then "0s"
      else
        let '(prec, unit) :=
          if decide (u < 1000) then (0%nat, "ns")
          else if decide (u < 1000000) then (3%nat, micro_sign +:+ "s") else (6%nat, "ms") in
        let '(s, u) := fmtFrac prec u false unit in FormatUint u +:+ s
    else
      let '(s, u) := fmtFrac 9 u false "s" in
      let s := FormatUint (u `mod` 60) +:+ s in
      let u := u / 60 in
      if decide (u > 0) then
        let s := FormatUint (u `mod` 60) +:+ "m" +:+ s in
        let u := u / 60 in
        if decide (u > 0) then FormatUint u +:+ "h" +:+ s else s
      else s in
  if decide (d < 0) then String "-" text else text.

Example Duration_ex1 : Duration_String 1500000000 = "1.5s". Proof. reflexivity. Qed.
Example Duration_ex2 : Duration_String 3723000000000 = "1h2m3s". Proof. reflexivity. Qed.
Example Duration_ex3 : Duration_String (-2200) = "-2.2" +:+ micro_sign +:+ "s". Proof. reflexivity. Qed.
Example Duration_ex4 : Duration_String 1000001 = "1.000001ms". Proof. reflexivity. Qed.
Example Round_ex : Round 1234567 1000 = 1235000. Proof. reflexivity. Qed.

(** %9s and %5d: the width counts characters. *)
Definition pad_left (width : nat) (s : string) : string := repeat_byte Byte.x20 (width - RuneCount s) +:+ s.

(** ** bench.go *)

(** Go's float64: what is computed with it, and its format %8.1f. *)
Class Floats := {
  float64 : Type;
  float_of_int : Z -> float64;
  float_div : float64 -> float64 -> float64;
  format_8_1 : float64 -> string;
}.

Module Bench.
Section bench.
Context `{Gpu} `{Floats}.
(** The monotonic clock, in nanoseconds. *)
Context (monotonic : world -> Z).

Record Result := mkResult {
  Op : string; Count : Z; Elapsed : Z; PerOpUs : float64; Errors : Z;
}.

Definition usPerOp (count d : Z) : float64 :=
  if decide (count = 0) then float_of_int 0
  else float_div (float_of_int (Z.quot d 1000)) (float_of_int count).

(** The loops, with the rounds that are left. *)
Fixpoint ping_loop (n : nat) (runDir : string) (pid errs : Z) : M Z :=
  match n with
  | O => mret errs
  | S n =>
      r ← attempt (DialRunDir runDir pid);
      match r with
      | inl _ => ping_loop n runDir pid (errs + 1)
      | inr cli =>
          r ← attempt (Client.Ping cli);
          ping_loop n runDir pid (match r with inl _ => errs + 1 | inr _ => errs end)
      end
  end.

Definition Ping (runDir : string) (pid count : Z) : M Result :=
  start ← gets monotonic;
  errs ← ping_loop (Z.to_nat count) runDir pid 0;
  now ← gets monotonic;
  mret (mkResult "ping" count (now - start) (usPerOp count (now - start)) errs).

Fixpoint status_loop (n : nat) (cli : conn) (errs : Z) : M Z :=
  match n with
  | O => mret errs
  | S n =>
      '(r, cli) ← Status_kept cli;
      status_loop n cli (match r with inl _ => errs + 1 | inr _ => errs end)
  end.

Definition Status (runDir : string) (pid count : Z) : M Result :=
  start ← gets monotonic;
  r ← attempt (DialRunDir runDir pid);
  match r with
  | inl _ => mret (mkResult "status" count 0 (float_of_int 0) count)
  | inr cli =>
      errs ← status_loop (Z.to_nat count) cli 0;
      now ← gets monotonic;
      mret (mkResult "status" count (now - start) (usPerOp count (now - start)) errs)
  end.

Definition rule : string := line "+--------+-------+-----------+----------+--------+".

Definition table_row (r : Result) : string :=
  line ("| " +:+ pad_right 6 (Op r) +:+ " | " +:+ pad_left 5 (Itoa (Count r)) +:+ " | " +:+
        pad_left 9 (Duration_String (Round (Elapsed r) 1000)) +:+ " | " +:+ format_8_1 (PerOpUs r) +:+ " | " +:+
        pad_left 6 (Itoa (Errors r)) +:+ " |").

Definition FormatTable (rows : list Result) : string :=
  rule +:+ line "| op     | count | elapsed   | us/op    | errors |" +:+ rule +:+
  foldr (fun r out => table_row r +:+ out) "" rows +:+ rule.
End bench.
End Bench.

(** ** The two views of a call *)

Lemma forget_bind {A B} (m : kept A) (f : A -> conn -> kept B) w :
  forget (bind_kept m f) w = ('(a, c) ← forget m; forget (f a c)) w.
Proof.
  unfold forget, bind_kept, mbind, M_bind.
  destruct (m w) as [[[[e|a] c]|e| |] w1]; reflexivity.
Qed.

Lemma forget_write c d w : forget (write_kept c d) w = (c ← conn_Write c d; mret (tt, c)) w.
Proof.
  unfold forget, write_kept, conn_Write, mbind, M_bind, syscall.
  destruct (w_faults w) as [|[flt|] l]; [|reflexivity|]; by destruct (c_phase c).
Qed.

Section agreement.
Context `{Gpu}.

Lemma forget_read c n w : forget (read_kept c n) w = conn_ReadFull c n w.
Proof.
  unfold forget, read_kept, conn_ReadFull, syscall, mbind, M_bind.
  destruct (w_faults w) as [|[flt|] l].
  2: case_decide; [done|]; by destruct (serve c _) as [[c'|e| |] w1].
  all: destruct (decide (n <= length (c_out c))%nat); cbn [fst snd mret M_ret];
    [by case_decide|]; destruct (serve c _) as [[c'|e| |] w1]; try done; case_decide; [done|];
    unfold gets; by case_bool_decide.
Qed.

(** Going on after a call that returns a connection only. *)
Lemma forget_then {B} (m : kept unit) (m' : M conn) (f : conn -> kept B) (g : conn -> M (B * conn)) w :
  forget m w = (c ← m'; mret (tt, c)) w -> (forall c w, forget (f c) w = g c w) ->
  forget (bind_kept m (fun _ c => f c)) w = (c ← m'; g c) w.
Proof.
  intros Hm Hf. rewrite forget_bind. unfold mbind, M_bind in *. rewrite Hm.
  destruct (m' w) as [[c|e| |] w1]; try done. cbn. apply Hf.
Qed.

Lemma forget_writeStr c s w : forget (writeStr_kept c s) w = (c ← writeStr c s; mret (tt, c)) w.
Proof.
  unfold writeStr_kept, writeStr, writeU32. cbv zeta.
  rewrite (forget_then _ _ _ (fun c => c ← (if decide (length (bytes_of_string s) = 0%nat) then mret c
    else conn_Write c (bytes_of_string s)); mret (tt, c)) w (forget_write _ _ _)).
  - unfold mbind, M_bind. by destruct (conn_Write _ _ w) as [[c'|e| |] w1].
  - intros c' w'. case_decide; [done|apply forget_write].
Qed.

(** A call that keeps its connection is the call of the client, with the
    connection beside the error. *)
Lemma forget_call c op path w : forget (call_kept c op path) w = Client.call c op path w.
Proof.
  unfold call_kept, Client.call, writeU32, readU32.
  apply forget_then; [apply forget_write|]. clear c w. intros c w.
  assert (Hlast : forall c w, forget (bind_kept (read_kept c 4) (fun b c => ret_kept (be_dec b) c)) w =
    ('(b, c) ← conn_ReadFull c 4; mret (be_dec b, c)) w).
  { clear c w. intros c w. rewrite forget_bind. unfold mbind at 1, M_bind at 1. rewrite forget_read.
    unfold mbind, M_bind. by destruct (conn_ReadFull c 4 w) as [[[b c']|e| |] w1]. }
  apply forget_then; [|exact Hlast]. by case_decide; [apply forget_writeStr|].
Qed.
End agreement.

(** ** Runs against a server *)

Section runs.
Context `{Gpu} `{Floats} (monotonic : world -> Z).

Lemma forget_ret {A} (m : kept A) w a c w' :
  forget m w = (Ret (a, c), w') -> m w = (Ret (inr a, c), w').
Proof.
  unfold forget, mbind, M_bind. destruct (m w) as [[[[e|x] y]|e| |] w1]; try done.
  cbn. by intros [= -> -> ->].
Qed.

(** The server lets the client in, with the secret of its environment. *)
Definition admits (w : world) (p : peer) : Prop :=
  let s := default "" (w_env w !! "CUDACKPT_RPC_SECRET") in
  if decide (s = "") then peer_secret p = ""
  else peer_secret p <> "" /\ wf_peer p /\ lets_in p s = true /\ is_u32 (Z.of_nat (length (bytes_of_string s))).

Lemma DialRunDir_run w runDir pid p :
  let path := ShimSocketPath runDir pid in
  nofault w -> listening w path p -> admits w p ->
  DialRunDir runDir pid w = (Ret (Conn path (at_path w path) [] [] PhLoop), w).
Proof.
  intros path Hnf Hl Ha. unfold DialRunDir, DialPath. erewrite bind_run by reflexivity. fold path.
  unfold DialPathWithSecret. rewrite (bind_run _ _ _ _ _ (net_Dial_run _ _ _ Hnf Hl)).
  unfold admits in Ha. cbv zeta in Ha. case_decide as Hs.
  - rewrite Hs. unfold authenticate. rewrite decide_True by done. destruct p; cbn in *; subst; done.
  - destruct Ha as (Hsec & Hwf & Hlet & Hu).
    assert (Hph : first_phase p = PhAuth) by (destruct p; cbn in *; by rewrite decide_False).
    rewrite Hph, (authenticate_run _ _ p) by (done || apply Hl). by rewrite Hlet.
Qed.

(** Servers that answer a ping. *)
Lemma Ping_run w a sock p :
  nofault w -> w_peers w !! sock = Some p ->
  exists c, Client.Ping (Conn a sock [] [] PhLoop) w = (Ret c, w).
Proof.
  intros Hnf Hp. unfold Client.Ping, Client.checked.
  assert (Hcall : exists c, Client.call (Conn a sock [] [] PhLoop) OpPing "" w = (Ret (0, c), w)).
  { destruct p as [secret ff sq idx|secret st].
    - exists (Conn a sock [] [] PhLoop). assert (H0' : is_u32 0) by (unfold is_u32; lia).
      apply (call_run _ _ _ _ (Conn a sock [] (be_enc 4 0) PhLoop) 0 [] w); try done.
      apply serve_one; [done| |by apply serve_step_empty].
      unfold serve_step. cbn [c_sock with_in]. rewrite Hp. reflexivity.
    - destruct (shim_call_run w a sock secret st OpPing "" Hnf Hp) as [rest E]; [by vm_compute..|done|].
      by eexists. }
  destruct Hcall as [c E]. rewrite (bind_run _ _ _ _ _ E). cbv beta iota.
  rewrite decide_False by tauto. by eexists.
Qed.

Lemma ping_loop_run n runDir pid errs w p :
  nofault w -> listening w (ShimSocketPath runDir pid) p -> admits w p ->
  Bench.ping_loop n runDir pid errs w = (Ret errs, w).
Proof.
  intros Hnf Hl Ha. induction n as [|n IH]; [done|]. cbn [Bench.ping_loop].
  rewrite (bind_run _ _ _ _ _ (attempt_run _ _ _ _ (DialRunDir_run _ _ _ _ Hnf Hl Ha))). cbv beta iota.
  destruct (Ping_run w (ShimSocketPath runDir pid) _ p Hnf (ls_peer _ _ _ Hl)) as [c E].
  by rewrite (bind_run _ _ _ _ _ (attempt_run _ _ _ _ E)).
Qed.

(** On a connection the server has closed every call fails. *)
Lemma status_loop_closed n a sock i o errs w :
  nofault w -> Bench.status_loop n (Conn a sock i o PhClosed) errs w = (Ret (errs + Z.of_nat n), w).
Proof.
  intros Hnf. revert errs. induction n as [|n IH]; intros errs; [by rewrite Z.add_0_r|].
  cbn [Bench.status_loop].
  assert (E : Status_kept (Conn a sock i o PhClosed) w =
    (Ret (inl (ENet "write" ("@->" +:+ a) "write" EPIPE), Conn a sock i o PhClosed), w)).
  { unfold Status_kept, call_kept, bind_kept, write_kept, mbind, M_bind. by rewrite syscall_run. }
  rewrite (bind_run _ _ _ _ _ E). cbv beta iota. rewrite IH. do 2 f_equal. lia.
Qed.

Lemma mock_status_run w a sock secret ff idx :
  nofault w -> w_peers w !! sock = Some (PMock secret ff [] idx) ->
  Client.call (Conn a sock [] [] PhLoop) OpStatus "" w = (Ret (4, Conn a sock [] [] PhLoop), w).
Proof.
  intros Hnf Hp. assert (H4 : is_u32 4) by (unfold is_u32; lia).
  apply (call_run _ _ _ _ (Conn a sock [] (be_enc 4 4) PhLoop) 4 [] w); try done.
  apply serve_one; [done| |by apply serve_step_empty].
  unfold serve_step. cbn [c_sock with_in]. rewrite Hp.
  change ((set_peer sock (PMock secret ff [] idx) ;; mret (Some (Conn a sock [] (be_enc 4 4) PhLoop))) w =
    (Ret (Some (Conn a sock [] (be_enc 4 4) PhLoop)), w)).
  unfold set_peer, set_peers. erewrite bind_run by done. rewrite insert_id by done. by destruct w.
Qed.

Lemma status_loop_mock n a sock secret ff idx errs w :
  nofault w -> w_peers w !! sock = Some (PMock secret ff [] idx) ->
  Bench.status_loop n (Conn a sock [] [] PhLoop) errs w = (Ret errs, w).
Proof.
  intros Hnf Hp. induction n as [|n IH]; [done|]. cbn [Bench.status_loop].
  erewrite bind_run; [|apply forget_ret; unfold Status_kept; rewrite forget_call; by eapply mock_status_run].
  cbv beta iota. apply IH.
Qed.

Lemma status_loop_shim n a sock secret st errs w :
  nofault w -> w_peers w !! sock = Some (PShim secret st) ->
  Bench.status_loop n (Conn a sock [] [] PhLoop) errs w = (Ret (errs + Z.max 0 (Z.of_nat n - 1)), w).
Proof.
  intros Hnf Hp. destruct n as [|n]; [by rewrite Z.add_0_r|]. cbn [Bench.status_loop].
  destruct (shim_call_run w a sock secret st OpStatus "" Hnf Hp) as [rest E]; [by vm_compute..|done|].
  erewrite bind_run; [|apply forget_ret; unfold Status_kept; rewrite forget_call; exact E].
  cbv beta iota. unfold shim_rpc. cbn [fst snd]. cbn -[Bench.status_loop Z.sub Z.max].
  rewrite status_loop_closed by done. do 2 f_equal. lia.
Qed.

(** Whatever fails, an error is counted at most once for a request. *)
Lemma ping_loop_bounds n runDir pid errs w e w' :
  Bench.ping_loop n runDir pid errs w = (Ret e, w') -> errs <= e <= errs + Z.of_nat n.
Proof.
  revert errs w. induction n as [|n IH]; intros errs w; [intros [= <- _]; lia|].
  cbn [Bench.ping_loop]. intros (r & w1 & _ & E)%bind_inv. destruct r as [e1|cli].
  - apply IH in E. lia.
  - apply bind_inv in E as (r & w2 & _ & E). apply IH in E. destruct r; lia.
Qed.

Lemma status_loop_bounds n cli errs w e w' :
  Bench.status_loop n cli errs w = (Ret e, w') -> errs <= e <= errs + Z.of_nat n.
Proof.
  revert cli errs w. induction n as [|n IH]; intros cli errs w; [intros [= <- _]; lia|].
  cbn [Bench.status_loop]. intros ([r c] & w1 & _ & E)%bind_inv. apply IH in E. destruct r; lia.
Qed.

(** Whatever fails, the errors a benchmark reports are some of its requests. *)
Theorem bench_bounds runDir pid count w :
  0 <= count ->
  (forall r w', Bench.Ping monotonic runDir pid count w = (Ret r, w') -> 0 <= Bench.Errors r <= Bench.Count r) /\
  (forall r w', Bench.Status monotonic runDir pid count w = (Ret r, w') -> 0 <= Bench.Errors r <= Bench.Count r).
Proof.
  intros Hc. split; intros r w'.
  - unfold Bench.Ping. intros (t & w1 & _ & E)%bind_inv. apply bind_inv in E as (e & w2 & E1 & E).
    apply bind_inv in E as (t' & w3 & _ & E). injection E as <- _. apply ping_loop_bounds in E1. cbn. lia.
  - unfold Bench.Status. intros (t & w1 & _ & E)%bind_inv. apply bind_inv in E as (c & w2 & _ & E).
    destruct c as [e|c]; [injection E as <- _; cbn; lia|]. apply bind_inv in E as (e & w3 & E1 & E).
    apply bind_inv in E as (t' & w4 & _ & E). injection E as <- _. apply status_loop_bounds in E1. cbn. lia.
Qed.

(** C25: what a benchmark reports of a server that answers every request.
    The pings, each on a connection of its own, have no errors. The requests
    for the status share one connection: the test server answers them all, but
    a shim answers the first one and closes the connection, and every other
    request is reported as an error. The world is as it was. *)
Theorem bench_errors runDir pid count w p :
  let path := ShimSocketPath runDir pid in
  0 <= count -> nofault w -> listening w path p -> admits w p ->
  match p with PMock _ _ seq _ => seq = [] | PShim _ _ => True end ->
  (exists r, Bench.Ping monotonic runDir pid count w = (Ret r, w) /\ Bench.Errors r = 0) /\
  (exists r, Bench.Status monotonic runDir pid count w = (Ret r, w) /\
     Bench.Errors r = match p with PMock _ _ _ _ => 0 | PShim _ _ => Z.max 0 (count - 1) end).
Proof.
  intros path Hc Hnf Hl Ha Hp. split.
  - unfold Bench.Ping. erewrite bind_run by reflexivity.
    erewrite bind_run by (by eapply ping_loop_run). erewrite bind_run by reflexivity. by eexists.
  - unfold Bench.Status. erewrite bind_run by reflexivity.
    rewrite (bind_run _ _ _ _ _ (attempt_run _ _ _ _ (DialRunDir_run _ _ _ _ Hnf Hl Ha))). cbv beta iota.
    pose proof (ls_peer _ _ _ Hl) as Hpeer. destruct p as [secret ff sq idx|secret st].
    + subst sq. erewrite bind_run by (by eapply status_loop_mock). erewrite bind_run by reflexivity. by eexists.
    + erewrite bind_run by (by eapply status_loop_shim). erewrite bind_run by reflexivity.
      eexists. split; [done|]. cbn [Bench.Errors]. rewrite Z2Nat.id by done. lia.
Qed.
End runs.

(** ** Runs *)

(** A float64 of whole numbers, for the table of a run. *)
Definition whole_floats : Floats := {|
  float64 := Z; float_of_int z := z; float_div := Z.quot; format_8_1 z := pad_left 8 (Itoa z +:+ ".0");
|}.

Lemma bench_errors_witness :
  let w := shim_world (PShim "" ST_RUNNING) in
  (exists r, Bench.Ping (H:=idle_gpu) (H0:=whole_floats) w_now "/run" 7 100 w = (Ret r, w) /\ Bench.Errors r = 0) /\
  (exists r, Bench.Status (H:=idle_gpu) (H0:=whole_floats) w_now "/run" 7 100 w = (Ret r, w) /\
     Bench.Errors r = Z.max 0 (100 - 1)).
Proof.
  apply (bench_errors (H:=idle_gpu) (H0:=whole_floats) w_now "/run" 7 100 (shim_world (PShim "" ST_RUNNING))
    (PShim "" ST_RUNNING)); [lia|done|exact (shim_listening _)|done|done].
Defined.

Lemma bench_bounds_witness :
  let w := set_faults [None; Some (Fault EIO 0); Some (Fault EIO 0)] (shim_world (PShim "" ST_RUNNING)) in
  (forall r w', Bench.Ping (H:=idle_gpu) (H0:=whole_floats) w_now "/run" 7 3 w = (Ret r, w') ->
     0 <= Bench.Errors r <= Bench.Count r) /\
  (forall r w', Bench.Status (H:=idle_gpu) (H0:=whole_floats) w_now "/run" 7 3 w = (Ret r, w') ->
     0 <= Bench.Errors r <= Bench.Count r).
Proof. intros w. apply (bench_bounds (H:=idle_gpu) (H0:=whole_floats)). lia. Defined.

(** The table of a run against a shim. *)
Example bench_table :
  let w := shim_world (PShim "" ST_RUNNING) in
  (ping ← Bench.Ping (H:=idle_gpu) (H0:=whole_floats) w_now "/run" 7 100;
   st ← Bench.Status (H:=idle_gpu) (H0:=whole_floats) w_now "/run" 7 100;
   mret (Bench.FormatTable (H0:=whole_floats) [ping; st])) w =
  (Ret (line "+--------+-------+-----------+----------+--------+" +:+
        line "| op     | count | elapsed   | us/op    | errors |" +:+
        line "+--------+-------+-----------+----------+--------+" +:+
        line "| ping   |   100 |        0s |      0.0 |      0 |" +:+
        line "| status |   100 |        0s |      0.0 |     99 |" +:+
        line "+--------+-------+-----------+----------+--------+"), w).
Proof. vm_compute. reflexivity. Qed.
