(* ===== verification/Control.v ===== *)
(** pkg/control: the orchestrator. Its calls to shims (shimctl.go), checkpoint
    and restore (orchestrator.go), the events of a restore (restore_events.go),
    retries (queue.go), rollback (rollback.go) and watching (watch.go). *)
From S2P Require Export Verify Pipeline Retry RpcFacts Log.
Local Open Scope Z_scope.

(** ** third_party/criu: the interface the orchestrator uses *)

Class Backend := {
  criu_Dump : Z -> string -> M unit;
  criu_Restore : string -> string -> list string -> M Z;
}.

(** ** restore_events.go *)

Definition restoreEventsName : string := "restore.events.jsonl".

Section events.
Context `{EventFormat}.

Definition appendRestorePhaseEvent (dir phase : string) (pid : Z) (extra : gmap string any) : M unit :=
  now ← gets w_now;
  match json_Marshal (mkEvent (format_time now) phase dir pid extra) with
  | None => throw (EText "json: unsupported value")
  | Some b =>
      f ← open_create false (PathJoin [dir; restoreEventsName]);
      fwrite f (b ++ [Byte.x0a])
  end.

(** The fields of the log line: those of [extra] replace the others. *)
Definition logRestorePhase (dir phase : string) (pid : Z) (extra : gmap string any) : M unit :=
  let fields : gmap string any := <["phase" := AnyStr phase]> {["dir" := AnyStr dir]} in
  let fields := if decide (pid > 0) then <["pid" := AnyInt pid]> fields else fields in
  log_Info "restore_phase" (extra ∪ fields) ;;
  ignore (appendRestorePhaseEvent dir phase pid extra).

Definition recordRestorePID (dir : string) (pid : Z) : M unit :=
  writeRestoreHandoff dir pid ;;
  logRestorePhase dir "pidfile" pid ∅.
End events.

(** ** orchestrator.go and shimctl.go *)

Definition imageDir (base : string) (pid : Z) : string := PathJoin [base; "ckpt-" +:+ Itoa pid].

Module Orchestrator.
Section orchestrator.
Context `{Gpu} `{Zstd} `{Backend} `{EventFormat}.
(** The configuration of the orchestrator, and a bound on the depth of parent
    images. *)
Context (cfg : Config) (fuel : nat).

Definition dial (pid : Z) : M conn :=
  secret ← (if decide (RpcSecret cfg = "") then Getenv "CUDACKPT_RPC_SECRET" else mret (RpcSecret cfg));
  wrap_err Code.RPC "dial" (DialPathWithSecret (shimSocketPath (RunDir cfg) pid) secret).

Definition Ping (pid : Z) : M unit :=
  cli ← dial pid; wrap_err Code.RPC "ping" (Client.Ping cli) ;; mret tt.

Definition Status (pid : Z) : M Z :=
  cli ← dial pid; r ← wrap_err Code.RPC "status" (Client.Status cli); mret r.1.

Definition Stats (pid : Z) : M Stats :=
  cli ← dial pid; r ← wrap_err Code.RPC "stats" (Client.Stats cli); mret r.1.

Definition Freeze (pid : Z) : M unit :=
  cli ← dial pid; wrap_err Code.RPC "freeze" (Client.Freeze cli) ;; mret tt.

Definition Snapshot (pid : Z) (dir : string) : M unit :=
  cli ← dial pid;
  wrap_err Code.CUDA "snapshot" (Client.Snapshot cli dir) ;;
  verifyImage fuel dir ;;
  log_Info "snapshot_ok" (<["pid" := AnyInt pid]> {["dir" := AnyStr dir]}).

Definition GpuRestore (pid : Z) (dir : string) : M unit :=
  wrap_err Code.IO "materialize" (EnsureDeviceMaterialized fuel dir) ;;
  cli ← dial pid;
  wrap_err Code.CUDA "gpu restore" (Client.Restore cli dir) ;; mret tt.

Definition Resume (pid : Z) : M unit :=
  cli ← dial pid; wrap_err Code.RPC "resume" (Client.Resume cli) ;; mret tt.

Definition tryShimRestore (imagePath : string) (pid : Z) : M Z :=
  cli ← dial pid;
  cli ← Client.Ping cli;
  cli ← wrap_err Code.CUDA "gpu restore" (Client.Restore cli imagePath);
  logRestorePhase imagePath "gpu" pid ∅ ;;
  wrap_err Code.RPC "resume" (Client.Resume cli) ;;
  logRestorePhase imagePath "resume" pid ∅ ;;
  mret pid.

(** The function [doCheckpoint] hands to WriteStaging: its part from the dump of
    the process on, and the whole. *)
Definition checkpoint_dump (pid : Z) (staging : string) : M unit :=
  wrap_err Code.CRIU "dump" (criu_Dump pid staging) ;;
  dev ← attempt (ReadDev (PathJoin [staging; "dev.bin"]));
  preload ← Getenv "LD_PRELOAD";
  visible ← Getenv "CUDA_VISIBLE_DEVICES";
  let meta := mkMeta 0 0 0 (u32 pid) (match dev with inr d => d | inl _ => 0 end) preload visible in
  wrap_err Code.IO "meta" (WriteMeta (PathJoin [staging; "meta.bin"]) meta).

Definition checkpoint_body (pid : Z) (opts : ProcessOpts) (staging : string) : M unit :=
  Freeze pid ;;
  Snapshot pid staging ;;
  wrap_err Code.IO "process" (ProcessImage fuel staging opts) ;;
  checkpoint_dump pid staging.

Definition checkpoint_dir (pid : Z) (out : string) : string :=
  if decide (out = "") then imageDir (ImageRoot cfg) pid else out.

Definition doCheckpoint (pid : Z) (out : string) : M unit :=
  log_Info "checkpoint_start" (<["pid" := AnyInt pid]> {["dir" := AnyStr (checkpoint_dir pid out)]}) ;;
  opts ← OptsFromEnv;
  WriteStaging (checkpoint_dir pid out) (checkpoint_body pid opts).

(** The end of a checkpoint: its outcome is logged and counted. *)
Definition counted (pid : Z) (out : string) (m : M unit) : M unit :=
  r ← attempt m;
  match r with
  | inl e =>
      log_Error "checkpoint_fail" e {["pid" := AnyInt pid]} ;;
      Default_Inc CheckpointFailures ;;
      throw e
  | inr _ =>
      Default_Inc CheckpointsTotal ;;
      log_Info "checkpoint_ok" (<["pid" := AnyInt pid]> {["dir" := AnyStr out]})
  end.

Definition Checkpoint (pid : Z) (out : string) : M unit := counted pid out (doCheckpoint pid out).

(** queue.go: the error that stops the retries. *)
Definition unsupported (e : goerr) : bool :=
  match e with ECkpt Code.Unsupported _ => true | _ => false end.

Definition CheckpointWithRetry (pid : Z) (out : string) (policy : RetryPolicy) : M unit :=
  let policy := if decide (MaxAttempts policy <= 0) then retryPolicy cfg else policy in
  counted pid out
    (applyRetry policy
       (fun n =>
          log_Info "checkpoint_attempt" (<["pid" := AnyInt pid]> {["attempt" := AnyInt n]}) ;;
          doCheckpoint pid out)
       unsupported).

Definition EnqueueCheckpoint (pid : Z) (out : string) : M unit :=
  CheckpointWithRetry pid out (retryPolicy cfg).

(** *** Restore *)

(** The loop over the candidates: the first one that is ready and restores. *)
Fixpoint try_candidates (imagePath : string) (pids : list Z) : M (option Z) :=
  match pids with
  | [] => mret None
  | p :: pids =>
      ready ← shimSocketReady (RunDir cfg) p;
      if negb ready then try_candidates imagePath pids
      else
        r ← attempt (tryShimRestore imagePath p);
        match r with
        | inr got => mret (Some got)
        | inl _ => try_candidates imagePath pids
        end
  end.

(** One round of the loop of [Restore]. *)
Definition restore_round (imagePath : string) (pid attempt_ : Z) : M (option Z) :=
  let pause := Sleep (restorePollDelay attempt_ (RetryBackoff cfg)) ;; mret None in
  r ← attempt (sortedShims (RunDir cfg));
  match r with
  | inl _ => pause
  | inr pids =>
      target ← resolveRestorePID imagePath pid pids;
      ready ← (if decide (target > 0) then shimSocketReady (RunDir cfg) target else mret true);
      if negb ready then
        logRestorePhase imagePath "wait_shim" target {["attempt" := AnyInt attempt_]} ;; pause
      else
        got ← try_candidates imagePath (restoreCandidates target pids);
        match got with
        | Some got =>
            ignore (recordRestorePID imagePath got) ;;
            logRestorePhase imagePath "complete" got {["attempt" := AnyInt attempt_]} ;;
            Default_Inc RestoresTotal ;;
            mret (Some got)
        | None => pause
        end
  end.

(** The loop, for at most [n] rounds: the pid restored, or the number of
    attempts when the deadline has passed. *)
Fixpoint restore_loop (n : nat) (imagePath : string) (pid deadline attempt_ : Z) : M (Z + Z) :=
  now ← gets w_now;
  if decide (now < deadline) then
    match n with
    | O => diverge
    | S n =>
        r ← restore_round imagePath pid (attempt_ + 1);
        match r with
        | Some got => mret (inl got)
        | None => restore_loop n imagePath pid deadline (attempt_ + 1)
        end
    end
  else mret (inr attempt_).

(** The environment the image was taken in, for CRIU. *)
Definition restore_env (imagePath : string) : M (list string) :=
  r ← attempt (ReadMeta (PathJoin [imagePath; "meta.bin"]));
  mret match r with
       | inl _ => []
       | inr m =>
           (if decide (m_Preload m = "") then [] else ["LD_PRELOAD=" +:+ m_Preload m]) ++
           (if decide (m_Visible m = "") then [] else ["CUDA_VISIBLE_DEVICES=" +:+ m_Visible m])
       end.

(** [metrics.Default.Inc(RestoreFailuresTotal); return 0, err]. *)
Definition restore_fails {A} (e : goerr) : M A := Default_Inc RestoreFailuresTotal ;; throw e.

(** [if err := m; err != nil { jlog.Error(event, err, dir); ... return f(err) }]. *)
Definition or_fail {A} (event dir : string) (m : M A) (f : goerr -> goerr) : M A :=
  r ← attempt m;
  match r with
  | inl e => log_Error event e {["dir" := AnyStr dir]} ;; restore_fails (f e)
  | inr a => mret a
  end.

(** The pid of the restored process: what CRIU returns, or what the pid file
    says, or zero. *)
Definition restored_pid (imagePath : string) (pid : Z) : M Z :=
  pid ← (if decide (pid > 0) then ignore (recordRestorePID imagePath pid) ;; mret pid
         else
           filePID ← readRestoredPID imagePath;
           if decide (filePID > 0) then
             logRestorePhase imagePath "criu" filePID {["source" := AnyStr "pidfile"]} ;; mret filePID
           else logRestorePhase imagePath "criu" 0 {["source" := AnyStr "unknown"]} ;; mret pid);
  (if decide (pid > 0) then logRestorePhase imagePath "criu" pid ∅ else mret tt) ;;
  mret pid.

Definition Restore (rounds : nat) (imagePath : string) : M Z :=
  logRestorePhase imagePath "start" 0 ∅ ;;
  or_fail "restore_preflight" imagePath (PreflightRestore imagePath) id ;;
  logRestorePhase imagePath "preflight" 0 ∅ ;;
  or_fail "restore_materialize" imagePath (EnsureDeviceMaterialized fuel imagePath)
    (fun e => Ckpterr.Wrap Code.IO "materialize" (Some e)) ;;
  logRestorePhase imagePath "materialize" 0 ∅ ;;
  let logPath := PathJoin [imagePath; "restore.log"] in
  env ← restore_env imagePath;
  pid ← or_fail "restore_criu" imagePath (criu_Restore imagePath logPath env)
    (fun e => Ckpterr.Wrap Code.CRIU "restore" (Some e));
  pid ← restored_pid imagePath pid;
  now ← gets w_now;
  r ← restore_loop rounds imagePath pid (now + RestoreTimeout cfg) 0;
  match r with
  | inl got => mret got
  | inr attempts =>
      let err := Ckpterr.E Code.RPC "shim not ready after criu restore" in
      log_Error "restore_fail" err {["dir" := AnyStr imagePath]} ;;
      logRestorePhase imagePath "failed" pid {["attempt" := AnyInt attempts]} ;;
      restore_fails err
  end.

(** *** rollback.go *)

(** What the kernel does with the signals of [stopProcess]: SIGTERM, whether a
    process can still be signalled, and SIGKILL. *)
Class Processes := {
  signal_term : Z -> world -> world;
  kill_0 : Z -> world -> bool;
  signal_kill : Z -> world -> option goerr * world;
}.

Context `{Processes}.

(** The loop that waits for the process, for at most [n] rounds. *)
Fixpoint wait_gone (n : nat) (pid deadline : Z) : M bool :=
  now ← gets w_now;
  if decide (now < deadline) then
    match n with
    | O => diverge
    | S n =>
        alive ← gets (kill_0 pid);
        if negb alive then mret true else Sleep 100000000 ;; wait_gone n pid deadline
    end
  else mret false.

Definition stopProcess (pid : Z) : M unit :=
  if decide (pid <= 0) then mret tt
  else
    (fun w => (Ret tt, signal_term pid w)) ;;
    now ← gets w_now;
    gone ← wait_gone 31 pid (now + 3000000000);
    if (gone : bool) then mret tt
    else
      r ← (fun w => let '(e, w) := signal_kill pid w in (Ret e, w));
      match r with
      | Some e => throw (Ckpterr.Wrap Code.Invalid "kill process" (Some e))
      | None => mret tt
      end.

(** [if err := m; err != nil { jlog.Error(event, err, fields); return 0, err }]. *)
Definition or_log {A} (event : string) (fields : gmap string any) (m : M A) : M A :=
  r ← attempt m;
  match r with
  | inl e => log_Error event e fields ;; throw e
  | inr a => mret a
  end.

Definition Rollback (rounds : nat) (imagePath : string) (stopPID : Z) : M Z :=
  let dir : gmap string any := {["dir" := AnyStr imagePath]} in
  log_Info "rollback_start" (<["stop_pid" := AnyInt stopPID]> dir) ;;
  (if decide (stopPID > 0)
   then or_log "rollback_stop" {["pid" := AnyInt stopPID]} (stopProcess stopPID) else mret tt) ;;
  or_log "rollback_validate" dir (ValidateImage fuel imagePath) ;;
  pid ← or_log "rollback_restore" dir (Restore rounds imagePath);
  Default_Inc RollbacksTotal ;;
  log_Info "rollback_ok" (<["pid" := AnyInt pid]> dir) ;;
  mret pid.

(** *** watch.go *)

Record WatchOptions := mkWatchOptions { UntilRunning : bool; Timeout : Z }.

(** The loop, for at most [n] rounds. [stop] is whether the stop channel is
    closed. *)
Fixpoint watch_loop (n : nat) (pid interval : Z) (opts : WatchOptions) (deadline : option Z)
    (stop : world -> bool) (last : Z) : M unit :=
  match n with
  | O => diverge
  | S n =>
      stopped ← gets stop;
      if (stopped : bool) then mret tt
      else
        now ← gets w_now;
        if match deadline with Some d => bool_decide (now > d) | None => false end
        then throw (Ckpterr.E Code.RPC "watch timeout")
        else
          st ← wrap_err Code.RPC "watch" (Status pid);
          now ← gets w_now;
          (if decide (st <> last)
           then Print (StateName st +:+ " ts=" +:+ format_seconds now +:+ String newline "") else mret tt) ;;
          if UntilRunning opts && bool_decide (st = 4 \/ st = 3) then mret tt
          else Sleep interval ;; watch_loop n pid interval opts deadline stop st
  end.

Definition WatchShimWith (rounds : nat) (pid interval : Z) (opts : WatchOptions) (stop : world -> bool) : M unit :=
  let interval := if decide (interval <= 0) then 500000000 else interval in
  now ← gets w_now;
  let deadline := if decide (Timeout opts > 0) then Some (now + Timeout opts) else None in
  watch_loop rounds pid interval opts deadline stop 999.

Definition WatchShim (rounds : nat) (pid interval : Z) (stop : world -> bool) : M unit :=
  WatchShimWith rounds pid interval (mkWatchOptions false 0) stop.
End orchestrator.
End Orchestrator.
