(* ===== verification/Exec.v ===== *)
(** Package os/exec: the programs the repository starts. *)
From S2P Require Export OSFacts.
Local Open Scope Z_scope.

(** What a program does: its combined output, whether it failed, and the world
    it leaves. [cmd_Run] runs it with the output of the caller; [LookPath]
    searches it on the PATH. *)
Class Exec := {
  cmd_Run : string -> list string -> world -> option goerr * world;
  cmd_CombinedOutput : string -> list string -> world -> (bytes * option goerr) * world;
  LookPath : string -> world -> option goerr;
}.

Definition CombinedOutput `{Exec} (name : string) (args : list string) : M (bytes * option goerr) := fun w =>
  let '(r, w) := cmd_CombinedOutput name args w in (Ret r, w).
Definition Run_ `{Exec} (name : string) (args : list string) : M (option goerr) := fun w =>
  let '(e, w) := cmd_Run name args w in (Ret e, w).
