(* ===== verification/Criu.v ===== *)
(** third_party/criu: the backends of the orchestrator, CRIU itself
    (wrapper.go) and the one of the tests (fake.go). *)
From S2P Require Export Control Exec.
Local Open Scope Z_scope.

(** ** The pid in the log of CRIU

    [pidRe] is [(?i)(?:Restored|restored).*pid[:\s]+(\d+)]. *)

(** Case folding of a lower-case letter; the long s folds to s. *)
Definition fold_case (b : byte) : list bytes :=
  [[b]; [byte_of_Z (Z_of_byte b - 32)]] ++ (if decide (b = Byte.x73) then [[Byte.xc5; Byte.xbf]] else []).

Definition re_restored : list (list bytes) := fold_case <$> bytes_of_string "restored".
Definition re_pid : list (list bytes) := fold_case <$> bytes_of_string "pid".

(** What follows a literal. *)
Fixpoint strip_seq (ps : list (list bytes)) (l : bytes) : option bytes :=
  match ps with
  | [] => Some l
  | p :: ps => match strip_one p l with Some l => strip_seq ps l | None => None end
  end.

(** The longest prefix of bytes with [f], and the rest. *)
Fixpoint span (f : byte -> bool) (l : bytes) : bytes * bytes :=
  match l with
  | [] => ([], [])
  | b :: t => if f b then let '(a, r) := span f t in (b :: a, r) else ([], l)
  end.

(** The class [[:\s]]. *)
Definition is_sep (b : byte) : bool :=
  bool_decide (b ∈ [Byte.x3a; Byte.x09; Byte.x0a; Byte.x0c; Byte.x0d; Byte.x20]).
Definition is_digit (b : byte) : bool := bool_decide (48 <= Z_of_byte b <= 57).

(** The digits, where [l] starts with [pid[:\s]+\d+]. *)
Definition pid_here (l : bytes) : option bytes :=
  match strip_seq re_pid l with
  | None => None
  | Some l =>
      let '(s, l) := span is_sep l in
      if decide (s = []) then None
      else
        let '(d, _) := span is_digit l in
        if decide (d = []) then None else Some d
  end.

(** [.*] is greedy and does not match a newline. *)
Fixpoint last_pid (l : bytes) : option bytes :=
  match l with
  | [] => pid_here []
  | b :: t =>
      match (if decide (b = Byte.x0a) then None else last_pid t) with
      | Some d => Some d
      | None => pid_here l
      end
  end.

(** The match that starts with [l]. *)
Definition match_here (l : bytes) : option bytes :=
  match strip_seq re_restored l with Some r => last_pid r | None => None end.

(** FindSubmatch: the leftmost match. *)
Fixpoint find_pid (l : bytes) : option bytes :=
  match match_here l with
  | Some d => Some d
  | None => match l with [] => None | _ :: t => find_pid t end
  end.

(** ** wrapper.go *)

Module Wrapper.
Record Wrapper := mkWrapper { Bin : string }.

Definition New : M Wrapper :=
  p ← Getenv "CRIU_BIN"; mret (mkWrapper (if decide (p <> "") then p else "criu")).

Fixpoint ext_mounts (candidates : list string) : M (list string) :=
  match candidates with
  | [] => mret []
  | d :: ds =>
      r ← attempt (Stat d);
      args ← ext_mounts ds;
      mret match r with inr _ => "--ext-mount" :: (d +:+ ":" +:+ d) :: args | inl _ => args end
  end.

Definition nvidiaExtMounts : M (list string) :=
  ext_mounts ["/dev/nvidiactl"; "/dev/nvidia-uvm"; "/dev/nvidia-uvm-tools";
              "/dev/nvidia0"; "/dev/nvidia1"; "/dev/nvidia2"; "/dev/nvidia3"].

Section wrapper.
Context `{Exec} (wr : Wrapper).

Definition Dump (pid : Z) (dir : string) : M unit :=
  MkdirAll dir ;;
  let img := PathJoin [dir; "criu"] in
  mounts ← nvidiaExtMounts;
  let args := ["dump"; "-t"; Itoa pid; "-D"; img;
               "--shell-job"; "--tcp-established"; "--file-locks"; "--link-remap"] ++ mounts in
  err ← Run_ (Bin wr) args;
  match err with Some e => throw e | None => mret tt end.

(** The arguments for the environment of the process. *)
Definition env_args (env : list string) : list string :=
  flat_map (fun e => if decide (e = "") then [] else ["--env"; e]) env.

(** The pid in the output: 0 when there is none. A number that does not fit is
    the greatest one. *)
Definition pid_of_output (out : bytes) : Z :=
  match find_pid out with
  | None => 0
  | Some d => match Atoi (string_of_bytes d) with Some pid => pid | None => 2 ^ 63 - 1 end
  end.

Definition Restore (dir logFile : string) (env : list string) : M Z :=
  let img := PathJoin [dir; "criu"] in
  let pidFile := PathJoin [dir; "restored.pid"] in
  mounts ← nvidiaExtMounts;
  let args := ["restore"; "-D"; img; "--shell-job"; "--pidfile"; pidFile;
               "--env"; "CUDACKPT_NEED_GPU=1"; "--link-remap"] ++ mounts ++ env_args env in
  '(out, err) ← (if decide (logFile <> "") then
      r ← CombinedOutput (Bin wr) args;
      ignore (WriteFile logFile r.1) ;;
      mret r
    else
      e ← Run_ (Bin wr) args;
      mret ([], e));
  match err with
  | Some e => throw e
  | None =>
      r ← attempt (ReadFile pidFile);
      let file_pid := match r with
                      | inr b => match Atoi (TrimSpace (string_of_bytes b)) with Some pid => pid | None => 0 end
                      | inl _ => 0
                      end in
      if decide (file_pid > 0) then mret file_pid
      else
        out ← (if decide (out = [] /\ logFile <> "") then
                 r ← attempt (ReadFile logFile); mret (match r with inr b => b | inl _ => [] end)
               else mret out);
        let pid := pid_of_output out in
        mret (if decide (pid > 0) then pid else 0)
  end.

Definition backend : Backend := {| criu_Dump := Dump; criu_Restore := Restore |}.
End wrapper.
End Wrapper.

(** ** fake.go *)

Module Fake.
Record Fake := mkFake { RestorePID : Z; DumpErr : option goerr; RestoreErr : option goerr }.

Section fake.
Context (f : Fake).

Definition Dump (pid : Z) (dir : string) : M unit :=
  match DumpErr f with
  | Some e => throw e
  | None => MkdirAll (PathJoin [dir; "criu"])
  end.

Definition Restore (dir logFile : string) (env : list string) : M Z :=
  match RestoreErr f with
  | Some e => throw e
  | None =>
      let pid := if decide (RestorePID f <= 0) then 4242 else RestorePID f in
      let body := bytes_of_string (Itoa pid +:+ String newline "") in
      ignore (WriteFile (PathJoin [dir; "restored.pid"]) body) ;;
      (if decide (logFile <> "") then
         ignore (WriteFile logFile
           (bytes_of_string ("fake criu restore pid=" +:+ Itoa pid +:+ String newline "")))
       else mret tt) ;;
      mret pid
  end.

Definition backend : Backend := {| criu_Dump := Dump; criu_Restore := Restore |}.
End fake.
End Fake.

Example find_pid_ex :
  find_pid (bytes_of_string ("x restored? Restored, Pid: 12 pid  34x" +:+ String newline "pid 5")) =
  Some (bytes_of_string "34").
Proof. vm_compute. reflexivity. Qed.

Example find_pid_lines : find_pid (bytes_of_string ("Restored" +:+ String newline "pid 5")) = None.
Proof. vm_compute. reflexivity. Qed.

Example find_pid_break : find_pid (bytes_of_string ("reStoReD pid" +:+ String newline ": 5")) = Some (bytes_of_string "5").
Proof. vm_compute. reflexivity. Qed.

(** ** What the expression matches *)

(** A text of the literal: one of the foldings of each of its letters. *)
Definition folded (re : list (list bytes)) (m : bytes) : Prop :=
  exists pieces, Forall2 (fun p alts => p ∈ alts) pieces re /\ m = concat pieces.

Definition head_not (f : byte -> bool) (l : bytes) : Prop := forall b, head l = Some b -> f b = false.

(** [pid[:\s]+(\d+)] with as many digits as there are. *)
Definition here_match (l d : bytes) : Prop := exists p s rest,
  l = p ++ s ++ d ++ rest /\ folded re_pid p /\
  s <> [] /\ Forall (fun b => is_sep b = true) s /\
  d <> [] /\ Forall (fun b => is_digit b = true) d /\ head_not is_digit rest.

(** [.*pid[:\s]+(\d+)], where [.*] matches [b]. *)
Definition line_match (l b d : bytes) : Prop :=
  exists l', l = b ++ l' /\ Byte.x0a ∉ b /\ here_match l' d.

(** The expression, where it starts after [a]. *)
Definition pid_match (l a b d : bytes) : Prop :=
  exists r l', l = a ++ r ++ l' /\ folded re_restored r /\ line_match l' b d.

(** *** Literals *)

Definition prefix_free (alts : list bytes) : Prop := Forall (fun p => p <> []) alts /\ NoDup (head <$> alts).

#[global] Instance prefix_free_dec alts : Decision (prefix_free alts).
Proof. unfold prefix_free. apply _. Defined.

Lemma strip_one_Some alts l r : strip_one alts l = Some r -> exists p, p ∈ alts /\ l = p ++ r.
Proof.
  induction alts as [|p alts IH]; cbn; [done|]. case_decide as Hp.
  - intros [= <-]. destruct Hp as [k ->]. exists p. by rewrite drop_app_length, elem_of_cons; auto.
  - intros (q & Hq & ->)%IH. exists q. rewrite elem_of_cons. auto.
Qed.

Lemma strip_one_app alts p r : prefix_free alts -> p ∈ alts -> strip_one alts (p ++ r) = Some r.
Proof.
  intros [Hne Hnd] Hp. induction alts as [|q alts IH]; [by apply elem_of_nil in Hp|]. cbn [strip_one].
  apply Forall_cons in Hne as [Hq Hne]. rewrite fmap_cons in Hnd. apply NoDup_cons in Hnd as [Hh Hnd].
  case_decide as Hpre.
  - assert (q = p) as ->; [|by rewrite drop_app_length].
    apply elem_of_cons in Hp as [->|Hp]; [done|]. exfalso. apply Hh. apply list_elem_of_fmap. exists p. split; [|done].
    destruct q as [|b q]; [done|]. pose proof (proj1 (Forall_forall _ _) Hne p Hp).
    destruct p as [|c p]; [done|]. destruct Hpre as [k E]. by injection E as ->.
  - apply elem_of_cons in Hp as [->|Hp]; [|by apply IH]. exfalso. apply Hpre. by eexists.
Qed.

Lemma strip_seq_Some re l r : strip_seq re l = Some r -> exists m, l = m ++ r /\ folded re m.
Proof.
  revert l. induction re as [|alts re IH]; intros l; cbn [strip_seq].
  - intros [= ->]. exists []. split; [done|]. exists []. by split.
  - destruct (strip_one alts l) as [l1|] eqn:E; [|done]. apply strip_one_Some in E as (p & Hp & ->).
    intros (m & -> & ps & Hps & ->)%IH. exists (p ++ concat ps). split; [by rewrite app_assoc|].
    exists (p :: ps). split; [by constructor|done].
Qed.

Lemma strip_seq_app re m r : Forall prefix_free re -> folded re m -> strip_seq re (m ++ r) = Some r.
Proof.
  intros Hre (ps & Hps & ->). induction Hps as [|p alts ps re Hp Hps IH]; [done|]. cbn [strip_seq concat].
  apply Forall_cons in Hre as [Ha Hre]. rewrite <- app_assoc, strip_one_app by done. by apply IH.
Qed.

Lemma restored_free : Forall prefix_free re_restored.
Proof. by apply (bool_decide_unpack _). Qed.
Lemma pid_free : Forall prefix_free re_pid.
Proof. by apply (bool_decide_unpack _). Qed.

(** *** Runs of bytes *)

Lemma span_Some f l a r :
  span f l = (a, r) <-> l = a ++ r /\ Forall (fun b => f b = true) a /\ head_not f r.
Proof.
  revert a r. induction l as [|b l IH]; intros a r; cbn [span].
  - split; [by intros [= <- <-]|]. intros (E & _ & _). symmetry in E. by apply app_eq_nil in E as [-> ->].
  - destruct (f b) eqn:Hb.
    + destruct (span f l) as [a1 r1] eqn:E. destruct (proj1 (IH a1 r1) eq_refl) as (El & Ha & Hr). split.
      * intros [= <- <-]. split; [by rewrite El|]. split; [by constructor|done].
      * intros (E2 & Ha2 & Hr2). destruct a as [|c a]; cbn in E2.
        { subst r. specialize (Hr2 b eq_refl). congruence. }
        injection E2 as -> E2. apply Forall_cons in Ha2 as [_ Ha2].
        assert (E3 : (a1, r1) = (a, r)) by (apply IH; by split_and!).
        by injection E3 as -> ->.
    + split.
      * intros [= <- <-]. split_and!; [done..|]. by intros c [= <-].
      * intros (E2 & Ha2 & Hr2). destruct a as [|c a]; cbn in E2; [by subst|].
        injection E2 as <- _. apply Forall_cons in Ha2 as [Ha2 _]. congruence.
Qed.

Lemma digit_not_sep b : is_digit b = true -> is_sep b = false.
Proof. by destruct b. Qed.

Lemma head_not_app f a b : a <> [] -> Forall (fun b => f b = false) a -> head_not f (a ++ b).
Proof. intros Hne Ha. destruct a as [|c a]; [done|]. apply Forall_cons in Ha as [Hc _]. by intros d [= <-]. Qed.

Lemma pid_here_spec l d : pid_here l = Some d <-> here_match l d.
Proof.
  unfold pid_here. split.
  - destruct (strip_seq re_pid l) as [l1|] eqn:E; [|done]. apply strip_seq_Some in E as (p & -> & Hp).
    destruct (span is_sep l1) as [s l2] eqn:Es. apply span_Some in Es as (-> & Hs & _). case_decide; [done|].
    destruct (span is_digit l2) as [d1 rest] eqn:Ed. apply span_Some in Ed as (-> & Hd & Hr). case_decide; [done|].
    intros [= <-]. exists p, s, rest. by split_and!.
  - intros (p & s & rest & -> & Hp & Hs & Hss & Hd & Hdd & Hr). rewrite strip_seq_app by (apply pid_free || done).
    assert (span is_sep (s ++ d ++ rest) = (s, d ++ rest)) as ->.
    { apply span_Some. split_and!; [done..|]. apply head_not_app; [done|].
      eapply Forall_impl; [exact Hdd|]. intros b. apply digit_not_sep. }
    rewrite decide_False by done.
    assert (span is_digit (d ++ rest) = (d, rest)) as -> by (by apply span_Some). by rewrite decide_False.
Qed.

(** *** The longest and the leftmost match *)

Lemma last_pid_spec l :
  match last_pid l with
  | Some d => exists b, line_match l b d /\ forall b' d', line_match l b' d' -> (length b' <= length b)%nat
  | None => forall b d, ~ line_match l b d
  end.
Proof.
  assert (Hhere : forall l, (forall b d, line_match l b d -> b = []) ->
    match pid_here l with
    | Some d => exists b, line_match l b d /\ forall b' d', line_match l b' d' -> (length b' <= length b)%nat
    | None => forall b d, ~ line_match l b d
    end).
  { intros k Hk. destruct (pid_here k) as [d|] eqn:E.
    - apply pid_here_spec in E. exists []. split; [exists k; split_and!; [done|by apply not_elem_of_nil|done]|].
      intros b' d' ->%Hk. done.
    - intros b d Hm. pose proof (Hk _ _ Hm) as ->. destruct Hm as (l' & -> & _ & Hm%pid_here_spec).
      cbn in E. congruence. }
  induction l as [|c l IH]; cbn [last_pid].
  - apply Hhere. intros b d (l' & E & _). symmetry in E. by apply app_eq_nil in E as [-> _].
  - case_decide as Hc.
    + apply Hhere. intros b d (l' & E & Hb & _). destruct b as [|c' b]; [done|].
      injection E as -> _. exfalso. apply Hb. rewrite Hc. by constructor.
    + destruct (last_pid l) as [d|] eqn:E.
      * destruct IH as (b & (l' & -> & Hb & Hm) & Hmax). exists (c :: b). split.
        { exists l'. split_and!; [done| |done]. apply not_elem_of_cons. by split. }
        intros b' d' (k & Ek & Hb' & Hk). destruct b' as [|c' b']; cbn; [lia|]. injection Ek as -> Ek.
        apply le_n_S, (Hmax b' d'). exists k. split_and!; [done| |done]. by apply not_elem_of_cons in Hb' as [_ Hb'].
      * apply Hhere. intros b d (k & Ek & Hb & Hk). destruct b as [|c' b]; [done|]. injection Ek as -> Ek.
        exfalso. apply (IH b d). exists k. split_and!; [done| |done]. by apply not_elem_of_cons in Hb as [_ Hb].
Qed.

(** The same text starts with one folding of the word only. *)
Lemma restored_same r r' l l' : folded re_restored r -> folded re_restored r' -> r ++ l = r' ++ l' -> l = l'.
Proof.
  intros Hr Hr' E. pose proof (strip_seq_app _ _ l restored_free Hr) as H1.
  pose proof (strip_seq_app _ _ l' restored_free Hr') as H2. rewrite E in H1. congruence.
Qed.

Lemma match_here_spec l :
  match match_here l with
  | Some d => exists b, pid_match l [] b d /\ forall b' d', pid_match l [] b' d' -> (length b' <= length b)%nat
  | None => forall b d, ~ pid_match l [] b d
  end.
Proof.
  unfold match_here. destruct (strip_seq re_restored l) as [l1|] eqn:E.
  - apply strip_seq_Some in E as (r & -> & Hr). pose proof (last_pid_spec l1) as Hl.
    assert (Hs : forall b d, pid_match (r ++ l1) [] b d <-> line_match l1 b d).
    { intros b d. split.
      - intros (r' & l' & El & Hr' & Hm). cbn in El. by rewrite (restored_same _ _ _ _ Hr Hr' El).
      - intros Hm. by exists r, l1. }
    destruct (last_pid l1) as [d|].
    + destruct Hl as (b & Hb & Hmax). exists b. rewrite Hs. split; [done|]. intros b' d' Hb'%Hs. by eapply Hmax.
    + intros b d Hb%Hs. by eapply Hl.
  - intros b d (r & l' & -> & Hr & _). cbn in E. by rewrite strip_seq_app in E by (apply restored_free || done).
Qed.

(** A match that does not start with the text is one of what follows the first
    byte. *)
Lemma pid_match_cons c l c' a b d : pid_match (c :: l) (c' :: a) b d <-> c' = c /\ pid_match l a b d.
Proof.
  split; [intros (r & k & [= -> E] & H); split; [done|by exists r, k]|].
  intros [-> (r & k & -> & H)]. by exists r, k.
Qed.

(** C24: the program finds the pid in the log of CRIU that the regular
    expression [(?i)(?:Restored|restored).*pid[:\s]+(\d+)] finds. When there is a
    match, it is the leftmost one, and among those with the same start the one
    with the longest run before the pid; there is no match when none is found. *)
Theorem find_pid_exact l :
  match find_pid l with
  | Some d => exists a b, pid_match l a b d /\
      forall a' b' d', pid_match l a' b' d' ->
        (length a <= length a')%nat /\ (length a' = length a -> (length b' <= length b)%nat)
  | None => forall a b d, ~ pid_match l a b d
  end.
Proof.
  induction l as [|c l IH]; cbn [find_pid].
  all: match goal with |- context [match_here ?k] => pose proof (match_here_spec k) as Hnow end;
    destruct (match_here _) as [d|];
    [destruct Hnow as (b & Hb & Hmax); exists [], b; split; [done|]; intros a' b' d' Hm; split; [cbn; lia|];
     intros Ha; apply nil_length_inv in Ha as ->; by eapply Hmax|].
  { intros [|c1 a] b e Hm; [by eapply Hnow|]. by destruct Hm as (? & ? & ? & _). }
  destruct (find_pid l) as [d|].
  - destruct IH as (a & b & Hm & Hmin). exists (c :: a), b. split; [by apply pid_match_cons|].
    intros [|c' a'] b' d' Hm'; [by apply Hnow in Hm'|]. apply pid_match_cons in Hm' as [_ Hm'].
    destruct (Hmin a' b' d' Hm') as [H1 H2]. cbn. split; [lia|]. intros [= Hl]. by apply H2.
  - intros [|c1 a] b e Hm; [by eapply Hnow|]. apply pid_match_cons in Hm as [_ Hm]. by eapply IH.
Qed.
