(* ===== verification/Preserve.v ===== *)
(** Invariants of the world that the operations of the program keep: whatever
    holds of a world however its files, its faults and its clock change. *)
From S2P Require Export Criu.
Local Open Scope Z_scope.

Create HintDb keep.

(** Run in a world where [I] holds, the computation ends in one. *)
Definition keeps (I : world -> Prop) {A} (m : M A) : Prop := forall w, I w -> I (m w).2.

(** What an operation of the program may do to any world. *)
Class Stable (I : world -> Prop) : Prop := {
  stable_fs : forall fs w, I w -> I (set_fs fs w);
  stable_faults : forall l w, I w -> I (set_faults l w);
}.

(** What a pause may do to it. *)
Class Ages (I : world -> Prop) : Prop := ages : forall d w, 0 <= d -> I w -> I (set_now (w_now w + d) w).

Section keeps.
Context (I : world -> Prop).

Lemma keeps_ret {A} (a : A) : keeps I (mret a).
Proof. by intros w. Qed.
Lemma keeps_throw {A} e : keeps I (throw (A:=A) e).
Proof. by intros w. Qed.
Lemma keeps_panic {A} : keeps I (panic (A:=A)).
Proof. by intros w. Qed.
Lemma keeps_diverge {A} : keeps I (diverge (A:=A)).
Proof. by intros w. Qed.
Lemma keeps_gets {A} (f : world -> A) : keeps I (gets f).
Proof. by intros w. Qed.
Lemma keeps_Getenv k : keeps I (Getenv k).
Proof. by intros w. Qed.
Lemma keeps_lift {A} (r : goerr + A) : keeps I (lift r).
Proof. by destruct r; intros w. Qed.

Lemma keeps_bind {A B} (m : M A) (f : A -> M B) :
  keeps I m -> (forall a, keeps I (f a)) -> keeps I (m ≫= f).
Proof.
  intros Hm Hf w Hw. specialize (Hm w Hw). unfold mbind, M_bind.
  destruct (m w) as [[a|e| |] w1]; cbn in *; [by apply Hf|done..].
Qed.

Lemma keeps_attempt {A} (m : M A) : keeps I m -> keeps I (attempt m).
Proof. intros Hm w Hw. specialize (Hm w Hw). unfold attempt. by destruct (m w) as [[]]. Qed.

Lemma keeps_ignore {A} (m : M A) : keeps I m -> keeps I (ignore m).
Proof. intros. apply keeps_bind; [by apply keeps_attempt|intros; apply keeps_ret]. Qed.

Lemma keeps_wrap {A} c s (m : M A) : keeps I m -> keeps I (wrap_err c s m).
Proof.
  intros. apply keeps_bind; [by apply keeps_attempt|].
  intros [e|a]; [apply keeps_throw|apply keeps_ret].
Qed.

Lemma keeps_forM {A} (l : list A) f : (forall a, keeps I (f a)) -> keeps I (forM_ l f).
Proof. intros Hf. induction l as [|a l IH]; cbn; [apply keeps_ret|by apply keeps_bind]. Qed.

Context `{!Stable I}.

Lemma keeps_syscall {A} fail (m : M A) :
  (forall f, keeps I (fail f)) -> keeps I m -> keeps I (syscall fail m).
Proof.
  intros Hf Hm w Hw. unfold syscall.
  destruct (w_faults w) as [|[f|] l]; [by apply Hm|by apply Hf, stable_faults|by apply Hm, stable_faults].
Qed.

(** The world of a system call is the one before it but for its files. *)
Lemma keeps_state {A} (f : world -> outcome A * world) :
  (forall w, exists fs, (f w).2 = set_fs fs w) -> keeps I (f : M A).
Proof. intros Hf w Hw. destruct (Hf w) as [fs ->]. by apply stable_fs. Qed.
End keeps.

#[export] Hint Resolve keeps_ret keeps_throw keeps_panic keeps_diverge keeps_gets keeps_Getenv keeps_lift
  keeps_attempt keeps_ignore keeps_wrap keeps_forM keeps_bind keeps_syscall : keep.

(** The cases of a program: every scrutinee, every bind. *)
Ltac keep :=
  repeat first
    [ match goal with |- forall _, _ => intro end
    | assumption
    | solve [eauto 2 with keep nocore]
    | match goal with
      | |- keeps _ (mbind _ _) => apply keeps_bind
      | |- keeps _ (attempt _) => apply keeps_attempt
      | |- keeps _ (ignore _) => apply keeps_ignore
      | |- keeps _ (wrap_err _ _ _) => apply keeps_wrap
      | |- keeps _ (forM_ _ _) => apply keeps_forM
      | |- keeps _ (match ?x with _ => _ end) => destruct x
      end ].

(** A body that changes the file system only. *)
Ltac only_fs :=
  intros ?w; cbn [fst snd]; unfold throw, mret, M_ret; repeat case_match;
  first [ by eexists; reflexivity | by exists (w_fs w); destruct w | idtac ].

Section calls.
Context (I : world -> Prop) `{!Stable I}.

Ltac fs_call := apply keeps_syscall; [done|intros; apply keeps_state; [done|only_fs]|apply keeps_state; [done|only_fs]].

Lemma keeps_Stat s : keeps I (Stat s).
Proof. fs_call. Qed.
Lemma keeps_Open s : keeps I (Open s).
Proof. fs_call. Qed.
Lemma keeps_open_create t s : keeps I (open_create t s).
Proof. fs_call. Qed.
Lemma keeps_fwrite f d : keeps I (fwrite f d).
Proof. fs_call. Qed.
Lemma keeps_fread f : keeps I (fread f).
Proof. fs_call. Qed.
Lemma keeps_ReadAt f n o : keeps I (ReadAt f n o).
Proof. unfold ReadAt. do 2 (case_decide; [auto with keep|]). fs_call. Qed.
Lemma keeps_ReadFile s : keeps I (ReadFile s).
Proof. apply keeps_bind; [apply keeps_Open|intros; apply keeps_fread]. Qed.
Lemma keeps_WriteFile s d : keeps I (WriteFile s d).
Proof. apply keeps_bind; [apply keeps_open_create|intros; apply keeps_fwrite]. Qed.
Lemma keeps_MkdirAll s : keeps I (MkdirAll s).
Proof. fs_call. Qed.
Lemma keeps_RemoveAll s : keeps I (RemoveAll s).
Proof. unfold RemoveAll. case_decide; [auto with keep|]. destruct (ends_with_dot s); [auto with keep|]. fs_call. Qed.
Lemma keeps_Rename a b : keeps I (Rename a b).
Proof. unfold Rename, Rename_body. fs_call. Qed.
Lemma keeps_Remove s : keeps I (Remove s).
Proof. fs_call. Qed.
Lemma keeps_ReadDir s : keeps I (ReadDir s).
Proof. fs_call. Qed.
Lemma keeps_Sleep `{!Ages I} d : keeps I (Sleep d).
Proof using Type. intros w Hw. apply ages; [lia|done]. Qed.
End calls.

#[export] Hint Resolve keeps_Stat keeps_Open keeps_open_create keeps_fwrite keeps_fread keeps_ReadAt
  keeps_ReadFile keeps_WriteFile keeps_MkdirAll keeps_RemoveAll keeps_Rename keeps_Remove keeps_ReadDir
  keeps_Sleep : keep.

#[export] Hint Extern 0 (Stable _) => apply _ : keep.
#[export] Hint Extern 0 (Ages _) => apply _ : keep.

(** ** Images *)

Section images.
Context (I : world -> Prop) `{!Stable I}.

Lemma keeps_Create s : keeps I (Create s).
Proof. apply (keeps_open_create I). Qed.
Lemma keeps_ReadManifest s : keeps I (ReadManifest s).
Proof. unfold ReadManifest. keep. Qed.
Lemma keeps_readManifestHeader s : keeps I (readManifestHeader s).
Proof. unfold readManifestHeader. keep. Qed.
Lemma keeps_WriteManifestFlags s es f v : keeps I (WriteManifestFlags s es f v).
Proof. unfold WriteManifestFlags, writeEntry, Create. keep. Qed.
Lemma keeps_read_chunk f s o : keeps I (read_chunk f s o).
Proof. unfold read_chunk. keep. Qed.
Lemma keeps_VerifyChunk f o s c : keeps I (VerifyChunk f o s c).
Proof. unfold VerifyChunk. keep. Qed.

Lemma keeps_go_slice lo hi b : keeps I (go_slice lo hi b).
Proof. unfold go_slice. keep. Qed.
Lemma keeps_le_at lo n b : keeps I (le_at lo n b).
Proof. unfold le_at. apply keeps_bind; [apply keeps_go_slice|keep]. Qed.
Lemma keeps_ReadMeta s : keeps I (ReadMeta s).
Proof.
  unfold ReadMeta. apply keeps_bind; [keep|intros b].
  intros w Hw. by rewrite (inert_decode_meta b w).
Qed.
Lemma keeps_ReadDev s : keeps I (ReadDev s).
Proof. unfold ReadDev. keep; apply keeps_le_at. Qed.
Lemma keeps_WriteMeta s m : keeps I (WriteMeta s m).
Proof. unfold WriteMeta. keep. Qed.

Lemma keeps_sparse_scan f es : keeps I (sparse_scan f es).
Proof. induction es as [|e es IH]; cbn [sparse_scan]; keep; apply keeps_read_chunk. Qed.
Lemma keeps_ApplySparse dir : keeps I (ApplySparse dir).
Proof.
  unfold ApplySparse, Create. keep; first [apply keeps_ReadManifest|apply keeps_sparse_scan|apply keeps_WriteManifestFlags].
Qed.

Lemma keeps_Put c d : keeps I (Put c d).
Proof. unfold Put. keep. Qed.
Lemma keeps_dedup_entries c f es : keeps I (dedup_entries c f es).
Proof. induction es as [|e es IH]; cbn [dedup_entries]; keep; first [apply keeps_read_chunk|apply keeps_Put]. Qed.
Lemma keeps_DedupDevice dir : keeps I (DedupDevice dir).
Proof.
  unfold DedupDevice, Create, NewCAS, write_map_line, itoa64_go.
  keep; first [apply keeps_ReadManifest|apply keeps_dedup_entries|apply keeps_WriteManifestFlags].
Qed.

Lemma keeps_IsComplete dir : keeps I (IsComplete dir).
Proof. unfold IsComplete. keep. Qed.
Lemma keeps_Finalize s d : keeps I (Finalize s d).
Proof. unfold Finalize. keep. Qed.
Lemma keeps_WriteStaging d f : (forall s, keeps I (f s)) -> keeps I (WriteStaging d f).
Proof. intros Hf. unfold WriteStaging. keep; apply keeps_Finalize. Qed.

Lemma keeps_sl_sub lo hi s : keeps I (sl_sub lo hi s).
Proof. unfold sl_sub. keep. Qed.
Lemma keeps_sl_copy lo hi d s : keeps I (sl_copy lo hi d s).
Proof. unfold sl_copy. keep. Qed.
Lemma keeps_fit_base t b : keeps I (fit_base t b).
Proof. unfold fit_base. keep. Qed.
Lemma keeps_apply_records n f pos patch base : keeps I (apply_records n f pos patch base).
Proof.
  revert pos base. induction n as [|n IH]; intros pos base; cbn [apply_records]; keep;
    first [apply keeps_sl_sub|apply keeps_sl_copy|apply IH].
Qed.

Section codec.
Context `{Zstd}.

Lemma keeps_CompressDevice dir : keeps I (CompressDevice dir).
Proof. unfold CompressDevice. keep; first [apply keeps_ReadManifest|apply keeps_WriteManifestFlags]. Qed.
Lemma keeps_DecompressDevice dir : keeps I (DecompressDevice dir).
Proof. unfold DecompressDevice. keep; first [apply keeps_ReadManifest|apply keeps_WriteManifestFlags]. Qed.
Lemma keeps_ApplyDelta_with ensure dir : (forall d, keeps I (ensure d)) -> keeps I (ApplyDelta_with ensure dir).
Proof.
  intros He. unfold ApplyDelta_with.
  keep; first [apply He|apply keeps_ReadManifest|apply keeps_fit_base|apply keeps_apply_records].
Qed.
Lemma keeps_Ensure fuel dir : keeps I (EnsureDeviceMaterialized fuel dir).
Proof.
  revert dir. induction fuel as [|fuel IH]; intros dir; cbn [EnsureDeviceMaterialized]; keep;
    first [apply keeps_readManifestHeader|by apply keeps_ApplyDelta_with|apply keeps_DecompressDevice].
Qed.
Lemma keeps_diff_entries ps d es delta patch : keeps I (diff_entries ps d es delta patch).
Proof.
  revert delta patch. induction es as [|e es IH]; intros delta patch; cbn [diff_entries]; keep;
    first [apply keeps_sl_sub|apply IH].
Qed.
Lemma keeps_WriteDelta fuel dir parent : keeps I (WriteDelta fuel dir parent).
Proof.
  unfold WriteDelta, write_delta_file, Create.
  keep; first [apply keeps_Ensure|apply keeps_ReadManifest|apply keeps_diff_entries|apply keeps_WriteManifestFlags].
Qed.
Lemma keeps_ProcessImage fuel dir opts : keeps I (ProcessImage fuel dir opts).
Proof.
  unfold ProcessImage.
  keep; first [apply keeps_ApplySparse|apply keeps_DedupDevice|apply keeps_CompressDevice|apply keeps_WriteDelta].
Qed.
Lemma keeps_verifyImage fuel dir : keeps I (verifyImage fuel dir).
Proof.
  unfold verifyImage, verify_entry, Storage.New.
  keep; first [apply keeps_Ensure|apply keeps_ReadManifest|apply keeps_VerifyChunk].
Qed.
Lemma keeps_stat_all dir ns : keeps I (stat_all dir ns).
Proof. unfold stat_all. keep. Qed.
Lemma keeps_ValidateImage fuel dir : keeps I (ValidateImage fuel dir).
Proof.
  unfold ValidateImage. keep; first [apply keeps_verifyImage|apply keeps_stat_all|apply keeps_IsComplete|apply keeps_ReadMeta].
Qed.
Lemma keeps_PreflightRestore dir : keeps I (PreflightRestore dir).
Proof.
  unfold PreflightRestore.
  keep; first [apply keeps_IsComplete|apply keeps_stat_all|apply keeps_ReadMeta|apply keeps_ReadManifest].
Qed.
End codec.

(** ** Restores *)

Lemma keeps_readRestoredPID dir : keeps I (readRestoredPID dir).
Proof. unfold readRestoredPID. keep. Qed.
Lemma keeps_writeRestoreHandoff dir pid : keeps I (writeRestoreHandoff dir pid).
Proof. unfold writeRestoreHandoff. keep. Qed.
Lemma keeps_shimSocketReady d p : keeps I (shimSocketReady d p).
Proof. unfold shimSocketReady. keep. Qed.
Lemma keeps_sortedShims d : keeps I (sortedShims d).
Proof. unfold sortedShims, ListShims. keep. Qed.
Lemma keeps_resolveRestorePID d p l : keeps I (resolveRestorePID d p l).
Proof. unfold resolveRestorePID. keep; apply keeps_readRestoredPID. Qed.
Lemma keeps_emit `{EventFormat} level name err fields : keeps I (emit level name err fields).
Proof. unfold emit. keep. Qed.
Lemma keeps_Info `{EventFormat} name fields : keeps I (log_Info name fields).
Proof. apply keeps_emit. Qed.
Lemma keeps_Error `{EventFormat} name e fields : keeps I (log_Error name e fields).
Proof. apply keeps_emit. Qed.
Lemma keeps_log `{EventFormat} dir phase pid extra : keeps I (logRestorePhase dir phase pid extra).
Proof. unfold logRestorePhase, appendRestorePhaseEvent. cbv zeta. keep; apply keeps_Info. Qed.
Lemma keeps_recordRestorePID `{EventFormat} dir pid : keeps I (recordRestorePID dir pid).
Proof. unfold recordRestorePID. keep; first [apply keeps_writeRestoreHandoff|apply keeps_log]. Qed.
End images.

#[export] Hint Resolve keeps_Create keeps_ReadManifest keeps_WriteManifestFlags keeps_ReadMeta keeps_ReadDev
  keeps_WriteMeta keeps_IsComplete keeps_Ensure keeps_ProcessImage keeps_verifyImage keeps_ValidateImage
  keeps_PreflightRestore keeps_readRestoredPID keeps_writeRestoreHandoff keeps_shimSocketReady
  keeps_sortedShims keeps_resolveRestorePID keeps_log keeps_Info keeps_Error
  keeps_recordRestorePID : keep.

(** ** The backends *)

Section backends.
Context (I : world -> Prop) `{!Stable I}.

Lemma keeps_fake_Dump f pid dir : keeps I (Fake.Dump f pid dir).
Proof. unfold Fake.Dump. keep. Qed.

Lemma keeps_fake_Restore f dir logFile env : keeps I (Fake.Restore f dir logFile env).
Proof. unfold Fake.Restore. keep. Qed.

(** CRIU keeps [I] where the program that is started does. *)
Context `{Exec}.
Context (Hrun : forall p args w, I w -> I (cmd_Run p args w).2).
Context (Hout : forall p args w, I w -> I (cmd_CombinedOutput p args w).2).

Lemma keeps_ext_mounts l : keeps I (Wrapper.ext_mounts l).
Proof using Stable0. induction l as [|d l IH]; cbn [Wrapper.ext_mounts]; keep. Qed.

Lemma keeps_cmd_Run p args : keeps I (Run_ p args).
Proof using Hrun. unfold Run_. intros w Hw. specialize (Hrun p args w Hw). by destruct (cmd_Run p args w). Qed.

Lemma keeps_cmd_Output p args : keeps I (CombinedOutput p args).
Proof using Hout. unfold CombinedOutput. intros w Hw. specialize (Hout p args w Hw). by destruct (cmd_CombinedOutput p args w). Qed.

Lemma keeps_wrapper_Dump wr pid dir : keeps I (Wrapper.Dump wr pid dir).
Proof using Stable0 Hrun.
  unfold Wrapper.Dump, Wrapper.nvidiaExtMounts. keep; first [apply keeps_ext_mounts|apply keeps_cmd_Run].
Qed.

Lemma keeps_wrapper_Restore wr dir logFile env : keeps I (Wrapper.Restore wr dir logFile env).
Proof using Stable0 Hrun Hout.
  unfold Wrapper.Restore, Wrapper.nvidiaExtMounts.
  keep; first [apply keeps_ext_mounts|apply keeps_cmd_Run|apply keeps_cmd_Output].
Qed.
End backends.

(** ** Shims, CRIU and the orchestrator *)

(** What the rest of the machine keeps: the GPU work of the shims, CRIU, and
    the changes of a server's own state. *)
Class Outside (I : world -> Prop) `{Gpu} `{Backend} : Prop := {
  out_quiesce : forall w, I w -> I (ckpt_quiesce_gpu w).2;
  out_snapshot : forall d w, I w -> I (ckpt_snapshot_write d w).2;
  out_load : forall d w, I w -> I (ckpt_restore_load d w).2;
  out_resume : forall w, I w -> I (ckpt_resume_signal w);
  out_Dump : forall p d, keeps I (criu_Dump p d);
  out_Restore : forall d l e, keeps I (criu_Restore d l e);
  out_shim : forall w sock secret s, I w -> I (set_peers (<[sock := PShim secret s]> (w_peers w)) w);
  out_mock : forall w sock secret ff sq i ff' i', w_peers w !! sock = Some (PMock secret ff sq i) -> I w ->
    I (set_peers (<[sock := PMock secret ff' sq i']> (w_peers w)) w);
}.

Section outside.
Context (I : world -> Prop) `{!Stable I} `{Outside I}.

Lemma keeps_gpu {A} (op : world -> A * world) : (forall w, I w -> I (op w).2) -> keeps I (gpu op).
Proof. intros Hop w Hw. specialize (Hop w Hw). unfold gpu. by destruct (op w). Qed.

Lemma keeps_set_state sock secret s : keeps I (set_state sock secret s).
Proof. intros w Hw. by apply out_shim. Qed.

Lemma keeps_shim_op secret state op c : keeps I (shim_op secret state op c).
Proof.
  unfold shim_op. keep; first [apply keeps_set_state|apply keeps_gpu; intros w Hw; cbn [snd];
    first [by apply out_quiesce|by apply out_snapshot|by apply out_load|by apply out_resume]].
Qed.

Lemma keeps_mock_snapshot d : keeps I (mock_snapshot d).
Proof. unfold mock_snapshot, WriteManifest. keep. Qed.

Lemma mock_op_keeps w secret ff sq idx op c :
  w_peers w !! c_sock c = Some (PMock secret ff sq idx) -> I w -> I (mock_op secret ff sq idx op c w).2.
Proof.
  intros Hp Hw. unfold mock_op.
  repeat case_decide; try done; try (by apply out_mock with (1 := Hp)).
  - destruct (take_u32 (c_in c)) as [[n r]|]; [|done]. destruct (take_n n r) as [[buf r']|]; [|done].
    case_decide; [|done]. refine (keeps_bind I _ _ _ _ w Hw); [apply keeps_mock_snapshot|keep].
  - destruct (take_u32 (c_in c)) as [[n r]|]; [|done]. by destruct (take_n n r) as [[buf r']|].
  - destruct (mockStatus sq idx) as [[v i']|]; [|done]. by apply out_mock with (1 := Hp).
Qed.

Lemma keeps_serve_step c : keeps I (serve_step c).
Proof.
  intros w Hw. unfold serve_step. destruct (w_peers w !! c_sock c) as [[secret ff sq idx|secret st]|] eqn:Hp; [| |done].
  - unfold mock_step. destruct (c_phase c); [done| |done].
    destruct (take_u32 (c_in c)) as [[op r]|]; [|done]. by apply mock_op_keeps.
  - unfold shim_step. destruct (c_phase c); [done| |done].
    destruct (take_u32 (c_in c)) as [[op r]|]; [|done]. by apply keeps_shim_op.
Qed.

Lemma keeps_serve c : keeps I (serve c).
Proof.
  unfold serve. generalize (length (c_in c)) as n. intros n. revert c.
  induction n as [|n IH]; intros c; cbn [serve_loop]; keep. apply keeps_serve_step.
Qed.

Lemma keeps_net_Dial p : keeps I (net_Dial p).
Proof.
  apply keeps_syscall; [done|keep|]. intros w Hw. case_decide; [done|].
  destruct (find_node w p) as [|[]]; try done. by destruct (w_peers w !! at_path w p).
Qed.

Lemma keeps_conn_Write c d : keeps I (conn_Write c d).
Proof. apply keeps_syscall; [done|keep|keep]. Qed.

Lemma keeps_readU32 c : keeps I (readU32 c).
Proof.
  unfold readU32, conn_ReadFull. apply keeps_bind; [|keep].
  apply keeps_syscall; [done|keep; apply keeps_serve|keep; apply keeps_serve].
Qed.

Lemma keeps_writeU32 c v : keeps I (writeU32 c v).
Proof. apply keeps_conn_Write. Qed.

Lemma keeps_writeStr c s : keeps I (writeStr c s).
Proof. unfold writeStr. keep; first [apply keeps_writeU32|apply keeps_conn_Write]. Qed.

Lemma keeps_Dial p s : keeps I (DialPathWithSecret p s).
Proof.
  unfold DialPathWithSecret, authenticate.
  keep; first [apply keeps_net_Dial|apply keeps_writeU32|apply keeps_writeStr|apply keeps_readU32].
Qed.

Lemma keeps_call c op p : keeps I (Client.call c op p).
Proof. unfold Client.call. keep; first [apply keeps_writeU32|apply keeps_writeStr|apply keeps_readU32]. Qed.

Lemma keeps_checked what c op p : keeps I (Client.checked what c op p).
Proof. unfold Client.checked. keep; apply keeps_call. Qed.

Context `{Zstd} `{EventFormat} (cfg : Config) (fuel : nat).

Lemma keeps_dial pid : keeps I (Orchestrator.dial cfg pid).
Proof. unfold Orchestrator.dial. keep; apply keeps_Dial. Qed.

Lemma keeps_Freeze pid : keeps I (Orchestrator.Freeze cfg pid).
Proof. unfold Orchestrator.Freeze. keep; first [apply keeps_dial|apply keeps_checked]. Qed.

Lemma keeps_Snapshot pid dir : keeps I (Orchestrator.Snapshot cfg fuel pid dir).
Proof. unfold Orchestrator.Snapshot. keep; first [apply keeps_dial|apply keeps_checked]. Qed.

Lemma keeps_tryShimRestore image pid : keeps I (Orchestrator.tryShimRestore cfg image pid).
Proof. unfold Orchestrator.tryShimRestore. keep; first [apply keeps_dial|apply keeps_checked]. Qed.

Lemma keeps_checkpoint_body pid opts s : keeps I (Orchestrator.checkpoint_body cfg fuel pid opts s).
Proof.
  unfold Orchestrator.checkpoint_body, Orchestrator.checkpoint_dump. keep; first [apply keeps_Freeze|apply keeps_Snapshot|apply out_Dump].
Qed.

Lemma keeps_doCheckpoint pid out : keeps I (Orchestrator.doCheckpoint cfg fuel pid out).
Proof.
  unfold Orchestrator.doCheckpoint, OptsFromEnv, ParentFromEnv. keep.
  apply keeps_WriteStaging; [done|]. intros s. apply keeps_checkpoint_body.
Qed.

Lemma keeps_try_candidates image pids : keeps I (Orchestrator.try_candidates cfg image pids).
Proof.
  induction pids as [|p pids IH]; cbn [Orchestrator.try_candidates]; keep. apply keeps_tryShimRestore.
Qed.
End outside.
