(* ===== verification/Checkpoint.v ===== *)
(** What a checkpoint leaves: pkg/control/orchestrator.go (Checkpoint,
    doCheckpoint) and queue.go (CheckpointWithRetry) with what they call. *)
From S2P Require Export Preserve.
Local Open Scope Z_scope.

(** ** What calls that succeed have done, whatever failed before *)

Lemma Create_ret s w f w' :
  Create s w = (Ret f, w') ->
  f_path f = at_path w s /\ exists l, w' = set_fs (<[at_path w s := NFile []]> (w_fs w)) (set_faults l w).
Proof.
  unfold Create, open_create. intros Ho.
  match type of Ho with syscall ?a ?b _ = _ => destruct (syscall_any a b w) as (l & [E|[g E]]) end;
    rewrite E in Ho; [|done].
  change (at_path (set_faults l w) s) with (at_path w s) in Ho. cbn [w_fs set_faults] in Ho.
  case_decide; [done|]. destruct (w_fs w !! at_path w s) as [[]|]; try done; [by injection Ho as <- <-; eauto|].
  destruct (parent_errno _ _); [done|injection Ho as <- <-; eauto].
Qed.

Lemma fwrite_ret f d w u w' :
  fwrite f d w = (Ret u, w') -> exists l, w' = set_fs (append_at (f_path f) d (w_fs w)) (set_faults l w).
Proof.
  intros H. destruct (fwrite_any w f d) as (l & [E|(e & k & E)]); rewrite E in H; [|done].
  injection H as _ <-. by exists l.
Qed.

Lemma WriteFile_ret s data w u w' :
  WriteFile s data w = (Ret u, w') ->
  exists l, w' = set_fs (<[at_path w s := NFile data]> (w_fs w)) (set_faults l w).
Proof.
  unfold WriteFile. intros (f & w1 & Ho & Hw)%bind_inv. apply Create_ret in Ho as (Hf & l & ->).
  apply fwrite_ret in Hw as (l' & ->). exists l'. rewrite Hf. cbn [w_fs set_fs set_faults]. by rewrite append_at_insert.
Qed.

Lemma RemoveAll_frame s S w :
  (forall q, at_path w s `prefix_of` q -> S q) -> frame S w (RemoveAll s w).2.
Proof. intros HS. by apply (framed_RemoveAll (w_cwd w)). Qed.

Lemma Rename_ret old new w u w' :
  Rename old new w = (Ret u, w') -> at_path w old <> at_path w new ->
  exists l, w' = set_fs (move_tree (at_path w old) (at_path w new) (w_fs w)) (set_faults l w).
Proof.
  unfold Rename. intros H Hne.
  match type of H with syscall ?a ?b _ = _ => destruct (syscall_any a b w) as (l & [E|[g E]]) end;
    rewrite E in H; [|done].
  exists l. unfold Rename_body in H.
  change (at_path (set_faults l w)) with (at_path w) in H. cbn [w_fs set_faults] in H.
  repeat case_match; try done; try (by injection H as _ <-). naive_solver.
Qed.

(** A [Finalize] that succeeds has installed the image, whatever the schedule
    of faults. *)
Lemma Finalize_ret s d p a b w u w' :
  names (w_cwd w) s p a -> names (w_cwd w) d p b -> a <> b ->
  Finalize s d w = (Ret u, w') ->
  w_cwd w' = w_cwd w /\ w_env w' = w_env w /\
  (forall k, w_fs w' !! ((p ++ [b]) ++ k) =
     if decide (k = [completeName]) then Some (NFile [Byte.x31; Byte.x0a])
     else w_fs w !! ((p ++ [a]) ++ k)) /\
  (forall k, w_fs w' !! ((p ++ [a]) ++ k) = None).
Proof.
  intros (Hs & _ & _ & Hrs) (Hd & _ & _ & Hrd) Hne. unfold Finalize.
  intros (u1 & w1 & Hw & E)%bind_inv. apply WriteFile_ret in Hw as (l1 & ->).
  rewrite at_path_Join in E by done.
  set (w1 := set_fs _ _) in E. apply bind_inv in E as (r & w2 & Hr & E).
  assert (F : frame (fun q => p ++ [b] `prefix_of` q) w1 w2).
  { assert (w2 = (RemoveAll d w1).2) as ->.
    { unfold attempt in Hr. destruct (RemoveAll d w1) as [[]]; by injection Hr. }
    apply RemoveAll_frame. intros q. unfold at_path. cbn [w_cwd w1 set_fs set_faults]. by rewrite Hrd. }
  assert (Hren : Rename s d w2 = (Ret u, w')) by (destruct r as [e|]; [by destruct (IsNotExist e)|done]).
  clear E Hr. destruct F as (Hc & Hv & _ & Hf).
  assert (Hps : at_path w2 s = p ++ [a]) by (unfold at_path; by rewrite Hc).
  assert (Hpd : at_path w2 d = p ++ [b]) by (unfold at_path; by rewrite Hc).
  apply Rename_ret in Hren as (l & ->).
  2:{ rewrite Hps, Hpd. intros E%app_inv_head. congruence. }
  rewrite Hps, Hpd. cbn [w_cwd w_env w_fs set_fs set_faults]. rewrite Hc, Hv. split_and!; [done..| |].
  - intros k. rewrite lookup_move_tree, decide_True, drop_app_length by (by eexists).
    rewrite Hf. 2:{ eapply siblings_disjoint; [exact Hne|by eexists]. }
    cbn [w1 w_fs set_fs set_faults]. unfold at_path. rewrite Hrs. case_decide as Hk.
    + by rewrite Hk, lookup_insert_eq.
    + rewrite lookup_insert_ne; [done|]. intros E%app_inv_head. congruence.
  - intros k. rewrite lookup_move_tree, decide_False, decide_True; [done|by eexists|].
    eapply siblings_disjoint; [exact Hne|by eexists].
Qed.

(** ** The metadata of a checkpoint *)

(** The metadata a checkpoint of a process records. *)
Definition checkpoint_meta (w : world) (pid dev : Z) : Meta :=
  mkMeta MetaMagic 2 0 (u32 pid) dev (getenv w "LD_PRELOAD") (getenv w "CUDA_VISIBLE_DEVICES").

Definition short_env (w : world) : Prop :=
  is_u32 (Z.of_nat (length (bytes_of_string (getenv w "LD_PRELOAD")))) /\
  is_u32 (Z.of_nat (length (bytes_of_string (getenv w "CUDA_VISIBLE_DEVICES")))).

Lemma le_at_range n b w d w' :
  le_at 0 (Z.of_nat n) b w = (Ret d, w') -> 0 <= d < 256 ^ Z.of_nat n.
Proof.
  unfold le_at, go_slice. case_decide as Hd; [|done]. intros [= <- _].
  pose proof (le_dec_range (slice (Z.to_nat 0) (Z.to_nat (0 + Z.of_nat n)) b)) as Hr.
  rewrite length_slice in Hr by (destruct Hd as [_ Hd]; lia).
  by replace (Z.to_nat (0 + Z.of_nat n) - Z.to_nat 0)%nat with n in Hr by lia.
Qed.

Lemma ReadDev_range s w d w' : ReadDev s w = (Ret d, w') -> is_u32 d.
Proof.
  unfold ReadDev. intros (b & w1 & _ & E)%bind_inv. case_decide; [done|].
  by apply (le_at_range 4) in E.
Qed.

(** The working directory and the environment. *)
Definition same_place (w v : world) : Prop := w_cwd v = w_cwd w /\ w_env v = w_env w.

#[global] Instance same_place_stable w : Stable (same_place w).
Proof. by split. Qed.
#[global] Instance same_place_ages w : Ages (same_place w).
Proof. by intros d v. Qed.

Section checkpoint.
Context `{Gpu} `{Zstd} `{Backend} `{EventFormat} (cfg : Config) (fuel : nat).

Lemma checkpoint_body_ret w `{!Outside (same_place w)} pid opts st w0 u w' :
  same_place w w0 -> st <> "" ->
  Orchestrator.checkpoint_body cfg fuel pid opts st w0 = (Ret u, w') ->
  exists dev, is_u32 dev /\
    w_fs w' !! (at_path w st ++ ["meta.bin"]) = Some (NFile (meta_bytes (checkpoint_meta w pid dev))).
Proof.
  intros HP Hst. unfold Orchestrator.checkpoint_body, Orchestrator.checkpoint_dump.
  intros (u1 & w1 & E1 & E)%bind_inv. apply bind_inv in E as (u2 & w2 & E2 & E).
  apply bind_inv in E as (u3 & w3 & E3 & E). apply bind_inv in E as (u4 & w4 & E4 & E).
  apply bind_inv in E as (dev & w5 & E5 & E).
  assert (H5 : same_place w w5).
  { pose proof (keeps_Freeze (same_place w) cfg pid w0 HP) as K. rewrite E1 in K. cbn in K.
    pose proof (keeps_Snapshot (same_place w) cfg fuel pid st w1 K) as K2. rewrite E2 in K2. cbn in K2.
    pose proof (keeps_wrap _ Code.IO "process" _ (keeps_ProcessImage (same_place w) fuel st opts) w2 K2) as K3.
    rewrite E3 in K3. cbn in K3.
    pose proof (keeps_wrap _ Code.CRIU "dump" _ (out_Dump pid st) w3 K3) as K4. rewrite E4 in K4. cbn in K4.
    pose proof (keeps_attempt _ _ (keeps_ReadDev (same_place w) (PathJoin [st; "dev.bin"])) w4 K4) as K5.
    by rewrite E5 in K5. }
  unfold Getenv, gets in E. unfold mbind, M_bind in E. apply wrap_err_inv in E. unfold WriteMeta in E.
  apply WriteFile_ret in E as (l & ->). cbn [w_fs set_fs].
  exists (match dev with inr d => d | inl _ => 0 end). split.
  { apply attempt_inv in E5 as [(d & -> & E5)|(e & -> & _)]; [by apply ReadDev_range in E5|done]. }
  destruct H5 as [Hc Hv]. rewrite at_path_Join by done. unfold at_path. rewrite Hc, lookup_insert_eq.
  unfold checkpoint_meta, getenv. by rewrite Hv.
Qed.

(** The options of the environment. *)
Definition env_opts (w : world) : ProcessOpts :=
  mkOpts (bool_decide (getenv w "CUDACKPT_COMPRESS" = "1")) (bool_decide (getenv w "CUDACKPT_SPARSE" = "1"))
    (bool_decide (getenv w "CUDACKPT_DEDUP" = "1")) (getenv w "CUDACKPT_PARENT_IMAGE").

Lemma OptsFromEnv_run w : OptsFromEnv w = (Ret (env_opts w), w).
Proof. done. Qed.

(** The steps of a checkpoint that succeeds. *)
Lemma doCheckpoint_ret w `{!Outside (same_place w)} w0 pid out p x w' u :
  same_place w w0 ->
  names (w_cwd w) (Orchestrator.checkpoint_dir cfg pid out) p x ->
  Orchestrator.doCheckpoint cfg fuel pid out w0 = (Ret u, w') ->
  exists w1 w2,
    Orchestrator.checkpoint_body cfg fuel pid (env_opts w) (StageDir (Orchestrator.checkpoint_dir cfg pid out)) w1
      = (Ret tt, w2) /\
    same_place w w1 /\ same_place w w2 /\
    Finalize (StageDir (Orchestrator.checkpoint_dir cfg pid out)) (Orchestrator.checkpoint_dir cfg pid out) w2
      = (Ret u, w').
Proof.
  intros K0 Hd. set (dir := Orchestrator.checkpoint_dir cfg pid out) in *.
  unfold Orchestrator.doCheckpoint. fold dir.
  unfold log_Info. rewrite emit_bind. set (v := (emit _ _ _ _ w0).2).
  assert (Kv : same_place w v) by by apply keeps_emit; [apply _|].
  rewrite (bind_run _ _ _ _ _ (OptsFromEnv_run v)). intros E.
  assert (env_opts v = env_opts w) as Eo by (destruct Kv as [_ Hv]; unfold env_opts, getenv; by rewrite Hv).
  rewrite Eo in E. clear Eo.
  unfold WriteStaging in E. apply bind_inv in E as (u1 & w1 & E1 & E). apply bind_inv in E as (u2 & w2 & E2 & E).
  apply bind_inv in E as (r & w3 & E3 & E).
  assert (K2 : same_place w w2).
  { pose proof (keeps_bind (same_place w) _ (fun _ => MkdirAll (StageDir dir))
      (keeps_ignore _ _ (keeps_RemoveAll (same_place w) (StageDir dir)))
      (fun _ => keeps_MkdirAll (same_place w) _) v Kv) as K.
    erewrite bind_run in K by exact E1. by rewrite E2 in K. }
  apply attempt_inv in E3 as [([] & -> & E3)|(e & -> & E3)].
  2:{ apply bind_inv in E as (? & ? & _ & E). done. }
  exists w2, w3. split_and!; [done..| |done].
  pose proof (keeps_checkpoint_body (same_place w) cfg fuel pid (env_opts w) (StageDir dir) w2 K2) as K.
  by rewrite E3 in K.
Qed.

End checkpoint.

(** ** Counting *)

(** The operation counts each of its outcomes once: a success on one counter, a
    failure on the other, and nothing when it never returns. *)
Definition counts {A} (good bad : string) (m : M A) : Prop := forall w,
  match m w with
  | (Ret _, w') => w_counters w' = add_counter good 1 (w_counters w)
  | (Err _, w') => w_counters w' = add_counter bad 1 (w_counters w)
  | (_, w') => w_counters w' = w_counters w
  end.

Definition same_counters (c : gmap string Z) (w : world) : Prop := w_counters w = c.

#[global] Instance same_counters_stable c : Stable (same_counters c).
Proof. by split. Qed.
#[global] Instance same_counters_ages c : Ages (same_counters c).
Proof. by intros d w. Qed.

(** A line of the log keeps the counters. *)
Lemma emit_counters `{EventFormat} level name err fields w :
  w_counters (emit level name err fields w).2 = w_counters w.
Proof. by apply (keeps_emit (same_counters (w_counters w))). Qed.

Lemma counted_counts `{EventFormat} pid out m :
  (forall c, keeps (same_counters c) m) ->
  counts CheckpointsTotal CheckpointFailures (Orchestrator.counted pid out m).
Proof.
  intros Hm w. specialize (Hm _ w eq_refl). unfold same_counters in Hm.
  unfold Orchestrator.counted, attempt, mbind at 1, M_bind at 1, log_Info, log_Error.
  destruct (m w) as [[[]|e| |] w1]; cbn in Hm; try done.
  - match goal with |- context [emit ?l ?n ?e ?f] => pose proof (emit_returns l n e f) as Er;
      pose proof (emit_counters l n e f) as Ec end.
    unfold Default_Inc, Default_Add, mbind, M_bind.
    set (w2 := set_counters _ w1). specialize (Er w2). specialize (Ec w2).
    destruct (emit _ _ _ _ w2) as [[[]|e| |] w3]; try done. cbn in Ec. by rewrite Ec, <- Hm.
  - rewrite emit_bind. unfold Default_Inc, Default_Add, mbind, M_bind, throw. cbn [w_counters set_counters].
    by rewrite emit_counters, Hm.
Qed.

Lemma keeps_retry_loop I `{!Stable I, !Ages I} p fn stop n a last :
  (forall i, keeps I (fn i)) -> keeps I (retry_loop p fn stop n a last).
Proof.
  intros Hf. revert a last. induction n as [|n IH]; intros a last; cbn [retry_loop]; [by destruct last; keep|].
  keep.
Qed.

(** ** The errors of a checkpoint *)

(** Every error of the computation satisfies [P]. *)
Definition errs (P : goerr -> Prop) {A} (m : M A) : Prop := forall w e w', m w = (Err e, w') -> P e.

Section errs.
Context (P : goerr -> Prop).

Lemma errs_ret {A} (a : A) : errs P (mret a).
Proof. by intros w e w'. Qed.
Lemma errs_gets {A} (f : world -> A) : errs P (gets f).
Proof. by intros w e w'. Qed.
Lemma errs_Getenv k : errs P (Getenv k).
Proof. by intros w e w'. Qed.
Lemma errs_throw {A} e : P e -> errs P (throw (A:=A) e).
Proof. by intros He w e' w' [= <- _]. Qed.
Lemma errs_attempt {A} (m : M A) : errs P (attempt m).
Proof. intros w e w'. unfold attempt. by destruct (m w) as [[]]. Qed.
Lemma errs_bind {A B} (m : M A) (f : A -> M B) :
  errs P m -> (forall a, errs P (f a)) -> errs P (m ≫= f).
Proof.
  intros Hm Hf w e w'. specialize (Hm w). unfold mbind, M_bind.
  destruct (m w) as [[a|e1| |] w1]; try done; [by apply Hf|]. intros [= -> ->]. by eapply Hm.
Qed.
(** An error that was kept as a value. *)
Lemma errs_kept {A B} (m : M A) (f : goerr + A -> M B) :
  errs P m -> (forall e, P e -> errs P (f (inl e))) -> (forall a, errs P (f (inr a))) ->
  errs P (attempt m ≫= f).
Proof.
  intros Hm He Ha w e w'. specialize (Hm w). unfold attempt, mbind, M_bind.
  destruct (m w) as [[a|e1| |] w1]; try done; [apply Ha|]. apply He. by eapply Hm.
Qed.
Lemma errs_ignore {A} (m : M A) : errs P (ignore m).
Proof. apply errs_bind; [apply errs_attempt|intros; apply errs_ret]. Qed.
Lemma errs_wrap {A} c s (m : M A) : (forall t, P (ECkpt c t)) -> errs P (wrap_err c s m).
Proof.
  intros Hc. apply errs_bind; [apply errs_attempt|]. intros [e|a]; [|apply errs_ret].
  apply errs_throw, Hc.
Qed.
Lemma errs_forM {A} (l : list A) f : (forall a, errs P (f a)) -> errs P (forM_ l f).
Proof. intros Hf. induction l; cbn; [apply errs_ret|by apply errs_bind]. Qed.
Lemma errs_syscall {A} fail (m : M A) :
  (forall f, errs P (fail f)) -> errs P m -> errs P (syscall fail m).
Proof.
  intros Hf Hm w e w'. destruct (syscall_any fail m w) as (l & [->|[f ->]]); [by apply Hm|by apply Hf].
Qed.

(** The log reports no error. *)
Lemma errs_Info `{EventFormat} name fields : errs P (log_Info name fields).
Proof. intros w e w' E. pose proof (emit_returns "info" name None fields w) as R. unfold log_Info in E. by rewrite E in R. Qed.
Lemma errs_Error `{EventFormat} name err fields : errs P (log_Error name err fields).
Proof.
  intros w e w' E. pose proof (emit_returns "error" name (Some err) fields w) as R. unfold log_Error in E.
  by rewrite E in R.
Qed.
End errs.

Create HintDb errs.
#[export] Hint Resolve errs_ret errs_gets errs_Getenv errs_attempt errs_ignore errs_Info errs_Error : errs.

Ltac errs :=
  repeat first
    [ solve [auto 2 with errs nocore]
    | match goal with
      | |- forall _, _ => intro
      | |- errs _ (mbind _ _) => apply errs_bind
      | |- errs _ (wrap_err _ _ _) => apply errs_wrap
      | |- errs _ (throw _) => apply errs_throw
      | |- errs _ (forM_ _ _) => apply errs_forM
      | |- errs _ (match ?x with _ => _ end) => destruct x
      end
    | done ].

(** Errors the retry loop would not stop at. *)
Definition retried (e : goerr) : Prop := Orchestrator.unsupported e = false.

(** The system calls return their own kinds of errors. *)
Ltac errs_call :=
  apply errs_syscall; [by intros ?flt ?w ?e ?w' [= <- _]|];
  intros ?w ?e ?w'; cbv zeta; repeat case_match; intros; by simplify_eq.

Lemma errs_WriteFile s d : errs retried (WriteFile s d).
Proof. apply errs_bind; [|intros f]; errs_call. Qed.
Lemma errs_RemoveAll s : errs retried (RemoveAll s).
Proof.
  unfold RemoveAll. case_decide; [errs|]. destruct (ends_with_dot s); [errs|]. errs_call.
Qed.
Lemma errs_MkdirAll s : errs retried (MkdirAll s).
Proof. errs_call. Qed.
Lemma errs_Rename a b : errs retried (Rename a b).
Proof. unfold Rename, Rename_body. errs_call. Qed.

Lemma errs_verifyImage `{Zstd} n dir : errs retried (verifyImage n dir).
Proof. unfold verifyImage, verify_entry. errs. Qed.

Section checkpoint_errs.
Context `{Gpu} `{Zstd} `{Backend} `{EventFormat} (cfg : Config) (fuel : nat).

Lemma errs_dial pid : errs retried (Orchestrator.dial cfg pid).
Proof. unfold Orchestrator.dial. errs. Qed.

Lemma errs_Finalize st d : errs retried (Finalize st d).
Proof.
  unfold Finalize. apply errs_bind; [apply errs_WriteFile|intros _].
  apply errs_kept; [apply errs_RemoveAll|intros e He|intros _; apply errs_Rename].
  destruct (IsNotExist e); [apply errs_Rename|by apply errs_throw].
Qed.

Lemma errs_checkpoint_body pid opts st :
  errs retried (Orchestrator.checkpoint_body cfg fuel pid opts st).
Proof.
  unfold Orchestrator.checkpoint_body, Orchestrator.checkpoint_dump, Orchestrator.Freeze, Orchestrator.Snapshot.
  errs; first [apply errs_dial|apply errs_verifyImage|done].
Qed.

(** Every error of a checkpoint is one that does not stop the retries. *)
Lemma errs_doCheckpoint pid out : errs retried (Orchestrator.doCheckpoint cfg fuel pid out).
Proof.
  unfold Orchestrator.doCheckpoint, OptsFromEnv, ParentFromEnv, WriteStaging.
  apply errs_bind; [errs|intros _]. apply errs_bind; [errs|intros opts]. apply errs_bind; [errs|intros _].
  apply errs_bind; [apply errs_MkdirAll|intros _].
  apply errs_kept; [apply errs_checkpoint_body| |intros _; apply errs_Finalize].
  intros e He. errs.
Qed.

Lemma errs_attempt_ pid out n :
  errs retried (log_Info "checkpoint_attempt" (<["pid" := AnyInt pid]> {["attempt" := AnyInt n]}) ;;
    Orchestrator.doCheckpoint cfg fuel pid out).
Proof. apply errs_bind; [errs|intros _; apply errs_doCheckpoint]. Qed.
End checkpoint_errs.

(** ** Checkpoints *)

Lemma counted_inv `{EventFormat} pid out m w u w' q :
  Orchestrator.counted pid out m w = (Ret u, w') ->
  exists w1, m w = (Ret tt, w1) /\ w_cwd w' = w_cwd w1 /\
    (log_elsewhere w1 q -> forall k, w_fs w' !! (q ++ k) = w_fs w1 !! (q ++ k)).
Proof.
  unfold Orchestrator.counted. intros (r & w1 & E & Hl)%bind_inv.
  apply attempt_inv in E as [([] & -> & E)|(e & -> & _)].
  2:{ unfold log_Error in Hl. by rewrite emit_bind in Hl. }
  exists w1. split; [done|]. apply bind_inv in Hl as ([] & w2 & Hi & Hl). injection Hi as <-.
  unfold log_Info in Hl. set (w2 := set_counters _ w1) in Hl.
  match type of Hl with emit ?l ?n ?e ?f _ = _ =>
    destruct (emit_frame l n e f w2) as (Hc & _); pose proof (emit_elsewhere l n e f w2 q) as He end.
  rewrite Hl in Hc, He. split; [exact Hc|]. intros Hq k. by apply He.
Qed.

Lemma counted_fails `{EventFormat} pid out m w e w' :
  Orchestrator.counted pid out m w = (Err e, w') -> exists w1, m w = (Err e, w1).
Proof.
  unfold Orchestrator.counted, attempt, mbind at 1, M_bind at 1. unfold log_Info, log_Error.
  destruct (m w) as [[[]|e1| |] w1]; try done.
  - intros E. unfold Default_Inc, Default_Add, mbind, M_bind in E.
    set (w2 := set_counters _ _) in E.
    match type of E with emit ?l ?n ?e ?f _ = _ => pose proof (emit_returns l n e f w2) as R end.
    by rewrite E in R.
  - rewrite emit_bind. intros [= -> _]. by exists w1.
Qed.

Lemma checkpoint_meta_wf w pid dev : short_env w -> is_u32 dev -> wf_meta (checkpoint_meta w pid dev).
Proof. intros [Hpl Hvl] Hdev. split; try done. apply u32_range. Qed.

(** A checkpoint, with retries or without. *)
Definition checkpoint_run `{Gpu} `{Zstd} `{Backend} `{EventFormat} cfg fuel pid out (m : M unit) : Prop :=
  m = Orchestrator.Checkpoint cfg fuel pid out \/
  exists policy, m = Orchestrator.CheckpointWithRetry cfg fuel pid out policy.

(** The attempt that succeeded. *)
Lemma checkpoint_attempt `{Gpu} `{Zstd} `{Backend} `{EventFormat} cfg fuel w `{!Outside (same_place w)} pid out m v u w' :
  checkpoint_run cfg fuel pid out m -> same_place w v -> m v = (Ret u, w') ->
  exists w0 n, same_place w w0 /\ Orchestrator.counted pid out n v = (Ret u, w') /\
    (forall w1, n v = (Ret tt, w1) -> Orchestrator.doCheckpoint cfg fuel pid out w0 = (Ret tt, w1)).
Proof.
  intros [->|[policy ->]] Kv E.
  { exists v, (Orchestrator.doCheckpoint cfg fuel pid out). by split_and!. }
  unfold Orchestrator.CheckpointWithRetry in E. cbv zeta in E. set (pol := if decide _ then _ else _) in E.
  match type of E with Orchestrator.counted _ _ (applyRetry _ ?f ?s) _ = _ => set (fn := f) in E; set (stop := s) in E end.
  destruct (applyRetry_run pol fn stop v) as (k & wk & _ & Ht & Hrun & _).
  assert (Kfn : forall i, keeps (same_place w) (fn i)).
  { intros i. apply keeps_bind; [apply keeps_Info, _|intros _; by apply keeps_doCheckpoint]. }
  assert (Kk : same_place w wk).
  { clear Hrun. induction Ht as [|k wk e w2 Ht IH Hf _]; [done|].
    specialize (Kfn k wk IH). rewrite Hf in Kfn. apply (ages (Backoff (default_policy pol)) w2); [|done].
    unfold default_policy. cbn. case_decide; lia. }
  exists (emit "info" "checkpoint_attempt" None (<["pid" := AnyInt pid]> {["attempt" := AnyInt k]}) wk).2.
  eexists. split; [by apply keeps_emit; [apply _|]|]. split; [exact E|].
  intros w1 E1. rewrite Hrun in E1. unfold fn, log_Info in E1. by rewrite emit_bind in E1.
Qed.

Lemma Checkpoint_ret `{Gpu} `{Zstd} `{Backend} `{EventFormat} cfg fuel w `{!Outside (same_place w)} v pid out m p x u w' :
  let dir := Orchestrator.checkpoint_dir cfg pid out in
  names (w_cwd w) dir p x -> log_elsewhere w (p ++ [x]) -> log_elsewhere w (p ++ [x +:+ ".staging"]) ->
  checkpoint_run cfg fuel pid out m -> same_place w v -> m v = (Ret u, w') ->
  w_cwd w' = w_cwd w /\
  (exists dev, is_u32 dev /\
     w_fs w' !! ((p ++ [x]) ++ ["meta.bin"]) = Some (NFile (meta_bytes (checkpoint_meta w pid dev)))) /\
  w_fs w' !! ((p ++ [x]) ++ [completeName]) = Some (NFile [Byte.x31; Byte.x0a]) /\
  (exists w1 w2, same_place w w1 /\ same_place w w2 /\
     Orchestrator.checkpoint_body cfg fuel pid (env_opts w) (StageDir dir) w1 = (Ret tt, w2) /\
     forall k, k <> [completeName] ->
       w_fs w' !! ((p ++ [x]) ++ k) = w_fs w2 !! ((p ++ [x +:+ ".staging"]) ++ k)) /\
  (forall k, w_fs w' !! ((p ++ [x +:+ ".staging"]) ++ k) = None).
Proof.
  intros dir Hd Hl Hls Hm Kv0 E.
  destruct (checkpoint_attempt cfg fuel w pid out m v u w' Hm Kv0 E) as (w0 & n & K0 & E0 & En).
  destruct (counted_inv _ _ _ _ _ _ (p ++ [x]) E0) as (w4 & E4 & Hcw & Hf1).
  destruct (counted_inv _ _ _ _ _ _ (p ++ [x +:+ ".staging"]) E0) as (w4' & E' & _ & Hf2).
  rewrite E4 in E'. injection E' as <-. clear E E0. apply En in E4. clear En Hm.
  pose proof (keeps_doCheckpoint (same_place w) cfg fuel pid out w0 K0) as [Kc Kv]. rewrite E4 in Kc, Kv.
  cbn [snd] in Kc, Kv.
  assert (Hl4 : forall q, log_elsewhere w q -> log_elsewhere w4 q)
    by (intros q; unfold log_elsewhere, getenv; by rewrite Kc, Kv).
  specialize (Hf1 (Hl4 _ Hl)). specialize (Hf2 (Hl4 _ Hls)). clear Hl4.
  destruct (doCheckpoint_ret cfg fuel w w0 pid out p x w4 tt K0 Hd E4) as (w1 & w2 & Eb & K1 & K2 & Ef).
  pose proof (StageDir_names _ _ _ _ Hd) as Hs. pose proof K2 as [Hc2 _]. rewrite <- Hc2 in Hs, Hd.
  destruct (Finalize_ret _ _ p (x +:+ ".staging") x _ _ _ Hs Hd (staging_ne x) Ef) as (Hc & _ & Hk & Hgone).
  split; [congruence|]. split; [|split; [by rewrite Hf1, (Hk [completeName]), decide_True by done|]].
  - pose proof (checkpoint_body_ret cfg fuel w pid _ _ w1 tt w2 K1 (proj1 Hs) Eb) as (dev & Hdev & Em).
    exists dev. split; [done|]. rewrite Hf1, (Hk ["meta.bin"]), decide_False by done. rewrite <- Em. f_equal. f_equal.
    destruct Hs as (_ & _ & _ & <-). unfold at_path. by rewrite Hc2.
  - split; [|intros k; by rewrite Hf2]. exists w1, w2. split_and!; [done..|]. intros k Hne.
    by rewrite Hf1, Hk, decide_False.
Qed.

(** ** Properties *)

(** C3: a checkpoint that succeeds, at the first attempt or at a later one, has
    installed a finalized image. Where the
    log file is in neither the destination nor its staging directory, whatever
    system calls failed on the way, and whatever the shim and CRIU did to the
    files: the destination holds the completion mark and the metadata of the
    process (its pid, and the environment of the program), every other entry is
    what the staging directory held when the last step had run, with the options
    of the environment, and the staging directory is gone. *)
Theorem Checkpoint_installs `{Gpu} `{Zstd} `{Backend} `{EventFormat} cfg fuel w pid out m p x w' :
  Outside (same_place w) ->
  names (w_cwd w) (Orchestrator.checkpoint_dir cfg pid out) p x -> short_env w ->
  log_elsewhere w (p ++ [x]) -> log_elsewhere w (p ++ [x +:+ ".staging"]) ->
  checkpoint_run cfg fuel pid out m -> m w = (Ret tt, w') ->
  w_fs w' !! ((p ++ [x]) ++ [completeName]) = Some (NFile [Byte.x31; Byte.x0a]) /\
  (exists dev, has_meta (w_fs w') (p ++ [x]) (checkpoint_meta w pid dev)) /\
  (exists w1 w2, same_place w w1 /\ same_place w w2 /\
     Orchestrator.checkpoint_body cfg fuel pid (env_opts w) (StageDir (Orchestrator.checkpoint_dir cfg pid out)) w1
       = (Ret tt, w2) /\
     forall k, k <> [completeName] ->
       w_fs w' !! ((p ++ [x]) ++ k) = w_fs w2 !! ((p ++ [x +:+ ".staging"]) ++ k)) /\
  (forall k, w_fs w' !! ((p ++ [x +:+ ".staging"]) ++ k) = None).
Proof.
  intros HO Hd Hsh Hl Hls Hrun E.
  destruct (Checkpoint_ret _ _ w w _ _ _ _ _ _ _ Hd Hl Hls Hrun (conj eq_refl eq_refl) E) as (_ & (dev & Hdev & Hm) & Hc & Ht & Hg).
  split_and!; [done| |exact Ht|exact Hg]. exists dev, (meta_bytes (checkpoint_meta w pid dev)), w.
  split; [done|]. by apply decode_meta_bytes; [apply checkpoint_meta_wf|..].
Qed.

(** C38: a checkpoint taken by a program that runs without LD_PRELOAD can never
    be restored. The metadata records the environment of the program that takes
    the checkpoint, not of the process: where it has no LD_PRELOAD the
    checkpoint succeeds, but the check that precedes every restore refuses the
    image it has written, whatever system calls fail. *)
Theorem Checkpoint_without_preload `{Gpu} `{Zstd} `{Backend} `{EventFormat} cfg fuel w pid out m p x w' :
  Outside (same_place w) ->
  names (w_cwd w) (Orchestrator.checkpoint_dir cfg pid out) p x -> short_env w ->
  log_elsewhere w (p ++ [x]) -> log_elsewhere w (p ++ [x +:+ ".staging"]) ->
  getenv w "LD_PRELOAD" = "" ->
  checkpoint_run cfg fuel pid out m -> m w = (Ret tt, w') ->
  forall faults u,
    (PreflightRestore (Orchestrator.checkpoint_dir cfg pid out) (set_faults faults w')).1 <> Ret u.
Proof.
  intros HO Hd Hsh Hl Hls Hnone Hrun E faults u.
  destruct (Checkpoint_ret _ _ w w _ _ _ _ _ _ _ Hd Hl Hls Hrun (conj eq_refl eq_refl) E) as (Hcwd & (dev & Hdev & Hm) & _).
  destruct (PreflightRestore _ _) as [r w5] eqn:EP. cbn [fst]. intros ->.
  apply PreflightRestore_inv, pr_meta in EP as (mt & (c & v & Hf & Hdec) & Hpre); [|apply Hd].
  change (at_path (set_faults faults w') ?s) with (at_path w' s) in Hf. cbn [w_fs set_faults] in Hf.
  unfold at_path in Hf. destruct Hd as (_ & _ & _ & Hr). rewrite Hcwd, Hr, Hm in Hf. injection Hf as <-.
  rewrite decode_meta_bytes in Hdec by (done || by apply checkpoint_meta_wf).
  injection Hdec as <-. by apply Hpre.
Qed.

(** C39: checkpoints are counted. Each checkpoint, with retries or without, adds
    one to the counter of checkpoints when it succeeds and one to the counter of
    failures when it returns an error, however many attempts it makes; no other
    counter changes. *)
Theorem Checkpoint_counted `{Gpu} `{Zstd} `{Backend} `{EventFormat} cfg fuel pid out policy :
  (forall c, Outside (same_counters c)) ->
  counts CheckpointsTotal CheckpointFailures (Orchestrator.Checkpoint cfg fuel pid out) /\
  counts CheckpointsTotal CheckpointFailures (Orchestrator.CheckpointWithRetry cfg fuel pid out policy) /\
  counts CheckpointsTotal CheckpointFailures (Orchestrator.EnqueueCheckpoint cfg fuel pid out).
Proof.
  intros HO.
  assert (Hc : forall c, keeps (same_counters c) (Orchestrator.doCheckpoint cfg fuel pid out))
    by (intros c; specialize (HO c); by apply keeps_doCheckpoint).
  split_and!; apply counted_counts; intros c; [done|..];
    (apply keeps_retry_loop; [apply _..|intros i; apply keeps_bind; [apply keeps_Info, _|done]]).
Qed.

(** A checkpoint with retries gives up only after every attempt the policy
    allows: no error of a checkpoint stops the retries early, the test for
    unsupported operations included. The error is the one of the last attempt. *)
Theorem Enqueue_tries_all `{Gpu} `{Zstd} `{Backend} `{EventFormat} cfg fuel w pid out e w' :
  Orchestrator.EnqueueCheckpoint cfg fuel pid out w = (Err e, w') ->
  let policy := retryPolicy cfg in
  let attempt_ := fun n =>
    log_Info "checkpoint_attempt" (<["pid" := AnyInt pid]> {["attempt" := AnyInt n]}) ;;
    Orchestrator.doCheckpoint cfg fuel pid out in
  exists wk wk', tried policy attempt_ Orchestrator.unsupported w (MaxAttempts policy) wk /\
    attempt_ (MaxAttempts policy) wk = (Err e, wk').
Proof.
  intros E policy attempt_.
  assert (Hsame : default_policy policy = policy) by apply default_policy_idem.
  assert (Hpos : 1 <= MaxAttempts policy) by apply default_policy_pos.
  destruct (applyRetry_run policy attempt_ Orchestrator.unsupported w) as (k & wk & _ & Ht & Hrun & Hend).
  rewrite Hsame in Hend.
  unfold Orchestrator.EnqueueCheckpoint, Orchestrator.CheckpointWithRetry in E. fold policy in E.
  cbv zeta in E. destruct (decide (MaxAttempts policy <= 0)); [exfalso; lia|]. fold attempt_ in E.
  apply counted_fails in E as (w1 & E). rewrite Hrun in E. rewrite E in Hend.
  destruct Hend as [Hu| ->]; [|by exists wk, w1].
  pose proof (errs_attempt_ cfg fuel pid out k wk e w1 E) as Hr. unfold retried in Hr.
  congruence.
Qed.

(** ** A run *)

(** The backend of the tests, which restores the process as pid 7. *)
Definition demo_backend : Backend := Fake.backend (Fake.mkFake 7 None None).

Definition demo_events : EventFormat := {|
  format_time _ := "now"; format_seconds _ := "now";
  log_Marshal e := Some (bytes_of_string (ev_Event e));
  json_Marshal e := Some (bytes_of_string (pe_Phase e));
|}.

Definition demo_config : Config := mkConfig "/img" "/run" "" 3000000000 500000000 2 1000000000.

(** A process with the pid 7 whose shim is the test server, and the environment
    of the program. *)
Definition checkpoint_world (env : gmap string string) : world :=
  World (list_to_map [([], NDir); (["img"], NDir); (["run"], NDir); (["run"; "7.sock"], NSock)])
    (fun _ => 0) [] env 0 ∅ {[ ["run"; "7.sock"] := PMock "" 0 [] 0 ]} [] ∅ "".

Lemma demo_outside_place w : Outside (H:=idle_gpu) (H0:=demo_backend) (same_place w).
Proof. split; [done..|by apply keeps_fake_Dump|by apply keeps_fake_Restore|done|done]. Qed.

Lemma demo_outside_counters c : Outside (H:=idle_gpu) (H0:=demo_backend) (same_counters c).
Proof. split; [done..|by apply keeps_fake_Dump|by apply keeps_fake_Restore|done|done]. Qed.

Definition preloaded : world := 
  checkpoint_world (<["LD_PRELOAD" := "/usr/lib/libcudackpt.so"]> {["CUDACKPT_LOG" := "/log.jsonl"]}).

(** What the checkpoint of the process returns and leaves. *)
Definition demo_checkpoint (out : string) (w : world) : outcome unit * world :=
  Orchestrator.Checkpoint (H:=idle_gpu) (H0:=frame_zstd) (H1:=demo_backend) (H2:=demo_events) demo_config 3 7 out w.

Lemma demo_checkpoint_ok : (demo_checkpoint "/img/a" preloaded).1 = Ret tt.
Proof. by vm_compute. Qed.

Lemma demo_unpreloaded_ok : (demo_checkpoint "" (checkpoint_world ∅)).1 = Ret tt.
Proof. by vm_compute. Qed.

Lemma Checkpoint_installs_witness :
  let w' := (demo_checkpoint "/img/a" preloaded).2 in
  w_fs w' !! ["img"; "a"; completeName] = Some (NFile [Byte.x31; Byte.x0a]) /\
  (exists dev, has_meta (w_fs w') ["img"; "a"] (mkMeta MetaMagic 2 0 7 dev "/usr/lib/libcudackpt.so" "")).
Proof.
  intros w'.
  destruct (Checkpoint_installs (H:=idle_gpu) (H0:=frame_zstd) (H1:=demo_backend) (H2:=demo_events)
    demo_config 3 preloaded 7 "/img/a"
    (Orchestrator.Checkpoint (H:=idle_gpu) (H0:=frame_zstd) (H1:=demo_backend) (H2:=demo_events) demo_config 3 7 "/img/a")
    ["img"] "a" w') as (Hc & Hm & _).
  - apply demo_outside_place.
  - split_and!; [done|by exists [""; "img"]|done|done].
  - split; by vm_compute.
  - right. by intros [].
  - right. by intros [].
  - by left.
  - unfold w'. rewrite <- demo_checkpoint_ok. apply surjective_pairing.
  - by split.
Defined.

Lemma Checkpoint_without_preload_witness :
  let w := checkpoint_world ∅ in
  let w' := (demo_checkpoint "" w).2 in
  (demo_checkpoint "" w).1 = Ret tt /\
  forall faults u, (PreflightRestore "/img/ckpt-7" (set_faults faults w')).1 <> Ret u.
Proof.
  intros w w'. split; [apply demo_unpreloaded_ok|].
  apply (Checkpoint_without_preload (H:=idle_gpu) (H0:=frame_zstd) (H1:=demo_backend) (H2:=demo_events)
    demo_config 3 w 7 ""
    (Orchestrator.Checkpoint (H:=idle_gpu) (H0:=frame_zstd) (H1:=demo_backend) (H2:=demo_events) demo_config 3 7 "")
    ["img"] "ckpt-7" w').
  - apply demo_outside_place.
  - split_and!; [done|by exists [""; "img"]|done|done].
  - split; by vm_compute.
  - by left.
  - by left.
  - done.
  - by left.
  - unfold w'. rewrite <- demo_unpreloaded_ok. apply surjective_pairing.
Defined.

Lemma Checkpoint_counted_witness :
  counts CheckpointsTotal CheckpointFailures
    (Orchestrator.EnqueueCheckpoint (H:=idle_gpu) (H0:=frame_zstd) (H1:=demo_backend)
       (H2:=demo_events) demo_config 3 7 "/img/a").
Proof.
  apply (Checkpoint_counted (H:=idle_gpu) (H0:=frame_zstd) (H1:=demo_backend) (H2:=demo_events)
    demo_config 3 7 "/img/a" (mkRetryPolicy 1 1)).
  apply demo_outside_counters.
Defined.

(** No process has the pid 8: both attempts fail. *)
Definition demo_attempt (n : Z) : M unit :=
  log_Info (H:=demo_events) "checkpoint_attempt" (<["pid" := AnyInt 8]> {["attempt" := AnyInt n]}) ;;
  Orchestrator.doCheckpoint (H:=idle_gpu) (H0:=frame_zstd) (H1:=demo_backend) (H2:=demo_events) demo_config 3 8 "/img/b".

Lemma demo_gives_up :
  (Orchestrator.EnqueueCheckpoint (H:=idle_gpu) (H0:=frame_zstd) (H1:=demo_backend) (H2:=demo_events)
     demo_config 3 8 "/img/b" preloaded).1 =
  Err (ECkpt Code.RPC "dial: dial unix /run/8.sock: connect: no such file or directory").
Proof. vm_compute. reflexivity. Qed.

Lemma Enqueue_tries_all_witness :
  exists e wk wk',
    tried (mkRetryPolicy 2 1000000000) demo_attempt Orchestrator.unsupported preloaded 2 wk /\
    demo_attempt 2 wk = (Err e, wk').
Proof.
  exists (ECkpt Code.RPC "dial: dial unix /run/8.sock: connect: no such file or directory").
  eapply (Enqueue_tries_all (H:=idle_gpu) (H0:=frame_zstd) (H1:=demo_backend) (H2:=demo_events)
    demo_config 3 preloaded 8 "/img/b"). rewrite <- demo_gives_up. apply surjective_pairing.
Defined.
