(* ===== verification/ProcessFacts.v ===== *)
(** That the processing of an image keeps it intact, whatever system calls fail:
    pkg/image/pipeline.go with sparse.go, dedup.go and compress.go. *)
From S2P Require Export Checkpoint.
Local Open Scope Z_scope.

(** ** Files that are written to the end *)

(** When it succeeds, the computation has appended [d] to the file [p]. *)
Definition appends (p : path) (d : bytes) (m : M unit) : Prop := forall w u w',
  m w = (Ret u, w') -> exists l, w' = set_fs (append_at p d (w_fs w)) (set_faults l w).

Lemma append_at_nil p fs : append_at p [] fs = fs.
Proof. unfold append_at. destruct (fs !! p) as [[]|] eqn:E; try done. by rewrite app_nil_r, insert_id. Qed.

Lemma append_at_app p d1 d2 fs : append_at p d2 (append_at p d1 fs) = append_at p (d1 ++ d2) fs.
Proof.
  destruct (fs !! p) as [[c| |]|] eqn:E.
  1: rewrite <- (insert_id fs p (NFile c) E), !append_at_insert; by rewrite app_assoc.
  all: unfold append_at; by rewrite E, E.
Qed.

Lemma appends_ret p : appends p [] (mret tt).
Proof. intros w u w' [= _ <-]. exists (w_faults w). rewrite append_at_nil. by destruct w. Qed.

Lemma appends_fwrite f d : appends (f_path f) d (fwrite f d).
Proof. intros w u w'. apply fwrite_ret. Qed.

Lemma appends_bind p d1 d2 m k : appends p d1 m -> appends p d2 k -> appends p (d1 ++ d2) (m ;; k).
Proof.
  intros Hm Hk w u w' ([] & w1 & E1 & E2)%bind_inv. apply Hm in E1 as (l1 & ->). apply Hk in E2 as (l2 & ->).
  exists l2. cbn [w_fs set_fs set_faults]. by rewrite append_at_app.
Qed.

Lemma appends_forM {A} p (l : list A) f g :
  (forall a, appends p (g a) (f a)) -> appends p (flat_map g l) (forM_ l f).
Proof.
  intros Hf. induction l as [|a l IH]; cbn [flat_map forM_]; [apply appends_ret|].
  by apply appends_bind.
Qed.

Lemma appends_writeEntry f e v : appends (f_path f) (entry_bytes v e) (writeEntry f e v).
Proof.
  unfold writeEntry, entry_bytes. do 5 (apply appends_bind; [apply appends_fwrite|]).
  case_decide; [apply appends_fwrite|apply appends_ret].
Qed.

(** A manifest that has been written without an error is there in full. *)
Lemma WriteManifestFlags_ret s es fl v w u w' :
  WriteManifestFlags s es fl v w = (Ret u, w') ->
  exists l, w' = set_fs (<[at_path w s := NFile (manifest_bytes es fl v)]> (w_fs w)) (set_faults l w).
Proof.
  unfold WriteManifestFlags. intros (f & w1 & Hc & E)%bind_inv. apply Create_ret in Hc as (Hf & l & ->).
  assert (A : appends (f_path f) (manifest_bytes es fl v)
    (fwrite f (header_bytes (manifest_header es fl v)) ;; forM_ es (fun e => writeEntry f e v))).
  { apply appends_bind; [apply appends_fwrite|]. apply appends_forM. intros e. apply appends_writeEntry. }
  apply A in E as (l' & ->). exists l'. rewrite Hf. cbn [w_fs set_fs set_faults]. by rewrite append_at_insert.
Qed.

(** ** What processing keeps *)

(** The entries of the image directory [st] but its manifest and its device
    content. *)
Definition other (st q : path) : Prop := q <> st ++ ["manifest.bin"] /\ q <> st ++ ["device.bin"].

Lemma other_child st x : x <> "manifest.bin" -> x <> "device.bin" -> other st (st ++ [x]).
Proof. intros H1 H2. split; intros E%app_inv_head; congruence. Qed.

Lemma other_below st x k : x <> "manifest.bin" -> x <> "device.bin" -> other st ((st ++ [x]) ++ k).
Proof. intros H1 H2. rewrite <- app_assoc. split; intros E%app_inv_head; cbn in E; congruence. Qed.

Lemma other_prefix st q : q `prefix_of` st -> other st q.
Proof.
  intros [k ->]. split; intros E; apply (f_equal length) in E; rewrite !length_app in E; cbn in E; lia.
Qed.

(** The image is in the same place with the same device content, and intact if
    it was. *)
Definition processed (st : path) (w w' : world) : Prop :=
  w_cwd w' = w_cwd w /\
  w_fs w' !! (st ++ ["device.bin"]) = w_fs w !! (st ++ ["device.bin"]) /\
  ((exists es, intact (w_fs w) st es) -> exists es, intact (w_fs w') st es).

Lemma processed_refl st w : processed st w w.
Proof. done. Qed.

Lemma processed_trans st w1 w2 w3 : processed st w1 w2 -> processed st w2 w3 -> processed st w1 w3.
Proof. intros (H1 & H2 & H3) (H1' & H2' & H3'). split_and!; [congruence..|auto]. Qed.

(** Entries that describe the same bytes. *)
Definition same_chunk (e e' : Entry) : Prop :=
  e_Size e' = e_Size e /\ e_Offset e' = e_Offset e /\ e_CRC32C e' = e_CRC32C e.

Lemma same_chunk_verified d e e' : same_chunk e e' -> verified d e -> verified d e'.
Proof. unfold verified, chunk, in_device. by intros (-> & -> & ->). Qed.

Lemma stored_same v e : same_chunk e (stored v e).
Proof. unfold stored. by case_decide. Qed.

Lemma same_chunks_verified d es es' :
  Forall2 same_chunk es es' -> Forall (verified d) es -> Forall (verified d) es'.
Proof. induction 1; inversion_clear 1; constructor; eauto using same_chunk_verified. Qed.

Lemma same_chunks_refl es : Forall2 same_chunk es es.
Proof. by apply Forall_Forall2_diag, Forall_true. Qed.

(** The step that ends each kind of processing: the manifest is written again,
    with entries of the same chunks and another flag. *)
Lemma manifest_rewritten dir w w1 c es es' h rest bit u w' :
  let st := at_path w dir in
  dir <> "" -> w_fs w !! (st ++ ["manifest.bin"]) = Some (NFile c) -> parse_manifest c = inr (es, h, rest) ->
  frame (other st) w w1 -> Forall2 same_chunk es es' -> Forall wf_entry es' -> is_u16 bit ->
  WriteManifestFlags (PathJoin [dir; "manifest.bin"]) es' (set_flag (h_Flags h) bit) (h_Version h) w1 = (Ret u, w') ->
  processed st w w'.
Proof.
  intros st Hd Hc Hp (Hcw & _ & _ & F) Hes Hwf Hbit (l & ->)%WriteManifestFlags_ret.
  assert (Hat : at_path w1 (PathJoin [dir; "manifest.bin"]) = st ++ ["manifest.bin"])
    by (rewrite at_path_Join by done; unfold at_path; by rewrite Hcw).
  rewrite Hat. unfold processed. cbn [w_cwd w_fs set_fs set_faults].
  assert (Hdev : w_fs w1 !! (st ++ ["device.bin"]) = w_fs w !! (st ++ ["device.bin"]))
    by (apply F; intros [_ H]; by apply H).
  assert (Hne : st ++ ["manifest.bin"] <> st ++ ["device.bin"]) by (intros E%app_inv_head; congruence).
  split; [done|]. split; [by rewrite lookup_insert_ne|].
  intros (es0 & Hdv & c0 & h0 & rest0 & Hc0 & Hp0 & Hv). rewrite Hc in Hc0. injection Hc0 as <-.
  rewrite Hp in Hp0. injection Hp0 as <- <- <-.
  apply parse_manifest_exact in Hp as (_ & (_ & Hver & Hfl & Hcnt & _) & _ & Hlen & _).
  assert (Hm : wf_manifest es' (set_flag (h_Flags h) bit) (h_Version h)).
  { split; [done| |by apply set_flag_u16|done]. rewrite <- (Forall2_length _ _ _ Hes), Hlen. exact Hcnt. }
  exists (stored (h_Version h) <$> es'). split; [by rewrite lookup_insert_ne, Hdev|].
  exists (manifest_bytes es' (set_flag (h_Flags h) bit) (h_Version h)),
    (manifest_header es' (set_flag (h_Flags h) bit) (h_Version h)), [].
  split; [by rewrite lookup_insert_eq|]. split.
  - pose proof (reads_manifest _ _ _ Hm []) as R. by rewrite app_nil_r in R.
  - unfold device_of in *. rewrite lookup_insert_ne, Hdev by done.
    apply same_chunks_verified with (es := es); [|done]. rewrite <- (list_fmap_id es).
    apply Forall2_fmap. eapply Forall2_impl; [exact Hes|]. intros e e' (H1 & H2 & H3).
    destruct (stored_same (h_Version h) e') as (H1' & H2' & H3'). split_and!; cbn; congruence.
Qed.

Lemma frame_processed st w w' : frame (other st) w w' -> processed st w w'.
Proof.
  intros (Hc & _ & _ & F). split; [done|].
  assert (Hd : w_fs w' !! (st ++ ["device.bin"]) = w_fs w !! (st ++ ["device.bin"])) by (apply F; intros [_ H]; by apply H).
  assert (Hm : w_fs w' !! (st ++ ["manifest.bin"]) = w_fs w !! (st ++ ["manifest.bin"])) by (apply F; intros [H _]; by apply H).
  split; [done|]. intros (es & Hi). exists es. unfold intact, device_of in *. by rewrite Hm, Hd.
Qed.

(** One more step away from the manifest and the device content. *)
Lemma other_step {A} st w w1 (m : M A) r w2 :
  frame (other st) w w1 -> framed (w_cwd w) (other st) m -> m w1 = (r, w2) -> frame (other st) w w2.
Proof.
  intros F Hm E. eapply frame_trans; [exact F|]. specialize (Hm w1 (proj1 F)). by rewrite E in Hm.
Qed.

Lemma prefix_other st x k q :
  x <> "manifest.bin" -> x <> "device.bin" -> q `prefix_of` st ++ x :: k -> other st q.
Proof.
  intros H1 H2 [j E]. split; intros ->; rewrite <- app_assoc in E; apply app_inv_head in E; cbn in E; congruence.
Qed.

(** ** Each kind of processing *)

Lemma framed_read_chunk cwd S f size off : framed cwd S (read_chunk f size off).
Proof. unfold read_chunk. destruct (make_ok size); [apply framed_ReadAt|apply framed_panic]. Qed.

Lemma framed_sparse_scan cwd S f es : framed cwd S (sparse_scan f es).
Proof.
  induction es as [|e es IH]; cbn [sparse_scan]; [apply framed_ret|]. case_decide; [done|].
  apply framed_bind; [apply framed_read_chunk|intros buf]. apply framed_bind; [done|intros r; apply framed_ret].
Qed.

(** An entry of the directory that processing may write. *)
Lemma other_entry cwd dir x :
  dir <> "" -> proper x = true -> x <> "manifest.bin" -> x <> "device.bin" ->
  other (resolve cwd dir) (resolve cwd (PathJoin [dir; x])).
Proof.
  intros Hd Hx H1 H2. set (v := World ∅ (fun _ => 0) cwd ∅ 0 ∅ ∅ [] ∅ "").
  change (resolve cwd) with (at_path v). rewrite at_path_Join by done. by apply other_child.
Qed.

(** Run the next step of [E], which writes nothing but other entries. *)
Ltac other_step F E lem :=
  let x := fresh "x" in let w := fresh "w" in let Ei := fresh "Ei" in
  apply bind_inv in E as (x & w & Ei & E); apply (other_step _ _ _ _ _ _ F) in Ei; [|lem];
  clear F; rename Ei into F.

Lemma ApplySparse_processed dir w u w' :
  dir <> "" -> ApplySparse dir w = (Ret u, w') -> processed (at_path w dir) w w'.
Proof.
  intros Hd. unfold ApplySparse. intros ([es h] & w1 & Em & E)%bind_inv.
  apply ReadManifest_inv in Em as (l & c & rest & -> & Hc & Hp). rewrite at_path_Join in Hc by done.
  assert (F : frame (other (at_path w dir)) w (set_faults l w)) by done.
  other_step F E ltac:(apply framed_Open). other_step F E ltac:(apply framed_sparse_scan).
  case_decide; [injection E as _ <-; by apply frame_processed|].
  apply bind_inv in E as (sf & w3 & Es & E). pose proof (Create_ret _ _ _ _ Es) as [Hsf _].
  assert (Hsf' : other (at_path w dir) (f_path sf))
    by (rewrite Hsf; unfold at_path at 2; rewrite (proj1 F); by apply other_entry).
  apply (other_step _ _ _ _ _ _ F) in Es; [|by apply framed_Create, other_entry]. clear F. rename Es into F.
  do 2 other_step F E ltac:(by apply framed_fwrite).
  other_step F E ltac:(by apply framed_forM; intros; apply framed_fwrite).
  pose proof (parse_manifest_exact _ _ _ _ Hp) as (_ & _ & _ & _ & Hwf).
  by eapply (manifest_rewritten dir); [done|exact Hc|exact Hp|exact F|apply same_chunks_refl|exact Hwf| |exact E].
Qed.

Lemma CompressDevice_processed `{Zstd} dir w u w' :
  dir <> "" -> CompressDevice dir w = (Ret u, w') ->
  processed (at_path w dir) w w' /\
  exists d, w_fs w !! (at_path w dir ++ ["device.bin"]) = Some (NFile d) /\
    w_fs w' !! (at_path w dir ++ [deviceZst]) = Some (NFile (EncodeAll d)).
Proof.
  intros Hd. unfold CompressDevice. intros (d & w1 & Ed & E)%bind_inv.
  apply ReadFile_inv in Ed as (l & -> & Hdev). rewrite at_path_Join in Hdev by done.
  apply bind_inv in E as (u1 & w2 & Ez & E). apply WriteFile_ret in Ez as (l2 & ->).
  change (at_path (set_faults l w) ?s) with (at_path w s) in E. rewrite at_path_Join in E by done.
  cbn [w_fs set_faults] in E. set (w2 := set_fs _ _) in E.
  assert (F : frame (other (at_path w dir)) w w2).
  { unfold frame, w2. cbn [w_cwd w_env w_mtime w_fs set_fs set_faults]. split_and!; [done..|]. intros q Hq.
    apply lookup_insert_ne. intros <-. by apply Hq, other_child. }
  apply bind_inv in E as ([es h] & w3 & Em & E).
  apply ReadManifest_inv in Em as (l3 & c & rest & -> & Hc & Hp).
  change (at_path w2 ?s) with (at_path w s) in Hc. rewrite at_path_Join in Hc by done.
  pose proof (parse_manifest_exact _ _ _ _ Hp) as (_ & _ & _ & _ & Hwf). split.
  - eapply (manifest_rewritten dir w (set_faults l3 w2)); [done| |exact Hp|exact F|apply same_chunks_refl|done| |exact E]; [|done].
    rewrite <- Hc. symmetry. apply F. by intros [Hm _].
  - exists d. split; [done|]. apply WriteManifestFlags_ret in E as (l4 & ->). cbn [w_fs set_fs set_faults].
    change (at_path (set_faults l3 w2) ?s) with (at_path w s). rewrite at_path_Join by done.
    rewrite lookup_insert_ne by (intros Eq%app_inv_head; discriminate). unfold w2. cbn [w_fs set_fs set_faults].
    by rewrite lookup_insert_eq.
Qed.

(** *** Deduplication *)

Lemma Put_ret cas d w h w' : Put cas d w = (Ret h, w') -> h = Sum256 d.
Proof.
  unfold Put. cbv zeta. intros (r & w1 & _ & E)%bind_inv. destruct r as [e|n]; [|by injection E].
  apply bind_inv in E as (u1 & w2 & _ & E). apply bind_inv in E as (u2 & w3 & _ & E).
  apply bind_inv in E as (r & w4 & _ & E). destruct r as [e'|]; [|by injection E].
  by apply bind_inv in E as (? & ? & _ & E).
Qed.

(** The store of an image is in its directory cas. *)
Lemma framed_Put cwd dir d :
  dir <> "" -> framed cwd (other (resolve cwd dir)) (Put (mkCAS (PathJoin [dir; "cas"])) d).
Proof.
  intros Hd. set (v := World ∅ (fun _ => 0) cwd ∅ 0 ∅ ∅ [] ∅ "").
  destruct (Join_entry v dir "cas" Hd eq_refl) as [Hne Hat].
  assert (Hl := length_Sum256 d). unfold Put. cbv zeta. destruct (Sum256 d) as [|b [|b' l]]; [done..|].
  destruct (cas_path_resolves v (mkCAS (PathJoin [dir; "cas"])) b (b' :: l) Hne ltac:(done)) as (_ & H1 & H2 & H3).
  unfold obj_dir in H1, H2, H3. cbn [Root] in H1, H2, H3. rewrite Hat in H1, H2, H3.
  change (at_path v) with (resolve cwd) in H1, H2, H3. set (path := cas_path _ _) in *.
  assert (Hb : forall k k', other (resolve cwd dir) (((resolve cwd dir ++ ["cas"]) ++ k) ++ k'))
    by (intros k k'; rewrite <- app_assoc; by apply other_below).
  apply framed_bind; [apply framed_attempt, framed_Stat|]. intros [e|n]; [|apply framed_ret].
  apply framed_bind.
  { apply framed_MkdirAll. rewrite H2. intros q Hq. rewrite <- app_assoc in Hq. by apply (prefix_other _ "cas" [hex_encode [b]]). }
  intros _. apply framed_bind; [apply framed_WriteFile; rewrite H3; apply Hb|].
  intros _. apply framed_bind.
  { apply framed_attempt, framed_Rename. rewrite H1, H3. intros q [[j ->]|[j ->]]; rewrite <- app_assoc; apply Hb. }
  intros [e'|]; [|apply framed_ret]. apply framed_bind; [|intros; apply framed_throw].
  apply framed_ignore, framed_Remove. rewrite H3. apply Hb.
Qed.

Lemma framed_dedup_entries cwd dir f es :
  dir <> "" -> framed cwd (other (resolve cwd dir)) (dedup_entries (mkCAS (PathJoin [dir; "cas"])) f es).
Proof.
  intros Hd. induction es as [|e es IH]; cbn [dedup_entries]; [apply framed_ret|].
  apply framed_bind; [apply framed_read_chunk|intros buf]. apply framed_bind; [by apply framed_Put|intros h].
  apply framed_bind; [done|intros r; apply framed_ret].
Qed.

Lemma dedup_entries_ret cas f es w es' w' :
  Forall wf_entry es -> dedup_entries cas f es w = (Ret es', w') -> Forall2 same_chunk es es' /\ Forall wf_entry es'.
Proof.
  intros HF. revert w es' w'. induction HF as [|e es He HF IH]; intros w es' w'; cbn [dedup_entries].
  - intros [= <- _]. by repeat constructor.
  - intros (buf & w1 & _ & E)%bind_inv. apply bind_inv in E as (h & w2 & Eh & E). apply Put_ret in Eh as ->.
    apply bind_inv in E as (r & w3 & Er & E). injection E as <- _. apply IH in Er as [H1 H2].
    split; constructor; try done. destruct He. split; try done. apply length_Sum256.
Qed.

Lemma framed_map_line cwd S f e : S (f_path f) -> framed cwd S (write_map_line f e).
Proof.
  intros Hf. unfold write_map_line, itoa64_go.
  do 2 (apply framed_bind; [destruct (itoa64 _); [apply framed_ret|apply framed_panic]|intros ?]).
  by apply framed_fwrite.
Qed.

Lemma DedupDevice_processed dir w u w' :
  dir <> "" -> DedupDevice dir w = (Ret u, w') -> processed (at_path w dir) w w'.
Proof.
  intros Hd. unfold DedupDevice. cbv zeta. intros ([es h] & w1 & Em & E)%bind_inv.
  apply ReadManifest_inv in Em as (l & c & rest & -> & Hc & Hp). rewrite at_path_Join in Hc by done.
  pose proof (parse_manifest_exact _ _ _ _ Hp) as (_ & _ & _ & _ & Hwf).
  assert (F : frame (other (at_path w dir)) w (set_faults l w)) by done.
  other_step F E ltac:(apply framed_Open).
  apply bind_inv in E as (cas & w2 & Ec & E). assert (cas = mkCAS (PathJoin [dir; "cas"])) as ->.
  { unfold NewCAS in Ec. apply bind_inv in Ec as (? & ? & _ & Ec). by injection Ec. }
  apply (other_step _ _ _ _ _ _ F) in Ec.
  2:{ apply framed_bind; [|intros; apply framed_ret]. apply framed_MkdirAll. intros q Hq.
      change (resolve (w_cwd w)) with (at_path w) in Hq. rewrite at_path_Join in Hq by done. by apply (prefix_other _ "cas" []). }
  clear F. rename Ec into F.
  apply bind_inv in E as (es' & w3 & Ee & E). destruct (dedup_entries_ret _ _ _ _ _ _ Hwf Ee) as [Hsame Hwf'].
  apply (other_step _ _ _ _ _ _ F) in Ee; [|by apply framed_dedup_entries]. clear F. rename Ee into F.
  apply bind_inv in E as (mf & w4 & Es & E). pose proof (Create_ret _ _ _ _ Es) as [Hsf _].
  assert (Hsf' : other (at_path w dir) (f_path mf))
    by (rewrite Hsf; unfold at_path at 2; rewrite (proj1 F); by apply other_entry).
  apply (other_step _ _ _ _ _ _ F) in Es; [|by apply framed_Create, other_entry]. clear F. rename Es into F.
  other_step F E ltac:(by apply framed_forM; intros; apply framed_map_line).
  by eapply (manifest_rewritten dir); [done|exact Hc|exact Hp|exact F|exact Hsame|exact Hwf'| |exact E].
Qed.

(** Sparse images, deduplication and compression, in any combination: the image
    stays intact, and a compressed copy is one of its device content. *)
Lemma ProcessImage_processed `{Zstd} fuel dir opts w u w' :
  let st := at_path w dir in
  dir <> "" -> Parent opts = "" -> ProcessImage fuel dir opts w = (Ret u, w') ->
  processed st w w' /\
  (Compress opts = true -> exists d, w_fs w' !! (st ++ ["device.bin"]) = Some (NFile d) /\
     w_fs w' !! (st ++ [deviceZst]) = Some (NFile (EncodeAll d))).
Proof.
  intros st Hd Hpar. unfold ProcessImage. rewrite decide_False by (intros Hn; by apply Hn).
  assert (Hat : forall v, w_cwd v = w_cwd w -> at_path v dir = st) by (intros v Hv; unfold st, at_path; by rewrite Hv).
  intros (u1 & w1 & E1 & E)%bind_inv. apply bind_inv in E as (u2 & w2 & E2 & E).
  apply bind_inv in E as (u3 & w3 & E3 & E). injection E as _ <-.
  assert (P1 : processed st w w1)
    by (destruct (Sparse opts); [by apply ApplySparse_processed in E1|by injection E1 as _ <-]).
  assert (P2 : processed st w1 w2).
  { destruct (Dedup opts); [|by injection E2 as _ <-]. apply DedupDevice_processed in E2; [|done].
    by rewrite Hat in E2 by apply P1. }
  assert (Hc2 : w_cwd w2 = w_cwd w) by (rewrite <- (proj1 P1); apply P2).
  destruct (Compress opts).
  - apply CompressDevice_processed in E3 as [P3 (d & Hdev & Hz)]; [|done]. rewrite Hat in P3, Hdev, Hz by done. split.
    + eapply processed_trans; [exact P1|]. by eapply processed_trans.
    + intros _. exists d. split; [|done]. destruct P3 as (_ & -> & _). done.
  - injection E3 as _ <-. split; [by eapply processed_trans|done].
Qed.
