(* ===== verification/CheckpointFacts.v ===== *)
(** That the image a checkpoint installs is the one it has verified:
    pkg/control/orchestrator.go and pkg/control/validate.go together. *)
From S2P Require Export ProcessFacts.
Local Open Scope Z_scope.

(** ** What comes after the image is verified *)

(** What the dump of the process and the metadata write of an image. *)
Definition late_files (st : path) (q : path) : Prop :=
  q `prefix_of` st \/ st ++ ["criu"] `prefix_of` q \/ q = st ++ ["meta.bin"].

Section late.
Context `{Backend}.

Lemma framed_le_at cwd S lo n b : framed cwd S (le_at lo n b).
Proof using Type.
  unfold le_at, go_slice. intros w Hw. by case_decide.
Qed.

Lemma framed_checkpoint_dump cwd pid staging :
  let st := resolve cwd staging in
  staging <> "" -> framed cwd (late_files st) (criu_Dump pid staging) ->
  framed cwd (late_files st) (Orchestrator.checkpoint_dump pid staging).
Proof using Type.
  intros st Hne Hd. unfold Orchestrator.checkpoint_dump.
  apply framed_bind; [by apply framed_wrap|]. intros _.
  apply framed_bind.
  { apply framed_attempt. unfold ReadDev. apply framed_bind; [apply framed_ReadFile|]. intros b.
    case_decide; [apply framed_throw|apply framed_le_at]. }
  intros dev. do 2 (apply framed_bind; [apply framed_gets|]; intros ?).
  apply framed_wrap. unfold WriteMeta. apply framed_WriteFile. right; right.
  change (at_path (World ∅ (fun _ => 0) cwd ∅ 0 ∅ ∅ [] ∅ "") (PathJoin [staging; "meta.bin"]) = st ++ ["meta.bin"]).
  by rewrite at_path_Join.
Qed.
End late.

(** ** The image that was verified *)

(** Whether an image is intact depends on its manifest and its device content. *)
Lemma intact_same fs fs' p q es :
  fs' !! (q ++ ["manifest.bin"]) = fs !! (p ++ ["manifest.bin"]) ->
  fs' !! (q ++ ["device.bin"]) = fs !! (p ++ ["device.bin"]) ->
  intact fs p es -> intact fs' q es.
Proof.
  intros Hm Hd (Hx & c & h & rest & Hc & Hp & Hv). unfold intact, device_of in *. rewrite Hm, Hd.
  split; [done|]. by exists c, h, rest.
Qed.

(** The files of the image are not among those written late. *)
Lemma early_file st x : x <> "criu" -> x <> "meta.bin" -> ~ late_files st (st ++ [x]).
Proof.
  intros H1 H2 [[k E]|[[k E]|E]].
  - rewrite <- app_assoc in E. apply (f_equal length) in E. rewrite !length_app in E. cbn in E. lia.
  - rewrite <- app_assoc in E. apply app_inv_head in E. by injection E as ->.
  - apply app_inv_head in E. by injection E as ->.
Qed.

(** The metadata an image has is what its file was encoded from. *)
Lemma has_meta_bytes fs q mt m :
  wf_meta mt -> m_Magic mt = MetaMagic -> m_Version mt = 2 ->
  fs !! (q ++ ["meta.bin"]) = Some (NFile (meta_bytes mt)) -> has_meta fs q m <-> m = mt.
Proof.
  intros Hwf Hmg Hv Hf. split.
  - intros (b & v & Hb & Hdec). rewrite Hf in Hb. injection Hb as <-.
    rewrite decode_meta_bytes in Hdec by done. by injection Hdec as <-.
  - intros ->. exists (meta_bytes mt), demo_world. split; [done|]. by apply decode_meta_bytes.
Qed.

(** Such an image has all that [PreflightRestore] looks for exactly when there is
    a library to preload, CRIU has left its directory, and there is a chunk; the
    device content is there. *)
Lemma intact_preflighted fs q mt :
  wf_meta mt -> m_Magic mt = MetaMagic -> m_Version mt = 2 ->
  fs !! (q ++ ["meta.bin"]) = Some (NFile (meta_bytes mt)) ->
  is_Some (fs !! (q ++ [completeName])) -> is_Some (fs !! (q ++ ["device.bin"])) ->
  preflighted fs q <->
  m_Preload mt <> "" /\ is_Some (fs !! (q ++ ["criu"])) /\
  exists c es h rest, fs !! (q ++ ["manifest.bin"]) = Some (NFile c) /\
    parse_manifest c = inr (es, h, rest) /\ es <> [] /\
    (HasFlag (h_Flags h) FlagCompressed = true -> is_Some (fs !! (q ++ [deviceZst]))).
Proof.
  intros Hwf Hmg Hv Hf Hc Hdev. pose proof (fun m => has_meta_bytes fs q mt m Hwf Hmg Hv Hf) as Hm. split.
  - intros [_ Hcr (m & ->%Hm & Hp) (c & es & h & rest & ? & ? & ? & Hfl)]. split_and!; [done..|].
    exists c, es, h, rest. split_and!; [done..|]. by destruct (HasFlag _ FlagCompressed).
  - intros (Hp & Hcr & c & es & h & rest & ? & ? & ? & Hfl).
    split; [done|done|exists mt; by rewrite Hm|]. exists c, es, h, rest. split_and!; [done..|].
    destruct (HasFlag _ FlagCompressed); [by apply Hfl|by right].
Qed.

Section verified.
Context `{Gpu} `{Zstd} `{Backend} `{EventFormat} (cfg : Config) (fuel : nat).

Lemma Snapshot_intact w `{!Outside (same_place w)} pid st w0 u w' :
  same_place w w0 -> st <> "" -> log_elsewhere w (at_path w st) ->
  Orchestrator.Snapshot cfg fuel pid st w0 = (Ret u, w') ->
  exists es, intact (w_fs w') (at_path w st) es.
Proof.
  intros K0 Hst Hl. unfold Orchestrator.Snapshot.
  intros (c & w1 & E1 & E)%bind_inv. apply bind_inv in E as (c2 & w2 & E2 & E).
  apply bind_inv in E as (u3 & w3 & E3 & E).
  assert (K : keeps (same_place w) (Orchestrator.dial cfg pid ≫= fun cli =>
            wrap_err Code.CUDA "snapshot" (Client.Snapshot cli st) ;; verifyImage fuel st))
    by (keep; first [apply (keeps_dial (same_place w))|apply (keeps_checked (same_place w))]).
  specialize (K w0 K0). rewrite (bind_run _ _ _ _ _ E1), (bind_run _ _ _ _ _ E2), E3 in K.
  destruct K as [Kc Kv]. cbn [snd] in Kc, Kv.
  apply verifyImage_inv in E3 as [es Hes]; [|done]. exists es.
  assert (Hat : at_path w3 st = at_path w st) by (unfold at_path; by rewrite Kc).
  rewrite Hat in Hes. unfold log_Info in E.
  match type of E with emit ?l ?n ?e ?f _ = _ => pose proof (emit_elsewhere l n e f w3 (at_path w st)) as Hf end.
  rewrite E in Hf. assert (Hl3 : log_elsewhere w3 (at_path w st))
    by (unfold log_elsewhere, getenv in *; by rewrite Kc, Kv).
  by eapply intact_same; [apply Hf|apply Hf|].
Qed.

(** Where CRIU writes its own directory only, the image that is verified and
    processed is the one that is left. *)
Lemma checkpoint_body_intact w `{!Outside (same_place w)} pid st w0 u w' :
  same_place w w0 -> st <> "" -> log_elsewhere w (at_path w st) -> Parent (env_opts w) = "" ->
  framed (w_cwd w) (late_files (at_path w st)) (criu_Dump pid st) ->
  Orchestrator.checkpoint_body cfg fuel pid (env_opts w) st w0 = (Ret u, w') ->
  (exists es, intact (w_fs w') (at_path w st) es) /\
  (Compress (env_opts w) = true -> exists d, w_fs w' !! (at_path w st ++ ["device.bin"]) = Some (NFile d) /\
     w_fs w' !! (at_path w st ++ [deviceZst]) = Some (NFile (EncodeAll d))).
Proof.
  intros K0 Hst Hl Hopts Hd. unfold Orchestrator.checkpoint_body.
  intros (u1 & w1 & E1 & E)%bind_inv. apply bind_inv in E as (u2 & w2 & E2 & E).
  apply bind_inv in E as (u3 & w3 & E3 & E). apply wrap_err_inv in E3.
  assert (K1 : same_place w w1)
    by (pose proof (keeps_Freeze (same_place w) cfg pid w0 K0) as K; by rewrite E1 in K).
  assert (K2 : same_place w w2)
    by (pose proof (keeps_Snapshot (same_place w) cfg fuel pid st w1 K1) as K; by rewrite E2 in K).
  apply (Snapshot_intact w) in E2; [|done..].
  apply ProcessImage_processed in E3 as [P Hz]; [|done..].
  assert (Hat : at_path w2 st = at_path w st) by (unfold at_path; by rewrite (proj1 K2)).
  rewrite Hat in P, Hz. destruct P as (Hc & _ & Hi). destruct (Hi E2) as [es Hes].
  destruct (framed_checkpoint_dump (w_cwd w) pid st Hst Hd w3) as (_ & _ & _ & F); [by rewrite Hc, (proj1 K2)|].
  rewrite E in F. split.
  - exists es. by eapply intact_same; [apply F, early_file..|].
  - intros Hcomp. destruct (Hz Hcomp) as (d & H1' & H2'). exists d. by rewrite !F by (by apply early_file).
Qed.

(** What is installed of it. *)
Lemma installed_intact w `{!Outside (same_place w)} pid dir p x w1 w2 fs :
  names (w_cwd w) dir p x -> same_place w w1 -> log_elsewhere w (p ++ [x +:+ ".staging"]) ->
  Parent (env_opts w) = "" ->
  framed (w_cwd w) (late_files (p ++ [x +:+ ".staging"])) (criu_Dump pid (StageDir dir)) ->
  Orchestrator.checkpoint_body cfg fuel pid (env_opts w) (StageDir dir) w1 = (Ret tt, w2) ->
  (forall k, k <> [completeName] -> fs !! ((p ++ [x]) ++ k) = w_fs w2 !! ((p ++ [x +:+ ".staging"]) ++ k)) ->
  (exists es, intact fs (p ++ [x]) es) /\
  (Compress (env_opts w) = true -> exists d, fs !! ((p ++ [x]) ++ ["device.bin"]) = Some (NFile d) /\
     fs !! ((p ++ [x]) ++ [deviceZst]) = Some (NFile (EncodeAll d))).
Proof.
  intros Hd K1 Hls Hopts Hcriu Eb Hk. destruct (StageDir_names _ _ _ _ Hd) as (Hne & _ & _ & Hr).
  change (resolve (w_cwd w)) with (at_path w) in Hr.
  apply checkpoint_body_intact with (w := w) in Eb as [[es Hes] Hz]; rewrite ?Hr; [|done..].
  rewrite Hr in Hes, Hz. split; [exists es; by eapply intact_same; [apply Hk..|]|].
  intros Hc. rewrite !Hk by done. by apply Hz.
Qed.
End verified.

(** CRIU itself writes its own directory only where the programs that are run do. *)
Lemma framed_wrapper_Dump `{Exec} cwd st wr pid dir :
  dir <> "" -> resolve cwd dir = st ->
  (forall name args, framed cwd (fun q => st ++ ["criu"] `prefix_of` q) (Run_ name args)) ->
  framed cwd (late_files st) (Wrapper.Dump wr pid dir).
Proof.
  intros Hd Hr Hrun. unfold Wrapper.Dump. apply framed_bind.
  { apply framed_MkdirAll. rewrite Hr. by left. }
  intros _. apply framed_bind; [|intros mounts; apply framed_bind].
  - unfold Wrapper.nvidiaExtMounts. generalize ["/dev/nvidiactl"; "/dev/nvidia-uvm"; "/dev/nvidia-uvm-tools";
      "/dev/nvidia0"; "/dev/nvidia1"; "/dev/nvidia2"; "/dev/nvidia3"] as l. intros l.
    induction l as [|d l IH]; cbn [Wrapper.ext_mounts]; [apply framed_ret|].
    apply framed_bind; [apply framed_attempt, framed_Stat|intros r]. apply framed_bind; [done|intros a; apply framed_ret].
  - eapply framed_weaken; [|apply Hrun]. intros q Hq. right; by left.
  - intros [e|]; [apply framed_throw|apply framed_ret].
Qed.

(** ** Properties *)

(** C2: the image a checkpoint installs is the one it has verified. Without a
    parent image, with compression, sparse maps and deduplication in any
    combination, where the log is elsewhere and CRIU writes its own directory
    only, a checkpoint that succeeds, at the first attempt or at a later one and
    whatever system calls failed, has installed an image every chunk of which is
    in device.bin with the checksum the manifest gives; where compression is
    asked for, device.zst is the encoding of device.bin. Of what
    ValidateImage looks for, the image lacks nothing exactly when the program was
    run with LD_PRELOAD and the shim and CRIU have left dev.bin and the directory
    criu. The check before a restore, run when nothing fails, lets the image
    through exactly when the program was run with LD_PRELOAD, the directory criu
    is there, and the manifest has a chunk and, where it says that the image is
    compressed, device.zst is there. Nothing in a checkpoint looks for dev.bin,
    for criu or for a chunk. *)
Theorem Checkpoint_verified `{Gpu} `{Zstd} `{Backend} `{EventFormat} cfg fuel w pid out m p x w' :
  let st := p ++ [x +:+ ".staging"] in
  let dir := Orchestrator.checkpoint_dir cfg pid out in
  Outside (same_place w) ->
  names (w_cwd w) dir p x -> short_env w ->
  log_elsewhere w (p ++ [x]) -> log_elsewhere w st -> getenv w "CUDACKPT_PARENT_IMAGE" = "" ->
  framed (w_cwd w) (late_files st) (criu_Dump pid (StageDir dir)) ->
  checkpoint_run cfg fuel pid out m -> m w = (Ret tt, w') ->
  (exists es, intact (w_fs w') (p ++ [x]) es) /\
  (getenv w "CUDACKPT_COMPRESS" = "1" ->
   exists d, w_fs w' !! ((p ++ [x]) ++ ["device.bin"]) = Some (NFile d) /\
     w_fs w' !! ((p ++ [x]) ++ [deviceZst]) = Some (NFile (EncodeAll d))) /\
  (validated (w_fs w') (p ++ [x]) <->
   getenv w "LD_PRELOAD" <> "" /\
   is_Some (w_fs w' !! ((p ++ [x]) ++ ["dev.bin"])) /\ is_Some (w_fs w' !! ((p ++ [x]) ++ ["criu"]))) /\
  (let v := set_faults [] w' in
   PreflightRestore dir v = (Ret tt, v) <->
   getenv w "LD_PRELOAD" <> "" /\ is_Some (w_fs w' !! ((p ++ [x]) ++ ["criu"])) /\
   exists c es h rest, w_fs w' !! ((p ++ [x]) ++ ["manifest.bin"]) = Some (NFile c) /\
     parse_manifest c = inr (es, h, rest) /\ es <> [] /\
     (HasFlag (h_Flags h) FlagCompressed = true -> is_Some (w_fs w' !! ((p ++ [x]) ++ [deviceZst])))).
Proof.
  intros st dir HO Hd Hsh Hl Hls Hopts Hcriu Hrun E.
  destruct (Checkpoint_ret _ _ w w _ _ _ _ _ _ _ Hd Hl Hls Hrun (conj eq_refl eq_refl) E)
    as (Hcwd & (dev & Hdev & Hm) & Hc & (w1 & w2 & K1 & K2 & Eb & Hk) & _).
  destruct (installed_intact cfg fuel w pid _ p x w1 w2 (w_fs w') Hd K1 Hls Hopts Hcriu Eb Hk) as [Hi Hz].
  assert (Hcs : is_Some (w_fs w' !! ((p ++ [x]) ++ [completeName]))) by (by rewrite Hc).
  pose proof (checkpoint_meta_wf w pid dev Hsh Hdev) as Hwf.
  split; [exact Hi|]. split; [intros Hcomp; apply Hz; by apply bool_decide_eq_true_2|]. split.
  - split.
    + intros [_ _ (mt & Hmt & Hp) HF]. rewrite !Forall_cons in HF. destruct HF as (? & _ & ? & _).
      split_and!; [|done..]. by apply (has_meta_bytes _ _ (checkpoint_meta w pid dev)) in Hmt as ->.
    + intros (Hp & Hdb & Hcr). split; [exact Hi|done| |repeat constructor; [exact Hdb|by rewrite Hm|exact Hcr]].
      exists (checkpoint_meta w pid dev). split; [by apply (has_meta_bytes _ _ (checkpoint_meta w pid dev))|done].
  - cbv zeta. destruct Hi as (es & Hdevb & _), Hd as (Hne & _ & _ & Hr).
    rewrite preflight_iff by done.
    assert (Hat : at_path (set_faults [] w') dir = p ++ [x])
      by (unfold at_path; cbn [w_cwd set_faults]; by rewrite Hcwd).
    rewrite Hat. by apply (intact_preflighted _ _ (checkpoint_meta w pid dev)).
Qed.

(** ** A run *)

Lemma fake_late_files cwd : framed cwd (late_files ["img"; "a.staging"]) (criu_Dump (Backend := demo_backend) 7 "/img/a.staging").
Proof.
  apply (framed_MkdirAll cwd (late_files ["img"; "a.staging"]) (PathJoin ["/img/a.staging"; "criu"])).
  change (resolve cwd (PathJoin ["/img/a.staging"; "criu"])) with (resolve [] (PathJoin ["/img/a.staging"; "criu"])).
  vm_compute (resolve _ _). intros q [k E].
  destruct q as [|q1 [|q2 [|q3 [|]]]]; try discriminate; simplify_eq/=.
  - left. apply prefix_nil.
  - left. by eexists.
  - left. by eexists.
  - right; left. by exists [].
Qed.

(** Every kind of processing is asked for. *)
Definition processing : world :=
  checkpoint_world (list_to_map [("LD_PRELOAD", "/usr/lib/libcudackpt.so"); ("CUDACKPT_COMPRESS", "1");
    ("CUDACKPT_SPARSE", "1"); ("CUDACKPT_DEDUP", "1")]).

Lemma demo_processing_ok : (demo_checkpoint "/img/a" processing).1 = Ret tt.
Proof. by vm_compute. Qed.

Lemma demo_processing_preflight :
  let v := set_faults [] (demo_checkpoint "/img/a" processing).2 in PreflightRestore "/img/a" v = (Ret tt, v).
Proof.
  intros v. apply preflight_ret; [reflexivity|discriminate|vm_compute; reflexivity].
Qed.

Lemma Checkpoint_verified_witness :
  let w' := (demo_checkpoint "/img/a" processing).2 in
  validated (w_fs w') ["img"; "a"] /\ is_Some (w_fs w' !! ["img"; "a"; deviceZst]) /\
  exists c es h rest, w_fs w' !! ["img"; "a"; "manifest.bin"] = Some (NFile c) /\
    parse_manifest c = inr (es, h, rest) /\ es <> [].
Proof.
  intros w'.
  destruct (Checkpoint_verified (H:=idle_gpu) (H0:=frame_zstd) (H1:=demo_backend) (H2:=demo_events)
    demo_config 3 processing 7 "/img/a"
    (Orchestrator.Checkpoint (H:=idle_gpu) (H0:=frame_zstd) (H1:=demo_backend) (H2:=demo_events) demo_config 3 7 "/img/a")
    ["img"] "a" w') as (_ & Hz & Hr & Hpre).
  - apply demo_outside_place.
  - split_and!; [done|by exists [""; "img"]|done|done].
  - split; by vm_compute.
  - by left.
  - by left.
  - done.
  - apply (fake_late_files (w_cwd processing)).
  - by left.
  - unfold w'. rewrite <- demo_processing_ok. apply surjective_pairing.
  - assert (Hc : getenv processing "CUDACKPT_COMPRESS" = "1") by (vm_compute; reflexivity).
    destruct (Hz Hc) as (d & _ & E). split_and!.
    + apply Hr. split_and!; [by vm_compute|by apply (bool_decide_unpack _); vm_compute..].
    + by eexists.
    + destruct (proj1 Hpre demo_processing_preflight) as (_ & _ & c & es & h & rest & Hman & Hpm & Hes & _).
      clearbody w'. clear - Hman Hpm Hes. exists c, es, h, rest. split; [exact Hman|by split].
Defined.
