(* ===== verification/Restoring.v ===== *)
(** What a restore does: pkg/control/orchestrator.go (Restore) and rollback.go
    with what they call. *)
From S2P Require Export Checkpoint.
Local Open Scope Z_scope.

(** ** Triples

    Run where [P] holds, the computation returns a value with [Q], or an error
    with [E], or never returns and leaves [D]. *)
Definition triple (P : world -> Prop) {A} (m : M A)
    (Q : A -> world -> Prop) (E : goerr -> world -> Prop) (D : world -> Prop) : Prop :=
  forall w, P w ->
    match m w with
    | (Ret a, w') => Q a w'
    | (Err e, w') => E e w'
    | (_, w') => D w'
    end.

Section triples.
Context (E : goerr -> world -> Prop) (D : world -> Prop).

Lemma triple_bind {A B} P (m : M A) (R : A -> world -> Prop) (f : A -> M B) Q :
  triple P m R E D -> (forall a, triple (R a) (f a) Q E D) -> triple P (m ≫= f) Q E D.
Proof.
  intros Hm Hf w Hw. specialize (Hm w Hw). unfold mbind, M_bind.
  destruct (m w) as [[a|e| |] w1]; [by apply Hf|done..].
Qed.

Lemma triple_ret {A} (P : world -> Prop) (a : A) : triple P (mret a) (fun b w => b = a /\ P w) E D.
Proof. by intros w Hw. Qed.

Lemma triple_post {A} P (m : M A) (Q R : A -> world -> Prop) :
  triple P m Q E D -> (forall a w, Q a w -> R a w) -> triple P m R E D.
Proof. intros Hm HQ w Hw. specialize (Hm w Hw). destruct (m w) as [[a|e| |] w1]; auto. Qed.

(** A computation that keeps [I]. *)
Lemma triple_keeps {A} (I : world -> Prop) (m : M A) :
  keeps I m -> (forall e w, I w -> E e w) -> (forall w, I w -> D w) -> triple I m (fun _ => I) E D.
Proof.
  intros Hm HE HD w Hw. specialize (Hm w Hw). destruct (m w) as [[a|e| |] w1]; cbn in Hm; auto.
Qed.

(** A computation that keeps [I] and returns no error. *)
Lemma triple_quiet {A} (I : world -> Prop) (m : M A) :
  keeps I m -> errs (fun _ => False) m -> (forall w, I w -> D w) -> triple I m (fun _ => I) E D.
Proof.
  intros Hm He HD w Hw. specialize (Hm w Hw). specialize (He w).
  destruct (m w) as [[a|e| |] w1]; cbn in Hm; auto. by destruct (He e w1).
Qed.

Lemma triple_attempt {A} P (m : M A) Q (X : goerr -> world -> Prop) :
  triple P m Q X D -> triple P (attempt m) (fun r w => match r with inr a => Q a w | inl e => X e w end) E D.
Proof.
  intros Hm w Hw. specialize (Hm w Hw). unfold attempt. by destruct (m w) as [[a|e| |] w1].
Qed.
End triples.

Lemma triple_Inc c n E D :
  triple (same_counters c) (Default_Inc n) (fun _ => same_counters (add_counter n 1 c)) E D.
Proof. intros w <-. done. Qed.

(** ** Parts that return no error *)

Section quiet.
Context `{EventFormat}.

Lemma errs_log dir phase pid extra : errs (fun _ => False) (logRestorePhase dir phase pid extra).
Proof. unfold logRestorePhase. errs. Qed.
Lemma errs_readRestoredPID dir : errs (fun _ => False) (readRestoredPID dir).
Proof. unfold readRestoredPID. errs. Qed.
Lemma errs_shimSocketReady d p : errs (fun _ => False) (shimSocketReady d p).
Proof. unfold shimSocketReady. errs. Qed.
Lemma errs_resolveRestorePID d p l : errs (fun _ => False) (resolveRestorePID d p l).
Proof. unfold resolveRestorePID. case_decide; errs. apply errs_readRestoredPID. Qed.
Lemma errs_Sleep d : errs (fun _ => False) (Sleep d).
Proof. by intros w e w'. Qed.
Lemma errs_Inc n : errs (fun _ => False) (Default_Inc n).
Proof. by intros w e w'. Qed.
Lemma errs_diverge {A} P : errs P (diverge (A:=A)).
Proof. by intros w e w'. Qed.
End quiet.

#[export] Hint Resolve errs_log errs_readRestoredPID errs_shimSocketReady errs_resolveRestorePID errs_Sleep
  errs_Inc errs_diverge : errs.

Section restore.
Context `{Gpu} `{Zstd} `{Backend} `{EventFormat} (cfg : Config) (fuel : nat).

Lemma errs_try_candidates image pids : errs (fun _ => False) (Orchestrator.try_candidates cfg image pids).
Proof. induction pids as [|p pids IH]; cbn [Orchestrator.try_candidates]; errs; apply IH. Qed.

Lemma errs_restored_pid image pid : errs (fun _ => False) (Orchestrator.restored_pid image pid).
Proof. unfold Orchestrator.restored_pid. errs. Qed.

Lemma errs_restore_env image : errs (fun _ => False) (Orchestrator.restore_env image).
Proof. unfold Orchestrator.restore_env. errs. Qed.

Section keeps.
Context (I : world -> Prop) `{!Stable I} `{!Outside I}.

Lemma keeps_restored_pid image pid : keeps I (Orchestrator.restored_pid image pid).
Proof. unfold Orchestrator.restored_pid. keep. Qed.

Lemma keeps_restore_env image : keeps I (Orchestrator.restore_env image).
Proof. unfold Orchestrator.restore_env. keep. Qed.
End keeps.

(** *** The counters *)

Section counters.
Context (c : gmap string Z) `{!Outside (same_counters c)}.

Notation restored := (same_counters (add_counter RestoresTotal 1 c)).
Notation failed := (same_counters (add_counter RestoreFailuresTotal 1 c)).

(** A round counts a restore when it has made one. *)
Lemma round_counts image pid n E :
  triple (same_counters c) (Orchestrator.restore_round cfg image pid n)
    (fun r => match r with Some _ => restored | None => same_counters c end) E (same_counters c).
Proof.
  unfold Orchestrator.restore_round. cbv zeta.
  assert (Hp : triple (same_counters c) (Sleep (restorePollDelay n (RetryBackoff cfg)) ;; mret (None : option Z))
    (fun r => match r with Some _ => restored | None => same_counters c end) E (same_counters c))
    by (by intros w Hw).
  eapply triple_bind; [by apply triple_quiet; [keep|errs|]|]. intros [e|pids]; [done|].
  eapply triple_bind; [by apply triple_quiet; [keep|errs|]|]. intros target.
  eapply triple_bind; [by apply triple_quiet; [keep|errs|]|]. intros ready.
  destruct (negb ready).
  { eapply triple_bind; [by apply triple_quiet; [keep|errs|]|]. intros u; apply Hp. }
  eapply triple_bind; [by apply triple_quiet; [exact (keeps_try_candidates (same_counters c) cfg _ _)|apply errs_try_candidates|]|].
  intros [got|]; [|apply Hp].
  eapply triple_bind; [by apply triple_quiet; [keep|errs|]|]. intros ?.
  eapply triple_bind; [by apply triple_quiet; [keep|errs|]|]. intros ?.
  eapply triple_bind; [apply triple_Inc|]. by intros u w Hw.
Qed.

Lemma loop_counts rounds image pid deadline n E :
  triple (same_counters c) (Orchestrator.restore_loop cfg rounds image pid deadline n)
    (fun r => match r with inl _ => restored | inr _ => same_counters c end) E (same_counters c).
Proof.
  revert n. induction rounds as [|rounds IH]; intros n; cbn [Orchestrator.restore_loop];
    (eapply triple_bind; [by apply triple_quiet; [keep|errs|]|]; intros now; case_decide; [|by intros w Hw]).
  - by intros w Hw.
  - eapply triple_bind; [apply round_counts|]. intros [got|]; [by intros w Hw|apply IH].
Qed.

Lemma or_fail_counts {A} event dir (m : M A) f :
  keeps (same_counters c) m ->
  triple (same_counters c) (Orchestrator.or_fail event dir m f) (fun _ => same_counters c) (fun _ => failed)
    (same_counters c).
Proof.
  intros Hm w Hw. specialize (Hm w Hw). unfold Orchestrator.or_fail, attempt, mbind at 1, M_bind at 1.
  destruct (m w) as [[a|e| |] w1]; cbn [snd] in Hm; try done. unfold log_Error. rewrite emit_bind.
  unfold same_counters in *. unfold Orchestrator.restore_fails, Default_Inc, Default_Add, mbind, M_bind, throw.
  cbn [w_counters set_counters]. by rewrite emit_counters, Hm.
Qed.

Lemma Restore_counts rounds image :
  triple (same_counters c) (Orchestrator.Restore cfg fuel rounds image)
    (fun _ => restored) (fun _ => failed) (same_counters c).
Proof.
  unfold Orchestrator.Restore. cbv zeta.
  eapply triple_bind; [by apply triple_quiet; [keep|errs|]|]. intros ?.
  eapply triple_bind; [apply or_fail_counts; keep|]. intros ?.
  eapply triple_bind; [by apply triple_quiet; [keep|errs|]|]. intros ?.
  eapply triple_bind; [apply or_fail_counts; keep|]. intros ?.
  eapply triple_bind; [by apply triple_quiet; [keep|errs|]|]. intros ?.
  eapply triple_bind; [by apply triple_quiet; [by apply keeps_restore_env|apply errs_restore_env|]|]. intros env.
  eapply triple_bind; [apply or_fail_counts, out_Restore|]. intros pid.
  eapply triple_bind; [by apply triple_quiet; [by apply keeps_restored_pid|apply errs_restored_pid|]|]. intros pid'.
  eapply triple_bind; [by apply triple_quiet; [keep|errs|]|]. intros now.
  eapply triple_bind; [apply loop_counts|]. intros [got|n]; [by intros w Hw|].
  do 2 (eapply triple_bind; [by apply triple_quiet; [keep|errs|]|]; intros ?).
  eapply triple_bind; [apply triple_Inc|]. by intros u w Hw.
Qed.
End counters.
End restore.

(** ** Shims take one request per connection *)

(** Every server is a shim. *)
Definition all_shims (w : world) : Prop :=
  map_Forall (fun _ p => exists secret state, p = PShim secret state) (w_peers w).

#[global] Instance all_shims_stable : Stable all_shims.
Proof. by split. Qed.

Section shims.
Context `{Gpu} `{Zstd} `{Backend} `{EventFormat} (cfg : Config) (fuel : nat).
Context `{!Outside all_shims}.

Lemma take_u32_op op l : is_u32 op -> take_u32 (be_enc 4 op ++ l) = Some (op, l).
Proof. apply take_u32_enc. Qed.

(** What the phase is after a step of a shim. *)
Definition stepped (c c' : conn) : Prop :=
  c_phase c' = PhClosed \/
  (c_phase c = PhAuth /\ c_phase c' = PhLoop /\ length (c_out c') = (4 + length (c_out c))%nat /\
   exists r tok, take_u32 (c_in c) = Some (OpAuth, r) /\ read_str r = Some (inr (tok, c_in c'))).

Lemma shim_op_closes secret state op c w c' w' :
  shim_op secret state op c w = (Ret (Some c'), w') -> c_phase c' = PhClosed.
Proof.
  assert (Hrs : forall (f : string -> M Z) (g : Z -> M unit) (k : Z -> Z) w w',
    match read_str (c_in c) with
    | None => mret None
    | Some (inl _) => mret (Some (close_with 1 c))
    | Some (inr (dir, r)) =>
        rc ← f dir; g rc ;; mret (Some (close_with (k rc) (with_in r c)))
    end w = (Ret (Some c'), w') -> c_phase c' = PhClosed).
  { intros f g k w1 w1'. destruct (read_str (c_in c)) as [[[]|[dir r2]]|]; [by intros [= <- _]| |by intros [=]].
    intros (rc & w2 & _ & E2)%bind_inv. apply bind_inv in E2 as (u & w3 & _ & E3). by injection E3 as <- _. }
  unfold shim_op. repeat case_decide; try (by intros [= <- _]).
  - intros (rc & w1 & _ & E)%bind_inv. case_decide; [by injection E as <- _|].
    apply bind_inv in E as (u & w2 & _ & E). by injection E as <- _.
  - apply (Hrs (fun dir => gpu (ckpt_snapshot_write dir)) (fun rc => if decide (rc = 0) then _ else _)).
  - apply (Hrs (fun dir => gpu (ckpt_restore_load dir)) (fun rc => if decide (rc = 0) then _ else _)).
Qed.

Lemma shim_steps c w c' w' :
  all_shims w -> serve_step c w = (Ret (Some c'), w') -> stepped c c'.
Proof.
  intros Hall. unfold serve_step. destruct (w_peers w !! c_sock c) as [p|] eqn:Hp; [|done].
  apply Hall in Hp as (secret & state & ->). unfold shim_step.
  destruct (c_phase c) eqn:Hph; [|destruct (take_u32 (c_in c)) as [[op r]|] eqn:Ht; [|done]|done].
  - intros [= E _]. unfold shim_auth in E. destruct (take_u32 (c_in c)) as [[op r]|] eqn:Ht; [|done].
    case_decide as Hop; [injection E as <-; by left|].
    destruct (decide (op = OpAuth)) as [->|]; [|tauto].
    destruct (read_str r) as [[[]|[tok r2]]|] eqn:Hrs; [injection E as <-; by left| |done].
    destruct (secrets_match secret tok); injection E as <-; [|by left].
    right. split_and!; [done..| |by do 2 eexists]. cbn. rewrite length_app, length_be4. lia.
  - intros E%shim_op_closes. by left.
Qed.

(** What it is when the shim has run for a connection with nothing sent yet. *)
Definition served (c c' : conn) : Prop :=
  c' = c \/ c_phase c' = PhClosed \/
  (c_phase c = PhAuth /\ c_phase c' = PhLoop /\ length (c_out c') = 4%nat /\
   exists r tok, take_u32 (c_in c) = Some (OpAuth, r) /\ read_str r = Some (inr (tok, c_in c'))).

Lemma serve_closed n c w : c_phase c = PhClosed -> serve_loop n c w = (Ret c, w).
Proof.
  intros Hc. destruct n as [|n]; [done|]. cbn [serve_loop].
  by rewrite (bind_run _ _ _ _ _ (serve_step_closed _ _ Hc)).
Qed.

Lemma shim_serves c w c' w' :
  all_shims w -> c_out c = [] -> serve c w = (Ret c', w') -> served c c'.
Proof.
  intros Hall Ho. unfold serve. generalize (length (c_in c)) as n. intros n.
  destruct n as [|n]; cbn [serve_loop]; [intros [= <- _]; by left|].
  intros (r & w1 & Hs & E)%bind_inv. destruct r as [c1|]; [|injection E as <- _; by left].
  pose proof (keeps_serve_step all_shims c w Hall) as K. rewrite Hs in K. cbn in K.
  apply shim_steps in Hs as [Hc|(Ha & Hl & Hlen & Hop)]; [|..|done].
  { rewrite serve_closed in E by done. injection E as <- _. right. by left. }
  rewrite Ho in Hlen. destruct n as [|n]; cbn [serve_loop] in E; [injection E as <- _; right; by right|].
  apply bind_inv in E as (r2 & w2 & Hs2 & E). destruct r2 as [c2|]; [|injection E as <- _; right; by right].
  apply shim_steps in Hs2 as [Hc|(Ha2 & _)]; [|congruence|done].
  rewrite serve_closed in E by done. injection E as <- _. right. by left.
Qed.

(** An answer that was read with none left over before. *)
Lemma shim_answers c w v c' w' :
  all_shims w -> c_out c = [] -> readU32 c w = (Ret (v, c'), w') ->
  c_phase c' = PhClosed \/
  (c_phase c = PhAuth /\ c_phase c' = PhLoop /\ c_out c' = [] /\
   exists r tok, take_u32 (c_in c) = Some (OpAuth, r) /\ read_str r = Some (inr (tok, c_in c'))).
Proof.
  intros Hall Ho. unfold readU32, conn_ReadFull. intros ([b c1] & w1 & Hr & E)%bind_inv. injection E as _ <- _.
  match type of Hr with syscall ?a ?b _ = _ => destruct (syscall_any a b w) as (l & [E|[g E]]) end; rewrite E in Hr.
  2:{ apply bind_inv in Hr as (? & ? & _ & Hr). done. }
  rewrite decide_False in Hr by (rewrite Ho; cbn; lia).
  apply bind_inv in Hr as (c2 & w2 & Hs & Hr). pose proof Hs as Hserve.
  apply shim_serves in Hs as Hs; [|done..]. clear E.
  destruct (decide (4 <= length (c_out c2))%nat) as [Hlen|Hlen].
  2:{ apply bind_inv in Hr as (gone & w3 & Hg & Hr). by destruct gone. }
  injection Hr as _ <- _. cbn [c_phase with_out c_out].
  destruct Hs as [->|[Hc|(Ha & Hl & Hl4 & Hop)]]; [rewrite Ho in Hlen; cbn in Hlen; lia|by left|].
  right. split_and!; [done..| |done]. apply nil_length_inv. rewrite length_drop. lia.
Qed.

Lemma conn_Write_ret c d w c' w' :
  conn_Write c d w = (Ret c', w') ->
  c_phase c <> PhClosed /\ c' = with_in (c_in c ++ d) c /\ exists l, w' = set_faults l w.
Proof.
  unfold conn_Write. intros E0.
  match type of E0 with syscall ?a ?b _ = _ => destruct (syscall_any a b w) as (l & [E|[g E]]) end;
    rewrite E in E0; [|done].
  destruct (c_phase c); try done; injection E0 as <- <-; eauto.
Qed.

Lemma writeStr_ret c s w c' w' :
  writeStr c s w = (Ret c', w') ->
  c_phase c <> PhClosed /\ c' = with_in (c_in c ++ str_bytes s) c /\ exists l, w' = set_faults l w.
Proof.
  unfold writeStr, writeU32. intros (c1 & w1 & (Hc & -> & l & ->)%conn_Write_ret & E)%bind_inv.
  unfold str_bytes. case_decide as Hn.
  - injection E as <- <-. apply nil_length_inv in Hn. rewrite Hn, app_nil_r. split_and!; [done..|by eexists].
  - apply conn_Write_ret in E as (_ & -> & l' & ->). cbn [with_in c_in c_out c_phase c_addr c_sock].
    rewrite app_assoc. split_and!; [done..|by eexists].
Qed.

(** A connection on which no answer is outstanding. *)
Definition fresh (c : conn) : Prop :=
  c_phase c = PhClosed \/ (c_out c = [] /\ (c_phase c = PhLoop \/ c_in c = [])).

Lemma shim_dialed path s w c w' :
  all_shims w -> DialPathWithSecret path s w = (Ret c, w') -> fresh c /\ all_shims w'.
Proof.
  intros Hall Hd. split.
  2:{ pose proof (keeps_Dial all_shims path s w Hall) as K. by rewrite Hd in K. }
  unfold DialPathWithSecret in Hd. apply bind_inv in Hd as (c0 & w0 & Hn & Ha).
  assert (Hnew : c_in c0 = [] /\ c_out c0 = [] /\ exists l, w0 = set_faults l w).
  { unfold net_Dial in Hn.
    match type of Hn with syscall ?a ?b _ = _ => destruct (syscall_any a b w) as (l & [E|[g E]]) end;
      rewrite E in Hn; [|done]. clear E. case_decide; [done|]. destruct (find_node _ _) as [|[]]; try done.
    destruct (w_peers _ !! _) as [p|]; [|done]. injection Hn as <- <-. split_and!; [done..|by eexists]. }
  destruct Hnew as (Hi & Ho & l0 & ->). unfold authenticate in Ha.
  case_decide as Hs; [injection Ha as <- _; right; auto|].
  apply bind_inv in Ha as (c1 & w1 & Hw & Ha). apply conn_Write_ret in Hw as (_ & -> & l1 & ->).
  apply bind_inv in Ha as (c2 & w2 & Hw & Ha). apply writeStr_ret in Hw as (_ & -> & l2 & ->).
  apply bind_inv in Ha as ([rc c3] & w3 & Hr & Ha). case_decide; [done|]. injection Ha as <- _.
  apply shim_answers in Hr as [Hc|(_ & Hl & Ho3 & _)]; [by left|right; auto|exact Hall|exact Ho].
Qed.

(** After the answer to a ping the connection is closed. *)
Lemma shim_pinged c w c' w' :
  all_shims w -> fresh c -> Client.Ping c w = (Ret c', w') -> c_phase c' = PhClosed /\ all_shims w'.
Proof.
  intros Hall Hf Hp. split.
  2:{ pose proof (keeps_checked all_shims "ping" c OpPing "" w Hall) as K. unfold Client.Ping in Hp. by rewrite Hp in K. }
  unfold Client.Ping, Client.checked in Hp. apply bind_inv in Hp as ([rc c1] & w1 & Hcall & Hp).
  case_decide; [done|]. injection Hp as <- _. unfold Client.call in Hcall.
  apply bind_inv in Hcall as (c2 & w2 & Hw & Hcall). apply conn_Write_ret in Hw as (Hop & -> & l & ->).
  rewrite decide_False in Hcall by (by intros [|]).
  destruct Hf as [Hc|(Ho & Hf)]; [done|].
  apply shim_answers in Hcall as [Hc|(Ha & _ & _ & r & tok & Ht & _)]; [done| |exact Hall|exact Ho].
  cbn [c_phase c_in with_in] in *. destruct Hf as [Hf|Hf]; [congruence|]. rewrite Hf in Ht. by vm_compute in Ht.
Qed.

Lemma closed_call what c op path w c' w' :
  c_phase c = PhClosed -> Client.checked what c op path w <> (Ret c', w').
Proof.
  intros Hc Hp. unfold Client.checked, Client.call in Hp. apply bind_inv in Hp as ([rc c1] & w1 & Hcall & _).
  apply bind_inv in Hcall as (c2 & w2 & Hw & _). apply conn_Write_ret in Hw as (Hop & _). done.
Qed.

(** The restore of a process by its shim never succeeds. *)
Lemma tryShimRestore_fails image pid w got w' :
  all_shims w -> Orchestrator.tryShimRestore cfg image pid w <> (Ret got, w').
Proof.
  intros Hall Ht. unfold Orchestrator.tryShimRestore in Ht.
  apply bind_inv in Ht as (c & w1 & Hd & Ht). unfold Orchestrator.dial in Hd.
  apply bind_inv in Hd as (secret & w0 & Hs & Hd%wrap_err_inv).
  assert (w0 = w) as -> by (case_decide; by injection Hs).
  apply shim_dialed in Hd as [Hf Hall1]; [|done].
  apply bind_inv in Ht as (c2 & w2 & Hp & Ht). apply shim_pinged in Hp as [Hc Hall2]; [|done..].
  apply bind_inv in Ht as (c3 & w3 & Hr%wrap_err_inv & _). by apply closed_call in Hr.
Qed.

Lemma try_candidates_none image pids :
  triple all_shims (Orchestrator.try_candidates cfg image pids)
    (fun r w => r = None /\ all_shims w) (fun _ _ => True) (fun _ => True).
Proof.
  induction pids as [|p pids IH]; cbn [Orchestrator.try_candidates]; [by intros w Hw|].
  eapply triple_bind; [apply triple_keeps; [keep|done|done]|]. intros ready.
  destruct (negb ready); [done|].
  eapply triple_bind.
  { apply (triple_attempt _ _ _ _ (fun _ _ => False) (fun _ => all_shims)). intros w Hw.
    pose proof (keeps_tryShimRestore all_shims cfg image p w Hw) as K.
    destruct (Orchestrator.tryShimRestore cfg image p w) as [[got|e| |] w1] eqn:E; cbn in K; [|done..].
    by apply tryShimRestore_fails in E. }
  intros [e|got]; [exact IH|by intros w ?].
Qed.

Lemma round_none image pid n :
  triple all_shims (Orchestrator.restore_round cfg image pid n)
    (fun r w => r = None /\ all_shims w) (fun _ _ => True) (fun _ => True).
Proof.
  unfold Orchestrator.restore_round. cbv zeta.
  assert (Hp : triple all_shims (Sleep (restorePollDelay n (RetryBackoff cfg)) ;; mret (None : option Z))
    (fun r w => r = None /\ all_shims w) (fun _ _ => True) (fun _ => True)) by (by intros w Hw).
  eapply triple_bind; [apply triple_keeps; [keep|done|done]|]. intros [e|pids]; [done|].
  eapply triple_bind; [apply triple_keeps; [keep|done|done]|]. intros target.
  eapply triple_bind; [apply triple_keeps; [keep|done|done]|]. intros ready.
  destruct (negb ready).
  { eapply triple_bind; [apply triple_keeps; [keep|done|done]|]. intros u. apply Hp. }
  eapply triple_bind; [apply try_candidates_none|]. intros r w [-> Hw]. by apply Hp.
Qed.

Lemma loop_none rounds image pid deadline n :
  triple all_shims (Orchestrator.restore_loop cfg rounds image pid deadline n)
    (fun r w => (exists k, r = inr k) /\ all_shims w) (fun _ _ => True) (fun _ => True).
Proof.
  revert n. induction rounds as [|rounds IH]; intros n; cbn [Orchestrator.restore_loop];
    (eapply triple_bind; [apply triple_keeps; [keep|done|done]|]; intros now; case_decide;
      [|intros w Hw; split; [by eexists|done]]).
  - by intros w Hw.
  - eapply triple_bind; [apply round_none|]. intros r w [-> Hw]. by apply IH.
Qed.

Lemma shims_Inc n : keeps all_shims (Default_Inc n).
Proof. by intros w Hw. Qed.
#[local] Hint Resolve shims_Inc : keep.

Lemma Restore_none rounds image :
  triple all_shims (Orchestrator.Restore cfg fuel rounds image) (fun _ _ => False) (fun _ _ => True) (fun _ => True).
Proof.
  unfold Orchestrator.Restore, Orchestrator.or_fail, Orchestrator.restore_fails. cbv zeta.
  do 5 (eapply triple_bind; [apply triple_keeps; [keep|done|done]|]; intros ?).
  eapply triple_bind; [apply triple_keeps; [by apply keeps_restore_env|done|done]|]. intros env.
  eapply triple_bind; [apply triple_keeps; [keep; apply out_Restore|done|done]|]. intros pid.
  eapply triple_bind; [apply triple_keeps; [by apply keeps_restored_pid|done|done]|]. intros pid'.
  eapply triple_bind; [apply triple_keeps; [keep|done|done]|]. intros now.
  eapply triple_bind; [apply loop_none|]. intros r w [[k ->] Hw]. revert w Hw.
  match goal with |- forall w, _ -> match ?m w with _ => _ end => change (triple all_shims m (fun _ _ => False)
    (fun _ _ => True) (fun _ => True)) end.
  do 2 (eapply triple_bind; [apply triple_keeps; [keep|done|done]|]; intros ?).
  by intros w Hw.
Qed.
End shims.
