(* ===== verification/GivingUp.v ===== *)
(** When a restore waits for a shim (pkg/control/orchestrator.go, Restore): the
    loop comes to an end, and how. *)
From S2P Require Export Restoring.
Local Open Scope Z_scope.

(** ** Computations that return: a value or an error, in any world *)

Definition returns {A} (m : M A) : Prop := forall w, (m w).1 <> Panic /\ (m w).1 <> Diverge.

Section returns.
Lemma returns_ret {A} (a : A) : returns (mret a).
Proof. done. Qed.
Lemma returns_throw {A} e : returns (throw (A:=A) e).
Proof. done. Qed.
Lemma returns_gets {A} (f : world -> A) : returns (gets f).
Proof. done. Qed.
Lemma returns_Getenv k : returns (Getenv k).
Proof. done. Qed.
Lemma returns_bind {A B} (m : M A) (f : A -> M B) : returns m -> (forall a, returns (f a)) -> returns (m ≫= f).
Proof.
  intros Hm Hf w. specialize (Hm w). unfold mbind, M_bind.
  destruct (m w) as [[a|e| |] w1]; cbn in *; [apply Hf|done|tauto..].
Qed.
Lemma returns_attempt {A} (m : M A) : returns m -> returns (attempt m).
Proof. intros Hm w. specialize (Hm w). unfold attempt. destruct (m w) as [[a|e| |] w1]; cbn in *; [done..|tauto|tauto]. Qed.
Lemma returns_ignore {A} (m : M A) : returns m -> returns (ignore m).
Proof. intros. apply returns_bind; [by apply returns_attempt|intros; apply returns_ret]. Qed.
Lemma returns_wrap {A} c s (m : M A) : returns m -> returns (wrap_err c s m).
Proof.
  intros. apply returns_bind; [by apply returns_attempt|]. intros [e|a]; [apply returns_throw|apply returns_ret].
Qed.
Lemma returns_syscall {A} fail (m : M A) :
  (forall f, returns (fail f)) -> returns m -> returns (syscall fail m).
Proof. intros Hf Hm w. destruct (syscall_any fail m w) as (l & [->|[f ->]]); [apply Hm|apply Hf]. Qed.

Ltac returns_call := apply returns_syscall; [done|]; intros ?w; cbv zeta; repeat case_match; done.

Lemma returns_Stat s : returns (Stat s).
Proof. returns_call. Qed.
Lemma returns_Open s : returns (Open s).
Proof. returns_call. Qed.
Lemma returns_open_create t s : returns (open_create t s).
Proof. returns_call. Qed.
Lemma returns_fwrite f d : returns (fwrite f d).
Proof. returns_call. Qed.
Lemma returns_fread f : returns (fread f).
Proof. returns_call. Qed.
Lemma returns_ReadDir s : returns (ReadDir s).
Proof. returns_call. Qed.
Lemma returns_ReadFile s : returns (ReadFile s).
Proof. apply returns_bind; [apply returns_Open|intros; apply returns_fread]. Qed.
Lemma returns_WriteFile s d : returns (WriteFile s d).
Proof. apply returns_bind; [apply returns_open_create|intros; apply returns_fwrite]. Qed.
Lemma returns_Sleep d : returns (Sleep d).
Proof. done. Qed.
Lemma returns_Inc n : returns (Default_Inc n).
Proof. done. Qed.
End returns.

Create HintDb returns.
#[export] Hint Resolve returns_ret returns_throw returns_gets returns_Getenv returns_Stat returns_Open
  returns_open_create returns_fwrite returns_fread returns_ReadDir returns_ReadFile returns_WriteFile
  returns_Sleep returns_Inc : returns.

Ltac returns :=
  repeat first
    [ solve [auto 2 with returns nocore]
    | match goal with
      | |- forall _, _ => intro
      | |- returns (mbind _ _) => apply returns_bind
      | |- returns (attempt _) => apply returns_attempt
      | |- returns (ignore _) => apply returns_ignore
      | |- returns (wrap_err _ _ _) => apply returns_wrap
      | |- returns (match ?x with _ => _ end) => destruct x
      end ].

Section parts.
Context `{EventFormat}.
Lemma returns_Info name fields : returns (log_Info name fields).
Proof. intros w. unfold log_Info. by rewrite emit_returns. Qed.
Lemma returns_log dir phase pid extra : returns (logRestorePhase dir phase pid extra).
Proof. unfold logRestorePhase, appendRestorePhaseEvent. cbv zeta. returns; apply returns_Info. Qed.
Lemma returns_readRestoredPID dir : returns (readRestoredPID dir).
Proof. unfold readRestoredPID. returns. Qed.
Lemma returns_shimSocketReady d p : returns (shimSocketReady d p).
Proof. unfold shimSocketReady. returns. Qed.
Lemma returns_sortedShims d : returns (sortedShims d).
Proof. unfold sortedShims, ListShims. returns. Qed.
Lemma returns_resolveRestorePID d p l : returns (resolveRestorePID d p l).
Proof. unfold resolveRestorePID. returns. apply returns_readRestoredPID. Qed.
End parts.

#[export] Hint Resolve returns_log returns_readRestoredPID returns_shimSocketReady returns_sortedShims
  returns_resolveRestorePID : returns.

(** ** Shims answer complete requests *)

(** A request is complete at the start of the input. *)
Definition complete (l : bytes) : Prop :=
  exists op r, take_u32 l = Some (op, r) /\
    (op = OpAuth \/ op = OpSnapshot \/ op = OpRestore ->
     exists n r1 b r2, take_u32 r = Some (n, r1) /\ take_n n r1 = Some (b, r2)).

(** There is an answer to read, or will be none. *)
Definition answered (c : conn) : Prop := c_phase c = PhClosed \/ (4 <= length (c_out c))%nat.

Section shims.
Context `{Gpu} `{Backend} `{!Outside all_shims}.

Lemma read_str_complete r :
  (exists n r1 b r2, take_u32 r = Some (n, r1) /\ take_n n r1 = Some (b, r2)) -> is_Some (read_str r).
Proof.
  intros (n & r1 & b & r2 & E1 & E2). unfold read_str. rewrite E1. case_decide; [by eexists|]. rewrite E2. by eexists.
Qed.

Lemma shim_op_returns secret state op c w : exists r w', shim_op secret state op c w = (Ret r, w').
Proof.
  unfold shim_op, gpu, mbind, M_bind, gets.
  repeat case_decide; try (by do 2 eexists).
  - destruct (ckpt_quiesce_gpu w) as [rc w1]. case_decide; by do 2 eexists.
  - destruct (read_str (c_in c)) as [[[]|[dir r]]|]; [by do 2 eexists| |by do 2 eexists].
    destruct (ckpt_snapshot_write dir w) as [rc w1]. case_decide; by do 2 eexists.
  - destruct (read_str (c_in c)) as [[[]|[dir r]]|]; [by do 2 eexists| |by do 2 eexists].
    destruct (ckpt_restore_load dir w) as [rc w1]. case_decide; by do 2 eexists.
Qed.

Lemma shim_step_returns c w : all_shims w -> exists r w', serve_step c w = (Ret r, w').
Proof.
  intros Hall. unfold serve_step. destruct (w_peers w !! c_sock c) as [p|] eqn:Hp; [|by do 2 eexists].
  apply Hall in Hp as (secret & state & ->). unfold shim_step.
  destruct (c_phase c); [by do 2 eexists| |by do 2 eexists].
  destruct (take_u32 (c_in c)) as [[op r]|]; [apply shim_op_returns|by do 2 eexists].
Qed.

(** The first step on a complete request closes the connection or accepts the
    secret. *)
Lemma shim_step_answers c w p :
  all_shims w -> w_peers w !! c_sock c = Some p -> c_phase c <> PhClosed -> complete (c_in c) ->
  exists c1 w1, serve_step c w = (Ret (Some c1), w1) /\ answered c1.
Proof.
  intros Hall Hp Hc (op & r & Ht & Hstr).
  destruct (shim_step_returns c w Hall) as (r1 & w1 & E). destruct r1 as [c1|].
  - exists c1, w1. split; [done|]. apply shim_steps in E as [?|(_ & _ & Hlen & _)]; [by left|right; lia|done].
  - exfalso. unfold serve_step in E. rewrite Hp in E. apply Hall in Hp as (secret & state & ->).
    unfold shim_step in E. destruct (c_phase c); [| |done].
    + unfold shim_auth in E. rewrite Ht in E. case_decide as Hop; [done|].
      destruct (read_str_complete r) as [x Hx]; [apply Hstr; left; destruct (decide (op = OpAuth)); tauto|].
      rewrite Hx in E. destruct x as [[]|[tok r2]]; [done|]. by destruct (secrets_match secret tok).
    + rewrite Ht in E. unfold shim_op in E. cbn [c_in with_in] in E.
      repeat case_decide; try done; subst op;
        try (destruct (read_str_complete r) as [x Hx]; [apply Hstr; auto|]; rewrite Hx in E; destruct x as [[]|[dir r2]];
             [done|apply bind_inv in E as (rc & w2 & _ & E); apply bind_inv in E as (u & w3 & _ & E); done]).
      apply bind_inv in E as (rc & w2 & _ & E). case_decide; [done|].
      apply bind_inv in E as (u & w3 & _ & E). done.
Qed.

Lemma shim_serve_answered n c w :
  all_shims w -> answered c -> exists c1 w1, serve_loop n c w = (Ret c1, w1) /\ answered c1.
Proof.
  revert c w. induction n as [|n IH]; intros c w Hall Ha; cbn [serve_loop]; [by exists c, w|].
  destruct (shim_step_returns c w Hall) as (r & w1 & E). rewrite (bind_run _ _ _ _ _ E).
  destruct r as [c1|]; [|by exists c, w1].
  pose proof (keeps_serve_step all_shims c w Hall) as K. rewrite E in K. cbn in K.
  apply IH; [done|]. pose proof E as E'. apply shim_steps in E as [?|(Hph & _ & Hlen & _)]; [by left| |done].
  right. lia.
Qed.

(** Reading an answer to a complete request comes to an end. *)
Lemma shim_read_returns c w :
  all_shims w -> c_phase c = PhClosed \/ complete (c_in c) ->
  (readU32 c w).1 <> Panic /\ (readU32 c w).1 <> Diverge.
Proof.
  intros Hall Hc.
  assert (Hs : forall l, exists c1 w1, serve c (set_faults l w) = (Ret c1, w1) /\
    (answered c1 \/ w_peers w1 !! c_sock c1 = None)).
  { intros l. unfold serve. destruct (decide (c_phase c = PhClosed)) as [Hcl|Hcl].
    - exists c, (set_faults l w). rewrite serve_closed by done. split; [done|]. left. by left.
    - destruct Hc as [|Hc]; [done|]. destruct (w_peers w !! c_sock c) as [p|] eqn:Hp.
      + destruct (shim_step_answers c (set_faults l w) p Hall Hp Hcl Hc) as (c1 & w1 & E & Ha).
        destruct (c_in c) as [|b i] eqn:Ei; [by destruct Hc as (? & ? & ? & _)|]. cbn [length serve_loop].
        rewrite (bind_run _ _ _ _ _ E).
        pose proof (keeps_serve_step all_shims c (set_faults l w) Hall) as K. rewrite E in K. cbn in K.
        destruct (shim_serve_answered (length i) c1 w1 K Ha) as (c2 & w2 & -> & Ha2). exists c2, w2. auto.
      + exists c, (set_faults l w). split; [|by right]. destruct (length (c_in c)); [done|]. cbn [serve_loop].
        rewrite (bind_run _ _ _ None (set_faults l w)); [done|].
        unfold serve_step. cbn [w_peers set_faults]. by rewrite Hp. }
  assert (Hr : (conn_ReadFull c 4 w).1 <> Panic /\ (conn_ReadFull c 4 w).1 <> Diverge).
  { unfold conn_ReadFull.
    match goal with |- context [syscall ?a ?b w] => destruct (syscall_any a b w) as (l & [->|[g ->]]) end;
      destruct (Hs l) as (c1 & w1 & E & Ha).
    - destruct (decide (4 <= length (c_out c))%nat) as [Hl|Hl].
      { unfold mbind, M_bind. cbn [mret M_ret]. by rewrite decide_True. }
      rewrite (bind_run _ _ _ _ _ E).
      destruct (decide (4 <= length (c_out c1))%nat); [done|].
      unfold gets, mbind, M_bind. rewrite bool_decide_eq_true_2; [done|]. destruct Ha as [[?|?]|?]; [by left|lia|by right].
    - case_decide; [done|]. by rewrite (bind_run _ _ _ _ _ E). }
  unfold readU32, mbind, M_bind. destruct (conn_ReadFull c 4 w) as [[[]|e| |] w1]; cbn in Hr |- *; tauto || done.
Qed.
End shims.

(** ** Calls to shims return *)

Lemma str_bytes_complete s : exists n r1 b r2,
  take_u32 (str_bytes s) = Some (n, r1) /\ take_n n r1 = Some (b, r2).
Proof.
  unfold str_bytes. rewrite take_u32_enc by apply u32_range.
  do 2 eexists. unfold take_n. rewrite decide_True; [by do 2 eexists|].
  unfold u32. apply Z.mod_le; lia.
Qed.

Lemma request_complete op path : is_u32 op -> op <> OpAuth -> complete (request_bytes op path).
Proof.
  intros Hop Hne. unfold complete, request_bytes. rewrite take_u32_enc by done.
  do 2 eexists. split; [done|]. intros Hs. rewrite decide_True by tauto. apply str_bytes_complete.
Qed.

Lemma auth_complete s : complete (be_enc 4 OpAuth ++ str_bytes s).
Proof.
  unfold complete. rewrite take_u32_enc by (unfold is_u32, OpAuth; lia).
  do 2 eexists. split; [done|]. intros _. apply str_bytes_complete.
Qed.

Lemma bind_returns {A B} (m : M A) (f : A -> M B) w :
  (m w).1 <> Panic /\ (m w).1 <> Diverge ->
  (forall a w', m w = (Ret a, w') -> (f a w').1 <> Panic /\ (f a w').1 <> Diverge) ->
  ((m ≫= f) w).1 <> Panic /\ ((m ≫= f) w).1 <> Diverge.
Proof.
  intros Hm Hf. unfold mbind, M_bind. destruct (m w) as [[a|e| |] w']; cbn in *; [by apply Hf|done|tauto..].
Qed.

Lemma returns_conn_Write c d : returns (conn_Write c d).
Proof. apply returns_syscall; [done|]. intros w. by destruct (c_phase c). Qed.

Lemma returns_net_Dial `{Gpu} path : returns (net_Dial path).
Proof.
  apply returns_syscall; [done|]. intros w. case_decide; [done|].
  destruct (find_node w path) as [|[]]; try done. by destruct (w_peers w !! at_path w path).
Qed.

Lemma returns_writeStr c s : returns (writeStr c s).
Proof. unfold writeStr, writeU32. returns; apply returns_conn_Write. Qed.

Section calls.
Context `{Gpu} `{Backend} `{!Outside all_shims}.

(** A connection after a successful dial. *)
Definition idle (c : conn) : Prop := c_phase c = PhClosed \/ (c_in c = [] /\ c_out c = []).

Lemma net_Dial_ret path w c w' :
  net_Dial path w = (Ret c, w') -> c_in c = [] /\ c_out c = [] /\ exists l, w' = set_faults l w.
Proof.
  unfold net_Dial. intros Hn.
  match type of Hn with syscall ?a ?b _ = _ => destruct (syscall_any a b w) as (l & [E|[g E]]) end;
    rewrite E in Hn; [|done]. clear E. case_decide; [done|]. destruct (find_node _ _) as [|[]]; try done.
  destruct (w_peers _ !! _) as [p|]; [|done]. injection Hn as <- <-. split_and!; [done..|by eexists].
Qed.

Lemma Dial_idle path s w c w' :
  all_shims w -> is_u32 (Z.of_nat (length (bytes_of_string s))) ->
  DialPathWithSecret path s w = (Ret c, w') -> idle c.
Proof.
  intros Hall Hs Hd. unfold DialPathWithSecret in Hd. apply bind_inv in Hd as (c0 & w0 & Hn & Ha).
  apply net_Dial_ret in Hn as (Hi & Ho & l0 & ->). unfold authenticate in Ha.
  case_decide; [injection Ha as <- _; by right|].
  apply bind_inv in Ha as (c1 & w1 & Hw & Ha). apply conn_Write_ret in Hw as (_ & -> & l1 & ->).
  apply bind_inv in Ha as (c2 & w2 & Hw & Ha). apply writeStr_ret in Hw as (_ & -> & l2 & ->).
  apply bind_inv in Ha as ([rc c3] & w3 & Hr & Ha). case_decide; [done|]. injection Ha as <- _.
  apply shim_answers in Hr as [Hc|(_ & Hl & Ho3 & r & tok & Ht & Hrs)]; [by left| |exact Hall|exact Ho].
  right. split; [|done]. cbn [c_in with_in] in Ht. rewrite Hi in Ht. cbn [app] in Ht.
  rewrite take_u32_enc in Ht by (unfold is_u32, OpAuth; lia). injection Ht as <-.
  destruct (decide (length (bytes_of_string s) < 512)%nat) as [Hl5|Hl5].
  - pose proof (read_str_bytes s [] Hl5) as E. rewrite app_nil_r in E. rewrite E in Hrs. by injection Hrs.
  - pose proof (read_str_long s [] Hs ltac:(lia)) as E. rewrite app_nil_r in E. by rewrite E in Hrs.
Qed.

Lemma Dial_returns path s w :
  all_shims w -> (DialPathWithSecret path s w).1 <> Panic /\ (DialPathWithSecret path s w).1 <> Diverge.
Proof.
  intros Hall. apply bind_returns; [apply returns_net_Dial|].
  intros c w0 (Hi & Ho & l0 & ->)%net_Dial_ret. unfold authenticate. case_decide; [done|].
  apply bind_returns; [apply returns_conn_Write|]. intros c1 w1 (_ & -> & l1 & ->)%conn_Write_ret.
  apply bind_returns; [apply returns_writeStr|]. intros c2 w2 (_ & -> & l2 & ->)%writeStr_ret.
  apply bind_returns; [|by intros [rc c3] w3 _; case_decide].
  apply shim_read_returns; [done|]. right. cbn [c_in with_in]. rewrite Hi. apply auth_complete.
Qed.

Lemma call_returns op path c w :
  all_shims w -> idle c -> is_u32 op -> op <> OpAuth ->
  (Client.call c op path w).1 <> Panic /\ (Client.call c op path w).1 <> Diverge.
Proof.
  intros Hall Hidle Hop Hne.
  pose proof (request_complete op path Hop Hne) as Hc. unfold request_bytes in Hc. unfold Client.call.
  apply bind_returns; [apply returns_conn_Write|]. intros c1 w1 (Hph & -> & l1 & ->)%conn_Write_ret.
  destruct Hidle as [|[Hi Ho]]; [done|].
  apply bind_returns; [case_decide; [apply returns_writeStr|done]|]. intros c2 w2 Hw.
  assert (Hin : c_in c2 = be_enc 4 op ++ (if decide (op = OpSnapshot \/ op = OpRestore) then str_bytes path else [])
    /\ exists l, w2 = set_faults l w).
  { case_decide.
    - apply writeStr_ret in Hw as (_ & -> & l2 & ->). cbn. rewrite Hi. split; [done|by eexists].
    - injection Hw as <- <-. cbn. rewrite Hi, app_nil_r. split; [done|by eexists]. }
  destruct Hin as (Hin & l & ->). apply shim_read_returns; [done|]. right. by rewrite Hin.
Qed.

Lemma checked_returns what op path c w :
  all_shims w -> idle c -> is_u32 op -> op <> OpAuth ->
  (Client.checked what c op path w).1 <> Panic /\ (Client.checked what c op path w).1 <> Diverge.
Proof.
  intros Hall Hidle Hop Hne. apply bind_returns; [by apply call_returns|].
  by intros [rc c3] w3 _; case_decide.
Qed.
End calls.

(** ** The loop *)

(** The secret the orchestrator dials with. *)
Definition rpc_secret (cfg : Config) (e : gmap string string) : string :=
  if decide (RpcSecret cfg = "") then default "" (e !! "CUDACKPT_RPC_SECRET") else RpcSecret cfg.

(** The servers are shims, the environment is [e] and it is [t] or later. *)
Definition waiting (e : gmap string string) (t : Z) (w : world) : Prop :=
  all_shims w /\ w_env w = e /\ t <= w_now w.

#[global] Instance waiting_stable e t : Stable (waiting e t).
Proof. by split. Qed.
#[global] Instance waiting_ages e t : Ages (waiting e t).
Proof. intros d w Hd (? & ? & ?). split_and!; [done..|]. cbn. lia. Qed.

Section loop.
Context `{Gpu} `{Backend} `{EventFormat} (cfg : Config) (e : gmap string string).
Context (Hsecret : is_u32 (Z.of_nat (length (bytes_of_string (rpc_secret cfg e))))).
Context `{HO : !Outside all_shims} (HOw : forall t, Outside (waiting e t)).

Lemma wrap_returns {A} c s (m : M A) w :
  (m w).1 <> Panic /\ (m w).1 <> Diverge -> (wrap_err c s m w).1 <> Panic /\ (wrap_err c s m w).1 <> Diverge.
Proof using Type.
  intros Hm. unfold wrap_err, attempt, mbind, M_bind. destruct (m w) as [[a|x| |] w1]; cbn in *; tauto || done.
Qed.

Lemma dial_eq pid w :
  w_env w = e ->
  Orchestrator.dial cfg pid w =
  wrap_err Code.RPC "dial" (DialPathWithSecret (shimSocketPath (RunDir cfg) pid) (rpc_secret cfg e)) w.
Proof using Type.
  intros He.
  assert (Hd : (if decide (RpcSecret cfg = "") then Getenv "CUDACKPT_RPC_SECRET" else mret (RpcSecret cfg)) w =
    (Ret (rpc_secret cfg e), w)).
  { unfold rpc_secret. case_decide; [|done]. unfold Getenv, gets. by rewrite He. }
  unfold Orchestrator.dial. by rewrite (bind_run _ _ _ _ _ Hd).
Qed.

Lemma dial_returns pid w :
  all_shims w -> w_env w = e ->
  (Orchestrator.dial cfg pid w).1 <> Panic /\ (Orchestrator.dial cfg pid w).1 <> Diverge.
Proof using HO Hsecret. intros Hall He. rewrite dial_eq by done. by apply wrap_returns, Dial_returns. Qed.

(** A connection that was dialed waits for a request, or is closed. *)
Lemma dial_idle pid w c w1 :
  all_shims w -> w_env w = e -> Orchestrator.dial cfg pid w = (Ret c, w1) -> idle c /\ all_shims w1.
Proof using HO Hsecret.
  intros Hall He. rewrite dial_eq by done. intros Hd%wrap_err_inv. split; [by eapply Dial_idle|].
  by apply shim_dialed in Hd as [_ ?].
Qed.

Lemma tryShimRestore_returns image pid w :
  all_shims w -> w_env w = e ->
  (Orchestrator.tryShimRestore cfg image pid w).1 <> Panic /\
  (Orchestrator.tryShimRestore cfg image pid w).1 <> Diverge.
Proof.
  intros Hall He. unfold Orchestrator.tryShimRestore. apply bind_returns; [by apply dial_returns|].
  intros c w1 Hdial. destruct (dial_idle _ _ _ _ Hall He Hdial) as [Hidle Hall1].
  rewrite dial_eq in Hdial by done. apply wrap_err_inv in Hdial.
  apply shim_dialed in Hdial as [Hf _]; [|done].
  apply bind_returns; [by apply checked_returns|]. intros c2 w2 Hp.
  apply shim_pinged in Hp as [Hc Hall2]; [|done..].
  apply bind_returns; [apply wrap_returns, checked_returns; [done|by left|done|done]|].
  intros c3 w3 Hr%wrap_err_inv. by apply closed_call in Hr.
Qed.

Notation never_fails := (fun _ _ => False) (only parsing).
Notation never_stops := (fun _ => False) (only parsing).

Lemma triple_calm {A} (I : world -> Prop) (m : M A) :
  keeps I m -> errs (fun _ => False) m -> returns m ->
  triple I m (fun _ => I) never_fails never_stops.
Proof.
  intros Hm He Hr w Hw. specialize (Hm w Hw). specialize (He w). specialize (Hr w).
  destruct (m w) as [[a|x| |] w1]; cbn in *; [done|by eapply He|tauto..].
Qed.

Lemma try_candidates_waits image t pids :
  triple (waiting e t) (Orchestrator.try_candidates cfg image pids)
    (fun r w => r = None /\ waiting e t w) never_fails never_stops.
Proof using Hsecret HO HOw.
  specialize (HOw t). induction pids as [|p pids IH]; cbn [Orchestrator.try_candidates]; [by intros w Hw|].
  eapply triple_bind; [apply triple_calm; [keep|errs|returns]|]. intros ready.
  destruct (negb ready); [done|].
  eapply triple_bind.
  { apply (triple_attempt _ _ _ _ (fun _ _ => False) (fun _ => waiting e t)). intros w Hw.
    pose proof (keeps_tryShimRestore (waiting e t) cfg image p w Hw) as K. destruct Hw as (Hall & He & _).
    pose proof (tryShimRestore_returns image p w Hall He) as [Hp Hd].
    destruct (Orchestrator.tryShimRestore cfg image p w) as [[got|x| |] w1] eqn:E; cbn in *; [|done..].
    by apply tryShimRestore_fails in E. }
  intros [x|got]; [exact IH|by intros w ?].
Qed.

(** The least pause between two rounds. *)
Definition least_pause (base : Z) : Z := Z.min (if decide (base <= 0) then 200000000 else base) maxRestoreBackoff.

Lemma pause_least n base : base < 2 ^ 62 -> least_pause base <= restorePollDelay n base.
Proof using Type.
  intros Hb. unfold least_pause, restorePollDelay. set (b := if decide (base <= 0) then _ else _).
  assert (Hpos : 0 < b < 2 ^ 62) by (unfold b; case_decide; lia).
  cbv zeta. case_decide; [lia|]. destruct (Z.to_nat (n - 1)) as [|k] eqn:Ek; [lia|].
  rewrite poll_loop_closed by done.
  assert (1 <= 2 ^ Z.of_nat (S k)) by (pose proof (Z.pow_pos_nonneg 2 (Z.of_nat (S k))); lia). nia.
Qed.

Lemma least_pause_pos base : 0 < least_pause base.
Proof using Type. unfold least_pause, maxRestoreBackoff. case_decide; lia. Qed.

Context (Hbase : RetryBackoff cfg < 2 ^ 62).

Lemma round_waits image t pid n :
  triple (waiting e t) (Orchestrator.restore_round cfg image pid n)
    (fun r w => r = None /\ waiting e (t + least_pause (RetryBackoff cfg)) w) never_fails never_stops.
Proof using Hsecret HO HOw Hbase.
  pose proof (HOw t) as HOt. unfold Orchestrator.restore_round. cbv zeta.
  assert (Hp : triple (waiting e t) (Sleep (restorePollDelay n (RetryBackoff cfg)) ;; mret (None : option Z))
    (fun r w => r = None /\ waiting e (t + least_pause (RetryBackoff cfg)) w) never_fails never_stops).
  { intros w (Hall & He & Ht). split; [done|]. split_and!; [done..|]. cbn.
    pose proof (pause_least n (RetryBackoff cfg) Hbase). lia. }
  eapply triple_bind; [apply triple_calm; [keep|errs|returns]|]. intros [x|pids]; [done|].
  eapply triple_bind; [apply triple_calm; [keep|errs|returns]|]. intros target.
  eapply triple_bind; [apply triple_calm; [keep|errs|returns]|]. intros ready.
  destruct (negb ready).
  { eapply triple_bind; [apply triple_calm; [keep|errs|returns]|]. intros u. apply Hp. }
  eapply triple_bind; [apply try_candidates_waits|]. intros r w [-> Hw]. by apply Hp.
Qed.

Lemma loop_waits rounds image t pid deadline n :
  deadline - t <= Z.of_nat rounds * least_pause (RetryBackoff cfg) ->
  triple (waiting e t) (Orchestrator.restore_loop cfg rounds image pid deadline n)
    (fun r w => (exists k, r = inr k) /\ waiting e (Z.max t deadline) w) never_fails never_stops.
Proof using Hsecret HO HOw Hbase.
  pose proof (least_pause_pos (RetryBackoff cfg)) as Hpos.
  revert t n. induction rounds as [|rounds IH]; intros t n Hr w (Hall & He & Ht); cbn [Orchestrator.restore_loop];
    unfold gets; rewrite (bind_run _ _ _ (w_now w) w) by done; case_decide as Hnow.
  1: lia.
  1, 3: split; [by eexists|]; split_and!; [done..|lia].
  assert (Hw : waiting e t w) by done. apply (round_waits image t pid (n + 1)) in Hw.
  unfold mbind at 1, M_bind at 1.
  destruct (Orchestrator.restore_round cfg image pid (n + 1) w) as [[r|x| |] w1]; [|done..].
  destruct Hw as [-> Hw].
  apply (IH (t + least_pause (RetryBackoff cfg)) (n + 1)) in Hw; [|lia].
  destruct (Orchestrator.restore_loop cfg rounds image pid deadline (n + 1) w1) as [[r|x| |] w2]; [|done..].
  destruct Hw as (Hk & Hall2 & He2 & Ht2). split; [done|]. split_and!; [done..|lia].
Qed.
End loop.

(** ** The time a loop may take *)

(** It is [t]. *)
Definition at_time (t : Z) (w : world) : Prop := w_now w = t.

#[global] Instance at_time_stable t : Stable (at_time t).
Proof. by split. Qed.

Section time.
Context `{Gpu} `{Backend} `{EventFormat} (cfg : Config) (HO : forall t, Outside (at_time t)).
Context (Hbase : RetryBackoff cfg < 2 ^ 62).

Notation any_error := (fun _ _ => True) (only parsing).
Notation any_stop := (fun _ => True) (only parsing).

Lemma pause_most n : restorePollDelay n (RetryBackoff cfg) <= Z.max 5000000000 (RetryBackoff cfg).
Proof using Hbase.
  unfold restorePollDelay. set (b := if decide (RetryBackoff cfg <= 0) then _ else _).
  assert (Hpos : 0 < b < 2 ^ 62 /\ b <= Z.max 5000000000 (RetryBackoff cfg)) by (unfold b; case_decide; lia).
  cbv zeta. case_decide; [lia|]. destruct (Z.to_nat (n - 1)) as [|k] eqn:Ek; [lia|].
  rewrite poll_loop_closed by lia. unfold maxRestoreBackoff. lia.
Qed.

Lemma triple_timed {A} t (m : M A) :
  keeps (at_time t) m -> triple (at_time t) m (fun _ => at_time t) any_error any_stop.
Proof using Type. intros Hm. by apply triple_keeps. Qed.

(** A round that finds no process pauses once. *)
Lemma round_time image t pid n :
  triple (at_time t) (Orchestrator.restore_round cfg image pid n)
    (fun r w => r = None -> w_now w <= t + Z.max 5000000000 (RetryBackoff cfg)) any_error any_stop.
Proof using HO Hbase.
  specialize (HO t). unfold Orchestrator.restore_round. cbv zeta.
  assert (Hp : triple (at_time t) (Sleep (restorePollDelay n (RetryBackoff cfg)) ;; mret (None : option Z))
    (fun r w => r = None -> w_now w <= t + Z.max 5000000000 (RetryBackoff cfg)) any_error any_stop).
  { intros w Ht _. cbn. rewrite Ht. pose proof (pause_most n). lia. }
  eapply triple_bind; [apply triple_timed; keep|]. intros [x|pids]; [done|].
  eapply triple_bind; [apply triple_timed; keep|]. intros target.
  eapply triple_bind; [apply triple_timed; keep|]. intros ready.
  destruct (negb ready); [eapply triple_bind; [apply triple_timed; keep|]; done|].
  eapply triple_bind; [apply triple_timed, (keeps_try_candidates (at_time t))|]. intros [got|]; [|done].
  intros w Hw. match goal with |- match ?m with _ => _ end => destruct m as [[r|x| |] w1] eqn:E end; [|done..].
  intros ->. apply bind_inv in E as (? & ? & _ & E). apply bind_inv in E as (? & ? & _ & E).
  by apply bind_inv in E as (? & ? & _ & E).
Qed.

Lemma loop_time rounds image pid deadline n w k w' :
  Orchestrator.restore_loop cfg rounds image pid deadline n w = (Ret (inr k), w') ->
  w_now w' < Z.max (w_now w + 1) (deadline + Z.max 5000000000 (RetryBackoff cfg)).
Proof using HO Hbase.
  revert n w. induction rounds as [|rounds IH]; intros n w; cbn [Orchestrator.restore_loop];
    unfold gets; rewrite (bind_run _ _ _ (w_now w) w) by done; case_decide as Hnow; try done.
  1, 3: intros [= _ <-]; lia.
  intros (r & w1 & Hr & E)%bind_inv. destruct r as [got|]; [done|].
  pose proof (round_time image (w_now w) pid (n + 1) w eq_refl) as T. rewrite Hr in T. specialize (T eq_refl).
  apply IH in E. lia.
Qed.
End time.

(** ** Properties *)

(** C15: a restore from shims never succeeds. Where every server is a shim,
    [Restore] does not return a pid, whatever image, CRIU and faults: the
    program sends Ping, Restore and Resume on one connection, and a shim closes
    each connection after one request. *)
Theorem Restore_never_completes `{Gpu} `{Zstd} `{Backend} `{EventFormat} cfg fuel rounds image w pid :
  Outside all_shims -> all_shims w ->
  (Orchestrator.Restore cfg fuel rounds image w).1 <> Ret pid.
Proof.
  intros HO Hall E. pose proof (Restore_none cfg fuel rounds image w Hall) as T.
  destruct (Orchestrator.Restore cfg fuel rounds image w) as [r w']. cbn in E. by subst r.
Qed.

(** C14: a restore that waits for shims comes to an end, where every server is a
    shim. Each round of the loop pauses for the configured time at least, up to
    five seconds, so the number of rounds is bounded by the time allowed; the loop
    reports that no shim was ready, not before the deadline, and, where the GPU and
    CRIU take no time, less than one pause after it: five seconds, or the
    configured time where that is more. *)
Theorem restore_loop_gives_up `{Gpu} `{Backend} `{EventFormat} cfg rounds image pid w :
  Outside all_shims -> (forall t, Outside (waiting (w_env w) t)) -> all_shims w ->
  is_u32 (Z.of_nat (length (bytes_of_string (rpc_secret cfg (w_env w))))) ->
  RetryBackoff cfg < 2 ^ 62 ->
  RestoreTimeout cfg <= Z.of_nat rounds * least_pause (RetryBackoff cfg) ->
  exists attempts w',
    Orchestrator.restore_loop cfg rounds image pid (w_now w + RestoreTimeout cfg) 0 w = (Ret (inr attempts), w') /\
    w_now w + RestoreTimeout cfg <= w_now w' /\
    ((forall t, Outside (at_time t)) ->
     w_now w' < Z.max (w_now w) (w_now w + RestoreTimeout cfg) + Z.max 5000000000 (RetryBackoff cfg)).
Proof.
  intros HO HOw Hall Hsec Hb Hr.
  assert (Hw : waiting (w_env w) (w_now w) w) by done.
  apply (loop_waits cfg (w_env w) Hsec HOw Hb rounds image (w_now w) pid (w_now w + RestoreTimeout cfg) 0) in Hw; [|lia].
  destruct (Orchestrator.restore_loop _ _ _ _ _ _ w) as [[r|x| |] w'] eqn:E; [|done..].
  destruct Hw as ([k ->] & _ & _ & Ht). exists k, w'. split_and!; [done|lia|].
  intros Hat. apply loop_time in E; [lia|done..].
Qed.

(** Restores are counted. Each restore adds one to the counter of restores
    when it returns a pid and one to the counter of failed restores when it
    returns an error, on every path; no other counter changes. *)
Theorem Restore_counted `{Gpu} `{Zstd} `{Backend} `{EventFormat} cfg fuel rounds image :
  (forall c, Outside (same_counters c)) ->
  counts RestoresTotal RestoreFailuresTotal (Orchestrator.Restore cfg fuel rounds image).
Proof.
  intros HO w. pose proof (Restore_counts cfg fuel (w_counters w) rounds image w eq_refl) as T.
  by destruct (Orchestrator.Restore cfg fuel rounds image w) as [[a|x| |] w'].
Qed.

(** ** Runs *)

(** The machine with the process 7 and its image, after a checkpoint, the
    socket of the process served by [p]. *)
Definition restore_world (p : peer) : world :=
  set_peers {[ ["run"; "7.sock"] := p ]} (demo_checkpoint "/img/a" preloaded).2.

Definition demo_restore (p : peer) : outcome Z * world :=
  Orchestrator.Restore (H:=idle_gpu) (H0:=frame_zstd) (H1:=demo_backend) (H2:=demo_events)
    demo_config 3 3 "/img/a" (restore_world p).

Lemma demo_all_shims p : (exists s st, p = PShim s st) -> all_shims (restore_world p).
Proof. intros Hp. unfold all_shims, restore_world. cbn [w_peers set_peers]. by apply map_Forall_singleton. Qed.

Lemma demo_outside_shims : Outside (H:=idle_gpu) (H0:=demo_backend) all_shims.
Proof.
  split; [done..|by apply keeps_fake_Dump|by apply keeps_fake_Restore| |].
  - intros w sock secret s Hw. apply map_Forall_insert_2; [by do 2 eexists|done].
  - intros w sock secret ff sq i ff' i' Hp Hw. destruct (Hw _ _ Hp) as (s & st & E). done.
Qed.

Lemma demo_outside_waiting e t : Outside (H:=idle_gpu) (H0:=demo_backend) (waiting e t).
Proof.
  split; [done..|intros p d; by apply (keeps_fake_Dump (waiting e t))|intros d l x; by apply (keeps_fake_Restore (waiting e t))| |].
  - intros w sock secret s (Hw & He & Ht). split_and!; [|done..].
    apply map_Forall_insert_2; [by do 2 eexists|done].
  - intros w sock secret ff sq i ff' i' Hp (Hw & He & Ht). destruct (Hw _ _ Hp) as (s & st & E). done.
Qed.

Lemma demo_outside_time t : Outside (H:=idle_gpu) (H0:=demo_backend) (at_time t).
Proof.
  split; [done..|intros p d; by apply (keeps_fake_Dump (at_time t))|intros d l x; by apply (keeps_fake_Restore (at_time t))| |]; done.
Qed.

(** With the test server the restore succeeds at once; with a shim it fails
    after the three seconds of the configuration. *)
Example mock_restores : (demo_restore (PMock "" 0 [] 0)).1 = Ret 7.
Proof. by vm_compute. Qed.

Example shim_gives_up :
  (demo_restore (PShim "" ST_RUNNING)).1 = Err (Ckpterr.E Code.RPC "shim not ready after criu restore").
Proof. by vm_compute. Qed.

Lemma Restore_never_completes_witness : (demo_restore (PShim "" ST_RUNNING)).1 <> Ret 7.
Proof.
  unfold demo_restore.
  apply (Restore_never_completes (H:=idle_gpu) (H0:=frame_zstd) (H1:=demo_backend) (H2:=demo_events)
    demo_config 3 3 "/img/a" (restore_world (PShim "" ST_RUNNING)) 7).
  - apply demo_outside_shims.
  - apply demo_all_shims. by exists "", ST_RUNNING.
Defined.

Lemma restore_loop_gives_up_witness :
  let w := restore_world (PShim "" ST_RUNNING) in
  exists attempts w',
    Orchestrator.restore_loop (H:=idle_gpu) (H2:=demo_events) demo_config 3 "/img/a" 7 (w_now w + 3000000000) 0 w =
      (Ret (inr attempts), w') /\
    w_now w + 3000000000 <= w_now w' < w_now w + 8000000000.
Proof.
  intros w.
  destruct (restore_loop_gives_up (H:=idle_gpu) (H0:=demo_backend) (H1:=demo_events) demo_config 3 "/img/a" 7 w).
  - apply demo_outside_shims.
  - intros t. apply demo_outside_waiting.
  - apply demo_all_shims. by exists "", ST_RUNNING.
  - split; by vm_compute.
  - done.
  - by vm_compute.
  - destruct H as (w' & E & Hl & Hu). exists x, w'. split_and!; [exact E|exact Hl|]. apply Hu, demo_outside_time.
Defined.

Lemma Restore_counted_witness :
  counts RestoresTotal RestoreFailuresTotal
    (Orchestrator.Restore (H:=idle_gpu) (H0:=frame_zstd) (H1:=demo_backend) (H2:=demo_events) demo_config 3 3 "/img/a").
Proof.
  apply (Restore_counted (H:=idle_gpu) (H0:=frame_zstd) (H1:=demo_backend) (H2:=demo_events)).
  apply demo_outside_counters.
Defined.
