(* ===== verification/RestoreFacts.v ===== *)
(** What a restore that returns a pid has done (pkg/control/orchestrator.go,
    Restore; shimctl.go, tryShimRestore). *)
From S2P Require Export GivingUp.
Local Open Scope Z_scope.

(** Who may be tried: the process CRIU has restored, and every process that has a
    socket in the run directory. *)
Lemma candidate_cases primary shims p :
  p ∈ restoreCandidates primary shims -> p = primary \/ p ∈ shims.
Proof. destruct (restoreCandidates_spec primary shims) as (_ & Hin & _). rewrite Hin. tauto. Qed.

Section confirmed.
Context `{Gpu} `{Zstd} `{Backend} `{EventFormat} (cfg : Config) (fuel : nat).

(** The process [pid] took over: its shim has answered a ping, loaded the image
    and resumed, in this order and on one connection. *)
Definition took_over (image : string) (pid : Z) (w w' : world) : Prop :=
  exists c c1 c2 c3 w1 w2 w3 w4 w5,
    Orchestrator.dial cfg pid w = (Ret c, w1) /\
    Client.Ping c w1 = (Ret c1, w2) /\
    Client.Restore c1 image w2 = (Ret c2, w3) /\
    logRestorePhase image "gpu" pid ∅ w3 = (Ret tt, w4) /\
    Client.Resume c2 w4 = (Ret c3, w5) /\
    logRestorePhase image "resume" pid ∅ w5 = (Ret tt, w').

Lemma tryShimRestore_inv image pid w got w' :
  Orchestrator.tryShimRestore cfg image pid w = (Ret got, w') -> got = pid /\ took_over image pid w w'.
Proof.
  unfold Orchestrator.tryShimRestore.
  intros (c & w1 & E1 & (c1 & w2 & E2 & (c2 & w3 & E3%wrap_err_inv & ([] & w4 & E4 &
    (c3 & w5 & E5%wrap_err_inv & ([] & w6 & E6 & E)%bind_inv)%bind_inv)%bind_inv)%bind_inv)%bind_inv)%bind_inv.
  injection E as <- <-. split; [done|]. by exists c, c1, c2, c3, w1, w2, w3, w4, w5.
Qed.

(** The candidate that took over had a socket. *)
Definition ready (pid : Z) (w : world) : Prop :=
  exists w0, shimSocketReady (RunDir cfg) pid w0 = (Ret true, w).

Lemma try_candidates_inv image pids w got w' :
  Orchestrator.try_candidates cfg image pids w = (Ret (Some got), w') ->
  got ∈ pids /\ exists w1, ready got w1 /\ took_over image got w1 w'.
Proof.
  revert w. induction pids as [|p pids IH]; intros w; cbn [Orchestrator.try_candidates]; [done|].
  intros (b & w1 & Hb & E)%bind_inv. destruct b; cbn [negb] in E.
  - apply bind_inv in E as (r & w2 & Hr & E). destruct r as [e|g].
    + apply IH in E as [Hin Ht]. split; [by right|done].
    + injection E as <- <-. apply attempt_inv in Hr as [(a & [= ->] & Hr)|(e & ? & _)]; [|done].
      apply tryShimRestore_inv in Hr as [-> Ht]. split; [by left|]. exists w1. split; [by exists w|done].
  - apply IH in E as [Hin Ht]. split; [by right|done].
Qed.

(** What [Restore] does after that: the pid is recorded, where that works, and
    the restore is counted. *)
Definition recorded (image : string) (pid n : Z) (w : world) : world :=
  ((ignore (recordRestorePID image pid) ;; logRestorePhase image "complete" pid {["attempt" := AnyInt n]} ;;
    Default_Inc RestoresTotal) w).2.

(** One round in which a process took over. *)
Definition confirmed (image : string) (criu got : Z) (w' : world) : Prop :=
  exists n pids target wa wb wc w1 w2,
    sortedShims (RunDir cfg) wa = (Ret pids, wb) /\ resolveRestorePID image criu pids wb = (Ret target, wc) /\
    (got = target \/ got ∈ pids) /\
    ready got w1 /\ took_over image got w1 w2 /\ w' = recorded image got n w2.

Lemma restore_round_inv image pid n w got w' :
  Orchestrator.restore_round cfg image pid n w = (Ret (Some got), w') -> confirmed image pid got w'.
Proof.
  unfold Orchestrator.restore_round. intros (r & wb & Hr & E)%bind_inv. destruct r as [e|pids].
  { apply bind_inv in E as ([] & ? & _ & E). done. }
  apply attempt_inv in Hr as [(a & [= <-] & Hr)|(e & ? & _)]; [|done].
  apply bind_inv in E as (target & wc & Ht & E). apply bind_inv in E as (ok & wd & _ & E).
  destruct ok; cbn [negb] in E.
  2:{ apply bind_inv in E as ([] & ? & _ & E). apply bind_inv in E as ([] & ? & _ & E). done. }
  apply bind_inv in E as (g & w2 & Hg & E). destruct g as [g|].
  2:{ apply bind_inv in E as ([] & ? & _ & E). done. }
  apply try_candidates_inv in Hg as [Hin (w1 & Hrd & Hto)].
  apply bind_inv in E as ([] & w3 & E1 & E). apply bind_inv in E as ([] & w4 & E2 & E).
  apply bind_inv in E as ([] & w5 & E3 & E). injection E as <- <-.
  exists n, pids, target, w, wb, wc, w1, w2. split_and!; [done|done| |done|done|].
  - by apply candidate_cases.
  - unfold recorded. by rewrite (bind_run _ _ _ _ _ E1), (bind_run _ _ _ _ _ E2), E3.
Qed.

Lemma restore_loop_inv rounds image pid deadline n w got w' :
  Orchestrator.restore_loop cfg rounds image pid deadline n w = (Ret (inl got), w') -> confirmed image pid got w'.
Proof.
  revert n w. induction rounds as [|rounds IH]; intros n w; cbn [Orchestrator.restore_loop];
    intros (now & w1 & Hn & E)%bind_inv; case_decide; try done.
  apply bind_inv in E as (r & w2 & Hr & E). destruct r as [g|]; [|by eapply IH].
  injection E as <- <-. by eapply restore_round_inv.
Qed.

Lemma or_fail_inv {A} event dir (m : M A) f w a w' :
  Orchestrator.or_fail event dir m f w = (Ret a, w') -> m w = (Ret a, w').
Proof.
  unfold Orchestrator.or_fail. intros (r & w1 & Hr & E)%bind_inv. destruct r as [e|b].
  - apply bind_inv in E as ([] & ? & _ & E). apply bind_inv in E as ([] & ? & _ & E). done.
  - injection E as <- <-. by apply attempt_inv in Hr as [(? & [= ->] & Hr)|(? & ? & _)].
Qed.
End confirmed.

(** ** Properties *)

(** C13: what a pid that [Restore] returns stands for, whatever has failed on the
    way. The image has passed the check before the restore, its device content is
    there, CRIU has restored it with the environment of its metadata, in this
    order. Then the process of the pid, which is in the list of shims or is the
    one that CRIU named or the image records, had a socket, and its shim has
    answered a ping, loaded this image and resumed; after that the pid was
    recorded and the restore counted. It need not be the process that CRIU has
    restored. *)
Theorem Restore_confirmed `{Gpu} `{Zstd} `{Backend} `{EventFormat} cfg fuel rounds image w got w' :
  Orchestrator.Restore cfg fuel rounds image w = (Ret got, w') ->
  exists w1 w2 w3 w4 w5 w6 w7 w8 env criu pid,
    PreflightRestore image w1 = (Ret tt, w2) /\
    logRestorePhase image "preflight" 0 ∅ w2 = (Ret tt, w3) /\
    EnsureDeviceMaterialized fuel image w3 = (Ret tt, w4) /\
    logRestorePhase image "materialize" 0 ∅ w4 = (Ret tt, w5) /\
    Orchestrator.restore_env image w5 = (Ret env, w6) /\
    criu_Restore image (PathJoin [image; "restore.log"]) env w6 = (Ret criu, w7) /\
    Orchestrator.restored_pid image criu w7 = (Ret pid, w8) /\
    confirmed cfg image pid got w'.
Proof.
  unfold Orchestrator.Restore.
  intros ([] & w1 & _ & ([] & w2 & E1%or_fail_inv & ([] & w3 & E2 & ([] & w4 & E3%or_fail_inv &
    ([] & w5 & E4 & (env & w6 & E5 & (criu & w7 & E6%or_fail_inv & (pid & w8 & E7 &
    (now & w9 & E8 & (r & w10 & E9 & E)%bind_inv)%bind_inv)%bind_inv)%bind_inv)%bind_inv)%bind_inv)%bind_inv)%bind_inv)%bind_inv)%bind_inv.
  destruct r as [g|n].
  2:{ apply bind_inv in E as ([] & ? & _ & E). apply bind_inv in E as ([] & ? & _ & E).
      apply bind_inv in E as ([] & ? & _ & E). done. }
  injection E as <- <-. exists w1, w2, w3, w4, w5, w6, w7, w8, env, criu, pid.
  split_and!; [done..|]. by eapply restore_loop_inv.
Qed.

(** CRIU has restored the process 7, whose server refuses the client; the image
    goes to the next process that has a server, whatever that process is, and its
    pid is the one returned. *)
Definition strangers : world :=
  set_peers {[ ["run"; "7.sock"] := PMock "other" 0 [] 0; ["run"; "9.sock"] := PMock "" 0 [] 0 ]}
    (set_fs (<[["run"; "9.sock"] := NSock]> (w_fs (demo_checkpoint "/img/a" preloaded).2))
      (demo_checkpoint "/img/a" preloaded).2).

Lemma Restore_confirmed_witness :
  let run := Orchestrator.Restore (H:=idle_gpu) (H0:=frame_zstd) (H1:=demo_backend) (H2:=demo_events)
    demo_config 3 3 "/img/a" strangers in
  run.1 = Ret 9 /\ exists criu, confirmed (H:=idle_gpu) (H2:=demo_events) demo_config "/img/a" criu 9 run.2.
Proof.
  intros run. assert (E : run.1 = Ret 9) by (by vm_compute). split; [done|].
  destruct (Restore_confirmed (H:=idle_gpu) (H0:=frame_zstd) (H1:=demo_backend) (H2:=demo_events) demo_config 3 3
    "/img/a" strangers 9 run.2) as (w1 & w2 & w3 & w4 & w5 & w6 & w7 & w8 & env & criu & pid & ? & ? & ? & ? & ? & ? & ? & Hc).
  - rewrite <- E. apply surjective_pairing.
  - by exists pid.
Defined.
