(* ===== verification/WatchFacts.v ===== *)
(** What watching a shim and stopping a process do: pkg/control/watch.go and
    rollback.go. *)
From S2P Require Export GivingUp.
Local Open Scope Z_scope.

(** ** Watching *)

(** The servers are shims, the environment is [e], it is [t] or later, and [s]
    has been printed. *)
Definition watching (e : gmap string string) (t : Z) (s : string) (w : world) : Prop :=
  waiting e t w /\ w_stdout w = s.

#[global] Instance watching_stable e t s : Stable (watching e t s).
Proof. by split. Qed.

Section watch.
Context `{Gpu} `{Backend} `{EventFormat} (cfg : Config) (e : gmap string string).
Context (Hsecret : is_u32 (Z.of_nat (length (bytes_of_string (rpc_secret cfg e))))).
Context `{HO : !Outside all_shims} (HOw : forall t s, Outside (watching e t s)).

Lemma Status_returns pid w :
  all_shims w -> w_env w = e ->
  (Orchestrator.Status cfg pid w).1 <> Panic /\ (Orchestrator.Status cfg pid w).1 <> Diverge.
Proof using HO Hsecret.
  intros Hall He. unfold Orchestrator.Status. apply bind_returns; [by apply (dial_returns cfg e)|].
  intros c w1 Hd. destruct (dial_idle cfg e Hsecret _ _ _ _ Hall He Hd) as [Hidle Hall1].
  apply bind_returns; [by apply wrap_returns, call_returns|done].
Qed.

Lemma keeps_Status I `{!Stable I, !Outside I} pid : keeps I (Orchestrator.Status cfg pid).
Proof using Type. unfold Orchestrator.Status, Client.Status. keep; first [apply (keeps_dial I)|apply (keeps_call I)]. Qed.

(** What is printed of a sequence of answers, each with the time it was printed
    at: the answers that differ from the one before. *)
Definition state_line (st t : Z) : string :=
  StateName st +:+ " ts=" +:+ format_seconds t +:+ String newline "".

Fixpoint changes (last : Z) (obs : list (Z * Z)) : string :=
  match obs with
  | [] => ""
  | (st, t) :: obs => (if decide (st <> last) then state_line st t else "") +:+ changes st obs
  end.

(** Requests for the state, one after the other, [iv] apart, while the watch goes
    on: it has not been told to stop, the deadline [d] has not passed, and what is
    waited for has not been seen. [obs] are the answers with the times they came
    at, from the world [w] to the world before the next request. Between two
    requests text may be printed. *)
Section polling.
Context (pid iv : Z) (opts : Orchestrator.WatchOptions) (stop : world -> bool) (d : Z).

Definition reached (st : Z) : bool := Orchestrator.UntilRunning opts && bool_decide (st = 4 \/ st = 3).

(** The watch asks in the world [w] and gets the answer [st], after which it is [w']. *)
Definition asks (w : world) (st : Z) (w' : world) : Prop :=
  stop w = false /\ w_now w <= d /\ Orchestrator.Status cfg pid w = (Ret st, w').

Inductive polls : world -> list (Z * Z) -> world -> Prop :=
  | polls_none w : polls w [] w
  | polls_next w st w1 s obs w2 :
      asks w st w1 -> reached st = false ->
      polls (set_now (w_now w1 + iv) (set_stdout s w1)) obs w2 -> polls w ((st, w_now w1) :: obs) w2.

(** How watching ends, in the world [w'], after the answers [obs]. *)
Inductive watched (w : world) (obs : list (Z * Z)) (w' : world) : outcome unit -> Prop :=
  | watched_stop : polls w obs w' -> stop w' = true -> watched w obs w' (Ret tt)
  | watched_timeout : polls w obs w' -> stop w' = false -> d < w_now w' ->
      watched w obs w' (Err (Ckpterr.E Code.RPC "watch timeout"))
  | watched_error v err : polls w obs v -> stop v = false -> w_now v <= d ->
      Orchestrator.Status cfg pid v = (Err err, w') ->
      watched w obs w' (Err (Ckpterr.Wrap Code.RPC "watch" (Some err)))
  | watched_reached obs0 v st w1 s : polls w obs0 v -> asks v st w1 -> reached st = true ->
      obs = obs0 ++ [(st, w_now w1)] -> w' = set_stdout s w1 -> watched w obs w' (Ret tt).

Lemma watched_next w st w1 s obs w' r :
  asks w st w1 -> reached st = false ->
  watched (set_now (w_now w1 + iv) (set_stdout s w1)) obs w' r -> watched w ((st, w_now w1) :: obs) w' r.
Proof using Type.
  intros Ha Hr [Hp Hs|Hp Hs Hd|v err Hp Hs Hd E|obs0 v st' w1' s' Hp Hl Hst -> ->].
  - apply watched_stop; [by eapply polls_next|done].
  - apply watched_timeout; [by eapply polls_next|done..].
  - eapply watched_error; [by eapply polls_next|done..].
  - eapply (watched_reached _ _ _ ((st, w_now w1) :: obs0)); [by eapply polls_next|done..].
Qed.
End polling.

Lemma watch_loop_ends n pid interval opts d stop last t s w :
  0 < interval -> (0 < n)%nat -> d - t < (Z.of_nat n - 1) * interval -> watching e t s w ->
  exists obs r w', Orchestrator.watch_loop cfg n pid interval opts (Some d) stop last w = (r, w') /\
    w_stdout w' = s +:+ changes last obs /\ watched pid interval opts stop d w obs w' r.
Proof using HO HOw Hsecret.
  intros Hi Hn. revert last t s w. induction n as [|n IH]; [lia|]. intros last t s w Hd Hw.
  cbn [Orchestrator.watch_loop]. unfold gets. rewrite (bind_run _ _ _ (stop w) w) by done.
  destruct (stop w) eqn:Hstop.
  { exists [], (Ret tt), w. split_and!; [done|by rewrite app_nil_str; apply Hw|]. by apply watched_stop; [constructor|]. }
  rewrite (bind_run _ _ _ (w_now w) w) by done. case_bool_decide as Hnow.
  { exists [], (Err (Ckpterr.E Code.RPC "watch timeout")), w.
    split_and!; [done|by rewrite app_nil_str; apply Hw|]. apply watched_timeout; [constructor|done|lia]. }
  destruct Hw as [(Hall & He & Ht) Hs].
  pose proof (Status_returns pid w Hall He) as [Hp Hdv].
  assert (K : watching e t s (Orchestrator.Status cfg pid w).2)
    by (apply (keeps_Status (watching e t s) (Outside0 := HOw t s)); by split).
  unfold wrap_err, attempt, mbind, M_bind.
  destruct (Orchestrator.Status cfg pid w) as [[st|err| |] w1] eqn:Est; cbn [fst snd] in *; [|clear Hp Hdv|done..].
  2: { exists [], (Err (Ckpterr.Wrap Code.RPC "watch" (Some err))), w1.
       split_and!; [done|by rewrite app_nil_str; apply K|]. eapply watched_error; [constructor|done|lia|done]. }
  assert (Ha : asks pid stop d w st w1) by (split_and!; [done|lia|done]).
  destruct K as [(Hall1 & He1 & Ht1) Hs1]. cbn [mret M_ret].
  set (p := if decide (st <> last) then state_line st (w_now w1) else "").
  set (w2 := set_stdout (s +:+ p) w1).
  assert (Ep : (if decide (st <> last) then Print (state_line st (w_now w1)) else mret tt) w1 = (Ret tt, w2)).
  { unfold w2, p, Print. case_decide; [by rewrite Hs1|]. rewrite app_nil_str, <- Hs1. by destruct w1. }
  unfold state_line in Ep. rewrite Ep. fold (reached opts st).
  destruct (reached opts st) eqn:Hend.
  { exists [(st, w_now w1)], (Ret tt), w2. split_and!; [done|by cbn; rewrite app_nil_str|].
    by eapply (watched_reached _ _ _ _ _ _ _ _ []); [constructor|..]. }
  assert (Hnext : watching e (t + interval) (s +:+ p) (set_now (w_now w1 + interval) w2)).
  { split; [|done]. split_and!; [done..|]. cbn. lia. }
  destruct n as [|n]; [exfalso; cbn in Hd; lia|].
  destruct (IH ltac:(lia) st (t + interval) (s +:+ p) _ ltac:(lia) Hnext) as (obs & r & w' & E & Ho & Hr).
  exists ((st, w_now w1) :: obs), r, w'. split; [|split; [|by eapply watched_next]].
  - rewrite <- E. unfold Sleep. rewrite Z.max_r by lia. done.
  - rewrite Ho. cbn [changes]. by rewrite <- app_assoc_str.
Qed.
End watch.

(** C16: watching with a timeout ends, and prints the changes of state. Where
    the servers are shims, whatever calls fail: when the rounds are enough for
    the timeout at the given interval (half a second if it is not positive),
    the watch returns. It has asked for the state again and again, an interval
    after each answer, as long as it was not told to stop, the timeout had not
    passed, and the shim was not running or restored where that is waited for;
    it returns at the first of these, or when a request fails, with the result
    for each. It has printed one line for every answer that differs from the one
    before, and nothing else. *)
Theorem watch_ends `{Gpu} `{Backend} `{EventFormat} cfg rounds pid interval opts stop w :
  let iv := if decide (interval <= 0) then 500000000 else interval in
  Outside all_shims -> (forall t s, Outside (watching (w_env w) t s)) -> all_shims w ->
  is_u32 (Z.of_nat (length (bytes_of_string (rpc_secret cfg (w_env w))))) ->
  0 < Orchestrator.Timeout opts < (Z.of_nat rounds - 1) * iv ->
  exists obs r w', Orchestrator.WatchShimWith cfg rounds pid interval opts stop w = (r, w') /\
    w_stdout w' = w_stdout w +:+ changes 999 obs /\
    watched cfg pid iv opts stop (w_now w + Orchestrator.Timeout opts) w obs w' r.
Proof.
  intros iv HO HOw Hall Hsec Ht. assert (Hiv : 0 < iv) by (unfold iv; case_decide; lia).
  unfold Orchestrator.WatchShimWith. fold iv. unfold gets. rewrite (bind_run _ _ _ (w_now w) w) by done.
  rewrite decide_True by lia.
  apply (watch_loop_ends cfg (w_env w) Hsec HOw rounds pid iv opts _ stop 999 (w_now w) (w_stdout w) w Hiv).
  - destruct rounds; [cbn in Ht; nia|lia].
  - lia.
  - done.
Qed.

(** ** Stopping a process *)

Section stop.
Context `{P : Orchestrator.Processes}.

(** The world [t] nanoseconds later. *)
Definition later (t : Z) (w : world) : world := set_now (w_now w + t) w.

Lemma later_later a b w : later b (later a w) = later (a + b) w.
Proof using Type. unfold later, set_now. cbn. f_equal. lia. Qed.

Lemma wait_gone_ends n pid deadline w :
  deadline - w_now w <= Z.of_nat n * 100000000 ->
  exists k : nat, let w' := later (Z.of_nat k * 100000000) w in
    (forall i : nat, (i < k)%nat -> Orchestrator.kill_0 pid (later (Z.of_nat i * 100000000) w) = true) /\
    ((Orchestrator.wait_gone n pid deadline w = (Ret true, w') /\ w_now w' < deadline /\
      Orchestrator.kill_0 pid w' = false) \/
     (Orchestrator.wait_gone n pid deadline w = (Ret false, w') /\ deadline <= w_now w' /\
      (w_now w < deadline -> w_now w' < deadline + 100000000))).
Proof using Type.
  revert w. induction n as [|n IH]; intros w Hn; cbn [Orchestrator.wait_gone]; unfold gets;
    rewrite (bind_run _ _ _ (w_now w) w) by done;
    assert (H0 : later (Z.of_nat 0 * 100000000) w = w) by (unfold later, set_now; rewrite Z.add_0_r; by destruct w).
  - rewrite decide_False by lia. exists 0%nat. rewrite H0. split; [lia|]. right. split_and!; [done|lia|lia].
  - case_decide as Hd; [|exists 0%nat; rewrite H0; split; [lia|]; right; split_and!; [done|lia|lia]].
    rewrite (bind_run _ _ _ (Orchestrator.kill_0 pid w) w) by done.
    destruct (Orchestrator.kill_0 pid w) eqn:Hk; cbn [negb].
    2: { exists 0%nat. rewrite H0. split; [lia|]. left. by split_and!. }
    rewrite (bind_run _ _ _ tt (later 100000000 w)) by done.
    destruct (IH (later 100000000 w)) as (k & Hb & Hr); [cbn; lia|].
    assert (HS : forall i : nat, later (Z.of_nat i * 100000000) (later 100000000 w) = later (Z.of_nat (S i) * 100000000) w)
      by (intros i; rewrite later_later; f_equal; lia).
    exists (S k). rewrite <- HS. split.
    + intros [|i] Hi; [by rewrite H0|]. rewrite <- HS. apply Hb. lia.
    + destruct Hr as [Hr|(E & Hl & Hu)]; [by left|]. right. split_and!; [done|done|].
      intros _. destruct (decide (w_now (later 100000000 w) < deadline)); [by apply Hu|].
      destruct k as [|k]; [cbn; lia|]. exfalso. specialize (Hb 0%nat ltac:(lia)).
      clear -E Hl n0 Hn. destruct n; cbn [Orchestrator.wait_gone] in E; unfold gets in E;
        rewrite (bind_run _ _ _ (w_now (later 100000000 w)) (later 100000000 w)) in E by done;
        rewrite decide_False in E by lia; injection E as E; lia.
Qed.

(** C17: stopping a process takes three seconds at most before force is used,
    and never hangs. It is sent SIGTERM and looked for every tenth of a second;
    the first time it is gone, the call succeeds, and no SIGKILL is sent; if it
    is there for three seconds (thirty times), it is sent SIGKILL, and the call
    returns what that says, without looking again. *)
Theorem stopProcess_exact pid w :
  0 < pid ->
  let v := Orchestrator.signal_term pid w in
  exists k : nat, (k <= 30)%nat /\
    (forall i : nat, (i < k)%nat -> Orchestrator.kill_0 pid (later (Z.of_nat i * 100000000) v) = true) /\
    let w' := later (Z.of_nat k * 100000000) v in
    if decide (k < 30)%nat
    then Orchestrator.kill_0 pid w' = false /\ Orchestrator.stopProcess pid w = (Ret tt, w')
    else Orchestrator.stopProcess pid w =
      (match (Orchestrator.signal_kill pid w').1 with
       | None => Ret tt
       | Some err => Err (Ckpterr.Wrap Code.Invalid "kill process" (Some err))
       end, (Orchestrator.signal_kill pid w').2).
Proof using Type.
  intros Hpid v. unfold Orchestrator.stopProcess. rewrite decide_False by lia.
  rewrite (bind_run _ _ _ tt v) by done. unfold gets. rewrite (bind_run _ _ _ (w_now v) v) by done.
  destruct (wait_gone_ends 31 pid (w_now v + 3000000000) v) as (k & Hb & Hr); [lia|].
  exists k. destruct Hr as [(E & Hl & Hk)|(E & Hl & Hu)]; rewrite (bind_run _ _ _ _ _ E); cbn [later w_now set_now] in *.
  - split; [lia|]. split; [done|]. rewrite decide_True by lia. done.
  - split; [lia|]. split; [done|]. rewrite decide_False by lia.
    set (w' := later _ v) in *. unfold mbind at 1, M_bind at 1.
    destruct (Orchestrator.signal_kill pid w') as [[err|] w2]; done.
Qed.
End stop.

(** ** Runs *)

Lemma demo_outside_watching e t s : Outside (H:=idle_gpu) (H0:=demo_backend) (watching e t s).
Proof.
  destruct (demo_outside_waiting e t) as [H1 H2 H3 H4 H5 H6 H7 H8].
  split; [done..|intros p d; by apply (keeps_fake_Dump (watching e t s))
    |intros d l x; by apply (keeps_fake_Restore (watching e t s))| |].
  - intros w sock secret st [Hw Hs]. split; [by apply H7|done].
  - intros w sock secret ff sq i ff' i' Hp [Hw Hs]. split; [by apply (H8 w sock secret ff sq i)|done].
Qed.

Definition demo_watch (opts : Orchestrator.WatchOptions) (w : world) : outcome unit * world :=
  Orchestrator.WatchShimWith (H:=idle_gpu) (H2:=demo_events) demo_config 12 7 200000000 opts (fun _ => false) w.

Lemma watch_ends_witness :
  let w := restore_world (PShim "" ST_FROZEN) in
  let opts := Orchestrator.mkWatchOptions true 2000000000 in
  exists obs r w', demo_watch opts w = (r, w') /\
    w_stdout w' = w_stdout w +:+ changes (H1:=demo_events) 999 obs /\
    watched (H:=idle_gpu) demo_config 7 200000000 opts (fun _ => false) (w_now w + 2000000000) w obs w' r.
Proof.
  intros w opts.
  apply (watch_ends (H:=idle_gpu) (H0:=demo_backend) (H1:=demo_events) demo_config 12 7 200000000 opts (fun _ => false) w).
  - apply demo_outside_shims.
  - intros t s. apply demo_outside_watching.
  - apply demo_all_shims. by exists "", ST_FROZEN.
  - split; by vm_compute.
  - split; by vm_compute.
Defined.

(** A shim that stays frozen: one line, and the timeout. The test server, which
    passes through three states: a line for each, until it is running. *)
Example watch_frozen :
  let r := demo_watch (Orchestrator.mkWatchOptions true 2000000000) (restore_world (PShim "" ST_FROZEN)) in
  r.1 = Err (Ckpterr.E Code.RPC "watch timeout") /\
  w_stdout r.2 = state_line (H1:=demo_events) ST_FROZEN 0.
Proof. split; by vm_compute. Qed.

Example watch_mock :
  let r := demo_watch (Orchestrator.mkWatchOptions true 2000000000) (restore_world (PMock "" 0 [1; 1; 2; 4] 0)) in
  r.1 = Ret tt /\
  w_stdout r.2 = state_line (H1:=demo_events) ST_FROZEN 0 +:+ state_line (H1:=demo_events) ST_SNAPPED 0 +:+
                 state_line (H1:=demo_events) ST_RUNNING 0.
Proof. split; by vm_compute. Qed.

(** A process that runs as long as the environment does not say that it is
    gone: it takes no notice of SIGTERM, and SIGKILL ends it. *)
Definition stubborn : Orchestrator.Processes := {|
  Orchestrator.signal_term _ w := w;
  Orchestrator.kill_0 _ w := bool_decide (w_env w !! "GONE" = None);
  Orchestrator.signal_kill _ w :=
    (None, World (w_fs w) (w_mtime w) (w_cwd w) (<["GONE" := "1"]> (w_env w)) (w_now w) (w_counters w) (w_peers w)
       (w_faults w) (w_gauges w) (w_stdout w));
|}.

Lemma stopProcess_exact_witness :
  exists k : nat, (k <= 30)%nat /\
    let w' := later (Z.of_nat k * 100000000) demo_world in
    if decide (k < 30)%nat
    then Orchestrator.kill_0 (Processes := stubborn) 7 w' = false /\
         Orchestrator.stopProcess (H3 := stubborn) 7 demo_world = (Ret tt, w')
    else Orchestrator.stopProcess (H3 := stubborn) 7 demo_world =
      (Ret tt, (Orchestrator.signal_kill (Processes := stubborn) 7 w').2).
Proof.
  destruct (stopProcess_exact (P := stubborn) 7 demo_world) as (k & Hk & _ & H); [lia|].
  exists k. split; [exact Hk|exact H].
Defined.

(** A rollback stops the process before it looks at the image: here there is
    none, the rollback fails, and the process is gone. *)
Example rollback_stops_first :
  let r := Orchestrator.Rollback (H:=idle_gpu) (H0:=frame_zstd) (H1:=demo_backend) (H2:=demo_events) (H3:=stubborn)
    demo_config 3 3 "/nowhere" 7 demo_world in
  (forall pid, r.1 <> Ret pid) /\ Orchestrator.kill_0 (Processes := stubborn) 7 demo_world = true /\
  Orchestrator.kill_0 (Processes := stubborn) 7 r.2 = false.
Proof. cbv zeta. split_and!; [intros pid; by vm_compute|by vm_compute..]. Qed.
