(* ===== verification/Promote.v ===== *)
(** pkg/control/promote.go: copying an image to another place, and pinning it
    there. *)
From S2P Require Export Verify Retention.
Local Open Scope Z_scope.

Record PromoteOptions := mkPromote { Src : string; Dest : string; promote_PinFile : string }.

(** ** path/filepath: Rel and Walk *)

(** The elements of a cleaned path between its separators. *)
Definition elements (s : string) : list string :=
  if decide (s = "") then [] else if decide (s = "/") then [""] else split_char slash s.

(** What is left of two paths after their common elements. *)
Fixpoint strip_common (base targ : list string) : list string * list string :=
  match base, targ with
  | b :: base', t :: targ' => if decide (b = t) then strip_common base' targ' else (base, targ)
  | _, _ => (base, targ)
  end.

(** filepath.Rel. *)
Definition Rel (basepath targpath : string) : goerr + string :=
  let base := Clean basepath in
  let targ := Clean targpath in
  if decide (base = targ) then inr "."
  else
    let base := if decide (base = ".") then "" else base in
    let fail := inl (EText ("Rel: can't make " +:+ targpath +:+ " relative to " +:+ basepath)) in
    if decide (is_rooted base <> is_rooted targ) then fail
    else
      let '(b, t) := strip_common (elements base) (elements targ) in
      match b, t with
      | ".." :: _, _ :: _ => fail
      | _, _ => inr (join_with "/" (replicate (length b) ".." ++ t))
      end.

Example Rel_ex1 : Rel "/img/a" "/img/a/criu/core.img" = inr "criu/core.img". Proof. reflexivity. Qed.
Example Rel_ex2 : Rel "/a/b/c" "/a/x" = inr "../../x". Proof. reflexivity. Qed.
Example Rel_ex3 : Rel "." "a/b" = inr "a/b". Proof. reflexivity. Qed.
Example Rel_ex4 : Rel "/" "/a" = inr "a". Proof. reflexivity. Qed.
Example Rel_ex5 : Rel "a" "a" = inr ".". Proof. reflexivity. Qed.
Example Rel_ex6 : Rel "../a" "b" = inl (EText "Rel: can't make b relative to ../a"). Proof. reflexivity. Qed.

(** os.Lstat; there are no symbolic links. *)
Definition Lstat (s : string) : M node :=
  syscall (fail_with "lstat" s) (fun w =>
    match find_node w s with
    | inr n => (Ret n, w)
    | inl e => (Err (EPath "lstat" s e), w)
    end).

(** The function given to [Walk] gets a path, what is there, and the error of
    finding out. It never returns SkipDir or SkipAll here. *)
Definition walkFunc : Type := string -> option node -> option goerr -> M unit.

(** filepath.walk, for trees of a depth less than [fuel]: a copy of a directory
    into itself walks the copy too. *)
Fixpoint walk (fuel : nat) (fn : walkFunc) (path : string) (info : node) : M unit :=
  match fuel with
  | O => diverge
  | S fuel =>
      match info with
      | NDir =>
          r ← attempt (ReadDir path);
          match r with
          | inl e => fn path (Some info) (Some e)
          | inr names =>
              fn path (Some info) None ;;
              forM_ names (fun name =>
                let filename := PathJoin [path; de_name name] in
                st ← attempt (Lstat filename);
                match st with
                | inl e => fn filename None (Some e)
                | inr n => walk fuel fn filename n
                end)
          end
      | _ => fn path (Some info) None
      end
  end.

Definition Walk (fuel : nat) (root : string) (fn : walkFunc) : M unit :=
  st ← attempt (Lstat root);
  match st with
  | inl e => fn root None (Some e)
  | inr n => walk fuel fn root n
  end.

(** ** promote.go *)

(** io.Copy between files reads the one and writes the other; a copy that fails
    has written a part. *)
Definition copyFile (src dst : string) : M unit :=
  in_ ← Open src;
  MkdirAll (PathDir dst) ;;
  out ← Create dst;
  c ← fread in_;
  fwrite out c.

Definition copy_entry (src dst : string) : walkFunc := fun path fi err =>
  match err, fi with
  | Some e, _ => throw e
  | None, None => panic
  | None, Some n =>
      rel ← lift (Rel src path);
      let target := PathJoin [dst; rel] in
      match n with
      | NDir => MkdirAll target
      | _ => copyFile path target
      end
  end.

Definition copyDir (fuel : nat) (src dst : string) : M unit :=
  let src := Clean src in
  let dst := Clean dst in
  info ← Stat src;
  if decide (info <> NDir) then throw (Ckpterr.E Code.Invalid "source not a directory")
  else Walk fuel src (copy_entry src dst).

Definition appendPinnedPath (pinFile path : string) : M unit :=
  let path := Clean path in
  pinned ← LoadPinnedPaths pinFile;
  if decide (path ∈ pinned) then mret tt
  else
    f ← open_create false pinFile;
    fwrite f (bytes_of_string path ++ [Byte.x0a]).

Definition ParsePromotePin (path : string) : M string :=
  let path := TrimSpace path in
  if decide (path = "") then Getenv "CUDACKPT_PIN_FILE" else mret path.

Section promote.
Context `{Zstd} (fuel depth : nat).

Definition Promote (opts : PromoteOptions) : M unit :=
  let src := Clean (Src opts) in
  let dest := Clean (Dest opts) in
  if decide (src = dest) then throw (Ckpterr.E Code.Invalid "source and dest are the same")
  else
    ValidateImage fuel src ;;
    wrap_err Code.IO "remove dest" (RemoveAll dest) ;;
    wrap_err Code.IO "copy" (copyDir depth src dest) ;;
    r ← attempt (ValidateImage fuel dest);
    match r with
    | inl e => ignore (RemoveAll dest) ;; throw (Ckpterr.Wrap Code.Invalid "dest validate" (Some e))
    | inr _ =>
        if decide (promote_PinFile opts <> "")
        then wrap_err Code.IO "pin" (appendPinnedPath (promote_PinFile opts) dest)
        else mret tt
    end.
End promote.

(** ** Clean is idempotent *)

(** The components of a cleaned path: dot-dots, none after a root, then names. *)
Definition canonical (rooted : bool) (l : list string) : Prop :=
  exists n ps, l = replicate n ".." ++ ps /\ Forall (fun c => proper c = true) ps /\ (rooted = true -> n = 0%nat).

Lemma clean_step_canonical rooted acc c :
  contains_char slash c = false -> canonical rooted acc -> canonical rooted (clean_step rooted acc c).
Proof.
  intros Hc (n & ps & -> & Hps & Hn). unfold clean_step.
  case_bool_decide as H1; [by exists n, ps|]. case_bool_decide as H2; [by exists n, ps|]. cbn [orb].
  case_bool_decide as H3.
  - destruct ps as [|x ps _] using rev_ind.
    + rewrite app_nil_r. destruct n as [|n]; cbn [replicate last].
      { destruct rooted; [by exists 0%nat, []|by exists 1%nat, []]. }
      assert (Hl : last (".." :: replicate n "..") = Some "..").
      { change (".." :: replicate n "..") with (replicate (S n) ".."). by rewrite replicate_S_end, last_snoc. }
      rewrite Hl, bool_decide_eq_true_2 by done. exists (S (S n)), []. split_and!; [|done|].
      * rewrite app_nil_r. change (".." :: replicate n "..") with (replicate (S n) ".."). by rewrite <- replicate_S_end.
      * intros Hr. by apply Hn in Hr.
    + rewrite app_assoc, last_snoc. apply Forall_app in Hps as [Hps [Hx _]%Forall_cons].
      rewrite bool_decide_eq_false_2.
      2:{ intros ->. done. }
      rewrite removelast_last. by exists n, ps.
  - exists n, (ps ++ [c]). rewrite app_assoc. split_and!; [done| |done]. apply Forall_app. split; [done|].
    constructor; [|done]. by apply proper_spec.
Qed.

Lemma clean_fold_canonical rooted l acc :
  Forall (fun c => contains_char slash c = false) l -> canonical rooted acc ->
  canonical rooted (foldl (clean_step rooted) acc l).
Proof.
  revert acc. induction l as [|c l IH]; intros acc HF Ha; [done|]. apply Forall_cons in HF as [Hc HF].
  apply IH; [done|]. by apply clean_step_canonical.
Qed.

Lemma clean_fold_proper rooted l acc :
  Forall (fun c => proper c = true) l -> foldl (clean_step rooted) acc l = acc ++ l.
Proof.
  revert acc. induction l as [|c l IH]; intros acc HF; cbn [foldl]; [by rewrite app_nil_r|].
  apply Forall_cons in HF as [Hc HF]. rewrite clean_step_proper, IH by done. by rewrite <- app_assoc.
Qed.

Lemma clean_fold_id rooted l : canonical rooted l -> foldl (clean_step rooted) [] l = l.
Proof.
  intros (n & ps & -> & Hps & Hn). rewrite foldl_app, clean_fold_proper by done. f_equal.
  destruct rooted; [by rewrite Hn|]. clear.
  assert (E : forall m, foldl (clean_step false) (replicate m "..") (replicate n "..") = replicate (m + n) "..").
  { induction n as [|n IH]; intros m; cbn [replicate foldl]; [by rewrite Nat.add_0_r|].
    rewrite Nat.add_succ_r. change (S (m + n)) with (S m + n)%nat. rewrite <- (IH (S m)). f_equal. destruct m as [|m]; [done|].
    unfold clean_step. cbn [orb bool_decide]. rewrite !bool_decide_eq_false_2 by done.
    rewrite (bool_decide_eq_true_2 (".." = "..")) by done. cbn [orb].
    rewrite replicate_S_end, last_snoc. rewrite bool_decide_eq_true_2 by done.
    by rewrite <- !replicate_S_end. }
  apply (E 0%nat).
Qed.

Lemma canonical_no_slash rooted l : canonical rooted l -> Forall (fun c => contains_char slash c = false) l.
Proof.
  intros (n & ps & -> & Hps & _). apply Forall_app. split; [by apply Forall_replicate|].
  eapply Forall_impl; [exact Hps|]. by intros c (_ & _ & _ & ?)%proper_spec.
Qed.

Lemma canonical_names rooted l : canonical rooted l -> Forall (fun c => proper c = true \/ c = "..") l.
Proof.
  intros (n & ps & -> & Hps & _). apply Forall_app. split; [apply Forall_replicate; by right|].
  eapply Forall_impl; [exact Hps|]. by left.
Qed.

(** The cleaned path of these components. *)
Definition render (rooted : bool) (cs : list string) : string :=
  if rooted then "/" +:+ join_with "/" cs
  else if bool_decide (cs = []) then "." else join_with "/" cs.

Lemma Clean_is_render s : exists rooted cs, canonical rooted cs /\ Clean s = render rooted cs.
Proof.
  eexists _, _. split; [|done]. apply clean_fold_canonical; [apply split_no_slash|]. by exists 0%nat, [].
Qed.

Lemma canonical_split rooted cs : canonical rooted cs -> cs <> [] -> split_char slash (join_with "/" cs) = cs.
Proof. intros Hc Hne. apply (join_split_plain slash); [done|by eapply canonical_no_slash]. Qed.

Lemma render_rooted rooted cs : canonical rooted cs -> is_rooted (render rooted cs) = rooted.
Proof.
  intros Hc. unfold render. destruct rooted; [done|]. case_bool_decide; [done|].
  by eapply join_rooted, canonical_names.
Qed.

(** What is split off a rendered path. *)
Lemma render_split rooted cs :
  canonical rooted cs -> cs <> [] ->
  split_char slash (render rooted cs) = (if rooted then [""] else []) ++ cs.
Proof.
  intros Hc Hne. unfold render. destruct rooted.
  - change ("/" +:+ join_with "/" cs) with (String slash (join_with "/" cs)).
    rewrite split_slash_cons. f_equal. by eapply canonical_split.
  - rewrite bool_decide_eq_false_2 by done. by eapply canonical_split.
Qed.

Lemma render_comps rooted cs :
  canonical rooted cs -> foldl (clean_step rooted) [] (split_char slash (render rooted cs)) = cs.
Proof.
  intros Hc. destruct (decide (cs = [])) as [->|Hne]; [by destruct rooted|].
  rewrite render_split, foldl_app by done. destruct rooted; cbn [foldl]; by rewrite clean_fold_id.
Qed.

Lemma Clean_render rooted cs : canonical rooted cs -> Clean (render rooted cs) = render rooted cs.
Proof. intros Hc. unfold Clean. by rewrite render_rooted, render_comps. Qed.

Lemma Clean_Clean s : Clean (Clean s) = Clean s.
Proof. destruct (Clean_is_render s) as (rooted & cs & Hc & ->). by apply Clean_render. Qed.

(** ** Lines added to a pin file *)

Lemma scan_lines_app l line k :
  scan_lines (l ++ Byte.x0a :: k) line =
  match scan_lines (l ++ [Byte.x0a]) line with
  | (ls, None) => let '(ls', e) := scan_lines k [] in (ls ++ ls', e)
  | (ls, Some e) => (ls, Some e)
  end.
Proof.
  revert line. induction l as [|b l IH]; intros line; cbn [app scan_lines].
  - rewrite decide_True by done. case_decide; [done|]. cbn [decide]. rewrite decide_True by done.
    by destruct (scan_lines k []) as [ls e].
  - case_decide; [|apply IH]. case_decide; [done|]. rewrite IH.
    destruct (scan_lines (l ++ [Byte.x0a]) []) as [ls [e|]]; [done|]. by destruct (scan_lines k []) as [ls' e].
Qed.

(** The text of a line of its own. *)
Record plain_line (p : bytes) : Prop := {
  pl_newline : Byte.x0a ∉ p;
  pl_cr : drop_cr p = p;
  pl_length : (length p < max_token)%nat;
}.

Lemma scan_lines_plain p line :
  Byte.x0a ∉ p -> (length (line ++ p) < max_token)%nat ->
  scan_lines (p ++ [Byte.x0a]) line = ([string_of_bytes (drop_cr (line ++ p))], None).
Proof.
  revert line. induction p as [|b p IH]; intros line Hp Hl; cbn [app scan_lines].
  - rewrite app_nil_r in *. rewrite decide_True, decide_False by (done || lia). by rewrite decide_True.
  - rewrite decide_False by set_solver. rewrite IH; [by rewrite <- app_assoc|set_solver|by rewrite <- app_assoc].
Qed.

Lemma pinned_lines_snoc ls s :
  TrimSpace s = s -> comment s = false -> pinned_lines (ls ++ [s]) = {[Clean s]} ∪ pinned_lines ls.
Proof. intros Ht Hc. unfold pinned_lines. by rewrite foldl_snoc, Ht, Hc. Qed.

(** A path that can be pinned: one line, no blanks at its ends, no comment. *)
Record pinnable (path : string) : Prop := {
  pn_line : plain_line (bytes_of_string path);
  pn_trim : TrimSpace path = path;
  pn_comment : comment path = false;
}.

(** The pin file is absent, empty, or ends with a newline. *)
Definition ends_lines (c : bytes) : Prop := c = [] \/ exists l, c = l ++ [Byte.x0a].

Lemma ScanLines_append c path :
  ends_lines c -> (ScanLines c).2 = None -> pinnable path ->
  (ScanLines (c ++ bytes_of_string path ++ [Byte.x0a])).2 = None /\
  pinned_lines (ScanLines (c ++ bytes_of_string path ++ [Byte.x0a])).1 =
    {[Clean path]} ∪ pinned_lines (ScanLines c).1.
Proof.
  intros Hc He [[Hn Hcr Hl] Ht Hcm]. unfold ScanLines in *.
  assert (Hp : scan_lines (bytes_of_string path ++ [Byte.x0a]) [] = ([path], None)).
  { rewrite scan_lines_plain by done. cbn [app]. by rewrite Hcr, string_of_bytes_of_string. }
  destruct Hc as [->|[l ->]].
  - cbn [app scan_lines]. rewrite decide_True by done. rewrite Hp. split; [done|].
    apply (pinned_lines_snoc [] path Ht Hcm).
  - rewrite <- app_assoc. cbn [app]. rewrite scan_lines_app.
    destruct (scan_lines (l ++ [Byte.x0a]) []) as [ls [e|]]; [done|]. rewrite Hp. cbn [fst snd]. split; [done|].
    by apply pinned_lines_snoc.
Qed.

(** What the pin file holds. *)
Definition pin_bytes (w : world) (file : string) : bytes :=
  match w_fs w !! at_path w file with Some (NFile c) => c | _ => [] end.

(** The pin file can be read and written to. *)
Record pin_file (w : world) (file : string) : Prop := {
  pf_name : file <> "";
  pf_create : can_create (w_fs w) (at_path w file);
  pf_lines : ends_lines (pin_bytes w file);
  pf_scan : (ScanLines (pin_bytes w file)).2 = None;
}.

Lemma missing_of_create fs p : fs_wf fs -> fs !! p = None -> parent_errno fs p = None -> missing_errno fs p = ENOENT.
Proof.
  intros Hwf Hp Hpar. destruct p as [|x p _] using rev_ind; [done|].
  apply missing_errno_child; [done|]. unfold parent_errno in Hpar. rewrite removelast_last in Hpar.
  destruct (p ++ [x]) eqn:E; [by destruct p|]. destruct (fs !! p) as [[]|]; done.
Qed.

Lemma pin_file_ok w file : fs_wf (w_fs w) -> pin_file w file -> pins_ok w file.
Proof.
  intros Hwf [_ Hc _ Hs]. right. destruct Hc as [[c Hc]|[Hn Hpar]].
  - right. exists c. split; [done|]. unfold pin_bytes in Hs. by rewrite Hc in Hs.
  - left. split; [done|]. by apply missing_of_create.
Qed.

Lemma pins_bytes w file : file <> "" -> pins w file = pinned_lines (ScanLines (pin_bytes w file)).1.
Proof.
  intros Hf. unfold pins, pin_bytes. rewrite decide_False by done.
  by destruct (w_fs w !! at_path w file) as [[]|].
Qed.

Lemma append_run w s data :
  nofault w -> s <> "" -> can_create (w_fs w) (at_path w s) ->
  (f ← open_create false s; fwrite f data) w =
  (Ret tt, set_fs (<[at_path w s := NFile (pin_bytes w s ++ data)]> (w_fs w)) w).
Proof.
  intros Hnf Hs Hc. unfold pin_bytes. set (p := at_path w s) in *.
  assert (Ho : open_create false s w =
    (Ret (File s p), match w_fs w !! p with Some _ => w | None => set_fs (<[p := NFile []]> (w_fs w)) w end)).
  { unfold open_create. rewrite syscall_run by done. fold p. rewrite decide_False by done.
    destruct Hc as [[c ->]|[-> ->]]; done. }
  rewrite (bind_run _ _ _ _ _ Ho). destruct Hc as [[c Hp]|[Hp _]]; rewrite Hp.
  - rewrite fwrite_run by done. cbn [f_path]. unfold append_at. by rewrite Hp.
  - rewrite fwrite_run by done. cbn [f_path w_fs set_fs]. by rewrite append_at_insert.
Qed.

Lemma appendPinnedPath_run w file path :
  nofault w -> fs_wf (w_fs w) -> pin_file w file ->
  appendPinnedPath file path w =
  (Ret tt, if decide (Clean path ∈ pins w file) then w
           else set_fs (<[at_path w file := NFile (pin_bytes w file ++ bytes_of_string (Clean path) ++ [Byte.x0a])]>
                  (w_fs w)) w).
Proof.
  intros Hnf Hwf Hpf. unfold appendPinnedPath. cbv zeta.
  rewrite (bind_run _ _ _ _ _ (LoadPinnedPaths_run _ _ Hnf (pin_file_ok _ _ Hwf Hpf))).
  case_decide; [done|]. by apply append_run; [|apply Hpf..].
Qed.

(** ** Promotion *)

Section promotion.
Context `{Zstd} (fuel depth : nat).

Lemma Promote_ret opts w w' :
  Promote fuel depth opts w = (Ret tt, w') ->
  let src := Clean (Src opts) in let dest := Clean (Dest opts) in
  src <> dest /\
  exists w1 w2 w3 w4, ValidateImage fuel src w = (Ret tt, w1) /\
    RemoveAll dest w1 = (Ret tt, w2) /\ copyDir depth src dest w2 = (Ret tt, w3) /\
    ValidateImage fuel dest w3 = (Ret tt, w4) /\
    if decide (promote_PinFile opts = "") then w' = w4
    else appendPinnedPath (promote_PinFile opts) dest w4 = (Ret tt, w').
Proof.
  intros E src dest. unfold Promote in E. fold src dest in E. cbv zeta in E.
  case_decide as Hne; [done|]. split; [done|].
  apply bind_inv in E as ([] & w1 & Hv & E). apply bind_inv in E as ([] & w2 & Hr%wrap_err_inv & E).
  apply bind_inv in E as ([] & w3 & Hc%wrap_err_inv & E). apply bind_inv in E as (r & w4 & Hd & E).
  apply attempt_inv in Hd as [([] & -> & Hd)|(e & -> & _)].
  2:{ apply bind_inv in E as (? & ? & _ & E). done. }
  exists w1, w2, w3, w4. split_and!; [done..|].
  destruct (decide (promote_PinFile opts = "")) as [Hp|Hp].
  - rewrite decide_False in E by tauto. by injection E.
  - rewrite decide_True in E by done. by apply wrap_err_inv in E.
Qed.
End promotion.

(** ** Properties *)

(** Pinning adds the path to the pinned paths. Where the pin file is made
    of whole lines, the paths that [LoadPinnedPaths] finds in it afterwards are
    the ones it found before and the cleaned path, once; nothing else changes,
    and the file can be appended to again. *)
Theorem appendPinnedPath_adds w file path :
  nofault w -> fs_wf (w_fs w) -> pin_file w file -> pinnable (Clean path) ->
  exists w', appendPinnedPath file path w = (Ret tt, w') /\
    LoadPinnedPaths file w' = (Ret ({[Clean path]} ∪ pins w file), w') /\
    pin_file w' file /\
    (forall q, q <> at_path w file -> w_fs w' !! q = w_fs w !! q).
Proof.
  intros Hnf Hwf Hpf Hpath. eexists. split; [by apply appendPinnedPath_run|].
  case_decide as Hin.
  { rewrite (LoadPinnedPaths_run _ _ Hnf (pin_file_ok _ _ Hwf Hpf)). split_and!; [|done..].
    do 2 f_equal. set_solver. }
  set (c := pin_bytes w file). set (w' := set_fs _ w).
  assert (Hc : w_fs w' !! at_path w' file = Some (NFile (c ++ bytes_of_string (Clean path) ++ [Byte.x0a])))
    by apply lookup_insert_eq.
  destruct (ScanLines_append c (Clean path)) as [He Hp]; [apply Hpf|apply Hpf|done|].
  split; [|split].
  - rewrite LoadPinnedPaths_run; [|done|right; right; by eexists]. do 2 f_equal.
    rewrite !pins_bytes by apply Hpf. unfold pin_bytes. rewrite Hc, Hp, Clean_Clean. done.
  - split; [apply Hpf|left; by eexists|..]; unfold pin_bytes; rewrite Hc; [|done].
    right. eexists. by rewrite app_assoc.
  - intros q Hq. by apply lookup_insert_ne.
Qed.

(** C40: a promotion into a directory that contains the source destroys the
    source. The destination is removed before the copy: where the source lies
    below it, the copy finds nothing, the promotion fails, and neither image is
    left. *)
Theorem Promote_into_ancestor `{Zstd} fuel depth opts w w1 d k :
  ValidateImage fuel (Clean (Src opts)) w = (Ret tt, w1) -> nofault w1 -> fs_wf (w_fs w1) ->
  at_path w1 (Clean (Dest opts)) = d -> at_path w1 (Clean (Src opts)) = d ++ k -> d <> [] ->
  Clean (Src opts) <> Clean (Dest opts) -> is_Some (w_fs w1 !! (d ++ k)) ->
  ends_with_dot (Clean (Dest opts)) = false ->
  exists e w', Promote fuel depth opts w = (Err (Ckpterr.Wrap Code.IO "copy" (Some e)), w') /\
    forall q, w_fs w' !! (d ++ q) = None.
Proof.
  intros Hv Hnf Hwf Hd Hs Hdne Hne [n Hn] Hdot.
  set (src := Clean (Src opts)) in *. set (dest := Clean (Dest opts)) in *.
  assert (Hex : exists m, w_fs w1 !! d = Some m).
  { destruct (decide (k = [])) as [->|]; [rewrite app_nil_r in Hn; by exists n|].
    exists NDir. by eapply fs_wf_prefix. }
  destruct Hex as [m Hm].
  assert (Hrm : RemoveAll dest w1 = (Ret tt, set_fs (remove_tree d (w_fs w1)) w1)).
  { rewrite <- Hd. apply (RemoveAll_run w1 Hnf dest m); [apply Clean_nonempty|done|by rewrite Hd|by rewrite Hd]. }
  set (w2 := set_fs (remove_tree d (w_fs w1)) w1).
  assert (Hgone : forall q, w_fs w2 !! (d ++ q) = None).
  { intros q. cbn [w2 w_fs set_fs]. rewrite lookup_remove_tree, decide_True; [done|by eexists]. }
  assert (Hcopy : copyDir depth src dest w2 =
    (Err (EPath "stat" (Clean src) (missing_errno (w_fs w2) (d ++ k))), w2)).
  { unfold copyDir. cbv zeta. apply bind_err. unfold Stat. rewrite syscall_run by done.
    rewrite find_node_none; [|apply Clean_nonempty|]; unfold at_path; rewrite resolve_Clean;
      change (resolve (w_cwd w2) src) with (at_path w1 src); rewrite Hs; [done|apply Hgone]. }
  eexists _, w2. split; [|exact Hgone].
  unfold Promote. fold src dest. cbv zeta. rewrite decide_False by done.
  rewrite (bind_run _ _ _ _ _ Hv). rewrite (bind_run _ _ _ _ _ (wrap_err_run _ _ _ _ _ _ Hrm)).
  apply bind_err. unfold wrap_err. rewrite (bind_run _ _ _ _ _ (attempt_err _ _ _ _ Hcopy)). done.
Qed.

(** ** Runs *)

(** The image of one chunk in a directory of [/store], and a pin file. *)
Definition store (pin : bytes) : world :=
  set_fs (list_to_map
    ([([], NDir); (["pins"], NFile pin); (["store"], NDir); (["store"; "a"], NDir)] ++
     (prod_map (app ["store"; "a"]) id <$>
       [(["manifest.bin"], NFile (manifest_bytes [eight_entry] 0 2)); (["device.bin"], NFile eight);
        (["dev.bin"], NFile (replicate 4 Byte.x00));
        (["meta.bin"], NFile (meta_bytes (mkMeta MetaMagic 2 0 4242 0 "/lib/shim.so" "0")));
        (["criu"], NDir); (["criu"; "core.img"], NFile [Byte.x01]); ([completeName], NFile [])]))) demo_world.

Definition promoted (dest : string) : outcome unit * world :=
  Promote (H:=frame_zstd) 2 5 (mkPromote "/store/a" dest "/pins") (store []).

(** The copy is complete, the source stays, the destination is pinned. *)
Example promote_copies :
  let '(r, w) := promoted "/store/gold/" in
  r = Ret tt /\
  w_fs w !! ["store"; "gold"; "criu"; "core.img"] = Some (NFile [Byte.x01]) /\
  w_fs w !! ["store"; "a"; "device.bin"] = Some (NFile eight) /\
  w_fs w !! ["pins"] = Some (NFile (bytes_of_string ("/store/gold" +:+ String newline ""))).
Proof. vm_compute. tauto. Qed.

(** A last line without its newline swallows the next pin, and is lost too. *)
Example pin_joined :
  let w := store (bytes_of_string "/store/a") in
  let w' := (appendPinnedPath "/pins" "/store/b" w).2 in
  pins w "/pins" = {["/store/a"]} /\ pins w' "/pins" = {["/store/a/store/b"]}.
Proof. vm_compute. split; reflexivity. Qed.

Lemma promoted_ret : (promoted "/store/gold").1 = Ret tt.
Proof. vm_compute. reflexivity. Qed.

Lemma promoted_ok : promoted "/store/gold" = (Ret tt, (promoted "/store/gold").2).
Proof. rewrite <- promoted_ret. apply surjective_pairing. Qed.

Lemma short_line (p : bytes) : Z.of_nat (length p) < 65536 -> (length p < max_token)%nat.
Proof. intros Hp. unfold max_token. lia. Qed.

Lemma appendPinnedPath_adds_witness :
  let w := store (bytes_of_string ("/store/b" +:+ String newline "")) in
  exists w', appendPinnedPath "/pins" "/store/a/" w = (Ret tt, w') /\
    LoadPinnedPaths "/pins" w' = (Ret ({["/store/a"]} ∪ pins w "/pins"), w') /\
    pin_file w' "/pins" /\ (forall q, q <> ["pins"] -> w_fs w' !! q = w_fs w !! q).
Proof.
  intros w. apply (appendPinnedPath_adds w "/pins" "/store/a/").
  - done.
  - apply (bool_decide_unpack _). by vm_compute.
  - split; [done|left; by eexists|right; by exists (bytes_of_string "/store/b")|by vm_compute].
  - split; [split; [apply (bool_decide_unpack _); by vm_compute|by vm_compute|by apply short_line; vm_compute]|by vm_compute|by vm_compute].
Defined.

Lemma store_valid : ValidateImage (H:=frame_zstd) 2 "/store/a" (store []) = (Ret tt, store []).
Proof. vm_compute. reflexivity. Qed.

Lemma Promote_into_ancestor_witness :
  exists e w', Promote (H:=frame_zstd) 2 5 (mkPromote "/store/a" "/store" "") (store []) =
      (Err (Ckpterr.Wrap Code.IO "copy" (Some e)), w') /\
    forall q, w_fs w' !! (["store"] ++ q) = None.
Proof.
  apply (Promote_into_ancestor (H:=frame_zstd) 2 5 (mkPromote "/store/a" "/store" "") (store []) (store [])
    ["store"] ["a"]).
  - apply store_valid.
  - done.
  - apply (bool_decide_unpack _). by vm_compute.
  - done.
  - done.
  - done.
  - done.
  - by eexists.
  - done.
Defined.
