(* ===== verification/PromoteFacts.v ===== *)
(** That a promotion copies the image: the walk of pkg/control/promote.go over the
    source directory, whatever system calls fail. *)
From S2P Require Export Promote Checkpoint.
Local Open Scope Z_scope.

(** ** The path strings of a walk *)

(** A path below another, as [Rel] gives it. *)
Definition rel_name (k : list string) : string :=
  if bool_decide (k = []) then "." else join_with "/" k.

Lemma proper_no_slash (k : list string) :
  Forall (fun c => proper c = true) k -> Forall (fun c => contains_char slash c = false) k.
Proof. intros HF. eapply Forall_impl; [exact HF|]. by intros c (_ & _ & _ & ?)%proper_spec. Qed.

Lemma canonical_app rooted cs k :
  canonical rooted cs -> Forall (fun c => proper c = true) k -> canonical rooted (cs ++ k).
Proof.
  intros (n & ps & -> & Hps & Hn) Hk. exists n, (ps ++ k). rewrite app_assoc. split_and!; [done| |done].
  by apply Forall_app.
Qed.

Lemma render_nonempty rooted cs : canonical rooted cs -> render rooted cs <> "".
Proof. intros Hc E. rewrite <- (Clean_render _ _ Hc) in E. by apply Clean_nonempty in E. Qed.

Lemma render_inj rooted cs cs' :
  canonical rooted cs -> canonical rooted cs' -> render rooted cs = render rooted cs' -> cs = cs'.
Proof. intros Hc Hc' E. by rewrite <- (render_comps _ _ Hc), <- (render_comps _ _ Hc'), E. Qed.

Lemma PathJoin_render rooted cs k :
  canonical rooted cs -> Forall (fun c => proper c = true) k ->
  PathJoin [render rooted cs; rel_name k] = render rooted (cs ++ k).
Proof.
  intros Hc Hk. pose proof (render_nonempty _ _ Hc) as Hne. unfold PathJoin.
  rewrite bool_decide_eq_false_2 by done. cbn [join_with].
  change (render rooted cs +:+ "/" +:+ rel_name k) with (render rooted cs +:+ String slash (rel_name k)).
  unfold Clean. rewrite is_rooted_app, render_rooted, split_char_app, foldl_app, render_comps by done.
  assert (E : foldl (clean_step rooted) cs (split_char slash (rel_name k)) = cs ++ k).
  { unfold rel_name. case_bool_decide as Hnil.
    - subst k. rewrite app_nil_r. by apply clean_step_skip; right.
    - rewrite (join_split_plain slash) by (done || by apply proper_no_slash). by apply clean_fold_proper. }
  by rewrite E.
Qed.

Lemma PathJoin_child rooted cs x :
  canonical rooted cs -> proper x = true -> PathJoin [render rooted cs; x] = render rooted (cs ++ [x]).
Proof. intros Hc Hx. apply (PathJoin_render rooted cs [x] Hc). by constructor. Qed.

Lemma canonical_no_dot rooted cs : canonical rooted cs -> "." ∉ cs /\ "" ∉ cs.
Proof.
  intros Hc. pose proof (canonical_names _ _ Hc) as HF. rewrite Forall_forall in HF.
  split; intros [?|?]%HF; done.
Qed.

Lemma render_dot rooted cs : canonical rooted cs -> render rooted cs = "." -> cs = [] /\ rooted = false.
Proof.
  intros Hc E. destruct (canonical_no_dot _ _ Hc) as [Hd _]. pose proof (render_rooted _ _ Hc) as Hr.
  rewrite E in Hr. split; [|done]. destruct (decide (cs = [])) as [|Hne]; [done|].
  pose proof (render_split _ _ Hc Hne) as Hs. rewrite E, <- Hr in Hs. change (["."] = cs) in Hs. set_solver.
Qed.

(** What [Rel] compares of a path. *)
Lemma elements_render rooted cs :
  canonical rooted cs -> cs <> [] ->
  Promote.elements (render rooted cs) = (if rooted then [""] else []) ++ cs.
Proof.
  intros Hc Hne. pose proof (render_split _ _ Hc Hne) as Hs. destruct (canonical_no_dot _ _ Hc) as [_ He].
  unfold Promote.elements. rewrite decide_False by (by apply render_nonempty). rewrite decide_False; [done|].
  intros E. rewrite E in Hs. change (["";""] = (if rooted then [""] else []) ++ cs) in Hs.
  destruct rooted; cbn in Hs; simplify_eq; set_solver.
Qed.

Lemma elements_base rooted cs :
  canonical rooted cs ->
  let s := render rooted cs in
  Promote.elements (if decide (s = ".") then "" else s) = (if rooted then [""] else []) ++ cs.
Proof.
  intros Hc s. destruct (decide (s = ".")) as [E|E]; [by apply render_dot in E as [-> ->]|].
  destruct (decide (cs = [])) as [->|Hne]; [by destruct rooted|by apply elements_render].
Qed.

Lemma strip_common_app l k : strip_common l (l ++ k) = ([], k).
Proof. induction l as [|x l IH]; cbn [strip_common app]; [by destruct k|]. by rewrite decide_True. Qed.

Lemma Rel_render rooted cs k :
  canonical rooted cs -> Forall (fun c => proper c = true) k ->
  Rel (render rooted cs) (render rooted (cs ++ k)) = inr (rel_name k).
Proof.
  intros Hc Hk. pose proof (canonical_app _ _ _ Hc Hk) as Hck. unfold Rel, rel_name. cbv zeta.
  rewrite !Clean_render by done. case_bool_decide as Hnil.
  { subst k. by rewrite app_nil_r, decide_True. }
  rewrite decide_False.
  2:{ intros E%render_inj; [|done..]. rewrite <- (app_nil_r cs) in E at 1. by apply app_inv_head in E. }
  assert (Hr : is_rooted (if decide (render rooted cs = ".") then "" else render rooted cs) = rooted).
  { destruct (decide (render rooted cs = ".")) as [E|E]; [|by apply render_rooted].
    by apply render_dot in E as [_ ->]. }
  rewrite Hr, render_rooted, decide_False by (done || tauto).
  rewrite elements_base, elements_render by (done || by destruct cs).
  by rewrite app_assoc, strip_common_app.
Qed.

Lemma resolve_render cwd rooted cs k :
  canonical rooted cs -> Forall (fun c => proper c = true) k ->
  resolve cwd (render rooted (cs ++ k)) = resolve cwd (render rooted cs) ++ k.
Proof.
  intros Hc Hk. rewrite <- PathJoin_render by done. unfold PathJoin.
  rewrite bool_decide_eq_false_2 by (by apply render_nonempty). rewrite resolve_Clean. cbn [join_with].
  change (render rooted cs +:+ "/" +:+ rel_name k) with (render rooted cs +:+ String slash (rel_name k)).
  rewrite resolve_app_slash by (by apply render_nonempty). unfold rel_name. case_bool_decide as Hnil.
  { subst k. by rewrite app_nil_r. }
  rewrite (join_split_plain slash) by (done || by apply proper_no_slash). clear Hnil.
  generalize (resolve cwd (render rooted cs)). induction Hk as [|x k Hx Hk IH]; intros p; cbn [foldl].
  { by rewrite app_nil_r. }
  by rewrite resolve_step_proper, IH, <- app_assoc.
Qed.

(** The directory of a path below another. *)
Lemma resolve_PathDir_render cwd rooted cs k x :
  canonical rooted cs -> Forall (fun c => proper c = true) (k ++ [x]) ->
  resolve cwd (PathDir (render rooted (cs ++ k ++ [x]))) = resolve cwd (render rooted cs) ++ k.
Proof.
  intros Hc Hk. pose proof (canonical_app _ _ _ Hc Hk) as Hck.
  assert (Hx : proper x = true) by (by apply Forall_app in Hk as [_ [? _]%Forall_cons]).
  assert (Hne : cs ++ k ++ [x] <> []) by (intros E; apply (f_equal length) in E; rewrite !length_app in E; cbn in E; lia).
  pose proof (render_split _ _ Hck Hne) as Hs. rewrite !app_assoc in Hs.
  pose proof (resolve_PathDir cwd _ _ _ Hs Hx) as E. rewrite <- app_assoc in E.
  rewrite resolve_render, app_assoc in E by done. by apply app_inj_tail in E as [<- _].
Qed.

(** ** What a successful call has done *)

Lemma MkdirAll_ret s w u w' :
  MkdirAll s w = (Ret u, w') ->
  exists l, w' = set_fs (mkdirs (w_fs w) (prefixes (at_path w s) ++ [at_path w s])) (set_faults l w) /\
    blocked (w_fs w) (prefixes (at_path w s) ++ [at_path w s]) = false.
Proof.
  unfold MkdirAll.
  match goal with |- context [syscall ?a ?b] => destruct (syscall_any a b w) as (l & [->|[g ->]]) end; [|done].
  change (at_path (set_faults l w) s) with (at_path w s). cbn [w_fs set_faults].
  case_decide; [done|]. destruct (blocked _ _) eqn:Hb; [done|]. intros [= _ <-]. by exists l.
Qed.

Lemma blocked_dir fs l q n : blocked fs l = false -> q ∈ l -> fs !! q = Some n -> n = NDir.
Proof.
  intros Hb Hq Hn. destruct (decide (n = NDir)) as [|Hne]; [done|]. exfalso.
  assert (Ht : blocked fs l = true); [|congruence].
  apply existsb_exists. exists q. split; [by apply list_elem_of_In|]. rewrite Hn. by destruct n.
Qed.

Lemma ReadDir_ret s w l w' :
  ReadDir s w = (Ret l, w') -> exists f, w' = set_faults f w /\ l = children (at_path w s) (w_fs w).
Proof.
  unfold ReadDir.
  match goal with |- context [syscall ?a ?b] => destruct (syscall_any a b w) as (f & [->|[g ->]]) end; [|done].
  change (find_node (set_faults f w) s) with (find_node w s).
  destruct (find_node w s) as [|[]]; try done. intros [= <- <-]. by exists f.
Qed.

Lemma Lstat_ret s w n w' :
  Lstat s w = (Ret n, w') -> exists f, w' = set_faults f w /\ w_fs w !! at_path w s = Some n.
Proof.
  unfold Lstat.
  match goal with |- context [syscall ?a ?b] => destruct (syscall_any a b w) as (f & [->|[g ->]]) end; [|done].
  change (find_node (set_faults f w) s) with (find_node w s). unfold find_node. case_decide; [done|].
  destruct (w_fs w !! at_path w s); [|done]. intros [= <- <-]. by exists f.
Qed.

Lemma Open_ret s w f w' :
  Open s w = (Ret f, w') -> exists l, w' = set_faults l w /\ f_path f = at_path w s /\ w_fs w !! at_path w s <> Some NSock.
Proof.
  intros E. pose proof (Open_inv _ _ _ _ E) as (l & -> & Hf). exists l. split_and!; [done..|]. revert E. unfold Open.
  match goal with |- context [syscall ?a ?b] => destruct (syscall_any a b w) as (l' & [->|[g ->]]) end; [|done].
  change (find_node (set_faults l' w) s) with (find_node w s). unfold find_node. case_decide; [done|].
  by destruct (w_fs w !! at_path w s) as [[]|].
Qed.

(** ** Worlds with a tree added *)

(** What is outside the tree at [p] is as it was, but for the directories above it
    that were missing. *)
Definition added (p : path) (w w' : world) : Prop :=
  w_cwd w' = w_cwd w /\
  forall q, ~ p `prefix_of` q ->
    w_fs w' !! q = w_fs w !! q \/ (q `prefix_of` p /\ w_fs w !! q = None /\ w_fs w' !! q = Some NDir).

Lemma added_refl p w w' : w_cwd w' = w_cwd w -> w_fs w' = w_fs w -> added p w w'.
Proof. intros Hc Hf. split; [done|]. rewrite Hf. by left. Qed.

Lemma added_trans p w1 w2 w3 : added p w1 w2 -> added p w2 w3 -> added p w1 w3.
Proof.
  intros [C1 A1] [C2 A2]. split; [congruence|]. intros q Hq.
  destruct (A1 q Hq) as [E1|(P1 & N1 & S1)], (A2 q Hq) as [E2|(P2 & N2 & S2)]; try congruence.
  - left; congruence.
  - right. by rewrite <- E1.
  - right. by rewrite E2.
Qed.

Lemma added_weaken p k w w' : added (p ++ k) w w' -> added p w w'.
Proof.
  intros [C A]. split; [done|]. intros q Hq. destruct (A q) as [E|(P & N & S)].
  - intros [j ->]. apply Hq. exists (k ++ j). by rewrite app_assoc.
  - by left.
  - right. split; [|done]. destruct (prefix_weak_total q p (p ++ k)) as [|]; [done|by eexists|done|done].
Qed.

Lemma added_outside s d k w w' :
  ~ s `prefix_of` d -> ~ d `prefix_of` s -> added d w w' -> w_fs w' !! (s ++ k) = w_fs w !! (s ++ k).
Proof.
  intros Hsd Hds [_ A]. assert (Hk : s `prefix_of` s ++ k) by by eexists.
  destruct (A (s ++ k)) as [|(P & _)]; [|done|].
  - intros P. by destruct (prefix_weak_total _ _ _ Hk P).
  - destruct Hsd. by etrans.
Qed.

(** The missing directories on the way to [p] have been made, and [p]. *)
Definition made (p : path) (w w' : world) : Prop :=
  w_cwd w' = w_cwd w /\
  forall q, w_fs w' !! q = w_fs w !! q \/ (q `prefix_of` p /\ w_fs w !! q = None /\ w_fs w' !! q = Some NDir).

Lemma made_added p p' w w' : p `prefix_of` p' -> made p w w' -> added p' w w'.
Proof.
  intros Hp [C A]. split; [done|]. intros q _. destruct (A q) as [E|(P & H)]; [by left|].
  right. split; [|done]. by etrans.
Qed.

Lemma made_other p q w w' : made p w w' -> ~ q `prefix_of` p -> w_fs w' !! q = w_fs w !! q.
Proof. intros [_ A] Hq. by destruct (A q) as [|(P & _)]. Qed.

Lemma MkdirAll_made s w u w' :
  MkdirAll s w = (Ret u, w') -> made (at_path w s) w w' /\
  (forall q, q `prefix_of` at_path w s -> w_fs w' !! q = Some NDir).
Proof.
  intros (l & -> & Hb)%MkdirAll_ret. unfold made. cbn [w_fs w_cwd set_fs set_faults].
  assert (Hl : forall q, mkdirs (w_fs w) (prefixes (at_path w s) ++ [at_path w s]) !! q =
    match w_fs w !! q with Some n => Some n | None => if decide (q `prefix_of` at_path w s) then Some NDir else None end).
  { intros q. rewrite lookup_mkdirs. destruct (w_fs w !! q); [done|]. apply decide_ext, elem_of_prefixes. }
  split; [split; [done|]|]; intros q; rewrite Hl.
  - destruct (w_fs w !! q); [by left|]. case_decide; [by right|by left].
  - intros Hq. destruct (w_fs w !! q) as [n|] eqn:E; [|by rewrite decide_True].
    f_equal. eapply blocked_dir; [exact Hb|by apply elem_of_prefixes|done].
Qed.

Lemma prefix_snoc_inv (q p : path) x : q `prefix_of` p ++ [x] -> q `prefix_of` p \/ q = p ++ [x].
Proof.
  intros [j E]. destruct j as [|y j _] using rev_ind; [right; by rewrite app_nil_r in E|].
  left. rewrite app_assoc in E. apply app_inj_tail in E as [-> _]. by eexists.
Qed.

(** ** Copying a tree *)

Section copying.
Context (cwd : path) (rs rd : bool) (cs ds : list string) (fs : gmap path node).
Context (Hcs : canonical rs cs) (Hds : canonical rd ds).
Local Abbreviation src := (render rs cs).
Local Abbreviation dst := (render rd ds).
Local Abbreviation s := (resolve cwd src).
Local Abbreviation d := (resolve cwd dst).
Context (Hsd : ~ s `prefix_of` d) (Hdsn : ~ d `prefix_of` s) (Hwf : fs_wf fs).
Context (Hnames : forall k, is_Some (fs !! (s ++ k)) -> Forall (fun c => proper c = true) k).

(** The tree at the source is that of [fs]. *)
Definition at_source (w : world) : Prop :=
  w_cwd w = cwd /\ forall k, w_fs w !! (s ++ k) = fs !! (s ++ k).

Lemma source_added k w w' : at_source w -> added (d ++ k) w w' -> at_source w'.
Proof using Hsd Hdsn.
  intros [Hc Hs] A%added_weaken. split; [by rewrite (proj1 A)|]. intros j. rewrite <- Hs.
  by eapply added_outside.
Qed.

(** The tree at the entry [k] has been copied. *)
Definition copied (k : path) (w : world) : Prop :=
  forall j, w_fs w !! (d ++ k ++ j) = fs !! (s ++ k ++ j).

Lemma copyFile_copied k n w u w' :
  at_source w -> fs !! (s ++ k) = Some n -> n <> NDir -> k <> [] -> (forall j, w_fs w !! (d ++ k ++ j) = None) ->
  copyFile (render rs (cs ++ k)) (render rd (ds ++ k)) w = (Ret u, w') -> added (d ++ k) w w' /\ copied k w'.
Proof using Hcs Hds Hsd Hdsn Hwf Hnames.
  intros Hat Hn Hnd Hk Hnone. pose proof (Hnames k ltac:(by eexists)) as Hp.
  unfold copyFile. intros (f & w1 & Ho & E)%bind_inv. apply Open_ret in Ho as (l & -> & Hf & Hsock).
  assert (Hpath : at_path w (render rs (cs ++ k)) = s ++ k)
    by (unfold at_path; rewrite (proj1 Hat); by apply resolve_render).
  rewrite Hpath in Hf, Hsock. rewrite (proj2 Hat), Hn in Hsock. destruct n as [c| |]; [|done..].
  apply bind_inv in E as (u1 & w2 & Hm & E). apply MkdirAll_made in Hm as [M1 _].
  destruct k as [|x k _] using rev_ind; [done|].
  assert (Hdir : at_path (set_faults l w) (PathDir (render rd (ds ++ k ++ [x]))) = d ++ k)
    by (unfold at_path; cbn [w_cwd set_faults]; rewrite (proj1 Hat); by apply resolve_PathDir_render).
  rewrite Hdir in M1. assert (M : made (d ++ k) w w2) by exact M1. clear M1 Hdir.
  assert (Ha : added (d ++ k ++ [x]) w w2) by (eapply made_added; [|exact M]; exists [x]; by rewrite app_assoc).
  pose proof (source_added _ _ _ Hat Ha) as Hat2. apply bind_inv in E as (o & w3 & Hc & E).
  assert (Htgt : at_path w2 (render rd (ds ++ k ++ [x])) = d ++ k ++ [x])
    by (unfold at_path; rewrite (proj1 Hat2); by apply resolve_render).
  apply Create_ret in Hc as (Hof & l3 & ->). rewrite Htgt in *.
  apply bind_inv in E as (c' & w4 & Hr & E). apply fread_inv in Hr as (l4 & -> & Hc').
  apply fwrite_ret in E as (l5 & ->). unfold copied, added. rewrite Hof. cbn [w_fs w_cwd set_fs set_faults] in *.
  assert (Hne : forall j, d ++ k ++ [x] <> s ++ j).
  { intros j E. destruct (prefix_weak_total s d (s ++ j)); [by eexists|rewrite <- E; by eexists|done..]. }
  rewrite Hf, lookup_insert_ne, (proj2 Hat2), Hn in Hc' by done. injection Hc' as <-.
  rewrite append_at_insert. split; [split; [by apply M|]|].
  - intros q Hq. rewrite lookup_insert_ne by (by intros <-). by apply Ha.
  - intros j. destruct (decide (j = [])) as [->|Hj].
    + by rewrite !app_nil_r, lookup_insert_eq.
    + rewrite lookup_insert_ne.
      2:{ intros E. apply (f_equal length) in E. rewrite !length_app in E. destruct j; cbn in E; [done|lia]. }
      rewrite (made_other _ _ _ _ M), Hnone.
      * symmetry. apply eq_None_ne_Some_2. intros m Hm. rewrite app_assoc in Hm.
        apply (fs_wf_prefix _ _ _ _ Hwf) in Hm; [congruence|done].
      * intros [i E]. apply (f_equal length) in E. rewrite !length_app in E. destruct j; cbn in E; [done|lia].
Qed.

(** The entries of a directory, each of which is copied by [fn]. *)
Lemma children_copied k (fn : string -> node -> M unit) l :
  NoDup (de_name <$> l) ->
  (forall e, e ∈ l -> is_Some (fs !! (s ++ k ++ [de_name e]))) ->
  (forall x n w u w', at_source w -> fs !! (s ++ k ++ [x]) = Some n ->
     (forall j, w_fs w !! (d ++ (k ++ [x]) ++ j) = None) ->
     fn (render rs (cs ++ k ++ [x])) n w = (Ret u, w') -> added (d ++ k ++ [x]) w w' /\ copied (k ++ [x]) w') ->
  forall w u w', at_source w -> (forall q, q `prefix_of` d ++ k -> is_Some (w_fs w !! q)) ->
  (forall e j, e ∈ l -> w_fs w !! (d ++ (k ++ [de_name e]) ++ j) = None) ->
  forM_ l (fun name =>
    let filename := PathJoin [render rs (cs ++ k); de_name name] in
    st ← attempt (Lstat filename);
    match st with
    | inl e => copy_entry src dst filename None (Some e)
    | inr n => fn filename n
    end) w = (Ret u, w') ->
  at_source w' /\ w_cwd w' = w_cwd w /\
  (forall q, (forall e, e ∈ l -> ~ d ++ k ++ [de_name e] `prefix_of` q) -> w_fs w' !! q = w_fs w !! q) /\
  (forall e, e ∈ l -> copied (k ++ [de_name e]) w').
Proof using Hcs Hds Hsd Hdsn Hwf Hnames.
  intros Hnd Hin Hfn. induction l as [|e l IH]; intros w u w' Hat Hpre Hnone.
  { intros [= _ <-]. split_and!; [done..|]. by intros e He%not_elem_of_nil. }
  apply NoDup_cons in Hnd as [Hex Hnd]. cbn [forM_]. cbv zeta. intros (u1 & w1 & E1 & E)%bind_inv.
  destruct (Hin e ltac:(by left)) as [n Hn]. pose proof (Hnames (k ++ [de_name e]) ltac:(by eexists)) as Hp.
  assert (Hpk : Forall (fun c => proper c = true) k /\ proper (de_name e) = true)
    by (by apply Forall_app in Hp as [? [? _]%Forall_cons]).
  rewrite PathJoin_child in E1; [|by apply canonical_app, Hpk|apply Hpk].
  apply bind_inv in E1 as (r & w0 & Hl & E1). rewrite <- app_assoc in Hl, E1.
  assert (Hpath : at_path w (render rs (cs ++ k ++ [de_name e])) = s ++ k ++ [de_name e])
    by (unfold at_path; rewrite (proj1 Hat); by apply resolve_render).
  apply attempt_inv in Hl as [(n' & -> & Hl)|(er & -> & _)]; [|done].
  apply Lstat_ret in Hl as (f & -> & Hl). rewrite Hpath, (proj2 Hat), Hn in Hl. injection Hl as <-.
  apply (Hfn _ _ _ _ _ (Hat : at_source (set_faults f w)) Hn) in E1 as [A1 C1].
  2:{ intros j. apply Hnone. by left. }
  assert (Heq : forall q, ~ d ++ k ++ [de_name e] `prefix_of` q -> w_fs w1 !! q = w_fs w !! q).
  { intros q Hq. destruct (proj2 A1 q Hq) as [|(P & N & _)]; [done|]. exfalso.
    destruct (Hpre q) as [m Hm]; [|cbn [w_fs set_faults] in N; congruence].
    rewrite app_assoc in P. apply prefix_snoc_inv in P as [|E']; [done|]. destruct Hq. by rewrite E', <- app_assoc. }
  apply IH in E as (Hat' & Hc' & Hq' & Hcp).
  - split_and!; [done|by rewrite Hc', (proj1 A1)| |].
    + intros q Hq. rewrite Hq', Heq; [done| |]; [apply Hq; by left|]. intros e' He'. apply Hq. by right.
    + intros e' [->|He']%elem_of_cons; [|by apply Hcp]. intros j. rewrite <- C1. apply Hq'.
      intros e' He' [i Ei]. rewrite <- !app_assoc in Ei. do 2 apply app_inv_head in Ei. cbn in Ei. injection Ei as Ei _.
      apply Hex. rewrite Ei. by apply list_elem_of_fmap_2.
  - done.
  - intros e' He'. apply Hin. by right.
  - eapply source_added; [|exact A1]. done.
  - intros q Hq. rewrite Heq; [by apply Hpre|]. intros [i ->]. apply prefix_length in Hq.
    rewrite !length_app in Hq. cbn in Hq. lia.
  - intros e' j He'. rewrite Heq; [apply Hnone; by right|]. intros [i Ei]. rewrite <- !app_assoc in Ei.
    do 2 apply app_inv_head in Ei. cbn in Ei. injection Ei as Ei _.
    apply Hex. rewrite <- Ei. by apply list_elem_of_fmap_2.
Qed.

(** What the function given to [Walk] does with an entry. *)
Lemma copy_entry_at k n w :
  Forall (fun c => proper c = true) k ->
  copy_entry src dst (render rs (cs ++ k)) (Some n) None w =
  match n with
  | NDir => MkdirAll (render rd (ds ++ k))
  | _ => copyFile (render rs (cs ++ k)) (render rd (ds ++ k))
  end w.
Proof using Hcs Hds.
  intros Hk. unfold copy_entry. rewrite Rel_render by done.
  by rewrite (bind_run _ _ _ (rel_name k) w), PathJoin_render.
Qed.

(** A directory whose entries are copied one by one. *)
Lemma directory_copied k fn w0 w u w' :
  (forall x n w u w', at_source w -> fs !! (s ++ k ++ [x]) = Some n ->
     (forall j, w_fs w !! (d ++ (k ++ [x]) ++ j) = None) ->
     fn (render rs (cs ++ k ++ [x])) n w = (Ret u, w') -> added (d ++ k ++ [x]) w w' /\ copied (k ++ [x]) w') ->
  at_source w0 -> fs !! (s ++ k) = Some NDir -> (forall j, w_fs w0 !! (d ++ k ++ j) = None) ->
  MkdirAll (render rd (ds ++ k)) w0 = (Ret tt, w) ->
  forM_ (children (s ++ k) (w_fs w0)) (fun name =>
    let filename := PathJoin [render rs (cs ++ k); de_name name] in
    st ← attempt (Lstat filename);
    match st with
    | inl e => copy_entry src dst filename None (Some e)
    | inr n => fn filename n
    end) w = (Ret u, w') ->
  added (d ++ k) w0 w' /\ copied k w'.
Proof using Hcs Hds Hsd Hdsn Hwf Hnames.
  intros Hfn Hat Hn Hnone Hm E. pose proof (Hnames k ltac:(by eexists)) as Hk.
  assert (Hch : forall x, is_Some (fs !! (s ++ k ++ [x])) <-> exists e, e ∈ children (s ++ k) (w_fs w0) /\ de_name e = x).
  { intros x. rewrite <- (proj2 Hat (k ++ [x])), app_assoc. split.
    - intros [n Hx]. exists (DirEnt x (bool_decide (n = NDir))). rewrite elem_of_children. split; [by exists n|done].
    - intros (e & (n & He & _)%elem_of_children & <-). by exists n. }
  apply MkdirAll_made in Hm as [M Hdirs].
  assert (Hpath : at_path w0 (render rd (ds ++ k)) = d ++ k)
    by (unfold at_path; rewrite (proj1 Hat); by apply resolve_render).
  rewrite Hpath in M, Hdirs. pose proof (made_added _ _ _ _ (reflexivity _) M) as A.
  apply (children_copied k fn) in E as (Hat' & Hc' & Hq & Hcp).
  - split; [split; [by rewrite Hc', (proj1 A)|]|].
    + intros q Hnq. rewrite Hq; [by apply A|]. intros e _ [j ->]. apply Hnq. exists ([de_name e] ++ j).
      by rewrite <- !app_assoc.
    + intros [|x j].
      { rewrite !app_nil_r, Hq, Hdirs by (done || by intros e _ [j E%(f_equal length)]; rewrite !length_app in E; cbn in E; lia).
        done. }
      destruct (decide (is_Some (fs !! (s ++ k ++ [x])))) as [Hx|Hx].
      * apply Hch in Hx as (e & He & <-). specialize (Hcp e He j). by rewrite <- !app_assoc in Hcp.
      * transitivity (@None node).
        -- rewrite Hq; [rewrite (made_other _ _ _ _ M); [apply Hnone|]|].
           ++ intros [i Ei%(f_equal length)]. rewrite !length_app in Ei. cbn in Ei. lia.
           ++ intros e He [i Ei]. rewrite <- !app_assoc in Ei. do 2 apply app_inv_head in Ei. cbn in Ei.
              injection Ei as Ei _. apply Hx, Hch. by exists e.
        -- symmetry. apply eq_None_ne_Some_2. intros m Hmm. apply Hx.
           replace (s ++ k ++ x :: j) with ((s ++ k ++ [x]) ++ j) in Hmm by by rewrite <- !app_assoc.
           destruct (decide (j = [])) as [->|Hj]; [rewrite app_nil_r in Hmm; by exists m|].
           exists NDir. by eapply fs_wf_prefix.
  - apply children_NoDup.
  - intros e He. apply Hch. by exists e.
  - exact Hfn.
  - by eapply source_added.
  - intros q Hqp. rewrite Hdirs by done. by eexists.
  - intros e j He. rewrite (made_other _ _ _ _ M); [rewrite <- app_assoc; apply Hnone|].
    intros [i Ei%(f_equal length)]. rewrite !length_app in Ei. cbn in Ei. lia.
Qed.

Lemma walk_copied fuel k n w u w' :
  at_source w -> fs !! (s ++ k) = Some n -> (k <> [] \/ n = NDir) -> (forall j, w_fs w !! (d ++ k ++ j) = None) ->
  walk fuel (copy_entry src dst) (render rs (cs ++ k)) n w = (Ret u, w') ->
  added (d ++ k) w w' /\ copied k w'.
Proof using Hcs Hds Hsd Hdsn Hwf Hnames.
  revert k n w u w'. induction fuel as [|fuel IH]; intros k n w u w' Hat Hn Hkn Hnone; cbn [walk]; [done|].
  pose proof (Hnames k ltac:(by eexists)) as Hk. destruct (decide (n = NDir)) as [->|Hnd].
  - intros (r & w1 & Hr & E)%bind_inv. apply attempt_inv in Hr as [(l & -> & Hl)|(e & -> & _)]; [|done].
    apply ReadDir_ret in Hl as (f & -> & ->).
    assert (Hpath : at_path w (render rs (cs ++ k)) = s ++ k)
      by (unfold at_path; rewrite (proj1 Hat); by apply resolve_render).
    rewrite Hpath in E. apply bind_inv in E as ([] & w2 & Hm & E). rewrite copy_entry_at in Hm by done.
    eapply (directory_copied k (walk fuel (copy_entry src dst)) (set_faults f w) w2); [|done..].
    intros x n w3 u3 w3' Hat3 Hn3 Hnone3 E3. by apply (IH (k ++ [x]) n w3 u3 w3'); [| |left; by destruct k|..].
  - intros E. assert (E' : copy_entry src dst (render rs (cs ++ k)) (Some n) None w = (Ret u, w')) by (by destruct n).
    rewrite copy_entry_at in E' by done.
    apply (copyFile_copied k n w u w'); [done..|by destruct Hkn|done|by destruct n].
Qed.
End copying.

(** ** Promotion *)

Lemma RemoveAll_ret s w u w' :
  fs_wf (w_fs w) -> s <> "" -> RemoveAll s w = (Ret u, w') ->
  exists l, w' = set_fs (remove_tree (at_path w s) (w_fs w)) (set_faults l w).
Proof.
  intros Hwf Hs. unfold RemoveAll. rewrite decide_False by done. destruct (ends_with_dot s); [done|].
  match goal with |- context [syscall ?a ?b] => destruct (syscall_any a b w) as (l & [->|[g ->]]) end; [|done].
  change (at_path (set_faults l w) s) with (at_path w s). cbn [w_fs set_faults]. cbv zeta.
  destruct (w_fs w !! at_path w s) as [n|] eqn:Hn; [case_decide; [done|]; intros [= _ <-]; by exists l|].
  destruct (missing_errno _ _); try done. intros [= _ <-]. exists l.
  assert (E : remove_tree (at_path w s) (w_fs w) = w_fs w).
  { apply map_eq. intros q. rewrite lookup_remove_tree. case_decide as Hq; [|done]. destruct Hq as [k ->].
    symmetry. apply eq_None_ne_Some_2. intros m Hm. destruct (decide (k = [])) as [->|Hk].
    - rewrite app_nil_r in Hm. congruence.
    - apply (fs_wf_prefix _ _ _ _ Hwf) in Hm; congruence. }
  rewrite E. by destruct w.
Qed.

(** The names in the tree at [p] are names of entries. *)
Definition named_tree (fs : gmap path node) (p : path) : Prop :=
  forall k, is_Some (fs !! (p ++ k)) -> Forall (fun c => proper c = true) k.

Lemma named_tree_alt fs p :
  named_tree fs p <->
  map_Forall (fun q _ => p `prefix_of` q -> Forall (fun c => proper c = true) (drop (length p) q)) fs.
Proof.
  split.
  - intros Hnt q n Hq [k ->]. rewrite drop_app_length. apply Hnt. by exists n.
  - intros HF k [n Hk]. rewrite <- (drop_app_length p k). apply (HF _ _ Hk). by eexists.
Qed.

#[global] Instance named_tree_dec fs p : Decision (named_tree fs p).
Proof.
  refine (cast_if (decide (map_Forall (fun q _ => p `prefix_of` q ->
    Forall (fun c => proper c = true) (drop (length p) q)) fs))); by rewrite named_tree_alt.
Defined.

(** The destination is removed and the source copied. *)
Lemma copyDir_copies depth src dest w1 w2 u w3 :
  let s := at_path w1 (Clean src) in let d := at_path w1 (Clean dest) in
  fs_wf (w_fs w1) -> named_tree (w_fs w1) s -> ~ s `prefix_of` d -> ~ d `prefix_of` s ->
  RemoveAll (Clean dest) w1 = (Ret tt, w2) -> copyDir depth (Clean src) (Clean dest) w2 = (Ret u, w3) ->
  added d w1 w3 /\ forall k, w_fs w3 !! (d ++ k) = w_fs w1 !! (s ++ k).
Proof.
  intros s d. subst s d. unfold copyDir. rewrite !Clean_Clean. unfold at_path.
  destruct (Clean_is_render src) as (rs & cs & Hcs & ->), (Clean_is_render dest) as (rd & ds & Hcd & ->).
  cbv zeta. intros Hwf Hnt Hsd Hds Hrm Hcp.
  apply RemoveAll_ret in Hrm as (l & ->); [|done|by apply render_nonempty].
  unfold at_path in Hcp. set (w2 := set_fs _ _) in *.
  assert (Hat : at_source (w_cwd w1) rs cs (w_fs w1) w2).
  { split; [done|]. intros k. cbn [w2 w_fs set_fs]. rewrite lookup_remove_tree, decide_False; [done|].
    intros Hp. assert (Hk : resolve (w_cwd w1) (render rs cs) `prefix_of` resolve (w_cwd w1) (render rs cs) ++ k)
      by by eexists.
    by destruct (prefix_weak_total _ _ _ Hk Hp). }
  apply bind_inv in Hcp as (n & w4 & Hst & E). apply Stat_inv in Hst as (l4 & -> & Hn); [|by apply render_nonempty].
  case_decide as Hd; [done|]. subst n. apply bind_inv in E as (r & w5 & Hl & E).
  apply attempt_inv in Hl as [(n' & -> & Hl)|(e & -> & _)]; [|done].
  apply Lstat_ret in Hl as (l5 & -> & Hn'). unfold at_path in Hn, Hn'. cbn [w_cwd w_fs set_faults] in Hn, Hn'.
  rewrite Hn in Hn'. injection Hn' as <-. change (w_cwd w2) with (w_cwd w1) in Hn.
  pose proof (proj2 Hat []) as Hroot. rewrite !app_nil_r, Hn in Hroot.
  rewrite <- (app_nil_r cs) in E at 2.
  apply (walk_copied (w_cwd w1) rs rd cs ds (w_fs w1) Hcs Hcd Hsd Hds Hwf Hnt) in E as [A C];
    rewrite ?app_nil_r; [| |done|by right|].
  - rewrite app_nil_r in A. split; [|exact C]. eapply added_trans; [|exact A]. split; [done|].
    intros q Hq. left. cbn [w2 w_fs set_fs set_faults]. by rewrite lookup_remove_tree, decide_False.
  - exact Hat.
  - intros j. cbn [w2 w_fs set_fs set_faults app]. rewrite lookup_remove_tree, decide_True; [done|by eexists].
Qed.

(** ** Properties *)

(** C18: a promotion that succeeds has made a copy of the image. Whatever system
    calls failed on the way, and where neither directory lies in the other: after
    the copy the destination held the tree that the source held once it had been
    validated, file for file with the same contents and nothing else; every other
    entry, the source among them, was as it was, but for the directories above
    the destination that were missing; and it is that copy which was validated in
    its turn: what is left at the destination is complete and intact. The pin is
    then recorded, or the promotion fails. *)
Theorem Promote_copies `{Zstd} fuel depth opts w w1 w' :
  let src := Clean (Src opts) in let dest := Clean (Dest opts) in
  let s := at_path w1 src in let d := at_path w1 dest in
  ValidateImage fuel src w = (Ret tt, w1) -> fs_wf (w_fs w1) -> named_tree (w_fs w1) s ->
  ~ s `prefix_of` d -> ~ d `prefix_of` s -> Promote fuel depth opts w = (Ret tt, w') ->
  exists w2 w3,
    (forall k, w_fs w2 !! (d ++ k) = w_fs w1 !! (s ++ k)) /\
    (forall k, w_fs w2 !! (s ++ k) = w_fs w1 !! (s ++ k)) /\
    (forall q, ~ d `prefix_of` q -> w_fs w2 !! q = w_fs w1 !! q \/
       (q `prefix_of` d /\ w_fs w1 !! q = None /\ w_fs w2 !! q = Some NDir)) /\
    ValidateImage fuel dest w2 = (Ret tt, w3) /\ validated (w_fs w3) (at_path w3 dest) /\
    if decide (promote_PinFile opts = "") then w' = w3
    else appendPinnedPath (promote_PinFile opts) dest w3 = (Ret tt, w').
Proof.
  intros src dest s d Hv Hwf Hnt Hsd Hds Hp.
  apply Promote_ret in Hp as (_ & v1 & v2 & v3 & v4 & Hv1 & Hrm & Hcp & Hvd & Hpin).
  fold src in Hv1. rewrite Hv in Hv1. injection Hv1 as <-.
  destruct (copyDir_copies depth (Src opts) (Dest opts) w1 v2 tt v3 Hwf Hnt Hsd Hds Hrm Hcp) as [A C].
  exists v3, v4. split_and!; [exact C| |apply A|exact Hvd|eapply ValidateImage_inv; [apply Clean_nonempty|exact Hvd]|exact Hpin].
  intros k. by eapply added_outside.
Qed.

(** ** A run *)

Lemma Promote_copies_witness :
  exists w2 w3, (forall k, w_fs w2 !! (["store"; "gold"] ++ k) = w_fs (store []) !! (["store"; "a"] ++ k)) /\
    ValidateImage (H:=frame_zstd) 2 "/store/gold" w2 = (Ret tt, w3) /\
    appendPinnedPath "/pins" "/store/gold" w3 = (Ret tt, (promoted "/store/gold").2).
Proof.
  destruct (Promote_copies (H:=frame_zstd) 2 5 (mkPromote "/store/a" "/store/gold" "/pins") (store []) (store [])
    (promoted "/store/gold").2) as (w2 & w3 & Hc & _ & _ & Hv & _ & Hp).
  - apply store_valid.
  - apply (bool_decide_unpack _). by vm_compute.
  - apply (bool_decide_unpack _). by vm_compute.
  - by intros [k E].
  - by intros [k E].
  - apply promoted_ok.
  - exists w2, w3. by split_and!.
Defined.
