(* ===== verification/Drift.v ===== *)
(** pkg/control/drift.go: how two images differ. *)
From S2P Require Export Image Meta Fmt.
Local Open Scope Z_scope.

(** ** drift.go *)

Record DriftEntry := mkDrift { d_Ptr : Z; d_Field : string; d_Left : string; d_Right : string }.

Record DriftReport := mkReport {
  r_Left : string; r_Right : string;
  r_Manifest : list DriftEntry; r_MetaDrift : list DriftEntry; r_FlagDrift : list DriftEntry;
}.

Definition byPtr (re : list Entry) : gmap Z Entry := foldl (fun m e => <[e_Ptr e := e]> m) ∅ re.

(** What the loop appends for one entry of the left image. *)
Definition entry_drift (byPtr : gmap Z Entry) (a : Entry) : list DriftEntry :=
  match byPtr !! e_Ptr a with
  | None => [mkDrift (e_Ptr a) "missing" ("size=" +:+ FormatUint (e_Size a)) "absent"]
  | Some b =>
      (if decide (e_Size a <> e_Size b)
       then [mkDrift (e_Ptr a) "size" (FormatUint (e_Size a)) (FormatUint (e_Size b))] else []) ++
      (if decide (e_CRC32C a <> e_CRC32C b)
       then [mkDrift (e_Ptr a) "crc32c" (pad_hex 8 (e_CRC32C a)) (pad_hex 8 (e_CRC32C b))] else [])
  end.

(** The loop: only as many entries of the left image as the shorter one has. *)
Definition entries_drift (le re : list Entry) : list DriftEntry :=
  let n := Nat.min (length le) (length re) in
  flat_map (entry_drift (byPtr re)) (take n le).

Definition count_drift (lh rh : Header) : list DriftEntry :=
  if decide (h_Count lh <> h_Count rh)
  then [mkDrift 0 "count" (FormatUint (h_Count lh)) (FormatUint (h_Count rh))] else [].

Definition flag_drift (lh rh : Header) : list DriftEntry :=
  if decide (h_Flags lh <> h_Flags rh)
  then [mkDrift 0 "flags" ("0x" +:+ FormatHex (h_Flags lh)) ("0x" +:+ FormatHex (h_Flags rh))] else [].

Definition meta_drift (lm rm : goerr + Meta) : list DriftEntry :=
  match lm, rm with
  | inr lm, inr rm =>
      (if decide (m_Dev lm <> m_Dev rm)
       then [mkDrift 0 "dev" (FormatUint (m_Dev lm)) (FormatUint (m_Dev rm))] else []) ++
      (if decide (m_Visible lm <> m_Visible rm)
       then [mkDrift 0 "cuda_visible" (m_Visible lm) (m_Visible rm)] else [])
  | _, _ => []
  end.

(** With an error the code also returns the report made so far, which its
    callers ignore. *)
Definition CompareImages (left right : string) : M DriftReport :=
  '(le, lh) ← ReadManifest (PathJoin [left; "manifest.bin"]);
  '(re, rh) ← ReadManifest (PathJoin [right; "manifest.bin"]);
  lm ← attempt (ReadMeta (PathJoin [left; "meta.bin"]));
  rm ← attempt (ReadMeta (PathJoin [right; "meta.bin"]));
  mret (mkReport left right (count_drift lh rh ++ entries_drift le re) (meta_drift lm rm) (flag_drift lh rh)).

Definition drift_line (d : DriftEntry) : string :=
  line (if decide (d_Ptr d <> 0)
        then "  ptr=0x" +:+ FormatHex (d_Ptr d) +:+ " " +:+ d_Field d +:+ " left=" +:+ d_Left d +:+ " right=" +:+ d_Right d
        else "  " +:+ d_Field d +:+ " left=" +:+ d_Left d +:+ " right=" +:+ d_Right d).

Definition writeDrift (title : string) (rows : list DriftEntry) : string :=
  match rows with
  | [] => ""
  | _ => line title +:+ foldr (fun d s => drift_line d +:+ s) "" rows
  end.

Definition FormatDrift (r : DriftReport) : string :=
  line ("compare " +:+ r_Left r +:+ " vs " +:+ r_Right r) +:+
  writeDrift "flags" (r_FlagDrift r) +:+ writeDrift "meta" (r_MetaDrift r) +:+
  writeDrift "manifest" (r_Manifest r) +:+
  (if decide (length (r_FlagDrift r) + length (r_MetaDrift r) + length (r_Manifest r) = 0)%nat
   then line "no drift" else "").

(** ** What a comparison finds *)

(** What is compared of an entry. *)
Definition compared (e : Entry) : Z * Z * Z := (e_Ptr e, e_Size e, e_CRC32C e).

Lemma byPtr_None re p : byPtr re !! p = None <-> p ∉ e_Ptr <$> re.
Proof.
  unfold byPtr. induction re as [|e re IH] using rev_ind; [split; [set_solver|done]|].
  rewrite foldl_app, fmap_app, not_elem_of_app. cbn [foldl fmap list_fmap].
  rewrite lookup_insert_None, IH, list_elem_of_singleton. split; intros [? ?]; (split; [done|congruence]).
Qed.

Lemma byPtr_Some re p b :
  NoDup (e_Ptr <$> re) -> byPtr re !! p = Some b <-> b ∈ re /\ e_Ptr b = p.
Proof.
  unfold byPtr. induction re as [|e re IH] using rev_ind; intros Hnd; [split; [done|set_solver]|].
  rewrite foldl_app. cbn [foldl]. rewrite fmap_app in Hnd. apply NoDup_app in Hnd as (Hnd & Hdis & _).
  rewrite elem_of_app, list_elem_of_singleton. destruct (decide (e_Ptr e = p)) as [<-|Hne].
  - rewrite lookup_insert_eq. split; [intros [= <-]; auto|]. intros [[Hb| ->] Hp]; [|done].
    destruct (Hdis (e_Ptr e)); [|set_solver]. rewrite <- Hp. by apply list_elem_of_fmap_2.
  - rewrite lookup_insert_ne by done. rewrite IH by done. split; [tauto|]. intros [[Hb| ->] Hp]; [done|congruence].
Qed.

Lemma entry_drift_nil re a :
  NoDup (e_Ptr <$> re) -> entry_drift (byPtr re) a = [] <-> compared a ∈ compared <$> re.
Proof.
  intros Hnd. unfold entry_drift. destruct (byPtr re !! e_Ptr a) as [b|] eqn:E.
  - apply byPtr_Some in E as [Hb Hp]; [|done]. split.
    + intros [H1 H2]%app_nil. repeat case_decide; try done. apply list_elem_of_fmap. exists b. split; [|done].
      unfold compared. rewrite Hp. f_equal; [f_equal|]; apply dec_stable; tauto.
    + intros (b' & Heq & Hb')%list_elem_of_fmap. injection Heq as E1 E2 E3.
      assert (Hbb : byPtr re !! e_Ptr a = Some b') by (by apply byPtr_Some).
      assert (Hb2 : byPtr re !! e_Ptr a = Some b) by (by apply byPtr_Some).
      assert (b' = b) as -> by congruence. rewrite !decide_False by tauto. done.
  - split; [done|]. intros (b & Heq & Hb)%list_elem_of_fmap. injection Heq as E1 E2 E3.
    apply byPtr_None in E. destruct E. rewrite E1. by apply list_elem_of_fmap_2.
Qed.

Lemma flat_map_nil {A B} (f : A -> list B) l : flat_map f l = [] <-> Forall (fun a => f a = []) l.
Proof.
  induction l as [|a l IH]; cbn; [done|]. rewrite Forall_cons, <- IH. split.
  - by intros [? ?]%app_nil.
  - by intros [-> ->].
Qed.

Lemma compared_NoDup es : NoDup (e_Ptr <$> es) -> NoDup (compared <$> es).
Proof.
  intros Hnd. apply (NoDup_fmap_1 (fun x => x.1.1)). by rewrite <- list_fmap_compose.
Qed.

(** No drift of the manifests: the same chunks, in any order. *)
Lemma manifest_drift_nil lh rh le re :
  h_Count lh = Z.of_nat (length le) -> h_Count rh = Z.of_nat (length re) ->
  NoDup (e_Ptr <$> le) -> NoDup (e_Ptr <$> re) ->
  count_drift lh rh ++ entries_drift le re = [] <-> compared <$> le ≡ₚ compared <$> re.
Proof.
  intros Hl Hr Hnl Hnr. unfold count_drift, entries_drift. rewrite Hl, Hr. split.
  - intros [H1 H2]%app_nil. case_decide as Hc; [done|].
    assert (Hlen : length le = length re) by lia. rewrite Hlen, Nat.min_id, <- Hlen, firstn_all in H2.
    apply submseteq_length_Permutation; [|by rewrite !length_fmap, Hlen].
    apply NoDup_submseteq; [by apply compared_NoDup|]. intros x (a & -> & Ha)%list_elem_of_fmap.
    apply flat_map_nil in H2. rewrite Forall_forall in H2. by apply entry_drift_nil, H2.
  - intros Hp. pose proof (Permutation_length Hp) as Hlen. rewrite !length_fmap in Hlen.
    rewrite decide_False by lia. rewrite Hlen, Nat.min_id, <- Hlen, firstn_all. cbn [app].
    apply flat_map_nil, Forall_forall. intros a Ha. apply entry_drift_nil; [done|].
    rewrite <- Hp. by apply list_elem_of_fmap_2.
Qed.

(** ** Properties *)

(** C21: a comparison of two images finds exactly the differences it looks for.
    Of images with distinct addresses it reports no drift of the manifests
    exactly when they have the same chunks (address, size and checksum) in some
    order, none of the flags exactly when the flags are equal; it changes
    nothing. *)
Theorem CompareImages_exact w left right p q es es' flags flags' version version' d d' :
  nofault w ->
  image_at w left p es flags version d -> image_at w right q es' flags' version' d' ->
  NoDup (e_Ptr <$> es) -> NoDup (e_Ptr <$> es') ->
  exists rep, CompareImages left right w = (Ret rep, w) /\
    (r_Manifest rep = [] <-> compared <$> es ≡ₚ compared <$> es') /\
    (r_FlagDrift rep = [] <-> flags = flags').
Proof.
  intros Hnf Hi Hi' Hnd Hnd'.
  assert (Hread : forall dir p es flags version d, image_at w dir p es flags version d ->
    ReadManifest (PathJoin [dir; "manifest.bin"]) w = (Ret (stored version <$> es, manifest_header es flags version), w) /\
    exists r, attempt (ReadMeta (PathJoin [dir; "meta.bin"])) w = (Ret r, w)).
  { intros dir p0 es0 f0 v0 d0 [Hd Hp _ Hm _ _ _]. destruct (image_file w dir p0 "manifest.bin" Hd Hp eq_refl) as [Hne Hat].
    split; [by eapply ReadManifest_at|]. apply ReadMeta_attempt; [done|by apply Join_nonempty]. }
  destruct (Hread _ _ _ _ _ _ Hi) as (E1 & lm & E3). destruct (Hread _ _ _ _ _ _ Hi') as (E2 & rm & E4).
  eexists. split.
  { unfold CompareImages. rewrite (bind_run _ _ _ _ _ E1). cbv beta iota. rewrite (bind_run _ _ _ _ _ E2).
    cbv beta iota. rewrite (bind_run _ _ _ _ _ E3), (bind_run _ _ _ _ _ E4). done. }
  assert (Hkey : forall v (es : list Entry), e_Ptr <$> (stored v <$> es) = e_Ptr <$> es /\ compared <$> (stored v <$> es) = compared <$> es).
  { intros v es0. split; rewrite <- list_fmap_compose; apply list_fmap_ext; intros i e _; unfold stored; cbn;
      by destruct (decide _). }
  assert (Hcount : forall dir p es flags version d, image_at w dir p es flags version d ->
    h_Count (manifest_header es flags version) = Z.of_nat (length (stored version <$> es))).
  { intros dir p0 es0 f0 v0 d0 [_ _ _ [_ Hwf] _ _ _]. cbn. rewrite length_fmap. apply u32_small, Hwf. }
  cbn [r_Manifest r_FlagDrift]. split.
  - rewrite manifest_drift_nil; [|by eapply Hcount|by eapply Hcount|by rewrite (proj1 (Hkey _ _))..].
    by rewrite !(proj2 (Hkey _ _)).
  - unfold flag_drift. cbn [h_Flags manifest_header]. case_decide as Hf; split; first [done|intros; by apply dec_stable].
Qed.

(** ** Runs *)

(** Two images of two chunks, the entries of one in the other order. *)
Definition two_entries : list Entry :=
  [mkEntry 0x1000 4 0 11 1 (replicate 32 Byte.x00); mkEntry 0x2000 4 4 22 2 (replicate 32 Byte.x00)].

Definition drift_world (right : list Entry) : world :=
  set_fs (list_to_map
    [([], NDir); (["a"], NDir); (["a"; "manifest.bin"], NFile (manifest_bytes two_entries 0 2));
     (["a"; "device.bin"], NFile (replicate 8 Byte.x00));
     (["b"], NDir); (["b"; "manifest.bin"], NFile (manifest_bytes right 4 2));
     (["b"; "device.bin"], NFile (replicate 8 Byte.x00))]) demo_world.

Example drift_text :
  let h := replicate 32 Byte.x00 in
  let w := drift_world [mkEntry 0x1000 4 0 11 1 h; mkEntry 0x3000 4 4 22 2 h] in
  (rep ← CompareImages "/a" "/b"; mret (FormatDrift rep)) w =
  (Ret (line "compare /a vs /b" +:+ line "flags" +:+ line "  flags left=0x0 right=0x4" +:+
        line "manifest" +:+ line "  ptr=0x2000 missing left=size=4 right=absent"), w).
Proof. vm_compute. reflexivity. Qed.

(** Where the images have different numbers of chunks, only as many of the left
    one as the shorter has are looked up: here a chunk with another checksum is
    not reported. *)
Example drift_truncated :
  let a := mkEntry 0x1000 4 0 11 1 [] in let b := mkEntry 0x2000 4 4 22 2 [] in
  let b' := mkEntry 0x2000 4 4 33 2 [] in
  entries_drift [a; b] [b'] = entries_drift [a; b] [b].
Proof. vm_compute. reflexivity. Qed.

Lemma drift_images right : wf_manifest right 4 2 -> Forall (in_device (replicate 8 Byte.x00)) right ->
  image_at (drift_world right) "/a" ["a"] two_entries 0 2 (replicate 8 Byte.x00) /\
  image_at (drift_world right) "/b" ["b"] right 4 2 (replicate 8 Byte.x00).
Proof.
  intros Hwf Hin. split; split; try done.
  - split; [done|]. split; [|by split|done|done]. repeat constructor; by vm_compute.
  - repeat constructor; cbn; lia.
Qed.

Lemma CompareImages_exact_witness :
  let w := drift_world (reverse two_entries) in
  exists rep, CompareImages "/a" "/b" w = (Ret rep, w) /\
    (r_Manifest rep = [] <-> compared <$> two_entries ≡ₚ compared <$> reverse two_entries) /\
    (r_FlagDrift rep = [] <-> 0 = 4).
Proof.
  intros w. destruct (drift_images (reverse two_entries)) as [Ha Hb].
  - split; [|by split|done|done]. repeat constructor; by vm_compute.
  - repeat constructor; cbn; lia.
  - apply (CompareImages_exact w "/a" "/b" ["a"] ["b"] two_entries (reverse two_entries) 0 4 2 2
      (replicate 8 Byte.x00) (replicate 8 Byte.x00)); [done|exact Ha|exact Hb|..];
      apply (bool_decide_unpack _); by vm_compute.
Defined.
