(* ===== verification/Report.v ===== *)
(** pkg/report/report.go and pkg/control/inspect.go: an image, as text. *)
From S2P Require Export Image Meta Fmt.
Local Open Scope Z_scope.

(** ** report.go *)

(** The widths of the cells. *)
Definition cell_width (c : string) : nat := Nat.max (String.length c + 2) 14.

Definition border (cols : list string) : string :=
  foldl (fun b c => b +:+ repeat_byte Byte.x2d (cell_width c) +:+ "+") "+" cols.

Definition cells (cols : list string) : string :=
  foldl (fun b c => b +:+ " " +:+ pad_right (cell_width c - 1) c +:+ " |") "|" cols.

Definition writeRow (cols : list string) : string := line (border cols) +:+ line (cells cols) +:+ line (border cols).

(** The rows of the chunks, from number [i] on: at most 16. *)
Fixpoint chunk_rows (i : Z) (count : Z) (entries : list Entry) : string :=
  match entries with
  | [] => ""
  | e :: es =>
      if decide (i >= 16) then line ("... " +:+ Itoa (count - 16) +:+ " more")
      else
        writeRow [Itoa i; "0x" +:+ FormatHex (e_Ptr e); FormatUint (e_Size e); FormatUint (e_Seq e);
                  pad_hex 8 (e_CRC32C e)] +:+ chunk_rows (i + 1) count es
  end.

(** Size of what Stat returns: the one of a directory is the system's. *)
Definition node_size (dir_size : Z) (n : node) : Z :=
  match n with NFile c => Z.of_nat (length c) | NDir => dir_size | NSock => 0 end.

Section report.
Context (dir_size : Z).

Definition RenderImage (dir : string) : M string :=
  '(entries, hdr) ← ReadManifest (PathJoin [dir; "manifest.bin"]);
  meta ← attempt (ReadMeta (PathJoin [dir; "meta.bin"]));
  st ← attempt (Stat (PathJoin [dir; "device.bin"]));
  mret (
    writeRow ["field"; "value"] +:+
    writeRow ["manifest_version"; FormatUint (h_Version hdr)] +:+
    writeRow ["chunks"; FormatUint (h_Count hdr)] +:+
    writeRow ["device_bytes"; FormatUint (h_TotalBytes hdr)] +:+
    (match st with inr n => writeRow ["device_file_bytes"; Itoa (node_size dir_size n)] | inl _ => "" end) +:+
    (match meta with
     | inr m =>
         if decide (m_Pid m > 0) then
           writeRow ["source_pid"; FormatUint (m_Pid m)] +:+ writeRow ["gpu_device"; FormatUint (m_Dev m)] +:+
           writeRow ["ld_preload"; m_Preload m] +:+ writeRow ["cuda_visible"; m_Visible m]
         else ""
     | inl _ => ""
     end) +:+
    writeRow ["path"; dir] +:+
    line "" +:+ line "chunks" +:+
    writeRow ["idx"; "ptr"; "size"; "seq"; "crc32c"] +:+
    chunk_rows 0 (Z.of_nat (length entries)) entries).

(** ** inspect.go *)

(** The format %q. *)
Context (quote : string -> string).

Definition entry_line (i : Z) (e : Entry) : string :=
  line ("  [" +:+ Itoa i +:+ "] ptr=0x" +:+ FormatHex (e_Ptr e) +:+ " size=" +:+ FormatUint (e_Size e) +:+
        " off=" +:+ FormatUint (e_Offset e) +:+ " seq=" +:+ FormatUint (e_Seq e) +:+
        " crc=" +:+ pad_hex 8 (e_CRC32C e)).

(** [if b, err := os.ReadFile(path); err == nil { fmt.Print(f(b)) }]. *)
Definition print_file (path : string) (f : bytes -> string) : M unit :=
  r ← attempt (ReadFile path);
  match r with inr b => Print (f b) | inl _ => mret tt end.

Definition InspectImage (dir : string) : M unit :=
  m ← attempt (ReadMeta (PathJoin [dir; "meta.bin"]));
  Print match m with
        | inr m => line ("meta pid=" +:+ FormatUint (m_Pid m) +:+ " dev=" +:+ FormatUint (m_Dev m) +:+
                         " preload=" +:+ quote (m_Preload m) +:+ " visible=" +:+ quote (m_Visible m))
        | inl e => line ("meta missing or invalid: " +:+ Error e)
        end ;;
  dev ← attempt (ReadDev (PathJoin [dir; "dev.bin"]));
  Print match dev with inr d => line ("dev=" +:+ FormatUint d) | inl _ => "" end ;;
  '(entries, hdr) ← ReadManifest (PathJoin [dir; "manifest.bin"]);
  Print (line ("manifest count=" +:+ FormatUint (h_Count hdr) +:+ " bytes=" +:+ FormatUint (h_TotalBytes hdr) +:+
               " version=" +:+ FormatUint (h_Version hdr))) ;;
  forM_ (imap (fun i e => (Z.of_nat i, e)) entries) (fun ie => Print (entry_line ie.1 ie.2)) ;;
  st ← attempt (Stat (PathJoin [dir; "device.bin"]));
  Print match st with inr n => line ("device.bin size=" +:+ Itoa (node_size dir_size n)) | inl _ => "" end ;;
  st ← attempt (Stat (PathJoin [dir; "criu"]));
  Print match st with inr NDir => line "criu present" | _ => "" end ;;
  print_file (PathJoin [dir; "restored.pid"]) (fun b => "restored.pid=" +:+ string_of_bytes b) ;;
  print_file (PathJoin [dir; "restore.events.jsonl"]) (fun b =>
    if decide (b = []) then "" else line ("restore.events=" +:+ Itoa (Z.of_nat (length b)) +:+ " bytes")) ;;
  print_file (PathJoin [dir; "restore.err"]) (fun b => "restore.err=" +:+ string_of_bytes b) ;;
  print_file (PathJoin [dir; "snapshot.err"]) (fun b => "snapshot.err=" +:+ string_of_bytes b).
End report.

(** The line of the cells is longer than its borders, by one for each column. *)
Example writeRow_ex :
  writeRow ["field"; "value"] =
  line "+--------------+--------------+" +:+
  line "| field         | value         |" +:+
  line "+--------------+--------------+".
Proof. vm_compute. reflexivity. Qed.
