(* ===== verification/Health.v ===== *)
(** pkg/health: what the machine has of what the program needs (health.go,
    deep.go, caps_linux.go). *)
From S2P Require Export Exec Fmt.
Local Open Scope Z_scope.

Record Check_ := mkCheck { c_Name : string; c_OK : bool; c_Detail : string }.
Record Status := mkStatus { s_OK : bool; s_Checks : list Check_ }.

(** [ok := true; for _, c := range checks { if !c.OK { ok = false } }]. *)
Definition all_ok (checks : list Check_) : bool :=
  foldl (fun ok c => if c_OK c then ok else false) true checks.

(** ** caps_linux.go *)

Definition capSysAdmin : Z := Z.shiftl 1 21.

(** strconv.Quote, which the errors of package strconv apply to their input. *)
Section caps.
Context (quote : string -> string).

(** (e *NumError).Error. *)
Definition ParseUint_error (s : string) (range : bool) : string :=
  "strconv.ParseUint: parsing " +:+ quote s +:+ ": " +:+
  (if range then "value out of range" else "invalid syntax").

Fixpoint cap_mask (i : Z) (fields : list string) (mask : Z) : string + Z :=
  match fields with
  | [] => inr mask
  | f :: fs =>
      match ParseUint16 f with
      | inl range => inl (ParseUint_error f range)
      | inr v => cap_mask (i + 1) fs (Z.lor mask (u64 (Z.shiftl v (32 * i))))
      end
  end.

Definition parseCapMask (fields : list string) : string + Z := cap_mask 0 fields 0.

Definition cap_check (ok : bool) (detail : string) : Check_ := mkCheck "caps" ok detail.

(** The loop over the lines of the status file. *)
Fixpoint caps_lines (lines : list string) : Check_ :=
  match lines with
  | [] => cap_check false "CapEff missing"
  | l :: ls =>
      if negb (HasPrefix l "CapEff:") then caps_lines ls
      else
        match Fields l with
        | _ :: ((_ :: _) as fs) =>
            match parseCapMask fs with
            | inl e => cap_check false e
            | inr mask =>
                if decide (Z.land mask capSysAdmin <> 0) then cap_check true "CAP_SYS_ADMIN"
                else cap_check false "missing CAP_SYS_ADMIN for criu"
            end
        | _ => cap_check false "CapEff missing"
        end
  end.

Definition probeCaps : M Check_ :=
  r ← attempt (ReadFile "/proc/self/status");
  mret match r with
       | inl e => cap_check false (Error e)
       | inr b => caps_lines (split_char newline (string_of_bytes b))
       end.

(** ** health.go *)

Context `{Exec} (GOOS : string).

Definition probeOS : Check_ :=
  if decide (GOOS <> "linux") then mkCheck "os" false GOOS else mkCheck "os" true "linux".

Fixpoint probe_nodes (devices : list string) : M Check_ :=
  match devices with
  | [] => mret (mkCheck "gpu" false "no nvidia device nodes")
  | d :: ds =>
      r ← attempt (Stat d);
      match r with inr _ => mret (mkCheck "gpu" true d) | inl _ => probe_nodes ds end
  end.

Definition probeGPU : M Check_ := probe_nodes ["/dev/nvidiactl"; "/dev/nvidia0"].

Definition probeCRIU : M Check_ :=
  found ← gets (LookPath "criu");
  match found with
  | Some _ => mret (mkCheck "criu" false "not in PATH")
  | None =>
      '(out, err) ← CombinedOutput "criu" ["check"];
      mret match err with
           | Some _ => mkCheck "criu" false (string_of_bytes out)
           | None => mkCheck "criu" true "check passed"
           end
  end.

Definition probeRunDir (runDir : string) : M Check_ :=
  let runDir := if decide (runDir = "") then "/run/cudackpt" else runDir in
  r ← attempt (MkdirAll runDir);
  mret match r with
       | inl e => mkCheck "run_dir" false (Error e)
       | inr _ => mkCheck "run_dir" true runDir
       end.

Definition ProbeWith (runDir : string) : M Status :=
  gpu ← probeGPU;
  criu ← probeCRIU;
  dir ← probeRunDir runDir;
  let checks := [probeOS; gpu; criu; dir] in
  mret (mkStatus (all_ok checks) checks).

Definition Probe : M Status := ProbeWith "".

(** ** deep.go *)

Definition probeNvidiaDriver : M Check_ :=
  '(out, err) ← CombinedOutput "nvidia-smi" ["--query-gpu=driver_version,name"; "--format=csv,noheader"];
  match err with
  | None => mret (mkCheck "nvidia_smi" true (TrimSpace (string_of_bytes out)))
  | Some _ =>
      r ← attempt (ReadFile "/proc/driver/nvidia/version");
      mret match r with
           | inr b => mkCheck "nvidia_drv" true (TrimSpace (hd "" (split_char newline (string_of_bytes b))))
           | inl _ => mkCheck "nvidia_drv" false "driver version unavailable"
           end
  end.

Definition probeCRIUFeatures : M Check_ :=
  '(out, err) ← CombinedOutput "criu" ["check"; "--feature"; "mem_track"];
  mret match err with
       | Some _ => mkCheck "criu_mem" false (TrimSpace (string_of_bytes out))
       | None => mkCheck "criu_mem" true "mem_track available"
       end.

Definition DeepProbeWith (runDir : string) : M Status :=
  gpu ← probeGPU;
  criu ← probeCRIU;
  dir ← probeRunDir runDir;
  driver ← probeNvidiaDriver;
  features ← probeCRIUFeatures;
  caps ← probeCaps;
  let checks := [probeOS; gpu; criu; dir; driver; features; caps] in
  mret (mkStatus (all_ok checks) checks).

Definition DeepProbe : M Status := DeepProbeWith "".
End caps.

(** ** Printing *)

Definition check_line (c : Check_) : string :=
  line ("  " +:+ pad_right 10 (c_Name c) +:+ " " +:+ pad_right 4 (if c_OK c then "ok" else "fail") +:+ " " +:+ c_Detail c).

Definition Format (s : Status) : string :=
  foldl (fun b c => b +:+ check_line c) (line (if s_OK s then "health ok" else "health degraded")) (s_Checks s).

Example Format_ex :
  Format (mkStatus false [mkCheck "gpu" false "none"]) =
  "health degraded" +:+ String newline ("  gpu        fail none" +:+ String newline "").
Proof. vm_compute. reflexivity. Qed.

(** ** Facts *)

(** The kernel's status file: the capability line after others. *)
Definition status_file (before : list string) (mask : Z) (rest : list string) : bytes :=
  bytes_of_string (join_with (String newline "")
    (before ++ ("CapEff:" +:+ String "009" (pad_hex 16 mask)) :: rest)).

Lemma land_sys_admin m : 0 <= m -> Z.land m capSysAdmin <> 0 <-> Z.testbit m 21 = true.
Proof.
  intros Hm. unfold capSysAdmin. split.
  - intros H. destruct (Z.testbit m 21) eqn:E; [done|]. exfalso. apply H. apply Z.bits_inj'. intros n Hn.
    rewrite Z.land_spec, Z.bits_0, Z.shiftl_spec by lia.
    destruct (decide (n = 21)) as [->|]; [by rewrite E|].
    destruct (decide (n < 21)); [rewrite (Z.testbit_neg_r 1) by lia; apply andb_false_r|].
    rewrite (Z.bits_above_log2 1) by (cbn; lia). apply andb_false_r.
  - intros E H. apply (f_equal (fun z => Z.testbit z 21)) in H. rewrite Z.land_spec, E in H. done.
Qed.

Lemma graphic_no_newline s : Forall graphic (bytes_of_string s) -> contains_char newline s = false.
Proof.
  induction s as [|c s IH]; [done|]. cbn [contains_char].
  change (bytes_of_string (String c s)) with (byte_of_ascii c :: bytes_of_string s).
  intros [Hc Hs]%Forall_cons. rewrite IH by done. rewrite orb_false_r. apply bool_decide_eq_false.
  intros <-. destruct Hc as [Hc _]. by vm_compute in Hc.
Qed.

Lemma caps_lines_skip before ls :
  Forall (fun l => HasPrefix l "CapEff:" = false) before -> forall quote,
  caps_lines quote (before ++ ls) = caps_lines quote ls.
Proof. intros Hb quote. induction Hb as [|l before Hl Hb IH]; [done|]. cbn [app caps_lines]. by rewrite Hl. Qed.

Lemma caps_line quote m ls :
  is_u64 m ->
  caps_lines quote (("CapEff:" +:+ String "009" (pad_hex 16 m)) :: ls) =
  if Z.testbit m 21 then cap_check true "CAP_SYS_ADMIN" else cap_check false "missing CAP_SYS_ADMIN for criu".
Proof.
  intros Hm. destruct (pad_hex_graphic 16 m ltac:(destruct Hm; lia)) as [Hg Hne]. cbn [caps_lines].
  change (HasPrefix _ "CapEff:") with true. cbn [negb].
  rewrite Fields_two; [|by repeat (constructor; [split; by vm_compute|]); constructor|done|done|done].
  unfold parseCapMask. cbn [cap_mask]. rewrite ParseUint16_pad_hex by exact Hm.
  change (32 * 0) with 0. rewrite Z.shiftl_0_r, u64_small, Z.lor_0_l by done.
  destruct (decide (Z.land m capSysAdmin <> 0)) as [Hl|Hl]; rewrite land_sys_admin in Hl by (destruct Hm; lia);
    [by rewrite Hl|].
  by destruct (Z.testbit m 21).
Qed.

(** The probe of the capabilities reads the mask of the process. Where the
    kernel's status file has the line of the effective capabilities, with the
    mask as 16 hexadecimal digits and any lines around it, the check is passed
    exactly when the bit of CAP_SYS_ADMIN is set, and the world is not changed. *)
Theorem probeCaps_exact quote w before mask rest :
  w_faults w = [] -> is_u64 mask ->
  Forall (fun l => HasPrefix l "CapEff:" = false) before ->
  Forall (fun l => contains_char newline l = false) (before ++ rest) ->
  w_fs w !! ["proc"; "self"; "status"] = Some (NFile (status_file before mask rest)) ->
  exists c, probeCaps quote w = (Ret c, w) /\ c_OK c = Z.testbit mask 21.
Proof.
  intros Hnf Hm Hb Hnl Hf. unfold probeCaps.
  erewrite bind_run by (apply attempt_run, ReadFile_run; [done|done|exact Hf]). cbv beta iota.
  eexists. split; [done|]. unfold status_file. rewrite string_of_bytes_of_string, join_split_plain.
  - rewrite caps_lines_skip, caps_line by done. by destruct (Z.testbit mask 21).
  - by destruct before.
  - apply Forall_app in Hnl as [Hn1 Hn2]. apply Forall_app. split; [done|]. constructor; [|done].
    destruct (pad_hex_graphic 16 mask ltac:(destruct Hm; lia)) as [Hg _].
    apply graphic_no_newline in Hg. revert Hg. generalize (pad_hex 16 mask). intros s Hs.
    rewrite contains_char_app. cbn. by rewrite Hs.
Qed.

Lemma probeCaps_exact_witness :
  let c := status_file ["Name:" +:+ String "009" "cudackpt"] 0x1ffffffffff ["Seccomp: 0"] in
  let w := World {[ ["proc"; "self"; "status"] := NFile c ]} (fun _ => 0) [] ∅ 0 ∅ ∅ [] ∅ "" in
  exists r, probeCaps (fun s => s) w = (Ret r, w) /\ c_OK r = true.
Proof.
  intros c w.
  apply (probeCaps_exact (fun s => s) w ["Name:" +:+ String "009" "cudackpt"] 0x1ffffffffff ["Seccomp: 0"]).
  - done.
  - by split; vm_compute.
  - by repeat constructor.
  - by repeat constructor.
  - unfold w. cbn [w_fs]. apply lookup_insert_eq.
Defined.
