(* ===== verification/Agent.v ===== *)
(** pkg/agent/agent.go: the program that runs in the background. It counts
    images and shims, collects images from time to time, and answers questions
    about the machine. *)
From S2P Require Export Retention Http Config Log Health.
Local Open Scope Z_scope.

(** metrics.Default.Set. The values set are whole numbers. *)
Definition Default_Set (name : string) (v : Z) : M unit := fun w =>
  (Ret tt, set_gauges (<[name := v]> (w_gauges w)) w).

Definition ImagesGauge : string := "cudackpt_images".
Definition ShimsGauge : string := "cudackpt_shims".

Module Agent.

Record Options := mkOptions {
  o_Config : Config; Listen : string; RefreshInterval : Z; GCInterval : Z; GCMaxAge : Z; o_PinFile : string;
}.

Definition two_weeks : Z := 14 * 24 * 3600 * 1000000000.

Section options.
Context `{ParseDur}.

Definition OptionsFromConfig (cfg : Config) : M Options :=
  addr ← Getenv "CUDACKPT_METRICS_ADDR";
  let listen := if decide (addr <> "") then addr else "127.0.0.1:9090" in
  interval ← Getenv "CUDACKPT_AGENT_GC_INTERVAL";
  let gcInterval := if decide (interval <> "") then default 0 (ParseDuration interval) else 0 in
  pin ← Getenv "CUDACKPT_PIN_FILE";
  age ← Getenv "CUDACKPT_AGENT_GC_MAX_AGE";
  let maxAge := if decide (age <> "") then default 0 (ParseDuration age) else 0 in
  mret (mkOptions cfg listen 15000000000 gcInterval (if decide (maxAge = 0) then two_weeks else maxAge) pin).
End options.

Definition RefreshGauges (cfg : Config) : M unit :=
  imgs ← attempt (ListImages (ImageRoot cfg));
  match imgs with inr l => Default_Set ImagesGauge (Z.of_nat (length l)) | inl _ => mret tt end ;;
  shims ← attempt (ListShims (RunDir cfg));
  match shims with inr l => Default_Set ShimsGauge (Z.of_nat (length l)) | inl _ => mret tt end.

(** The defaults [Run] applies before it serves. *)
Definition run_options (opts : Options) : Options :=
  mkOptions (o_Config opts) (if decide (Listen opts = "") then "127.0.0.1:9090" else Listen opts)
    (if decide (RefreshInterval opts <= 0) then 15000000000 else RefreshInterval opts)
    (GCInterval opts) (GCMaxAge opts) (o_PinFile opts).

Section agent.
Context `{EventFormat}.

Definition gc_options (opts : Options) : GCOptions :=
  mkGCOptions (ImageRoot (o_Config opts)) (GCMaxAge opts) (o_PinFile opts) None.

Definition runGC (opts : Options) : M unit :=
  let failed e :=
    log_Error "agent_gc" e {["root" := AnyStr (ImageRoot (o_Config opts))]} ;;
    Default_Inc GCErrorsTotal in
  r ← attempt (RunImageGC (gc_options opts) false);
  match r with
  | inl e => failed e
  | inr (_, (_, Some e)) => failed e
  | inr (_, (removed, None)) =>
      if decide (0 < length removed)%nat then
        Default_Add GCRemovedTotal (Z.of_nat (length removed)) ;;
        RefreshGauges (o_Config opts)
      else mret tt
  end.

(** What the select of [runLoop] receives. The channel of collections is nil
    when there is no interval for them: nothing is received from it. *)
Inductive tick := TRefresh | TGC.

Definition on_tick (opts : Options) (t : tick) : M unit :=
  match t with
  | TRefresh => RefreshGauges (o_Config opts)
  | TGC => if decide (GCInterval opts > 0) then runGC opts else mret tt
  end.

(** The steps of the loop, which runs beside the server: what it does first,
    and one step for every tick it receives before its context is done. *)
Inductive loop_step := LStart | LTick (t : tick).

Definition on_step (opts : Options) (s : loop_step) : M unit :=
  match s with
  | LStart => RefreshGauges (o_Config opts)
  | LTick t => on_tick opts t
  end.

Definition runLoop (opts : Options) (ticks : list tick) : M unit :=
  on_step opts LStart ;; forM_ ticks (fun t => on_step opts (LTick t)).
End agent.

Section run.
Context `{EventFormat} `{Exec} `{Net} (quote : string -> string) (GOOS : string).
Context (format_g : Z -> string) (pick : gmap string Z -> gmap string Z -> orders).

(** The environment is read when the handler is made. *)
Definition healthHandler (cfg : Config) : M Handler :=
  deepDefault ← Getenv "CUDACKPT_AGENT_DEEP_HEALTH";
  mret (fun rq =>
    st ← (if decide (deepDefault = "1" \/ Get_ "deep" (Query (rq_query rq)) = "1")
          then DeepProbeWith quote GOOS (RunDir cfg) else ProbeWith GOOS (RunDir cfg));
    mret (Write (Format st) (WriteHeader (if s_OK st then 200 else 503) new_response))).

(** The server, with the requests and the steps of [runLoop] in the order in
    which they happen. *)
Definition Run (opts : Options) (evs : list (event loop_step)) : M (list Response * service) :=
  let opts := run_options opts in
  health ← healthHandler (o_Config opts);
  let mux := ServeMux [("/metrics", registry_Handler format_g pick Default_); ("/health", health)] in
  ListenAndServe mux (on_step opts) (Listen opts) evs.
End run.
End Agent.

(** ** Facts *)

Lemma ListImages_run w root :
  nofault w -> root <> "" -> w_fs w !! at_path w root = Some NDir ->
  ListImages root w =
  (Ret ((fun e => PathJoin [root; de_name e]) <$>
        filter (fun e => de_isdir e = true) (children (at_path w root) (w_fs w))), w).
Proof.
  intros Hnf Hne Hd. unfold ListImages. erewrite bind_run.
  2:{ apply attempt_run. unfold ReadDir. rewrite syscall_run by done.
      rewrite (find_node_some _ _ NDir) by done. done. }
  done.
Qed.

(** The numbers of images and of shims. *)
Definition images (w : world) (root : string) : Z :=
  Z.of_nat (length (filter (fun e => de_isdir e = true) (children (at_path w root) (w_fs w)))).
Definition shims (w : world) (runDir : string) : Z :=
  Z.of_nat (length (omap (fun e => sscanf_sock (de_name e)) (children (at_path w (run_dir runDir)) (w_fs w)))).

Lemma RefreshGauges_run w cfg :
  nofault w -> ImageRoot cfg <> "" ->
  w_fs w !! at_path w (ImageRoot cfg) = Some NDir -> w_fs w !! at_path w (run_dir (RunDir cfg)) = Some NDir ->
  Agent.RefreshGauges cfg w =
  (Ret tt, set_gauges (<[ShimsGauge := shims w (RunDir cfg)]>
                        (<[ImagesGauge := images w (ImageRoot cfg)]> (w_gauges w))) w).
Proof.
  intros Hnf Hr Hi Hs. unfold Agent.RefreshGauges.
  rewrite (bind_run _ _ _ _ _ (attempt_run _ _ _ _ (ListImages_run w _ Hnf Hr Hi))). cbv beta iota.
  set (w1 := set_gauges (<[ImagesGauge := images w (ImageRoot cfg)]> (w_gauges w)) w).
  erewrite bind_run by (unfold Default_Set; rewrite length_fmap; reflexivity). fold (images w (ImageRoot cfg)) w1.
  rewrite (bind_run _ _ _ _ _ (attempt_run _ _ _ _ (ListShims_run w1 _ Hnf Hs))). done.
Qed.

(** Whatever fails, a refresh changes the gauges only. *)
Lemma RefreshGauges_any w cfg :
  exists g l, Agent.RefreshGauges cfg w = (Ret tt, set_gauges g (set_faults l w)).
Proof.
  assert (Hd : forall s v, exists r l, attempt (ReadDir s) v = (Ret r, set_faults l v)).
  { intros s v. unfold attempt, ReadDir.
    match goal with |- context [syscall ?a ?b v] => destruct (syscall_any a b v) as (l & [->|[g ->]]) end;
      [|by do 2 eexists].
    destruct (find_node _ s) as [|[]]; by do 2 eexists. }
  assert (Hi : forall v, exists r l, attempt (ListImages (ImageRoot cfg)) v = (Ret r, set_faults l v)).
  { intros v. unfold ListImages. destruct (Hd (ImageRoot cfg) v) as (r & l & E). unfold attempt at 1.
    rewrite (bind_run _ _ _ _ _ E). destruct r as [e|]; [destruct (IsNotExist e)|]; by do 2 eexists. }
  assert (Hs : forall v, exists r l, attempt (ListShims (RunDir cfg)) v = (Ret r, set_faults l v)).
  { intros v. unfold ListShims. destruct (Hd (run_dir (RunDir cfg)) v) as (r & l & E). unfold attempt at 1.
    fold (run_dir (RunDir cfg)).
    rewrite (bind_run _ _ _ _ _ E). destruct r as [e|]; [destruct (IsNotExist e)|]; by do 2 eexists. }
  unfold Agent.RefreshGauges. destruct (Hi w) as (r & l & E). rewrite (bind_run _ _ _ _ _ E).
  assert (Hg : exists g, (match r with inr l => Default_Set ImagesGauge (Z.of_nat (length l)) | inl _ => mret tt end)
    (set_faults l w) = (Ret tt, set_gauges g (set_faults l w))).
  { destruct r; [|by eexists]. exists (w_gauges w). by destruct w. }
  destruct Hg as [g Eg]. rewrite (bind_run _ _ _ _ _ Eg).
  destruct (Hs (set_gauges g (set_faults l w))) as (r2 & l2 & E2). rewrite (bind_run _ _ _ _ _ E2).
  destruct r2; [exists g, l2; by destruct w|]. by do 2 eexists.
Qed.

(** ** Properties *)

(** C23: a collection by the agent is accounted for. Without faults it removes
    exactly the images that are to be removed, adds their number to the counter
    of removed images (and touches no other counter), and when there are any it
    sets the gauges to the numbers of images and of shims that are left. *)
Theorem runGC_exact `{EventFormat} opts w :
  let cfg := Agent.o_Config opts in
  let gc := Agent.gc_options opts in
  let root := at_path w (ImageRoot cfg) in
  nofault w -> fs_wf (w_fs w) -> ImageRoot cfg <> "" ->
  (forall x n, w_fs w !! (root ++ [x]) = Some n -> proper x = true) ->
  pins_ok w (Agent.o_PinFile opts) -> w_fs w !! root = Some NDir ->
  w_fs w !! at_path w (run_dir (RunDir cfg)) = Some NDir ->
  (forall x, removable gc w x -> ~ root ++ [x] `prefix_of` at_path w (run_dir (RunDir cfg))) ->
  exists w', Agent.runGC opts w = (Ret tt, w') /\
    w_fs w' = remove_entries root (gone gc w) (w_fs w) /\
    w_counters w' = (if decide (gone gc w = []) then w_counters w
                     else add_counter GCRemovedTotal (Z.of_nat (length (gone gc w))) (w_counters w)) /\
    w_gauges w' = (if decide (gone gc w = []) then w_gauges w
                   else <[ShimsGauge := shims w' (RunDir cfg)]>
                          (<[ImagesGauge := images w' (ImageRoot cfg)]> (w_gauges w))).
Proof.
  intros cfg gc root Hnf Hwf Hr Hnames Hpins Hdir Hrun Hout. unfold Agent.runGC. fold gc.
  pose proof (RunImageGC_run gc w Hnf Hwf Hr Hnames Hpins Hdir) as Hgc. cbv zeta in Hgc.
  change (at_path w (Root gc)) with root in Hgc.
  rewrite (bind_run _ _ _ _ _ (attempt_run _ _ _ _ Hgc)). cbv beta iota zeta. clear Hgc. cbn [plan_Remove].
  assert (Hlen : length (planned gc w (to_remove gc w)) = length (gone gc w))
    by (unfold planned, gone; by rewrite !length_fmap).
  rewrite Hlen. set (w1 := set_fs _ w). fold cfg.
  destruct (decide (gone gc w = [])) as [E|E].
  - rewrite decide_False by (rewrite E; cbn; lia). exists w1. by split_and!.
  - rewrite decide_True by (destruct (gone gc w); [done|cbn; lia]).
    set (w2 := set_counters (add_counter GCRemovedTotal (Z.of_nat (length (gone gc w))) (w_counters w1)) w1).
    assert (Hkeep : forall q, (forall x, removable gc w x -> ~ root ++ [x] `prefix_of` q) -> w_fs w2 !! q = w_fs w !! q).
    { intros q Hq. cbn [w2 w1 w_fs set_fs set_counters]. rewrite lookup_remove_entries, decide_False; [done|].
      intros (y & Hy & Hp)%Exists_exists. apply elem_of_gone in Hy as [_ Hy]. by apply (Hq y). }
    erewrite bind_run by reflexivity. fold w2.
    pose proof (RefreshGauges_run w2 cfg Hnf Hr) as HR.
    rewrite HR; [eexists; split; [done|]; by split_and!|..].
    + change (at_path w2 (ImageRoot cfg)) with root. rewrite Hkeep; [done|].
      intros x _ [k Ek]. apply (f_equal length) in Ek. rewrite !length_app in Ek. cbn in Ek. lia.
    + change (at_path w2 ?s) with (at_path w s). by rewrite Hkeep.
Qed.

Definition demo_agent : Agent.Options :=
  Agent.mkOptions (mkConfig "/r" "/run" "" 0 0 1 0) "" 0 1 100 "/pins".

Definition agent_events : EventFormat := {|
  format_time _ := ""; format_seconds _ := ""; log_Marshal _ := None; json_Marshal _ := None;
|}.

Definition agent_world (faults : list (option fault)) : world :=
  let w := demo_gc faults in set_fs (<[["run"] := NDir]> (<[["run"; "7.sock"] := NSock]> (w_fs w))) w.

Definition run_agent (faults : list (option fault)) : outcome unit * world :=
  Agent.runGC (H:=agent_events) demo_agent (agent_world faults).

(** A collection that removes one image and fails on the next one counts an
    error, but not the image. *)
Example runGC_partial :
  let p := run_agent (replicate 7 None ++ [Some (Fault EACCES 0)]) in
  p.1 = Ret tt /\ w_fs p.2 !! ["r"; "a"] = None /\ w_fs p.2 !! ["r"; "b.staging"] = Some NDir /\
  w_counters p.2 = {[ GCErrorsTotal := 1 ]}.
Proof. cbv zeta. split_and!; vm_compute; reflexivity. Qed.

Lemma agent_names x n : w_fs (agent_world []) !! (["r"] ++ [x]) = Some n -> proper x = true.
Proof.
  intros H.
  assert (HF : map_Forall (fun q _ => match q with ["r"; y] => proper y | _ => true end = true) (w_fs (agent_world [])))
    by (apply (bool_decide_unpack _); by vm_compute).
  exact (HF _ _ H).
Qed.

Lemma runGC_exact_witness :
  exists w', run_agent [] = (Ret tt, w') /\
    w_counters w' !! GCRemovedTotal = Some 2 /\ w_gauges w' !! ImagesGauge = Some 2 /\ w_gauges w' !! ShimsGauge = Some 1.
Proof.
  assert (Hg : gone (Agent.gc_options demo_agent) (agent_world []) = ["a"; "b.staging"]) by (vm_compute; reflexivity).
  destruct (runGC_exact (H:=agent_events) demo_agent (agent_world [])) as (w' & E & Hf & Hc & Hs).
  - done.
  - apply (bool_decide_unpack _). by vm_compute.
  - done.
  - exact agent_names.
  - right. right. exists demo_pins. split; by vm_compute.
  - by vm_compute.
  - by vm_compute.
  - intros x _. by intros [k [=]].
  - exists w'. split; [exact E|]. rewrite Hg in Hc, Hs, Hf. rewrite decide_False in Hc, Hs by done.
    rewrite Hc, Hs. unfold images, shims, at_path. cbn [Agent.o_Config demo_agent ImageRoot RunDir].
    change (run_dir "/run") with (String slash "run"). change "/r" with (String slash "r").
    rewrite !(resolve_rooted_cons (w_cwd w')), Hf. split_and!; by vm_compute.
Defined.
