(* ===== verification/AgentFacts.v ===== *)
(** What the servers of the program answer: the agent (pkg/agent) and the
    metrics command (pkg/metrics). *)
From S2P Require Export Agent GivingUp.
Local Open Scope Z_scope.

(** ** Computations that always return a value *)

(** From a world where [I] holds, the computation returns a value, in a world
    where [I] holds. *)
Definition delivers (I : world -> Prop) {A} (m : M A) : Prop :=
  forall w, I w -> exists a w', m w = (Ret a, w') /\ I w'.

Section delivers.
Context (I : world -> Prop).

Lemma delivers_ret {A} (a : A) : delivers I (mret a).
Proof. intros w Hw. by exists a, w. Qed.
Lemma delivers_gets {A} (f : world -> A) : delivers I (gets f).
Proof. intros w Hw. by exists (f w), w. Qed.
Lemma delivers_Getenv k : delivers I (Getenv k).
Proof. apply delivers_gets. Qed.

Lemma delivers_bind {A B} (m : M A) (f : A -> M B) :
  delivers I m -> (forall a, delivers I (f a)) -> delivers I (m ≫= f).
Proof.
  intros Hm Hf w Hw. destruct (Hm w Hw) as (a & w1 & E & Hw1).
  rewrite (bind_run _ _ _ _ _ E). by apply Hf.
Qed.

Lemma delivers_attempt {A} (m : M A) : returns m -> keeps I m -> delivers I (attempt m).
Proof.
  intros Hr Hk w Hw. specialize (Hr w). specialize (Hk w Hw). unfold attempt.
  destruct (m w) as [[a|e| |] w1]; cbn in *; [by do 2 eexists..|tauto|tauto].
Qed.

Lemma delivers_emit `{EventFormat, !Stable I} l n e fs : delivers I (emit l n e fs).
Proof. intros w Hw. exists tt, (emit l n e fs w).2. split; [|by apply keeps_emit].
  rewrite <- (emit_returns l n e fs w). apply surjective_pairing. Qed.
End delivers.

Create HintDb delivers.
#[export] Hint Resolve delivers_ret delivers_gets delivers_Getenv delivers_emit : delivers.

#[export] Hint Extern 0 (Stable _) => apply _ : delivers.

Ltac delivers :=
  repeat first
    [ assumption
    | solve [auto 2 with delivers nocore]
    | match goal with
      | |- forall _, _ => intro
      | |- delivers _ (mbind _ _) => apply delivers_bind
      | |- delivers _ (attempt _) => apply delivers_attempt; [returns|keep]
      | |- delivers _ (match ?x with _ => _ end) => destruct x
      end ].

(** ** What a collection and a refresh may do *)

Lemma returns_MkdirAll s : returns (MkdirAll s).
Proof. apply returns_syscall; [done|]. intros w. cbv zeta. repeat case_match; done. Qed.
Lemma returns_RemoveAll s : returns (RemoveAll s).
Proof.
  unfold RemoveAll. case_decide; [done|]. destruct (ends_with_dot s); [done|].
  apply returns_syscall; [done|]. intros w. cbv zeta. repeat case_match; done.
Qed.
#[export] Hint Resolve returns_MkdirAll returns_RemoveAll : returns.

Section collections.
Context (I : world -> Prop) `{!Stable I}.

Lemma returns_classify opts now pinned name : returns (classify opts now pinned name).
Proof. unfold classify, IsComplete, StatModTime. cbv zeta. returns. Qed.
Lemma keeps_classify opts now pinned name : keeps I (classify opts now pinned name).
Proof. unfold classify, IsComplete, StatModTime. cbv zeta. keep. Qed.

Lemma returns_plan_entries opts now pinned ents plan : returns (plan_entries opts now pinned ents plan).
Proof.
  revert plan. induction ents as [|e ents IH]; intros plan; cbn [plan_entries]; returns;
    first [apply IH|apply returns_classify].
Qed.
Lemma keeps_plan_entries opts now pinned ents plan : keeps I (plan_entries opts now pinned ents plan).
Proof.
  revert plan. induction ents as [|e ents IH]; intros plan; cbn [plan_entries]; keep;
    first [apply IH|apply keeps_classify].
Qed.

Lemma returns_PlanImageGC opts : returns (PlanImageGC opts).
Proof. unfold PlanImageGC, LoadPinnedPaths. cbv zeta. returns; apply returns_plan_entries. Qed.
Lemma keeps_PlanImageGC opts : keeps I (PlanImageGC opts).
Proof. unfold PlanImageGC, LoadPinnedPaths. cbv zeta. keep; apply keeps_plan_entries. Qed.

Lemma returns_apply_removals ps b l : returns (apply_removals ps b l).
Proof. revert l. induction ps as [|p ps IH]; intros l; cbn [apply_removals]; returns; apply IH. Qed.
Lemma keeps_apply_removals ps b l : keeps I (apply_removals ps b l).
Proof. revert l. induction ps as [|p ps IH]; intros l; cbn [apply_removals]; keep; apply IH. Qed.

Lemma returns_RunImageGC opts b : returns (RunImageGC opts b).
Proof.
  unfold RunImageGC, ApplyGCPlan. returns; first [apply returns_PlanImageGC|apply returns_apply_removals].
Qed.
Lemma keeps_RunImageGC opts b : keeps I (RunImageGC opts b).
Proof. unfold RunImageGC, ApplyGCPlan. keep; first [apply keeps_PlanImageGC|apply keeps_apply_removals]. Qed.
End collections.

(** ** The registry of a process that serves *)

(** The metrics of a collector: of the names the program counts under, those of
    collections, and the two gauges. *)
Definition gc_counters : gset string := {[GCRemovedTotal; GCErrorsTotal]}.
Definition agent_gauges : gset string := {[ImagesGauge; ShimsGauge]}.

Definition collector (w : world) : Prop :=
  dom (w_counters w) ⊆ gc_counters /\ dom (w_gauges w) ⊆ agent_gauges.

#[global] Instance collector_stable : Stable collector.
Proof. by split. Qed.

Lemma delivers_Add name n : name ∈ gc_counters -> delivers collector (Default_Add name n).
Proof.
  intros Hn w [Hc Hg]. eexists _, _. split; [done|]. split; [|done]. cbn [w_counters set_counters].
  unfold add_counter. rewrite dom_insert_L. set_solver.
Qed.

Lemma delivers_Set name v : name ∈ agent_gauges -> delivers collector (Default_Set name v).
Proof.
  intros Hn w [Hc Hg]. eexists _, _. split; [done|]. split; [done|]. cbn [w_gauges set_gauges].
  rewrite dom_insert_L. set_solver.
Qed.

Lemma delivers_RefreshGauges cfg : delivers collector (Agent.RefreshGauges cfg).
Proof.
  unfold Agent.RefreshGauges, ListImages, ListShims. cbv zeta. delivers; apply delivers_Set; set_solver.
Qed.

Lemma delivers_runGC `{EventFormat} opts : delivers collector (Agent.runGC opts).
Proof.
  unfold Agent.runGC, Default_Inc, log_Error. cbv zeta. apply delivers_bind.
  { apply delivers_attempt; [apply returns_RunImageGC|by apply keeps_RunImageGC]. }
  intros r. delivers; first [apply delivers_Add; set_solver|apply delivers_RefreshGauges].
Qed.

Lemma delivers_on_step `{EventFormat} opts s : delivers collector (Agent.on_step opts s).
Proof.
  destruct s as [|[]]; cbn; [apply delivers_RefreshGauges..|].
  case_decide; [apply delivers_runGC|apply delivers_ret].
Qed.

(** ** Servers *)

(** The requests a server gets before it ends, and its end. *)
Fixpoint requests {E} (evs : list (event E)) : list Request :=
  match evs with
  | [] | EvDone :: _ | EvFail _ :: _ => []
  | EvRequest rq :: evs => rq :: requests evs
  | EvBeside _ :: evs => requests evs
  end.

Fixpoint end_of {E} (evs : list (event E)) : service :=
  match evs with
  | [] => Serving
  | EvDone :: _ => Served None
  | EvFail e :: _ => Served (Some e)
  | _ :: evs => end_of evs
  end.

(** A server whose handler and what runs beside it always return keeps
    answering: every request before its end has its answer. *)
Lemma serve_events_delivers {E} I (h : Handler) (beside : E -> M unit) (ok : Request -> Response -> Prop) evs w :
  I w -> (forall e, delivers I (beside e)) ->
  (forall rq w, I w -> exists r w', h rq w = (Ret r, w') /\ I w' /\ ok rq r) ->
  exists rs w', serve_events h beside evs w = (Ret (rs, end_of evs), w') /\ I w' /\
    Forall2 ok (requests evs) rs.
Proof.
  intros Hw Hb Hh. revert w Hw. induction evs as [|[rq|e| |e] evs IH]; intros w Hw; cbn [serve_events requests end_of].
  - exists [], w. by split_and!.
  - destruct (Hh rq w Hw) as (r & w1 & E1 & Hw1 & Hr). rewrite (bind_run _ _ _ _ _ E1).
    destruct (IH w1 Hw1) as (rs & w2 & E2 & Hw2 & Hrs). rewrite (bind_run _ _ _ _ _ E2).
    exists (r :: rs), w2. split_and!; [done..|by constructor].
  - destruct (Hb e w Hw) as ([] & w1 & E1 & Hw1). rewrite (bind_run _ _ _ _ _ E1). by apply IH.
  - exists [], w. by split_and!.
  - exists [], w. by split_and!.
Qed.

Section pages.
Context (format_g : Z -> string) (pick : gmap string Z -> gmap string Z -> orders).
Context (pick_visits : forall c g, visits c g (pick c g)).

(** The text of a registry: the metrics in the order of their names. *)
Definition page_of (c g : gmap string Z) : string :=
  foldl (fun out name => out +:+ write_metric format_g c g name) ""
    (merge_sort String.le (elements (dom c ∪ dom g))).

Definition metrics_answer (c g : gmap string Z) : Response :=
  Write (page_of c g) (SetHeader "Content-Type" page_type new_response).

Lemma registry_Handler_run rq w :
  registry_Handler format_g pick Default_ rq w =
  (Ret (if decide (rq_path rq = "/metrics") then metrics_answer (w_counters w) (w_gauges w) else NotFound), w).
Proof using pick_visits.
  unfold registry_Handler. destruct (decide (rq_path rq = "/metrics")) as [E|E].
  - rewrite decide_False by tauto. erewrite bind_run by reflexivity. cbv zeta. cbn [counters gauges].
    destruct (pick_visits (w_counters w) (w_gauges w)) as [H1 H2 H3 H4].
    destruct (WritePrometheus_canonical format_g (mkRegistry (w_counters w) (w_gauges w)) _ _ _ _ H1 H2 H3 H4) as [-> _].
    done.
  - by rewrite decide_True.
Qed.

(** The page of the metrics command does not change while it serves: every
    request for it gets the registry the process had when it began, every other
    request is not found, and the world is as it was. *)
Theorem metrics_page_frozen `{Net} addr evs w :
  listen_tcp addr w = None ->
  exists rs, ServeContext format_g pick addr None evs w = (Ret (rs, end_of evs), w) /\
    Forall2 (fun rq r => r = if decide (rq_path rq = "/metrics")
       then metrics_answer (w_counters w) (w_gauges w) else NotFound) (requests evs) rs.
Proof using pick_visits.
  intros Hl. unfold ServeContext, ListenAndServe. erewrite bind_run by reflexivity. rewrite Hl. cbn [default].
  destruct (serve_events_delivers (eq w) (registry_Handler format_g pick Default_)
    (fun e : Empty_set => match e with end) (fun rq r => r = if decide (rq_path rq = "/metrics")
       then metrics_answer (w_counters w) (w_gauges w) else NotFound) evs w eq_refl) as (rs & w' & E & <- & Hrs).
  - intros [].
  - intros rq w1 <-. eexists _, w. split; [apply registry_Handler_run|]. done.
  - by exists rs.
Qed.

(** ** The agent *)

Section agent.
Context `{EventFormat} `{Exec} `{Net} (quote : string -> string) (GOOS : string).
(** Programs run outside the process. *)
Context (programs : forall name args, keeps collector (CombinedOutput name args)).

Lemma delivers_CombinedOutput name args : delivers collector (CombinedOutput name args).
Proof using programs.
  intros w Hw. specialize (programs name args w Hw). unfold CombinedOutput in *.
  destruct (cmd_CombinedOutput name args w) as [r w']. by exists r, w'.
Qed.

Lemma delivers_probe_nodes ds : delivers collector (probe_nodes ds).
Proof using Type. induction ds as [|d ds IH]; cbn [probe_nodes]; delivers. Qed.

Lemma delivers_ProbeWith runDir : delivers collector (ProbeWith GOOS runDir).
Proof using programs.
  unfold ProbeWith, probeGPU, probeCRIU, probeRunDir. cbv zeta.
  delivers; first [apply delivers_probe_nodes|apply delivers_CombinedOutput].
Qed.

Lemma delivers_DeepProbeWith runDir : delivers collector (DeepProbeWith quote GOOS runDir).
Proof using programs.
  unfold DeepProbeWith, probeGPU, probeCRIU, probeRunDir, probeNvidiaDriver, probeCRIUFeatures, probeCaps. cbv zeta.
  delivers; first [apply delivers_probe_nodes|apply delivers_CombinedOutput].
Qed.

(** What the agent answers to a request. *)
Definition agent_answer (rq : Request) (r : Response) : Prop :=
  if decide (cleanPath (rq_path rq) <> rq_path rq) then r = moved rq
  else if decide (rq_path rq = "/metrics") then
    exists c g, dom c ⊆ gc_counters /\ dom g ⊆ agent_gauges /\ r = metrics_answer c g
  else if decide (rq_path rq = "/health") then
    exists st, r = Write (Format st) (WriteHeader (if s_OK st then 200 else 503) new_response)
  else r = NotFound.

(** C22: the agent keeps serving, and its page never shows a checkpoint or a
    restore. Whatever fails while it runs, whatever requests come and in
    whatever order with the refreshes and collections, each request before its
    end is answered: one for /metrics with a page whose counters are among
    those of collections and whose gauges are the numbers of images and shims
    (checkpoints and restores are counted by the processes that do them, and
    nothing carries their counters over); one for /health with the text of a
    probe, and 200 exactly when the probe is well; any other with 404, or a
    redirection where its path is not clean. It ends without an error when its
    context does, and with the listener's error when that fails. *)
Theorem agent_serves opts evs w :
  w_counters w = ∅ -> w_gauges w = ∅ -> listen_tcp (Agent.Listen (Agent.run_options opts)) w = None ->
  exists rs w', Agent.Run quote GOOS format_g pick opts evs w = (Ret (rs, end_of evs), w') /\
    Forall2 agent_answer (requests evs) rs.
Proof using programs pick_visits.
  intros Hc Hg Hl. assert (Hw : collector w) by (unfold collector; rewrite Hc, Hg; set_solver).
  unfold Agent.Run. cbv zeta. erewrite bind_run by reflexivity.
  unfold ListenAndServe. erewrite bind_run by reflexivity. rewrite Hl.
  match goal with |- context [serve_events ?h ?b evs w] =>
    destruct (serve_events_delivers collector h b agent_answer evs w Hw) as (rs & w' & E & _ & Hrs) end.
  - intros s. apply delivers_on_step.
  - intros rq v Hv. unfold ServeMux, agent_answer. case_decide; [by exists (moved rq), v|].
    cbn [route]. destruct (decide ("/metrics" = rq_path rq)) as [Em|Em].
    { rewrite registry_Handler_run, <- Em, !(decide_True (P := "/metrics" = "/metrics")) by done.
      eexists _, v. split; [done|]. split; [done|]. exists (w_counters v), (w_gauges v). by destruct Hv. }
    destruct (decide (rq_path rq = "/metrics")) as [E'|_]; [congruence|].
    destruct (decide ("/health" = rq_path rq)) as [Eh|Eh].
    { destruct (decide (rq_path rq = "/health")) as [_|E']; [|congruence].
      assert (Hp : delivers collector (if decide (default "" (w_env w !! "CUDACKPT_AGENT_DEEP_HEALTH") = "1" \/
          Get_ "deep" (Query (rq_query rq)) = "1")
        then DeepProbeWith quote GOOS (RunDir (Agent.o_Config (Agent.run_options opts)))
        else ProbeWith GOOS (RunDir (Agent.o_Config (Agent.run_options opts)))))
        by (case_decide; [apply delivers_DeepProbeWith|apply delivers_ProbeWith]).
      destruct (Hp v Hv) as (st & v1 & E1 & Hv1). eexists _, v1. rewrite (bind_run _ _ _ _ _ E1).
      split; [done|]. split; [done|]. by exists st. }
    destruct (decide (rq_path rq = "/health")) as [E'|_]; [congruence|]. by exists NotFound, v.
  - exists rs, w'. by split.
Qed.
End agent.
End pages.

(** ** Runs *)

(** Programs that succeed and do nothing. *)
Definition quiet_exec : Exec := {|
  cmd_Run _ _ w := (None, w); cmd_CombinedOutput _ _ w := (([], None), w); LookPath _ _ := None;
|}.

Definition open_net : Net := {| listen_tcp _ _ := None |}.

(** Loops over maps in the order of stdpp's. *)
Definition listed (c g : gmap string Z) : orders :=
  mkOrders (map_to_list c) (map_to_list g) (map_to_list c).*1 (map_to_list g).*1.

Lemma listed_visits c g : visits c g (listed c g).
Proof. done. Qed.

Definition demo_requests : list (event Agent.loop_step) :=
  [EvBeside Agent.LStart; EvRequest (mkRequest "/metrics" ""); EvBeside (Agent.LTick Agent.TGC);
   EvRequest (mkRequest "/metrics" ""); EvRequest (mkRequest "/health" "deep=1"); EvRequest (mkRequest "/" ""); EvDone].

Definition serve_agent : outcome (list Response * service) * world :=
  Agent.Run (H:=agent_events) (H0:=quiet_exec) (H1:=open_net) (fun s => s) "linux" Itoa listed demo_agent
    demo_requests (agent_world []).

Lemma agent_serves_witness :
  exists rs w', serve_agent = (Ret (rs, Served None), w') /\
    Forall2 (agent_answer Itoa) (requests demo_requests) rs.
Proof.
  apply (agent_serves (H:=agent_events) (H0:=quiet_exec) (H1:=open_net) Itoa listed listed_visits (fun s => s) "linux").
  - by intros name args w.
  - reflexivity.
  - reflexivity.
  - reflexivity.
Defined.

(** The pages before and after a collection. *)
Example agent_pages :
  match serve_agent.1 with
  | Ret (rs, _) => rs_body <$> rs !! 1%nat
  | _ => None
  end = Some (line "# TYPE cudackpt_gc_removed_total counter" +:+ line "cudackpt_gc_removed_total 2" +:+
              line "# TYPE cudackpt_images gauge" +:+ line "cudackpt_images 2" +:+
              line "# TYPE cudackpt_shims gauge" +:+ line "cudackpt_shims 1").
Proof. vm_compute. reflexivity. Qed.

Lemma metrics_page_frozen_witness :
  let w := agent_world [] in
  exists rs, ServeContext (H:=open_net) Itoa listed ":9090" None [EvRequest (mkRequest "/metrics" ""); EvDone] w =
      (Ret (rs, Served None), w) /\
    Forall2 (fun rq r => r = if decide (rq_path rq = "/metrics")
       then metrics_answer Itoa (w_counters w) (w_gauges w) else NotFound) [mkRequest "/metrics" ""] rs.
Proof.
  intros w. apply (metrics_page_frozen (H:=open_net) Itoa listed listed_visits ":9090"
    [EvRequest (mkRequest "/metrics" ""); EvDone] w). reflexivity.
Defined.
