(* ===== verification/Interleave.v ===== *)
(** A collection by the agent while a checkpoint is in progress: pkg/agent and
    pkg/control/retention.go on the one side, pkg/control/orchestrator.go and
    pkg/image/finalize.go on the other. *)
From S2P Require Export AgentFacts StagingFacts CheckpointFacts.
Local Open Scope Z_scope.

(** ** What a collection leaves of the files *)

(** The directory an agent collects images in. *)
Notation image_root opts := (ImageRoot (Agent.o_Config opts)).

Section collection.
Context `{EventFormat} (opts : Agent.Options).

Lemma runGC_files w :
  let gc := Agent.gc_options opts in
  let root := at_path w (image_root opts) in
  nofault w -> fs_wf (w_fs w) -> image_root opts <> "" ->
  (forall x n, w_fs w !! (root ++ [x]) = Some n -> proper x = true) ->
  pins_ok w (Agent.o_PinFile opts) -> w_fs w !! root = Some NDir ->
  exists w1, Agent.runGC opts w = (Ret tt, w1) /\
    w_fs w1 = remove_entries root (gone gc w) (w_fs w) /\ w_cwd w1 = w_cwd w.
Proof using Type.
  intros gc root Hnf Hwf Hr Hnames Hpins Hdir. unfold Agent.runGC. fold gc.
  pose proof (RunImageGC_run gc w Hnf Hwf Hr Hnames Hpins Hdir) as E. cbv zeta in E. fold root in E.
  rewrite (bind_run _ _ _ _ _ (attempt_run _ _ _ _ E)). cbv beta iota zeta. clear E.
  case_decide; [|by eexists]. erewrite bind_run by reflexivity.
  match goal with |- context [Agent.RefreshGauges ?c ?v] => destruct (RefreshGauges_any v c) as (g & l & ->) end.
  by eexists.
Qed.

(** Every staging directory in the image root goes, unless it is pinned: its
    age does not matter, nor whether a checkpoint is writing it. *)
Lemma runGC_takes_staging w x :
  let gc := Agent.gc_options opts in
  let root := at_path w (image_root opts) in
  nofault w -> fs_wf (w_fs w) -> image_root opts <> "" ->
  (forall x n, w_fs w !! (root ++ [x]) = Some n -> proper x = true) ->
  pins_ok w (Agent.o_PinFile opts) -> w_fs w !! root = Some NDir ->
  Clean (PathJoin [image_root opts; x +:+ ".staging"]) ∉ pins w (Agent.o_PinFile opts) ->
  w_fs w !! (root ++ [x +:+ ".staging"]) = Some NDir ->
  exists w1, Agent.runGC opts w = (Ret tt, w1) /\ w_cwd w1 = w_cwd w /\
    forall k, w_fs w1 !! ((root ++ [x +:+ ".staging"]) ++ k) = None.
Proof using Type.
  intros gc root Hnf Hwf Hr Hnames Hpins Hdir Hpin Hst.
  destruct (runGC_files w Hnf Hwf Hr Hnames Hpins Hdir) as (w1 & E & Hf & Hc).
  exists w1. split_and!; [done..|]. intros k. rewrite Hf. fold gc root. rewrite lookup_remove_entries, decide_True; [done|].
  apply Exists_exists. exists (x +:+ ".staging"). split; [|by eexists].
  apply elem_of_gone. split; [done|]. split; [done|]. left.
  clear. induction x as [|c x IH]; [by vm_compute|]. rewrite app_cons_str. cbn [HasSuffix]. rewrite IH. apply orb_true_r.
Qed.
End collection.

(** ** The checkpoint that goes on *)

(** C4: a collection can take the files of a checkpoint that is in progress,
    and the checkpoint does not notice. When the agent collects between the
    point where the checkpoint has written and processed the memory of the GPU
    and the point where it dumps the process, the staging directory is removed
    (it is not pinned, and the age of a staging directory does not matter). If
    the rest of the checkpoint then succeeds, whatever calls fail in it, it has
    installed an image that is marked complete and has no manifest.bin, no
    device.bin and no other entry than the mark, the metadata and the files of
    CRIU. *)
Theorem collected_checkpoint `{EventFormat} `{Backend} opts pid dir x w w' :
  let gc := Agent.gc_options opts in
  let p := at_path w (image_root opts) in
  nofault w -> fs_wf (w_fs w) -> image_root opts <> "" ->
  (forall x n, w_fs w !! (p ++ [x]) = Some n -> proper x = true) ->
  pins_ok w (Agent.o_PinFile opts) -> w_fs w !! p = Some NDir ->
  Clean (PathJoin [image_root opts; x +:+ ".staging"]) ∉ pins w (Agent.o_PinFile opts) ->
  w_fs w !! (p ++ [x +:+ ".staging"]) = Some NDir ->
  names (w_cwd w) dir p x ->
  framed (w_cwd w) (late_files (p ++ [x +:+ ".staging"])) (criu_Dump pid (StageDir dir)) ->
  (Agent.runGC opts ;; Orchestrator.checkpoint_dump pid (StageDir dir) ;; Finalize (StageDir dir) dir) w = (Ret tt, w') ->
  w_fs w' !! ((p ++ [x]) ++ [completeName]) = Some (NFile [Byte.x31; Byte.x0a]) /\
  forall k, k <> [] -> k <> [completeName] -> k <> ["meta.bin"] -> head k <> Some "criu" ->
    w_fs w' !! ((p ++ [x]) ++ k) = None.
Proof.
  intros gc p Hnf Hwf Hr Hnames Hpins Hdir Hpin Hst Hd Hcriu E.
  destruct (runGC_takes_staging opts w x Hnf Hwf Hr Hnames Hpins Hdir Hpin Hst) as (w1 & E1 & Hc1 & Hgone).
  rewrite (bind_run _ _ _ _ _ E1) in E. apply bind_inv in E as ([] & w2 & E2 & E).
  pose proof (StageDir_names _ _ _ _ Hd) as Hs. destruct (Hs) as (Hne & _ & _ & Hrs).
  assert (F : frame (late_files (p ++ [x +:+ ".staging"])) w1 w2).
  { pose proof (framed_checkpoint_dump (w_cwd w) pid (StageDir dir) Hne) as K. cbv zeta in K. rewrite Hrs in K.
    specialize (K Hcriu w1 Hc1). by rewrite E2 in K. }
  assert (Hc2 : w_cwd w2 = w_cwd w) by (destruct F as (-> & _); done).
  rewrite <- Hc2 in Hs, Hd.
  destruct (Finalize_all_or_old w2 _ _ _ _ _ Hs Hd (staging_ne x)) as [[_ Hi]|[Hf _]]; rewrite E in *; [|done].
  cbn [snd] in Hi. split; [by rewrite Hi, decide_True|].
  intros k Hk1 Hk2 Hk3 Hk4. rewrite Hi, decide_False by done.
  destruct F as (_ & _ & _ & F). rewrite F; [apply Hgone|].
  intros [[j Hj]|[[j Hj]|Hj]].
  - apply (f_equal length) in Hj. rewrite !length_app in Hj. cbn in Hj. destruct k; [done|cbn in Hj; lia].
  - rewrite <- !app_assoc in Hj. do 2 apply app_inv_head in Hj. by rewrite Hj in Hk4.
  - by apply app_inv_head in Hj.
Qed.

(** ** Runs *)

Definition collector_options : Agent.Options := Agent.mkOptions demo_config "" 0 1 0 "".

(** The image of the process, written and processed, in its staging directory. *)
Definition staged_world : world :=
  set_fs (<[["img"; "a.staging"] := NDir]>
         (<[["img"; "a.staging"; "device.bin"] := NFile [Byte.x01; Byte.x02; Byte.x03; Byte.x04]]>
         (w_fs (checkpoint_world ∅)))) (checkpoint_world ∅).

Definition late_steps : M unit :=
  Agent.runGC (H:=demo_events) collector_options ;;
  Orchestrator.checkpoint_dump (H1:=demo_backend) 7 (StageDir "/img/a") ;;
  Finalize (StageDir "/img/a") "/img/a".

Lemma late_steps_ok : (late_steps staged_world).1 = Ret tt.
Proof. vm_compute. reflexivity. Qed.

Lemma staged_names x n : w_fs staged_world !! (["img"] ++ [x]) = Some n -> proper x = true.
Proof.
  intros H.
  assert (HF : map_Forall (fun q _ => match q with ["img"; y] => proper y | _ => true end = true) (w_fs staged_world))
    by (apply (bool_decide_unpack _); by vm_compute).
  exact (HF _ _ H).
Qed.

Lemma collected_checkpoint_witness :
  let w' := (late_steps staged_world).2 in
  w_fs staged_world !! ["img"; "a.staging"; "device.bin"] <> None /\
  w_fs w' !! ["img"; "a"; completeName] = Some (NFile [Byte.x31; Byte.x0a]) /\
  w_fs w' !! ["img"; "a"; "device.bin"] = None.
Proof.
  intros w'. split; [by vm_compute|].
  destruct (collected_checkpoint (H:=demo_events) (H0:=demo_backend) collector_options 7 "/img/a" "a" staged_world w')
    as [Hc Hk].
  - done.
  - apply (bool_decide_unpack _). by vm_compute.
  - done.
  - exact staged_names.
  - by left.
  - by vm_compute.
  - by vm_compute.
  - by vm_compute.
  - split_and!; [done|by exists ["";"img"]|done|done].
  - apply (fake_late_files (w_cwd staged_world)).
  - change (late_steps staged_world = (Ret tt, w')). rewrite <- late_steps_ok. apply surjective_pairing.
  - split; [exact Hc|]. apply (Hk ["device.bin"]); done.
Defined.

(** A whole checkpoint, during which the agent collects as the dump of the
    process begins: it succeeds, is counted, and its image is not one. *)
Definition interrupted_dump : Backend := {|
  criu_Dump pid dir := Agent.runGC (H:=demo_events) collector_options ;; criu_Dump (Backend := demo_backend) pid dir;
  criu_Restore dir := criu_Restore (Backend := demo_backend) dir;
|}.

Example checkpoint_collected :
  let r := Orchestrator.Checkpoint (H:=idle_gpu) (H0:=frame_zstd) (H1:=interrupted_dump) (H2:=demo_events)
    demo_config 3 7 "/img/a" preloaded in
  r.1 = Ret tt /\ w_counters r.2 !! CheckpointsTotal = Some 1 /\
  w_fs r.2 !! ["img"; "a"; "COMPLETE"] <> None /\ w_fs r.2 !! ["img"; "a"; "manifest.bin"] = None /\
  (ValidateImage (H:=frame_zstd) 3 "/img/a" r.2).1 <> Ret tt.
Proof. cbv zeta. split_and!; by vm_compute. Qed.
