(* ===== verification/Command.v ===== *)
(** cmd/cudackpt: the commands (main.go, completion.go) and internal/version.
    What they print to the standard error stream is not part of the world. *)
From S2P Require Export Checkpoint Promote Drift Report Agent Bench.
Local Open Scope Z_scope.

Module Command.

Definition Version : string := "0.1.0-dev".

(** ** Arguments *)

Definition hour : Z := 3600 * 1000000000.

(** time.Duration is an int64. *)
Definition days (n : Z) : Z := int64_of_u64 (int64_of_u64 (n * 24) * hour).

Definition parseAge `{ParseDur} (s : string) : option Z :=
  if HasSuffix s "d" then
    match Atoi (String.substring 0 (String.length s - 1) s) with Some n => Some (days n) | None => None end
  else ParseDuration s.

(** [--stop pid] in the arguments of rollback: the last one counts; [None] where
    one is not a number. *)
Fixpoint stop_flag (args : list string) (stopPID : Z) : option Z :=
  match args with
  | "--stop" :: v :: rest => match Atoi v with Some n => stop_flag rest n | None => None end
  | _ :: rest => stop_flag rest stopPID
  | [] => Some stopPID
  end.

Fixpoint pin_flag (args : list string) (pin : string) : string :=
  match args with
  | "--pin" :: v :: rest => pin_flag rest v
  | _ :: rest => pin_flag rest pin
  | [] => pin
  end.

Record gc_args := mkGcArgs { g_root : string; g_maxAge : Z; g_pin : string; g_dryRun : bool }.

(** The flags of gc; [None] where one has no value or is not known. *)
Fixpoint gc_flags `{ParseDur} (args : list string) (g : gc_args) : option gc_args :=
  match args with
  | [] => Some g
  | "--root" :: v :: rest => gc_flags rest (mkGcArgs v (g_maxAge g) (g_pin g) (g_dryRun g))
  | "--older-than" :: v :: rest =>
      match parseAge v with
      | Some d => gc_flags rest (mkGcArgs (g_root g) d (g_pin g) (g_dryRun g))
      | None => None
      end
  | "--pin" :: v :: rest => gc_flags rest (mkGcArgs (g_root g) (g_maxAge g) v (g_dryRun g))
  | "--dry-run" :: rest => gc_flags rest (mkGcArgs (g_root g) (g_maxAge g) (g_pin g) true)
  | _ => None
  end.

Fixpoint watch_flags `{ParseDur} (args : list string) (o : Orchestrator.WatchOptions)
    : option Orchestrator.WatchOptions :=
  match args with
  | [] => Some o
  | "--until-running" :: rest => watch_flags rest (Orchestrator.mkWatchOptions true (Orchestrator.Timeout o))
  | "--timeout" :: v :: rest =>
      match ParseDuration v with
      | Some d => watch_flags rest (Orchestrator.mkWatchOptions (Orchestrator.UntilRunning o) d)
      | None => None
      end
  | _ => None
  end.

(** The address to listen at, in the arguments of metrics and agent. *)
Fixpoint listen_flag (args : list string) (addr : string) : option string :=
  match args with
  | [] => Some addr
  | "--listen" :: v :: rest => listen_flag rest v
  | _ => None
  end.

(** ** Exit codes *)

Definition ok : M Z := mret 0.
Definition die : M Z := mret 1.
Definition usage : M Z := mret 2.

(** [if err != nil { die(err) }]. *)
Definition or_die {A} (m : M A) (k : A -> M Z) : M Z :=
  r ← attempt m; match r with inr a => k a | inl _ => die end.

Definition or_die_opt {A} (o : option A) (k : A -> M Z) : M Z :=
  match o with Some a => k a | None => die end.

Definition say (s : string) : M Z := Print (line s) ;; ok.

(** ** completion.go *)

Definition completionCommands : list string :=
  ["checkpoint"; "restore"; "rollback"; "promote"; "gc"; "metrics"; "agent"; "serve";
   "freeze"; "ping"; "resume"; "status"; "watch"; "bench"; "diff"; "snapshot";
   "gpu-restore"; "list"; "ps"; "inspect"; "validate"; "report"; "stats";
   "health"; "version"; "completion"].

(** A double quote, and a text between two. *)
Definition dq (s : string) : string := String "034" (s +:+ String "034" "").

Definition bash_lines : list string :=
  ["# cudackpt bash completion";
   "_cudackpt_completions() {";
   "  local cur prev";
   "  cur=" +:+ dq "${COMP_WORDS[COMP_CWORD]}";
   "  prev=" +:+ dq "${COMP_WORDS[COMP_CWORD-1]}";
   "  local commands=" +:+ dq (join_with " " completionCommands);
   "  local flags=" +:+ dq "--until-running --timeout --listen --dry-run --stop --pin --root --older-than";
   "  if [[ ${COMP_CWORD} -eq 1 ]]; then";
   "    COMPREPLY=( $(compgen -W " +:+ dq "${commands}" +:+ " -- " +:+ dq "${cur}" +:+ ") )";
   "    return";
   "  fi";
   "  case " +:+ dq "${prev}" +:+ " in";
   "    completion)";
   "      COMPREPLY=( $(compgen -W " +:+ dq "bash zsh" +:+ " -- " +:+ dq "${cur}" +:+ ") )";
   "      return";
   "    *)";
   "      COMPREPLY=( $(compgen -W " +:+ dq "${flags}" +:+ " -- " +:+ dq "${cur}" +:+ ") )";
   "      ;;";
   "  esac";
   "}";
   "complete -F _cudackpt_completions cudackpt"].

Definition zsh_lines : list string :=
  ["#compdef cudackpt";
   "_cudackpt() {";
   "  local -a commands flags";
   "  commands=(" +:+ join_with " " completionCommands +:+ ")";
   "  flags=(--until-running --timeout --listen --dry-run --stop --pin --root --older-than)";
   "  if (( CURRENT == 2 )); then";
   "    _describe command commands";
   "  elif [[ ${words[2]} == completion ]]; then";
   "    _describe shell 'bash zsh'";
   "  else";
   "    _describe flag flags";
   "  fi";
   "}";
   "_cudackpt"].

Definition print_lines (ls : list string) : M unit := forM_ ls (fun l => Print (line l)).

Definition emitCompletion (shell : string) : M unit :=
  if decide (shell = "bash") then print_lines bash_lines
  else if decide (shell = "zsh") then print_lines zsh_lines
  else throw (EText "unsupported shell").

(** ** main.go *)

Section main.
Context `{Gpu} `{Zstd} `{EventFormat} `{Orchestrator.Processes} `{ParseDur} `{Exec} `{Net} `{Floats}.
(** strconv.Quote, runtime.GOOS and the size of a directory; what the standard
    input holds; whether the program has been interrupted; the monotonic clock. *)
Context (quote : string -> string) (GOOS : string) (dir_size : Z) (stdin : goerr + bytes).
Context (interrupted : world -> bool) (monotonic : world -> Z).
(** The format %g of a gauge, the order of loops over maps, and what happens to
    the program while it serves. *)
Context (format_g : Z -> string) (pick : gmap string Z -> gmap string Z -> orders).
Context (to_metrics : list (event Empty_set)) (to_agent : list (event Agent.loop_step)).
(** Bounds: of the parents of an image, the depth of a directory, the rounds of
    the loops that wait. *)
Context (fuel depth rounds : nat).

Section command.
(** What [control.New] makes of the configuration. *)
Context (wr : Wrapper.Wrapper) (cfg : Config).
#[local] Instance criu : Backend := Wrapper.backend wr.

Definition with_pid (s : string) (k : Z -> M Z) : M Z := or_die_opt (Atoi s) k.

Definition cmd_checkpoint (args : list string) : M Z :=
  match args with
  | [] => usage
  | pid :: rest =>
      with_pid pid (fun pid =>
      or_die (Orchestrator.EnqueueCheckpoint cfg fuel pid (hd "" rest)) (fun _ => say "checkpoint ok"))
  end.

Definition cmd_restore (args : list string) : M Z :=
  match args with
  | [] => usage
  | image :: _ =>
      or_die (Orchestrator.Restore cfg fuel rounds image) (fun pid => say ("restore ok pid=" +:+ Itoa pid))
  end.

Definition cmd_rollback (args : list string) : M Z :=
  match args with
  | [] => usage
  | image :: rest =>
      or_die_opt (stop_flag rest 0) (fun stopPID =>
      or_die (Orchestrator.Rollback cfg fuel rounds image stopPID) (fun pid =>
      say ("rollback ok pid=" +:+ Itoa pid)))
  end.

Definition cmd_promote (args : list string) : M Z :=
  match args with
  | src :: dest :: rest =>
      pin ← ParsePromotePin "";
      or_die (Promote fuel depth (mkPromote src dest (pin_flag rest pin))) (fun _ => say "promote ok")
  | _ => usage
  end.

Definition cmd_gc (args : list string) : M Z :=
  pin ← Getenv "CUDACKPT_PIN_FILE";
  or_die_opt (gc_flags args (mkGcArgs (ImageRoot cfg) (14 * 24 * hour) pin false)) (fun g =>
  or_die (RunImageGC (mkGCOptions (g_root g) (g_maxAge g) (g_pin g) None) (g_dryRun g)) (fun r =>
  match r with
  | (_, (_, Some _)) => die
  | (_, (removed, None)) =>
      print_lines removed ;;
      Default_Add GCRemovedTotal (Z.of_nat (length removed)) ;;
      Agent.RefreshGauges cfg ;;
      ok
  end)).

Definition cmd_ping (args : list string) : M Z :=
  match args with
  | [] => usage
  | pid :: _ => with_pid pid (fun pid => or_die (Orchestrator.Ping cfg pid) (fun _ => say "ping ok"))
  end.

Definition cmd_freeze (args : list string) : M Z :=
  match args with
  | [] => usage
  | pid :: _ => with_pid pid (fun pid => or_die (Orchestrator.Freeze cfg pid) (fun _ => say "freeze ok"))
  end.

Definition cmd_resume (args : list string) : M Z :=
  match args with
  | [] => usage
  | pid :: _ => with_pid pid (fun pid => or_die (Orchestrator.Resume cfg pid) (fun _ => say "resume ok"))
  end.

Definition cmd_status (args : list string) : M Z :=
  match args with
  | [] => usage
  | pid :: _ =>
      with_pid pid (fun pid =>
      or_die (Orchestrator.Status cfg pid) (fun st => say (StateName st +:+ " (" +:+ FormatUint st +:+ ")")))
  end.

Definition cmd_watch (args : list string) : M Z :=
  match args with
  | [] => usage
  | pid :: rest =>
      with_pid pid (fun pid =>
      or_die_opt (watch_flags rest (Orchestrator.mkWatchOptions false 0)) (fun opts =>
      or_die (Orchestrator.WatchShimWith cfg rounds pid (ShimPoll cfg) opts interrupted) (fun _ => ok)))
  end.

Definition cmd_bench (args : list string) : M Z :=
  match args with
  | [] => usage
  | pid :: rest =>
      with_pid pid (fun pid =>
      or_die_opt (match rest with [] => Some 100 | n :: _ => Atoi n end) (fun n =>
      ping ← Bench.Ping monotonic (RunDir cfg) pid n;
      st ← Bench.Status monotonic (RunDir cfg) pid n;
      Print (Bench.FormatTable [ping; st]) ;; ok))
  end.

(** A server that has not returned is waited for. *)
Definition when_served (m : M (list Response * service)) : M Z :=
  '(_, s) ← m;
  match s with Serving => diverge | Served None => ok | Served (Some _) => die end.

Definition cmd_metrics (args : list string) : M Z :=
  or_die_opt (listen_flag args ":9090") (fun addr =>
  Agent.RefreshGauges cfg ;;
  when_served (ServeContext format_g pick addr (Some Default_) to_metrics)).

Definition cmd_agent (args : list string) : M Z :=
  opts ← Agent.OptionsFromConfig cfg;
  or_die_opt (listen_flag args (Agent.Listen opts)) (fun addr =>
  when_served (Agent.Run quote GOOS format_g pick
    (Agent.mkOptions (Agent.o_Config opts) addr (Agent.RefreshInterval opts) (Agent.GCInterval opts)
       (Agent.GCMaxAge opts) (Agent.o_PinFile opts)) to_agent)).

Definition cmd_diff (args : list string) : M Z :=
  match args with
  | a :: b :: _ => or_die (CompareImages a b) (fun rep => Print (FormatDrift rep) ;; ok)
  | _ => usage
  end.

Definition cmd_snapshot (args : list string) : M Z :=
  match args with
  | pid :: dir :: _ =>
      with_pid pid (fun pid => or_die (Orchestrator.Snapshot cfg fuel pid dir) (fun _ => say "snapshot ok"))
  | _ => usage
  end.

Definition cmd_gpu_restore (args : list string) : M Z :=
  match args with
  | pid :: dir :: _ =>
      with_pid pid (fun pid => or_die (Orchestrator.GpuRestore cfg fuel pid dir) (fun _ => say "gpu-restore ok"))
  | _ => usage
  end.

Definition cmd_list (args : list string) : M Z :=
  or_die (ListImages (hd (ImageRoot cfg) args)) (fun imgs => print_lines imgs ;; ok).

(** A line of [ps] with the state of a shim. *)
Definition print_state (pid : Z) : M unit :=
  r ← attempt (Orchestrator.Status cfg pid);
  Print match r with
        | inl _ => line (Itoa pid +:+ " offline")
        | inr st => line (Itoa pid +:+ " " +:+ StateName st)
        end.

Definition cmd_ps (args : list string) : M Z :=
  let verbose := bool_decide (head args = Some "-v") in
  or_die (ListShims (RunDir cfg)) (fun pids =>
  forM_ pids (fun p => if verbose then print_state p else Print (line (Itoa p))) ;; ok).

Definition cmd_inspect (args : list string) : M Z :=
  match args with
  | [] => usage
  | dir :: _ => or_die (InspectImage dir_size quote dir) (fun _ => ok)
  end.

Definition cmd_validate (args : list string) : M Z :=
  match args with
  | [] => usage
  | dir :: _ => or_die (ValidateImage fuel dir) (fun _ => say "validate ok")
  end.

Definition cmd_report (args : list string) : M Z :=
  match args with
  | [] => usage
  | dir :: _ => or_die (RenderImage dir_size dir) (fun out => Print out ;; ok)
  end.

Definition cmd_stats (args : list string) : M Z :=
  match args with
  | [] => usage
  | pid :: _ =>
      with_pid pid (fun pid =>
      or_die (Orchestrator.Stats cfg pid) (fun st =>
      say ("state=" +:+ FormatUint (State st) +:+ " allocs=" +:+ FormatUint (AllocCount st) +:+
           " bytes=" +:+ FormatUint (TotalBytes st) +:+ " streams=" +:+ FormatUint (StreamCount st) +:+
           " modules=" +:+ FormatUint (ModuleCount st) +:+ " symbols=" +:+ FormatUint (SymbolCount st) +:+
           " events=" +:+ FormatUint (EventCount st) +:+ " ctxs=" +:+ FormatUint (CtxCount st) +:+
           " unsupported=" +:+ FormatUint (UnsupportedCode st))))
  end.

Definition cmd_health (args : list string) : M Z :=
  st ← (if decide (head args = Some "-d") then DeepProbeWith quote GOOS (RunDir cfg)
        else ProbeWith GOOS (RunDir cfg));
  Print (Format st) ;;
  if s_OK st then ok else die.

Definition cmd_completion (args : list string) : M Z :=
  match args with
  | [] => die
  | shell :: _ => or_die (emitCompletion shell) (fun _ => ok)
  end.

Definition runServe : M unit :=
  inp ← lift stdin;
  let cmd := TrimSpace (string_of_bytes inp) in
  let cmd := if decide (cmd = "") then "ps" else cmd in
  if decide (cmd = "ps") then pids ← ListShims (RunDir cfg); forM_ pids print_state
  else if decide (cmd = "health") then
    st ← ProbeWith GOOS (RunDir cfg);
    Print (Format st) ;;
    if s_OK st then mret tt else throw (EText "health degraded")
  else throw (EText "unknown serve command").

(** The switch over the commands: none where the name is not known. *)
Definition command (name : string) : option (list string -> M Z) :=
  if decide (name = "checkpoint") then Some cmd_checkpoint
  else if decide (name = "restore") then Some cmd_restore
  else if decide (name = "rollback") then Some cmd_rollback
  else if decide (name = "promote") then Some cmd_promote
  else if decide (name = "gc") then Some cmd_gc
  else if decide (name = "freeze") then Some cmd_freeze
  else if decide (name = "ping") then Some cmd_ping
  else if decide (name = "resume") then Some cmd_resume
  else if decide (name = "status") then Some cmd_status
  else if decide (name = "watch") then Some cmd_watch
  else if decide (name = "bench") then Some cmd_bench
  else if decide (name = "diff") then Some cmd_diff
  else if decide (name = "snapshot") then Some cmd_snapshot
  else if decide (name = "gpu-restore") then Some cmd_gpu_restore
  else if decide (name = "list") then Some cmd_list
  else if decide (name = "ps") then Some cmd_ps
  else if decide (name = "inspect") then Some cmd_inspect
  else if decide (name = "validate") then Some cmd_validate
  else if decide (name = "report") then Some cmd_report
  else if decide (name = "stats") then Some cmd_stats
  else if decide (name = "health") then Some cmd_health
  else if decide (name = "version") then Some (fun _ => say Version)
  else if decide (name = "completion") then Some cmd_completion
  else if decide (name = "serve") then Some (fun _ => or_die runServe (fun _ => ok))
  else if decide (name = "metrics") then Some cmd_metrics
  else if decide (name = "agent") then Some cmd_agent
  else None.
End command.

(** [main]: the exit code. [args] are the arguments without the name of the
    program. *)
Definition main (args : list string) : M Z :=
  match args with
  | [] => usage
  | name :: args =>
      cfg ← Load;
      wr ← Wrapper.New;
      match command wr cfg name with Some run => run args | None => usage end
  end.
End main.
End Command.
