(* ===== verification/CommandFacts.v ===== *)
(** What the commands do: cmd/cudackpt with the components it calls. *)
From S2P Require Export CheckpointFacts Command AgentFacts.
Local Open Scope Z_scope.

(** ** Ages *)

Lemma substring_prefix a b : String.substring 0 (String.length a) (a +:+ b) = a.
Proof.
  induction a as [|c a IH]; [by destruct b|]. rewrite app_cons_str. cbn [String.length String.substring].
  by rewrite IH.
Qed.

Lemma HasSuffix_end a b : HasSuffix (a +:+ b) b = true.
Proof.
  induction a as [|c a IH].
  - rewrite app_empty_str. destruct b; cbn [HasSuffix]; by rewrite bool_decide_eq_true_2.
  - rewrite app_cons_str. cbn [HasSuffix]. rewrite IH. apply orb_true_r.
Qed.

Lemma int64_range z : - 2 ^ 63 <= int64_of_u64 z < 2 ^ 63.
Proof.
  unfold int64_of_u64. pose proof (Z.mod_pos_bound z (2 ^ 64) ltac:(lia)) as H. unfold u64. case_decide; lia.
Qed.

Lemma int64_small z : - 2 ^ 63 <= z < 2 ^ 63 -> int64_of_u64 z = z.
Proof.
  intros Hz. unfold int64_of_u64, u64. destruct (decide (0 <= z)).
  - rewrite Z.mod_small by lia. case_decide; lia.
  - rewrite <- (Z.mod_unique z (2 ^ 64) (-1) (z + 2 ^ 64)) by lia. case_decide; lia.
Qed.

(** An age in days that fits is not changed by the conversions, one that does
    not is. *)
Lemma days_spec n : Command.days n = n * (24 * Command.hour) <-> -106751 <= n <= 106751.
Proof.
  unfold Command.days, Command.hour. split.
  - intros E. pose proof (int64_range (int64_of_u64 (n * 24) * (3600 * 1000000000))) as H. lia.
  - intros Hn. rewrite (int64_small (n * 24)), int64_small by lia. lia.
Qed.

(** C26: ages given in days. Every number of days is accepted; the age is the
    number of days, in nanoseconds, exactly for at most 106751 days; for more
    the product has overflowed, and is another age. *)
Theorem parseAge_days `{ParseDur} n :
  - 2 ^ 63 <= n < 2 ^ 63 ->
  exists age, Command.parseAge (Itoa n +:+ "d") = Some age /\ - 2 ^ 63 <= age < 2 ^ 63 /\
    (age = n * (24 * Command.hour) <-> -106751 <= n <= 106751).
Proof.
  intros Hn. exists (Command.days n). split; [|split; [exact (int64_range _)|apply days_spec]].
  unfold Command.parseAge. rewrite HasSuffix_end, length_app_str.
  replace (_ - 1)%nat with (String.length (Itoa n)) by (cbn; lia).
  by rewrite substring_prefix, Atoi_Itoa.
Qed.

(** Two hundred thousand days are less than half an hour. *)
Lemma parseAge_days_witness :
  exists age, Command.parseAge (H := fun _ => None) "213504d" = Some age /\ age < 30 * 60 * 1000000000.
Proof.
  destruct (parseAge_days (H := fun _ => None) 213504) as (age & E & Hage & _); [lia|].
  exists age. split; [exact E|]. injection E as <-. by vm_compute.
Defined.

Section command.
Context `{Gpu} `{Zstd} `{EventFormat} `{Orchestrator.Processes} `{ParseDur} `{Exec} `{Net} `{Floats}.
Context (quote : string -> string) (GOOS : string) (dir_size : Z) (stdin : goerr + bytes).
Context (interrupted : world -> bool) (monotonic : world -> Z).
Context (format_g : Z -> string) (pick : gmap string Z -> gmap string Z -> orders).
Context (to_metrics : list (event Empty_set)) (to_agent : list (event Agent.loop_step)).
Context (fuel depth rounds : nat).

(** The shells are told of every command: the names the completion scripts
    offer are exactly the names [main] has a case for. *)
Theorem completion_complete wr cfg name :
  name ∈ Command.completionCommands <->
  is_Some (Command.command quote GOOS dir_size stdin interrupted monotonic format_g pick to_metrics to_agent
    fuel depth rounds wr cfg name).
Proof.
  unfold Command.command. split.
  - intros Hn. apply list_elem_of_In in Hn. cbn [In Command.completionCommands] in Hn.
    repeat (destruct Hn as [<-|Hn]; [repeat (rewrite decide_False by done); rewrite decide_True by done; by eexists|]).
    done.
  - repeat (destruct (decide _) as [->|]; [intros _; by apply (bool_decide_unpack _)|]). by intros [].
Qed.
End command.

(** ** Collections *)

(** The lines of a text. *)
Definition text (ls : list string) : string := foldr (fun l s => line l +:+ s) "" ls.

Lemma print_lines_run ls w : Command.print_lines ls w = (Ret tt, set_stdout (w_stdout w +:+ text ls) w).
Proof.
  revert w. induction ls as [|l ls IH]; intros w.
  - cbn. rewrite app_nil_str. by destruct w.
  - unfold Command.print_lines. cbn [forM_]. erewrite bind_run by reflexivity.
    unfold Command.print_lines in IH. rewrite IH. cbn [text foldr w_stdout set_stdout]. by rewrite app_assoc_str.
Qed.

(** C20: what [gc] does. Where its flags are accepted, and without faults, it
    removes exactly the images that are to be removed under the root, the age
    and the pin file the flags name (with the configured root, 14 days and the
    environment as defaults), or none of them with --dry-run; prints their paths
    in order, and exits with 0. It counts them as removed either way. *)
Theorem gc_command_exact `{ParseDur} cfg args w g :
  Command.gc_flags args (Command.mkGcArgs (ImageRoot cfg) (14 * 24 * Command.hour)
    (getenv w "CUDACKPT_PIN_FILE") false) = Some g ->
  let opts := mkGCOptions (Command.g_root g) (Command.g_maxAge g) (Command.g_pin g) None in
  let root := at_path w (Command.g_root g) in
  nofault w -> fs_wf (w_fs w) -> Command.g_root g <> "" ->
  (forall x n, w_fs w !! (root ++ [x]) = Some n -> proper x = true) ->
  pins_ok w (Command.g_pin g) -> w_fs w !! root = Some NDir ->
  exists w', Command.cmd_gc cfg args w = (Ret 0, w') /\
    w_fs w' = (if Command.g_dryRun g then w_fs w else remove_entries root (gone opts w) (w_fs w)) /\
    w_stdout w' = w_stdout w +:+ text ((fun x => PathJoin [Command.g_root g; x]) <$> gone opts w) /\
    w_counters w' = add_counter GCRemovedTotal (Z.of_nat (length (gone opts w))) (w_counters w).
Proof.
  intros Hg opts root Hnf Hwf Hr Hnames Hpins Hdir. unfold Command.cmd_gc. unfold Getenv, gets.
  erewrite bind_run by reflexivity. fold (getenv w "CUDACKPT_PIN_FILE"). rewrite Hg. unfold Command.or_die_opt, Command.or_die.
  fold opts. set (fs := if Command.g_dryRun g then w_fs w else remove_entries root (gone opts w) (w_fs w)).
  set (ps := (fun x => PathJoin [Command.g_root g; x]) <$> gone opts w).
  assert (E : exists plan, RunImageGC opts (Command.g_dryRun g) w = (Ret (plan, (ps, None)), set_fs fs w)).
  { assert (Hps : planned opts w (to_remove opts w) = ps)
      by (unfold ps, planned, gone; by rewrite <- list_fmap_compose).
    eexists. rewrite <- Hps. unfold fs. destruct (Command.g_dryRun g).
    - replace (set_fs (w_fs w) w) with w by (by destruct w). apply (RunImageGC_dry opts w); done.
    - apply (RunImageGC_run opts w); done. }
  destruct E as [plan E]. rewrite (bind_run _ _ _ _ _ (attempt_run _ _ _ _ E)). cbv beta iota.
  rewrite (bind_run _ _ _ _ _ (print_lines_run ps _)). erewrite bind_run by reflexivity.
  set (w2 := set_counters _ _). destruct (RefreshGauges_any w2 cfg) as (gg & l & ER).
  rewrite (bind_run _ _ _ _ _ ER). eexists. split; [reflexivity|]. split_and!; [done..|].
  cbn [w_counters set_gauges set_faults w2 set_counters set_stdout set_fs]. unfold ps. by rewrite length_fmap.
Qed.

(** A dry run counts the images it would have removed. *)
Lemma gc_command_exact_witness :
  let w := demo_gc [] in
  exists w', Command.cmd_gc (H3 := fun _ => Some 100) (mkConfig "/r" "/run" "" 0 0 1 0)
      ["--older-than"; "100ns"; "--pin"; "/pins"; "--dry-run"] w = (Ret 0, w') /\
    w_fs w' = w_fs w /\ w_stdout w' = line "/r/a" +:+ line "/r/b.staging" /\
    w_counters w' !! GCRemovedTotal = Some 2.
Proof.
  intros w.
  destruct (gc_command_exact (H := fun _ => Some 100) (mkConfig "/r" "/run" "" 0 0 1 0)
    ["--older-than"; "100ns"; "--pin"; "/pins"; "--dry-run"] w
    (Command.mkGcArgs "/r" 100 "/pins" true)) as (w' & E & Hf & Ho & Hc).
  - reflexivity.
  - done.
  - apply (bool_decide_unpack _). by vm_compute.
  - done.
  - exact demo_gc_names.
  - right. right. exists demo_pins. split; by vm_compute.
  - by vm_compute.
  - exists w'. split; [exact E|]. split; [exact Hf|]. rewrite Ho, Hc. split; by vm_compute.
Defined.

(** ** Checkpoints *)

Lemma keeps_Load `{ParseDur} I `{!Stable I} : keeps I Load.
Proof.
  unfold Load, LoadWithWarnings, Default, mergeEnv, if_env. keep.
Qed.

Section checkpoint.
Context `{Gpu} `{Zstd} `{EventFormat} `{Orchestrator.Processes} `{ParseDur} `{Exec} `{Net} `{Floats}.
Context (quote : string -> string) (GOOS : string) (dir_size : Z) (stdin : goerr + bytes).
Context (interrupted : world -> bool) (monotonic : world -> Z).
Context (format_g : Z -> string) (pick : gmap string Z -> gmap string Z -> orders).
Context (to_metrics : list (event Empty_set)) (to_agent : list (event Agent.loop_step)).
Context (fuel depth rounds : nat).
Notation main := (Command.main quote GOOS dir_size stdin interrupted monotonic format_g pick to_metrics to_agent
    fuel depth rounds).

Lemma or_die_zero {A} (m : M A) k w w' :
  Command.or_die m k w = (Ret 0, w') -> exists a w1, m w = (Ret a, w1) /\ k a w1 = (Ret 0, w').
Proof.
  unfold Command.or_die. intros (r & w1 & E & Hk)%bind_inv.
  apply attempt_inv in E as [(a & -> & E)|(e & -> & _)]; [|done]. by exists a, w1.
Qed.

(** C1: the command [cudackpt checkpoint pid dir] exits with 0 only when it has
    installed the image, with the configuration it loads, CRIU as the backend,
    and whatever system calls fail: the destination is complete, has the
    metadata of the process with the environment of the program, and the staging
    directory is gone. Where no parent image is given and the programs that are
    run write nothing outside the directory criu of the image, every chunk of
    the image is in device.bin with the checksum its manifest gives. *)
Theorem main_checkpoint_installs w s pid out cfg p x w' :
  (forall wr, Outside (H0:=Wrapper.backend wr) (same_place w)) ->
  Atoi s = Some pid -> (Load w).1 = Ret cfg ->
  names (w_cwd w) (Orchestrator.checkpoint_dir cfg pid out) p x -> short_env w ->
  log_elsewhere w (p ++ [x]) -> log_elsewhere w (p ++ [x +:+ ".staging"]) ->
  main ["checkpoint"; s; out] w = (Ret 0, w') ->
  w_fs w' !! ((p ++ [x]) ++ [completeName]) = Some (NFile [Byte.x31; Byte.x0a]) /\
  (exists dev, has_meta (w_fs w') (p ++ [x]) (checkpoint_meta w pid dev)) /\
  (forall k, w_fs w' !! ((p ++ [x +:+ ".staging"]) ++ k) = None) /\
  (getenv w "CUDACKPT_PARENT_IMAGE" = "" ->
   (forall name args, framed (w_cwd w) (fun q => (p ++ [x +:+ ".staging"]) ++ ["criu"] `prefix_of` q) (Run_ name args)) ->
   exists es, intact (w_fs w') (p ++ [x]) es).
Proof.
  intros HO Hs Hcfg Hd Hsh Hl Hls. unfold Command.main. intros (cfg' & v & El & E)%bind_inv.
  pose proof (keeps_Load (same_place w) w ltac:(done)) as Kv. rewrite El in Hcfg, Kv.
  injection Hcfg as ->. cbn [snd] in Kv. apply bind_inv in E as (wr & v1 & En & E).
  assert (v1 = v) as -> by (unfold Wrapper.New, Getenv, gets, mbind, M_bind in En; by injection En).
  cbn [Command.command] in E. unfold Command.command in E. rewrite decide_True in E by done.
  cbn [Command.cmd_checkpoint hd] in E. unfold Command.cmd_checkpoint, Command.with_pid, Command.or_die_opt in E.
  rewrite Hs in E. cbn [hd] in E. apply or_die_zero in E as ([] & w1 & Em & Ep).
  injection Ep as <-. cbn [w_fs set_stdout].
  destruct (Checkpoint_ret (H1:=Wrapper.backend wr) cfg fuel w v pid out
    (Orchestrator.EnqueueCheckpoint (H1:=Wrapper.backend wr) cfg fuel pid out) p x tt w1 Hd Hl Hls) as (_ & (dev & Hdev & Hm) & Hc & (b1 & b2 & K1 & _ & Eb & Hk) & Hg);
    [right; by eexists|exact Kv|exact Em|].
  split_and!; [exact Hc| |exact Hg|].
  2:{ intros Hpar Hrun. destruct (StageDir_names _ _ _ _ Hd) as (Hne & _ & _ & Hr).
      eapply (installed_intact (H1:=Wrapper.backend wr) cfg fuel w pid _ p x b1 b2); [exact Hd|exact K1|exact Hls|exact Hpar| |exact Eb|exact Hk].
      by apply framed_wrapper_Dump. }
  exists dev, (meta_bytes (checkpoint_meta w pid dev)), w.
  split; [done|]. by apply decode_meta_bytes; [apply checkpoint_meta_wf|..].
Qed.
End checkpoint.

(** *** A run *)

(** Processes that are gone at once. *)
Definition no_processes : Orchestrator.Processes := {|
  Orchestrator.signal_term _ w := w; Orchestrator.kill_0 _ _ := false; Orchestrator.signal_kill _ w := (None, w);
|}.

Definition command_world : world :=
  checkpoint_world (<["LD_PRELOAD" := "/usr/lib/libcudackpt.so"]> {["CUDACKPT_RUN_DIR" := "/run"]}).

Definition demo_main (args : list string) : M Z :=
  Command.main (H:=idle_gpu) (H0:=frame_zstd) (H1:=demo_events) (H2:=no_processes) (H3:=fun _ => None) (H4:=quiet_exec) (H5:=open_net) (H6:=whole_floats)
    (fun s => s) "linux" 4096 (inr []) (fun _ => false) w_now Itoa listed [] [] 3 3 3 args.

Lemma demo_main_ok : (demo_main ["checkpoint"; "7"; "/img/a"] command_world).1 = Ret 0.
Proof. vm_compute. reflexivity. Qed.

Lemma command_outside wr : Outside (H:=idle_gpu) (H0:=Wrapper.backend (H:=quiet_exec) wr) (same_place command_world).
Proof.
  split; [done..|intros p d; by apply keeps_wrapper_Dump|intros d l e; by apply keeps_wrapper_Restore|done|done].
Qed.

Lemma main_checkpoint_installs_witness :
  let w' := (demo_main ["checkpoint"; "7"; "/img/a"] command_world).2 in
  w_fs w' !! ["img"; "a"; completeName] = Some (NFile [Byte.x31; Byte.x0a]) /\
  (exists dev, has_meta (w_fs w') ["img"; "a"] (mkMeta MetaMagic 2 0 7 dev "/usr/lib/libcudackpt.so" "")) /\
  exists es, intact (w_fs w') ["img"; "a"] es.
Proof.
  intros w'.
  destruct (main_checkpoint_installs (H:=idle_gpu) (H0:=frame_zstd) (H1:=demo_events) (H2:=no_processes)
    (H3:=fun _ => None) (H4:=quiet_exec) (H5:=open_net) (H6:=whole_floats) (fun s => s) "linux" 4096 (inr [])
    (fun _ => false) w_now Itoa listed [] [] 3 3 3
    command_world "7" 7 "/img/a" (mkConfig "/var/lib/cudackpt" "/run" "" 60000000000 200000000 3 500000000)
    ["img"] "a" w') as (Hc & Hm & _ & Hi).
  - apply command_outside.
  - done.
  - vm_compute. reflexivity.
  - split_and!; [done|by exists [""; "img"]|done|done].
  - split; by vm_compute.
  - by left.
  - by left.
  - unfold w'. rewrite <- demo_main_ok. apply surjective_pairing.
  - split_and!; [done|done|]. apply Hi; [done|]. by intros name args v Hv.
Defined.
