(* ===== verification/UnitTests.v ===== *)
(** The unit tests of the repository, run on the model: under the name of each
    test the same calls on a temporary directory and the same expectations,
    evaluated by the kernel. Where the definitions follow the code, what passes
    there passes here.

    The tests that are not here use a server of their own (auth_test.go and
    integration_test.go of pkg/rpc), goroutines (TestServeContextShutdown) or
    permissions (TestRunGCErrorIncrementsMetric). *)
From S2P Require Import CommandFacts PipelineFacts ShimStart.
Local Open Scope Z_scope.

(** ** The frame of a test *)

(** A temporary directory, and nothing else. *)
Definition TempDir : world :=
  World (list_to_map [([], NDir); (["t"], NDir)]) (fun _ => 0) [] ∅ 1000000000000000 ∅ ∅ [] ∅ "".

Definition dir : string := "/t".
Definition in_dir (name : string) : string := PathJoin [dir; name].

(** [t.Fatal] unless the condition holds. *)
Definition expect (b : bool) : M unit := if b then mret tt else throw (EText "unexpected").

(** The call must fail; [wants] looks at the error. *)
Definition expect_error {A} (m : M A) (wants : goerr -> bool) : M unit :=
  r ← attempt m;
  match r with inl e => expect (wants e) | inr _ => expect false end.
Definition fails {A} (m : M A) : M unit := expect_error m (fun _ => true).

Definition expect_file (path : string) : M unit := Stat path ;; mret tt.
Definition expect_bytes (path : string) (want : bytes) : M unit :=
  got ← ReadFile path; expect (bool_decide (got = want)).

Definition is_code (c : Code.t) (e : goerr) : bool :=
  match e with ECkpt c' _ => bool_decide (c = c') | _ => false end.

Definition Setenv (k v : string) : M unit := fun w =>
  (Ret tt, World (w_fs w) (w_mtime w) (w_cwd w) (<[k := v]> (w_env w)) (w_now w) (w_counters w) (w_peers w)
             (w_faults w) (w_gauges w) (w_stdout w)).

Definition counter (name : string) : M Z := gets (fun w => default 0 (w_counters w !! name)).

(** strings.Contains. *)
Definition Contains (sub s : string) : bool :=
  match String.index 0 sub s with Some _ => true | None => false end.

(** What a test gives: that it has run to its end. *)
Definition passes_in (w : world) (test : M unit) : bool :=
  match (test w).1 with Ret _ => true | _ => false end.
Definition passes : M unit -> bool := passes_in TempDir.

Ltac run_test := by vm_compute.
Definition no_hash : bytes := replicate 32 Byte.x00.
Definition text (s : string) : bytes := bytes_of_string s.

Definition writePipelineFixture (dir : string) (payload : bytes) : M unit :=
  MkdirAll dir ;;
  WriteFile (PathJoin [dir; "device.bin"]) payload ;;
  WriteManifest (PathJoin [dir; "manifest.bin"])
    [mkEntry 0x1000 (Z.of_nat (length payload)) 0 (CRC32C payload) 1 no_hash].

(** A frame of zstd, as the model needs one. *)
#[local] Existing Instance frame_zstd.
#[local] Existing Instance idle_gpu.
#[local] Existing Instance demo_events.

(** ** pkg/image *)

Module image.

Definition with_byte (b : byte) (n : nat) : bytes := b :: replicate n Byte.x00.

Example TestCompressRoundtrip : passes (
  let payload := text "cudackpt compress test payload with repetition repetition repetition" in
  WriteFile (in_dir "device.bin") payload ;;
  WriteManifest (in_dir "manifest.bin")
    [mkEntry 1 (Z.of_nat (length payload)) 0 (CRC32C payload) 1 no_hash] ;;
  CompressDevice dir ;;
  expect_file (in_dir "device.zst") ;;
  DecompressDevice dir ;;
  expect_bytes (in_dir "device.bin") payload) = true.
Proof. run_test. Qed.

Example TestEnsureDeviceMissing : passes (fails (EnsureDeviceMaterialized 8 dir)) = true.
Proof. run_test. Qed.

Example TestReadManifestInvalidMagic : passes (
  WriteFile (in_dir "manifest.bin") (replicate 4 Byte.x00) ;;
  fails (ReadManifest (in_dir "manifest.bin"))) = true.
Proof. run_test. Qed.

Example TestFinalizeRemovesStagingOnError : passes (
  fails (WriteStaging (in_dir "ckpt") (fun _ => throw (EText "invalid argument"))) ;;
  expect_error (Stat (StageDir (in_dir "ckpt"))) (fun e => bool_decide (e = EPath "stat" "/t/ckpt.staging" ENOENT))) = true.
Proof. run_test. Qed.

Example TestFinalizeStaging : passes (
  WriteStaging (in_dir "ckpt-1") (fun staging => WriteFile (PathJoin [staging; "probe"]) (text "ok")) ;;
  ok ← IsComplete (in_dir "ckpt-1"); expect ok ;;
  expect_bytes (in_dir "ckpt-1/probe") (text "ok")) = true.
Proof. run_test. Qed.

Definition with_parent (parent child : bytes) (then_ : M unit) : M unit :=
  writePipelineFixture (in_dir "parent") parent ;;
  writePipelineFixture (in_dir "child") child ;;
  then_.

Example TestDeltaAgainstParent : passes (
  with_parent (replicate 4096 Byte.x00) (with_byte Byte.xff 4095) (
    WriteDelta 8 (in_dir "child") (in_dir "parent") ;;
    ignore (Remove (in_dir "child/device.bin")) ;;
    ApplyDelta 8 (in_dir "child") ;;
    out ← ReadFile (in_dir "child/device.bin"); expect (bool_decide (head out = Some Byte.xff)))) = true.
Proof. run_test. Qed.

Example TestFlags : passes (
  let f := Z.lor FlagCompressed FlagSparse in
  expect (HasFlag f FlagCompressed && HasFlag f FlagSparse) ;; expect (negb (HasFlag f FlagDedup))) = true.
Proof. run_test. Qed.

Example TestManifestV2Roundtrip : passes (
  let hash := Byte.xab :: replicate 31 Byte.x00 in
  WriteManifestFlags (in_dir "manifest.bin") [mkEntry 0x1000 4096 0 1 1 hash] FlagCompressed VersionV2 ;;
  '(got, hdr) ← ReadManifest (in_dir "manifest.bin");
  expect (bool_decide (h_Version hdr = VersionV2 /\ h_Flags hdr = FlagCompressed)) ;;
  expect (bool_decide (e_ContentHash <$> got = [hash]))) = true.
Proof. run_test. Qed.

Example TestManifestRoundtrip : passes (
  WriteManifest (in_dir "manifest.bin")
    [mkEntry 0x1000 4096 0 0xdeadbeef 1 no_hash; mkEntry 0x2000 8192 4096 0xcafebabe 2 no_hash] ;;
  '(got, hdr) ← ReadManifest (in_dir "manifest.bin");
  expect (bool_decide (hdr = mkHeader Magic VersionV2 0 2 12288)) ;;
  expect (bool_decide (e_Seq <$> got = [1; 2] /\ e_Ptr <$> got = [0x1000; 0x2000]))) = true.
Proof. run_test. Qed.

Example TestCRC32CAndVerify : passes (
  let data := text "cudackpt chunk payload" in
  expect (negb (bool_decide (CRC32C data = 0))) ;;
  WriteFile (in_dir "r") data ;;
  r ← Open (in_dir "r");
  ok ← VerifyChunk r 0 (Z.of_nat (length data)) (CRC32C data); expect ok ;;
  ok ← VerifyChunk r 0 (Z.of_nat (length data)) (Z.lxor (CRC32C data) 1); expect (negb ok)) = true.
Proof. run_test. Qed.

Example TestVerifyChunkFile : passes (
  let payload := byte_of_Z <$> [1; 2; 3; 4; 5; 6; 7; 8] in
  WriteFile (in_dir "device.bin") payload ;;
  f ← Open (in_dir "device.bin");
  ok ← VerifyChunk f 0 8 (CRC32C payload); expect ok) = true.
Proof. run_test. Qed.

Example TestEnsureDeviceMaterializedFromCompressed : passes (
  let payload := [Byte.xde; Byte.xad; Byte.xbe; Byte.xef] in
  writePipelineFixture dir payload ;;
  CompressDevice dir ;;
  Remove (in_dir "device.bin") ;;
  EnsureDeviceMaterialized 8 dir ;;
  expect_bytes (in_dir "device.bin") payload) = true.
Proof. run_test. Qed.

Example TestEnsureDeviceMaterializedFromDelta : passes (
  with_parent (replicate 4096 Byte.x00) (with_byte Byte.x42 4095) (
    WriteDelta 8 (in_dir "child") (in_dir "parent") ;;
    ignore (Remove (in_dir "child/device.bin")) ;;
    EnsureDeviceMaterialized 8 (in_dir "child") ;;
    expect_bytes (in_dir "child/device.bin") (with_byte Byte.x42 4095))) = true.
Proof. run_test. Qed.

Example TestMetaRoundtrip : passes (
  let m := mkMeta 0 0 1 42 0 "/lib/libcudackpt.so" "0" in
  WriteMeta (in_dir "meta.bin") m ;;
  out ← ReadMeta (in_dir "meta.bin");
  expect (bool_decide (m_Pid out = m_Pid m /\ m_Dev out = m_Dev m /\ m_Preload out = m_Preload m /\ m_Visible out = m_Visible m))) = true.
Proof. run_test. Qed.

Example TestReadDev : passes (
  WriteFile (in_dir "dev.bin") [Byte.x01; Byte.x00; Byte.x00; Byte.x00] ;;
  d ← ReadDev (in_dir "dev.bin"); expect (bool_decide (d = 1))) = true.
Proof. run_test. Qed.

Example TestProcessImageSparseThenCompress : passes (
  writePipelineFixture dir (replicate 4096 Byte.x00) ;;
  ProcessImage 8 dir (mkOpts true true false "") ;;
  expect_file (in_dir "device.zst")) = true.
Proof. run_test. Qed.

Example TestProcessImageDedupOnly : passes (
  writePipelineFixture dir [Byte.x09; Byte.x08; Byte.x07; Byte.x06] ;;
  ProcessImage 8 dir (mkOpts false false true "") ;;
  expect_file (in_dir "cas")) = true.
Proof. run_test. Qed.

Example TestProcessImageDeltaRequiresParent : passes (
  with_parent (replicate 4096 Byte.x00) (replicate 4096 Byte.x00 ++ [Byte.xff]) (
    ProcessImage 8 (in_dir "child") (mkOpts false false false (in_dir "parent")) ;;
    expect_file (in_dir "child/delta.bin"))) = true.
Proof. run_test. Qed.

Example TestOptsFromEnv : passes (
  Setenv "CUDACKPT_COMPRESS" "1" ;; Setenv "CUDACKPT_SPARSE" "1" ;;
  Setenv "CUDACKPT_DEDUP" "1" ;; Setenv "CUDACKPT_PARENT_IMAGE" "/tmp/parent" ;;
  opts ← OptsFromEnv;
  expect (Compress opts && Sparse opts && Dedup opts && bool_decide (Parent opts = "/tmp/parent"))) = true.
Proof. run_test. Qed.

Example TestSparseZeroRun : passes (
  let zeros := replicate 8192 Byte.x00 in
  WriteFile (in_dir "device.bin") zeros ;;
  WriteManifest (in_dir "manifest.bin") [mkEntry 0x1000 8192 0 (CRC32C zeros) 1 no_hash] ;;
  ApplySparse dir ;;
  '(_, hdr) ← ReadManifest (in_dir "manifest.bin"); expect (HasFlag (h_Flags hdr) FlagSparse) ;;
  runs ← ReadSparse (in_dir "sparse.bin"); expect (bool_decide (length runs = 1%nat))) = true.
Proof. run_test. Qed.

Example TestDedupDevice : passes (
  let a := text "duplicate-chunk-data-------------" in
  let n := Z.of_nat (length a) in
  WriteFile (in_dir "device.bin") (a ++ a) ;;
  WriteManifest (in_dir "manifest.bin") [mkEntry 1 n 0 (CRC32C a) 1 no_hash; mkEntry 2 n n (CRC32C a) 2 no_hash] ;;
  DedupDevice dir ;;
  '(entries, hdr) ← ReadManifest (in_dir "manifest.bin"); expect (HasFlag (h_Flags hdr) FlagDedup) ;;
  match entries with
  | [e0; e1] =>
      expect (bool_decide (e_ContentHash e0 = e_ContentHash e1)) ;;
      cas ← NewCAS dir;
      has ← Has cas (e_ContentHash e0); expect has
  | _ => expect false
  end ;;
  EnsureDeviceMaterialized 8 dir) = true.
Proof. run_test. Qed.
End image.

(** ** pkg/storage *)

Module storage.

Example TestCASPutGet : passes (
  c ← NewCAS dir;
  h1 ← Put c (text "chunk-bytes");
  h2 ← Put c (text "chunk-bytes"); expect (bool_decide (h1 = h2)) ;;
  got ← Get c h1; expect (bool_decide (got = text "chunk-bytes"))) = true.
Proof. run_test. Qed.

Example TestTierSpillAndPaths : passes (
  tier ← New dir;
  n ← Spill tier "probe.bin" (text "tier"); expect (bool_decide (n = 4)) ;;
  expect (bool_decide (ManifestPath tier = in_dir "manifest.bin" /\ Storage.DevicePath tier = in_dir "device.bin")) ;;
  data ← MmapRead tier "probe.bin"; expect (bool_decide (data = text "tier"))) = true.
Proof. run_test. Qed.
End storage.

(** ** pkg/rpc *)

Module rpc.

Example TestServeMockWithAuth : passes (
  ServeMockWithOptions (in_dir "auth.sock") (mkMockOptions "mock-secret" 0 []) ;;
  Setenv "CUDACKPT_RPC_SECRET" "mock-secret" ;;
  cli ← DialPath (in_dir "auth.sock");
  Client.Ping cli ;; mret tt) = true.
Proof. run_test. Qed.

Example TestServeMockRejectsBadAuth : passes (
  ServeMockWithOptions (in_dir "bad.sock") (mkMockOptions "good" 0 []) ;;
  Setenv "CUDACKPT_RPC_SECRET" "bad" ;;
  fails (DialPath (in_dir "bad.sock"))) = true.
Proof. run_test. Qed.

(** The connection is used again after an error: the answers have been read. *)
Example TestServeMockFailFreezeUntil : passes (
  ServeMockWithOptions (in_dir "freeze.sock") (mkMockOptions "" 2 []) ;;
  cli ← DialPath (in_dir "freeze.sock");
  '(rc, cli) ← Client.call cli OpFreeze ""; expect (negb (bool_decide (rc = 0))) ;;
  '(rc, cli) ← Client.call cli OpFreeze ""; expect (negb (bool_decide (rc = 0))) ;;
  Client.Freeze cli ;; mret tt) = true.
Proof. run_test. Qed.

Example TestWriteReadU32 : be_dec (be_enc 4 0x01020304) = 0x01020304.
Proof. run_test. Qed.

Example TestOpConstants : (OpPing, OpResume, OpAuth) = (1, 6, 9) /\ be_dec (be_enc 4 OpSnapshot) = OpSnapshot.
Proof. run_test. Qed.
End rpc.

(** ** pkg/config *)

Module config.

(** The durations the tests write. *)
#[local] Instance durations : ParseDur := fun s => if decide (s = "2s") then Some 2000000000 else None.

Definition conf (body : list string) : M unit :=
  WriteFile (in_dir "cudackpt.conf") (concat ((fun l => text l ++ [Byte.x0a]) <$> body)) ;;
  Setenv "CUDACKPT_CONFIG" (in_dir "cudackpt.conf").

Example TestDefault : passes (
  c ← Config.Default;
  expect (negb (bool_decide (ImageRoot c = "")) && negb (bool_decide (RunDir c = "")) && bool_decide (0 < MaxRetries c))) = true.
Proof. run_test. Qed.

Example TestLoadRpcSecretFromFile : passes (
  conf ["rpc_secret=file-secret"] ;;
  cfg ← Load; expect (bool_decide (RpcSecret cfg = "file-secret")) ;;
  Setenv "CUDACKPT_RPC_SECRET" "env-secret" ;;
  cfg ← Load; expect (bool_decide (RpcSecret cfg = "env-secret"))) = true.
Proof. run_test. Qed.

Example TestLoadFileAndEnvOverride : passes (
  conf ["image_root=/data/images"; "run_dir=/run/test"; "max_retries=5"; "retry_backoff=2s"] ;;
  Setenv "CUDACKPT_IMAGE_ROOT" "/override" ;;
  cfg ← Load;
  expect (bool_decide (ImageRoot cfg = "/override")) ;;
  expect (bool_decide (RunDir cfg = "/run/test" /\ MaxRetries cfg = 5 /\ RetryBackoff cfg = 2000000000))) = true.
Proof. run_test. Qed.

Example TestLoadWithWarningsUnknownKey : passes (
  conf ["image-root=/bad"; "restore_timeout=not-a-duration"] ;;
  r ← LoadWithWarnings;
  expect (bool_decide (2 <= length (res_Warnings r))%nat) ;;
  expect (existsb (Contains "unknown config key") (res_Warnings r))) = true.
Proof. run_test. Qed.
End config.

(** ** pkg/control *)

Module control.

Definition writeTestImage (dir : string) : M unit :=
  MkdirAll (PathJoin [dir; "criu"]) ;;
  WriteFile (PathJoin [dir; "COMPLETE"]) [Byte.x31; Byte.x0a] ;;
  WriteFile (PathJoin [dir; "dev.bin"]) (replicate 4 Byte.x00) ;;
  WriteMeta (PathJoin [dir; "meta.bin"]) (mkMeta 0 0 0 1 0 "/usr/lib/libcudackpt.so" "") ;;
  writePipelineFixture dir [Byte.x01; Byte.x02; Byte.x03; Byte.x04].

Definition invalid : goerr -> bool := is_code Code.Invalid.

(** *** drift_test.go, failure_test.go, validate_test.go *)

Example TestCompareImagesNoDrift : passes (
  forM_ [in_dir "a"; in_dir "b"] (fun d =>
    writePipelineFixture d [Byte.x01; Byte.x02; Byte.x03; Byte.x04] ;;
    WriteMeta (PathJoin [d; "meta.bin"]) (mkMeta 0 0 0 1 0 "/lib/x.so" "")) ;;
  rep ← CompareImages (in_dir "a") (in_dir "b");
  expect (bool_decide (r_Manifest rep ++ r_MetaDrift rep ++ r_FlagDrift rep = []))) = true.
Proof. run_test. Qed.

Example TestPreflightMissingComplete : passes (expect_error (PreflightRestore dir) invalid) = true.
Proof. run_test. Qed.

Example TestPreflightRestore : passes (fails (PreflightRestore dir)) = true.
Proof. run_test. Qed.

Example TestPreflightBadManifest : passes (
  WriteFile (in_dir "COMPLETE") [Byte.x31; Byte.x0a] ;;
  WriteFile (in_dir "meta.bin") (text "bad") ;; WriteFile (in_dir "manifest.bin") (text "bad") ;;
  MkdirAll (in_dir "criu") ;;
  fails (PreflightRestore dir)) = true.
Proof. run_test. Qed.

Example TestPreflightMissingCRIU : passes (
  WriteFile (in_dir "COMPLETE") [Byte.x31; Byte.x0a] ;; fails (PreflightRestore dir)) = true.
Proof. run_test. Qed.

Example TestValidateImageOK : passes (writeTestImage dir ;; ValidateImage 8 dir) = true.
Proof. run_test. Qed.

Example TestValidateImageMissingDevBin : passes (
  writeTestImage dir ;; Remove (in_dir "dev.bin") ;; expect_error (ValidateImage 8 dir) invalid) = true.
Proof. run_test. Qed.

Example TestValidateImageNotFinalized : passes (
  writeTestImage dir ;; Remove (in_dir "COMPLETE") ;; fails (ValidateImage 8 dir)) = true.
Proof. run_test. Qed.

Example TestValidateImageMissingPreload : passes (
  writeTestImage dir ;; WriteMeta (in_dir "meta.bin") (mkMeta 0 0 0 1 0 "" "") ;; fails (ValidateImage 8 dir)) = true.
Proof. run_test. Qed.

(** *** restore_test.go, restore_events_test.go, orchestrator_test.go *)

Example TestRestorePollDelay :
  restorePollDelay 1 100000000 = 100000000 /\ restorePollDelay 2 100000000 = 200000000 /\
  restorePollDelay 10 100000000 = maxRestoreBackoff.
Proof. run_test. Qed.

Definition expect_pid (m : M Z) (want : Z) : M unit := got ← m; expect (bool_decide (got = want)).

Example TestReadRestoredPID : passes (
  expect_pid (readRestoredPID dir) 0 ;; writeRestoreHandoff dir 12345 ;; expect_pid (readRestoredPID dir) 12345) = true.
Proof. run_test. Qed.

Example TestResolveRestorePID : passes (
  writeRestoreHandoff dir 99 ;;
  expect_pid (resolveRestorePID dir 42 [1; 2]) 42 ;;
  expect_pid (resolveRestorePID dir 0 []) 99 ;;
  expect_pid (resolveRestorePID (in_dir "shims") 0 [55; 66]) 55) = true.
Proof. run_test. Qed.

(** The fields of an event are numbers and texts here, where the test has a boolean. *)
Example TestAppendRestorePhaseEvent : passes (
  appendRestorePhaseEvent dir "preflight" 0 {["ok" := AnyStr "true"]} ;;
  appendRestorePhaseEvent dir "criu" 42 ∅ ;;
  b ← ReadFile (in_dir restoreEventsName);
  expect (bool_decide (length (filter (.= Byte.x0a) b) = 2%nat))) = true.
Proof. run_test. Qed.

Example TestRecordRestorePID : passes (
  recordRestorePID dir 1234 ;; expect_pid (readRestoredPID dir) 1234 ;; expect_file (in_dir restoreEventsName)) = true.
Proof. run_test. Qed.

Example TestRestoreCandidates :
  (restoreCandidates 42 [10; 42; 7], restoreCandidates 0 [3; 1], restoreCandidates 5 [5],
   restoreCandidates 9 [], restoreCandidates 100 [100]) = ([42; 10; 7], [3; 1], [5], [9], [100]).
Proof. run_test. Qed.

Example TestSortedShimsOrder : passes (
  forM_ ["300.sock"; "100.sock"; "200.sock"] (fun name => Create (in_dir name) ;; mret tt) ;;
  got ← sortedShims dir; expect (bool_decide (got = [100; 200; 300]))) = true.
Proof. run_test. Qed.

(** *** queue_test.go: the attempts are counted in the world. *)

Definition attempts (f : Z -> M unit) : Z -> M unit := fun n => Default_Inc "attempts" ;; f n.

Example TestApplyRetrySucceedsAfterFailures : passes (
  applyRetry (mkRetryPolicy 3 1000000)
    (attempts (fun _ => n ← counter "attempts"; if decide (n < 3) then throw (EText "transient") else mret tt))
    (fun _ => false) ;;
  expect_pid (counter "attempts") 3) = true.
Proof. run_test. Qed.

Example TestApplyRetryStopsOnUnsupported : passes (
  fails (applyRetry (mkRetryPolicy 5 1000000)
    (attempts (fun _ => throw (Ckpterr.E Code.Unsupported "multi-gpu"))) (is_code Code.Unsupported)) ;;
  expect_pid (counter "attempts") 1) = true.
Proof. run_test. Qed.

Example TestApplyRetryExhaustsAttempts : passes (
  fails (applyRetry (mkRetryPolicy 2 1000000) (attempts (fun _ => throw (EText "fail"))) (fun _ => false)) ;;
  expect_pid (counter "attempts") 2) = true.
Proof. run_test. Qed.

(** *** retention_test.go *)

Definition now : Z := 1000000000000000.
Definition hours (n : Z) : Z := n * 3600000000000.

Example TestPlanImageGCRemovesStaging : passes (
  MkdirAll (in_dir "ckpt-1.staging") ;;
  plan ← PlanImageGC (mkGCOptions dir 0 "" (Some now));
  expect (bool_decide (plan_Remove plan = [in_dir "ckpt-1.staging"]))) = true.
Proof. run_test. Qed.

Example TestPlanImageGCSkipsIncomplete : passes (
  MkdirAll (in_dir "ckpt-2") ;;
  plan ← PlanImageGC (mkGCOptions dir (hours 1) "" (Some now)); expect (bool_decide (plan_Remove plan = []))) = true.
Proof. run_test. Qed.

(** The image is two days old: the clock is ahead of its time. *)
Example TestPlanImageGCAgeAndPin : passes (
  let old := in_dir "ckpt-old" in
  MkdirAll old ;; WriteFile (in_dir "ckpt-old/COMPLETE") [Byte.x31; Byte.x0a] ;;
  WriteFile (in_dir "pins.txt") (text old ++ [Byte.x0a]) ;;
  plan ← PlanImageGC (mkGCOptions dir (hours 24) (in_dir "pins.txt") (Some (hours 48)));
  expect (bool_decide (plan_Remove plan = [])) ;;
  WriteFile (in_dir "pins.txt") (text "# empty" ++ [Byte.x0a]) ;;
  plan ← PlanImageGC (mkGCOptions dir (hours 24) "" (Some (hours 48)));
  expect (bool_decide (length (plan_Remove plan) = 1%nat))) = true.
Proof. run_test. Qed.

Example TestApplyGCPlanDryRun : passes (
  let target := in_dir "ckpt-x.staging" in
  MkdirAll target ;;
  '(removed, err) ← ApplyGCPlan (mkGCPlan [target] []) true;
  expect (bool_decide (err = None /\ length removed = 1%nat)) ;;
  expect_file target) = true.
Proof. run_test. Qed.

Example TestIsCompleteUsed : passes (
  ok ← IsComplete dir; expect (negb ok) ;;
  WriteFile (in_dir "COMPLETE") [Byte.x31; Byte.x0a] ;;
  ok ← IsComplete dir; expect ok) = true.
Proof. run_test. Qed.

(** *** promote_test.go *)

Example TestPromoteCopiesAndPins : passes (
  writeTestImage (in_dir "src") ;;
  let opts := mkPromote (in_dir "src") (in_dir "dest") (in_dir "pins.txt") in
  Promote 8 8 opts ;;
  ok ← IsComplete (in_dir "dest"); expect ok ;;
  pinned ← LoadPinnedPaths (in_dir "pins.txt"); expect (bool_decide (in_dir "dest" ∈ pinned)) ;;
  Promote 8 8 opts ;;
  lines ← ReadFile (in_dir "pins.txt"); expect (negb (bool_decide (lines = [])))) = true.
Proof. run_test. Qed.

Example TestAppendPinnedPathDedupes : passes (
  appendPinnedPath (in_dir "pins.txt") (in_dir "ckpt-1") ;;
  appendPinnedPath (in_dir "pins.txt") (in_dir "ckpt-1") ;;
  expect_bytes (in_dir "pins.txt") (text (in_dir "ckpt-1") ++ [Byte.x0a])) = true.
Proof. run_test. Qed.

(** *** orchestrator_integration_test.go, rollback_test.go *)

Definition run_dir : string := in_dir "run".
Definition cfg (secret : string) : Config := mkConfig (in_dir "images") run_dir secret 3000000000 500000000 3 20000000.
Definition sock (pid : Z) : string := PathJoin [run_dir; Itoa pid +:+ ".sock"].
Definition Fake (pid : Z) : Backend := Fake.backend (Fake.mkFake pid None None).
Definition Refusing : Backend := Fake.backend (Fake.mkFake 0 None (Some (EText "permission denied"))).

Definition Restore (b : Backend) : string -> M Z := Orchestrator.Restore (H1:=b) (cfg "") 8 100.
Definition Checkpoint (pid : Z) (out : string) (attempts : Z) : M unit :=
  Orchestrator.CheckpointWithRetry (H1:=Fake 0) (cfg "") 8 pid out (mkRetryPolicy attempts 5000000).
Definition Rollback (b : Backend) : string -> Z -> M Z :=
  Orchestrator.Rollback (H1:=b) (cfg "") 8 (H3:=no_processes) 100.

(** A counter is so much more after the call. *)
Definition counted (name : string) (by_ : Z) (m : M unit) : M unit :=
  before ← counter name; m ;; after ← counter name; expect (bool_decide (after - before = by_)).

Example TestRestoreHermeticWithFakeCRIU : passes (
  MkdirAll run_dir ;; writeTestImage (in_dir "image") ;;
  ServeMockAt (sock 9001) ;;
  counted RestoresTotal 1 (counted RestoreFailuresTotal 0 (
    expect_pid (Restore (Fake 9001) (in_dir "image")) 9001 ;;
    expect_pid (readRestoredPID (in_dir "image")) 9001 ;;
    events ← ReadFile (PathJoin [in_dir "image"; restoreEventsName]); expect (negb (bool_decide (events = [])))))) = true.
Proof. run_test. Qed.

Example TestCheckpointWithRetryHermetic : passes (
  MkdirAll run_dir ;;
  ServeMockWithOptions (sock 7001) (mkMockOptions "" 2 []) ;;
  Setenv "LD_PRELOAD" "/usr/lib/libcudackpt.so" ;;
  counted CheckpointsTotal 1 (counted CheckpointFailures 0 (
    Checkpoint 7001 (in_dir "ckpt") 3 ;;
    ok ← IsComplete (in_dir "ckpt"); expect ok))) = true.
Proof. run_test. Qed.

Example TestCheckpointWithRetryExhaustionMetrics : passes (
  MkdirAll run_dir ;;
  ServeMockWithOptions (sock 7050) (mkMockOptions "" 100 []) ;;
  counted CheckpointsTotal 0 (counted CheckpointFailures 1 (fails (Checkpoint 7050 (in_dir "fail") 3)))) = true.
Proof. run_test. Qed.

Example TestRestoreFailureMetrics : passes (
  writeTestImage (in_dir "image") ;;
  counted RestoresTotal 0 (counted RestoreFailuresTotal 1 (fails (Restore Refusing (in_dir "image"))))) = true.
Proof. run_test. Qed.

Example TestRestoreHermeticFakeCRIUError : passes (
  writeTestImage (in_dir "image") ;; fails (Restore Refusing (in_dir "image"))) = true.
Proof. run_test. Qed.

Example TestStopProcessInvalid : passes (Orchestrator.stopProcess (H3:=no_processes) 0) = true.
Proof. run_test. Qed.

Example TestRollbackValidateOnly : passes (fails (Rollback (Fake 0) dir 0)) = true.
Proof. run_test. Qed.

(** Six tests listen in a run directory they have not made: listening fails and
    they are skipped. They are the three below, TestWatchShimTimeout,
    TestWatchShimStop, and TestPingCustomRunDir of pkg/bench. *)
Example skipped : passes (fails (ServeMockAt (sock 9200))) = true.
Proof. run_test. Qed.

(** With the directory they pass. *)
Definition with_run_dir (pid : Z) (opts : MockOptions) (m : M unit) : M unit :=
  MkdirAll run_dir ;; ServeMockWithOptions (sock pid) opts ;; m.

Example TestRestoreHermeticWithAuth : passes (
  writeTestImage (in_dir "image") ;;
  with_run_dir 9100 (mkMockOptions "restore-secret" 0 []) (
    Setenv "CUDACKPT_RPC_SECRET" "restore-secret" ;; expect_pid (Restore (Fake 9100) (in_dir "image")) 9100)) = true.
Proof. run_test. Qed.

Example TestCheckpointWithRetryAuthHermetic : passes (
  with_run_dir 7100 (mkMockOptions "ckpt-secret" 0 []) (
    Setenv "CUDACKPT_RPC_SECRET" "ckpt-secret" ;; Setenv "LD_PRELOAD" "/usr/lib/libcudackpt.so" ;;
    Checkpoint 7100 (in_dir "ckpt-auth") 1)) = true.
Proof. run_test. Qed.

Example TestRollbackHermetic : passes (
  writeTestImage (in_dir "image") ;;
  with_run_dir 9200 (mkMockOptions "" 0 []) (
    counted "cudackpt_rollbacks_total" 1 (expect_pid (Rollback (Fake 9200) (in_dir "image") 0) 9200))) = true.
Proof. run_test. Qed.

(** *** watch_test.go *)

Definition Watch (pid interval : Z) (opts : Orchestrator.WatchOptions) (stop : world -> bool) : M unit :=
  Orchestrator.WatchShimWith (cfg "") 100 pid interval opts stop.

Example TestWatchShimUntilRunning : passes (
  with_run_dir 7000 (mkMockOptions "" 0 [1; 4]) (
    Watch 7000 10000000 (Orchestrator.mkWatchOptions true 0) (fun _ => false) ;;
    out ← gets w_stdout; expect (Contains "frozen" out && Contains "running" out))) = true.
Proof. run_test. Qed.

Example TestWatchShimTimeout : passes (
  with_run_dir 8000 (mkMockOptions "" 0 [1]) (
    fails (Watch 8000 5000000 (Orchestrator.mkWatchOptions false 25000000) (fun _ => false)))) = true.
Proof. run_test. Qed.

Example TestWatchShimStop : passes (
  with_run_dir 9000 (mkMockOptions "" 0 [1]) (
    Watch 9000 10000000 (Orchestrator.mkWatchOptions false 0)
      (fun w => bool_decide (now + 30000000 <= w_now w)))) = true.
Proof. run_test. Qed.
End control.

(** ** The other packages *)

#[local] Existing Instance quiet_exec.
#[local] Existing Instance whole_floats.

Module others.

(** third_party/criu *)
Example TestFakeRestoreWritesPID : passes (
  pid ← Fake.Restore (Fake.mkFake 7777 None None) dir (in_dir "restore.log") []; expect (bool_decide (pid = 7777)) ;;
  expect_bytes (in_dir "restored.pid") (text "7777" ++ [Byte.x0a])) = true.
Proof. run_test. Qed.

(** pkg/metrics *)
Example TestWritePrometheus :
  let out := WritePrometheus (float64:=Z) Itoa [("cudackpt_checkpoints_total", 1)] [("cudackpt_images", 3)]
    ["cudackpt_checkpoints_total"] ["cudackpt_images"] in
  Contains "cudackpt_checkpoints_total 1" out && Contains "cudackpt_images 3" out &&
  Contains "# TYPE cudackpt_checkpoints_total counter" out = true.
Proof. run_test. Qed.

Example TestDefaultRegistry : passes (
  Default_Inc CheckpointsTotal ;; n ← counter CheckpointsTotal; expect (negb (bool_decide (n = 0)))) = true.
Proof. run_test. Qed.

(** pkg/report *)
Example TestRenderImage : passes (
  WriteManifest (in_dir "manifest.bin") [mkEntry 0x100 16 0 1 1 no_hash] ;;
  WriteMeta (in_dir "meta.bin") (mkMeta 0 0 0 7 0 "" "") ;;
  WriteFile (in_dir "device.bin") (replicate 16 Byte.x00) ;;
  out ← RenderImage 4096 dir;
  expect (forallb (fun needle => Contains needle out) ["manifest_version"; "source_pid"; "7"; "chunks"])) = true.
Proof. run_test. Qed.

(** pkg/health *)
Example TestProbe : passes (
  s ← Probe "linux"; expect (bool_decide (3 <= length (s_Checks s))%nat) ;; expect (negb (bool_decide (Format s = "")))) = true.
Proof. run_test. Qed.

Example TestDeepProbe : passes (
  s ← DeepProbe (fun s => s) "linux"; expect (bool_decide (7 <= length (s_Checks s))%nat)) = true.
Proof. run_test. Qed.

Example TestProbeCustomRunDir : passes (
  s ← ProbeWith "linux" (in_dir "custom-run");
  match filter (fun c => c_Name c = "run_dir") (s_Checks s) with
  | [c] => expect (c_OK c && bool_decide (c_Detail c = in_dir "custom-run"))
  | _ => expect false
  end) = true.
Proof. run_test. Qed.

(** The platform is Linux. *)
Example TestProbeCapsLinux : passes (c ← probeCaps (fun s => s); expect (bool_decide (c_Name c = "caps"))) = true.
Proof. run_test. Qed.

(** pkg/log *)
Example TestInfoJSON : passes (log_Info "test_event" (<["pid" := AnyInt 1]> {["stage" := AnyStr "freeze"]})) = true.
Proof. run_test. Qed.

(** pkg/agent *)
Definition cfg : Config := mkConfig (in_dir "images") (in_dir "run") "" 3000000000 500000000 3 20000000.

Example TestRefreshGauges : passes (
  MkdirAll (in_dir "images/ckpt-1") ;; MkdirAll (in_dir "run") ;;
  Agent.RefreshGauges cfg ;;
  n ← gets (fun w => w_gauges w !! ImagesGauge); expect (bool_decide (n = Some 1))) = true.
Proof. run_test. Qed.

Example TestOptionsFromConfig : passes (
  Setenv "CUDACKPT_METRICS_ADDR" "127.0.0.1:19190" ;; Setenv "CUDACKPT_AGENT_GC_INTERVAL" "1h" ;;
  opts ← Agent.OptionsFromConfig (H:=fun s => if decide (s = "1h") then Some 3600000000000 else None) cfg;
  expect (bool_decide (Agent.Listen opts = "127.0.0.1:19190" /\ Agent.GCInterval opts = 3600000000000))) = true.
Proof. run_test. Qed.

Definition answer (query : string) : M unit :=
  h ← Agent.healthHandler (fun s => s) "linux" cfg;
  rs ← h (mkRequest "/health" query);
  expect (bool_decide (rs_code rs = Some 200 \/ rs_code rs = Some 503)) ;;
  expect (Contains "run_dir" (rs_body rs)).

Example TestHealthHandlerDeep : passes (answer "deep=1") = true.
Proof. run_test. Qed.

Example TestHealthHandler : passes (answer "") = true.
Proof. run_test. Qed.

(** pkg/bench *)
Example TestFormatTable : Bench.FormatTable [Bench.mkResult "ping" 10 0 (float_of_int 12) 0] <> "".
Proof. by vm_compute. Qed.

(** The run directory is made here, so that the test is not skipped. *)
Example TestPingCustomRunDir : passes (
  MkdirAll (in_dir "run") ;; ServeMockAt (in_dir "run/4242.sock") ;;
  r ← Bench.Ping w_now (in_dir "run") 4242 3; expect (bool_decide (Bench.Errors r = 0))) = true.
Proof. run_test. Qed.

(** cmd/cudackpt *)
Definition printed (m : M unit) (needle : string) : M unit :=
  m ;; out ← gets w_stdout; expect (Contains needle out).

Example TestEmitBashCompletion : passes (
  printed (Command.emitCompletion "bash") "complete -F _cudackpt_completions cudackpt" ;;
  printed (mret tt) "checkpoint restore rollback") = true.
Proof. run_test. Qed.

Example TestEmitZshCompletion : passes (printed (Command.emitCompletion "zsh") "#compdef cudackpt") = true.
Proof. run_test. Qed.

Example TestEmitCompletionUnsupported : passes (fails (Command.emitCompletion "fish")) = true.
Proof. run_test. Qed.

Definition runServe (stdin : string) : M unit := Command.runServe "linux" (inr (text stdin)) cfg.

Example TestRunServePs : passes (
  MkdirAll (in_dir "run") ;; ServeMockAt (in_dir "run/4242.sock") ;;
  printed (runServe "") "4242") = true.
Proof. run_test. Qed.

Example TestRunServeHealth : passes (
  MkdirAll (in_dir "run") ;;
  printed (r ← attempt (runServe ("health" +:+ String newline ""));
           expect (match r with inl e => bool_decide (e = EText "health degraded") | inr _ => true end)) "run_dir") = true.
Proof. run_test. Qed.

Example TestRunServeUnknownCommand : passes (fails (runServe ("bogus" +:+ String newline ""))) = true.
Proof. run_test. Qed.
End others.
